(* ===== verification/_CoqProject ===== *)
-Q . S2P
Prelude.v
Effects.v
CString.v
Stubs.v
StubTheorems.v
Multiboot.v
PmmInterface.v
PagingInterface.v
Pmm.v
PmmInit.v
Paging.v
PageTable.v
PagingProofs.v
WalkProofs.v
FreeSpace.v
PagingInit.v
PagingSpec.v
PagingTheorems.v
KernelWindow.v
Heap.v
HeapInv.v
HeapProofs.v
HeapAlloc.v
HeapFree.v
HeapBacking.v
HeapSpec.v
HeapTheorems.v
KernelMem.v
Gdt.v
Task.v
TaskInv.v
TaskSwitch.v
TaskSched.v
TaskCreate.v
Syscall.v
TaskSystem.v
TaskTheorems.v
TaskExamples.v
SyscallTheorems.v
Ports.v
Serial.v
Vga.v
Terminal.v
Log.v
Keyboard.v
Isr.v
Interrupts.v
InterruptExamples.v
TimerWait.v
Idt.v
IdtBoot.v
Elf.v
UserMap.v
Accounts.v
ElfProofs.v
ElfTheorems.v
Boot.v
BootTheorems.v
Kernel.v
Echo.v
Threads.v
ElfExamples.v
UserProcess.v
AddressSpace.v
KernelExamples.v
KernelBoot.v
