(* ===== verification/Prelude.v ===== *)
(** * Prism kernel: verification development

    Prism is a small x86-64 kernel (src/src/): GRUB loads it, boot.s takes the
    CPU to 64-bit mode, [kernel_main] initialises the components one after the
    other, creates two kernel threads and one ring 3 process, and echoes the
    keyboard.  This library is a shallow embedding of its C files and of its
    assembly files, component by component, with the theorems that make each
    component correct, the theorems about their composition, and the places
    where the code does not do what it means to do.

    ** Conventions

    Machine integers are [Z]; every operation that can wrap around says so
    ([wrap], [⊞], [⊟], [⊠] below).  Memory is a finite map from addresses to
    64-bit words (page tables, heap, stacks), words of the bitmap, or bytes
    (strings).  A routine that prints, faults or loops is in the monad
    [Effects.M]: it ends in [Done value state calls], or in [Stop fault calls]
    for a page fault, a division by zero, an access outside an array, a loop
    that does not end or the CPU halted.  The [calls] are the calls of the
    console functions (kprint, serial_puts, klog, ...) the routine made, in
    order; [Log.perform] gives them the meaning of the drivers.
    A [while] loop runs at most 2^64 rounds ([mwhile 64]), evaluated by
    doubling: its variables are 64-bit counters or addresses of a list's
    nodes, or it polls a device, so more rounds can only be an endless loop,
    which the model reports as [Diverges].  The walk of the multiboot tags has
    a 32-bit offset ([iterate 32]); [kmalloc] calls itself only after it has
    grown the heap ([mwhile 32], and there are at most 2^20 frames).  A [for]
    loop with a fixed bound is [for_range] or [mfor].  Theorems never assume
    that a loop ends: they state [Done], or [Diverges].

    ** Files

    - Prelude.v, Effects.v: words, bits, arithmetic tactics, loops over a pure
      state; the monad, its loop rules and tactics.
    - CString.v (string.h): the memory and string functions on the bytes the
      caller can reach.
    - Stubs.v, StubTheorems.v (isr/isr_asm.s, user/usermode.s): the interrupt
      stubs, [enter_user_mode] and [syscall_entry] as lists of instructions on
      the registers and the stack; switch.s is [Task.context_switch].
    - Multiboot.v (mm/multiboot2.h): the walk over the boot information.
    - PmmInterface.v, Pmm.v, PmmInit.v (mm/pmm.c, pmm.h): the frame allocator.
      The class [FrameAlloc] with its laws [FrameAllocOk] is what paging and
      the loader are verified against; the bitmap is the instance.
    - PagingInterface.v, Paging.v (mm/paging.c, paging.h): the model.  The
      kernel reaches a page table through its window or the scratch page, as
      the MMU translates these accesses.  PageTable.v is the theory of the
      four-level walk as a tree; PagingProofs.v, WalkProofs.v, PagingInit.v
      and PagingSpec.v the proofs; PagingTheorems.v the theorems and the
      machine they are instantiated at; KernelWindow.v what ring 3 may do in
      the kernel's window; FreeSpace.v the loops of [paging_free_user_space].
    - Heap.v (mm/heap.c): the model, over the class [HeapBacking]; HeapInv.v
      (geometry, headers, list segment), HeapProofs.v, HeapAlloc.v,
      HeapFree.v (operations), HeapBacking.v (paging and the frame allocator
      as the instance), HeapSpec.v (abstract allocator and simulation),
      HeapTheorems.v.  KernelMem.v is the interface the task system sees.
    - Gdt.v (cpu/gdt.c, tss.h), Idt.v, IdtBoot.v (cpu/idt.c): descriptors and
      gates, read back as the CPU reads them.
    - Task.v (task/task.c, switch.s): task table, ready list, context
      switches on kernel stacks in memory.  TaskInv.v, TaskSwitch.v,
      TaskSched.v, TaskCreate.v: the invariant and the operations;
      TaskSystem.v: the kernel as a transition system; TaskTheorems.v,
      TaskExamples.v.
    - Syscall.v, SyscallTheorems.v (syscall/syscall.c): the dispatcher, the
      handlers, the model-specific registers.
    - Ports.v (cpu/pic.c and the port instructions), Serial.v
      (drivers/serial.h), Vga.v, Terminal.v (drivers/vga.c), Log.v
      (kernel/log.c), Keyboard.v (drivers/keyboard.c): drivers, each with the
      device or the abstract object it must behave as.
    - Isr.v (isr/isr.c, drivers/timer.c), Interrupts.v, InterruptExamples.v,
      TimerWait.v: dispatch of interrupts, the timer.
    - Elf.v (fs/elf.c), UserMap.v (the walk that builds a mapping), Accounts.v
      (where the frames go), ElfProofs.v, ElfTheorems.v, ElfExamples.v: the
      loader.
    - Boot.v, BootTheorems.v (kernel/boot.s): the way to 64-bit mode.
    - Kernel.v (kernel/kernel.c): [kernel_main] over all of the above; Echo.v,
      Threads.v, UserProcess.v, AddressSpace.v (the life of a process's address space),
      KernelExamples.v, KernelBoot.v: what the whole does.

    ** What is shown

    - Memory.  The frame allocator refines first-fit allocation of runs, and
      [pmm_init] leaves free exactly what the memory map says (or reports, or
      faults).  [paging_init] builds exactly one address space;
      [paging_map_page], [paging_unmap_page], [paging_virt_to_phys],
      [paging_create_user_space] and [user_mem_check] agree with the MMU's
      walk, with the cases in which the code's aliasing breaks them;
      [paging_free_user_space] frees exactly what the walk can reach.  heap.c
      over paging.c over pmm.c simulates an allocator of disjoint blocks.
    - Tasks.  Over every execution of creations, ticks, yields and exits the
      scheduler's invariant holds, no ready task starves, a preempted task
      resumes with its registers, a created one starts at its entry point.
      Every system call is served; the assembly entries restore what they
      should, except where they do not.
    - Devices.  Serial line and screen show what was printed; the screen is
      never accessed out of bounds; keyboard interrupts and reader form a
      bounded queue; interrupts reach their handlers and are acknowledged;
      gates and descriptors read back as meant; [timer_wait] ends in time.
    - Programs.  [elf_load] places every byte of a well-formed image; the
      first process gets its code and stack.  From creation to
      [paging_free_user_space] an address space loses no frame and leaves the
      kernel's own as it was; a load that fails costs at most one frame.
    - The whole.  boot.s reaches [kernel_main]; [kernel_main], run from
      power-on for any typist, initialises everything and echoes every key.

    ** Outside the source, as parameters

    The devices ([Ports.devices], a function of the trace of port accesses so
    far), the bytes GRUB leaves ([mem]), the addresses the linker assigns
    ([layout], [symbols], [linked]), what runs while the CPU is halted ([hlt]
    in [timer_wait] and [echo_loop]), and in Stubs.v the C functions that
    assembly calls, of which only the System V calling convention is assumed.
    The behaviour of the CPU and of the 8259A, 16550 and 8042 the theorems
    speak of is the documented one.

    ** Simplifications

    - Page tables and user frames ([Paging.pmem]), the heap and the stacks
      ([Heap.hmem]) and the bitmap are maps of their own: disjoint parts of
      RAM.  That the frames behind them are disjoint is part of the
      invariants (a frame is free, a table, or given away).
    - [Kernel.shown] performs the console calls of a routine after it.  The
      only routines of [kernel_main] that access ports themselves print last.
    - Preemption happens between operations of the running task, not between
      the instructions of kernel routines, except in Keyboard.v, where
      interrupts arrive between the accesses of the reader.
    - TLB and caches are not modelled ([invlpg] has no effect on the walk).

    ** Not modelled

    The endless halt loops (the idle task's body; after a panic the model stops
    with [Halted]); declarations without code in the headers (prototypes,
    unused constants, the tag structs of multiboot2.h that no function reads);
    Makefile, linker.ld, grub.cfg, run-qemu.sh, iso/ and build/, which hold no
    program logic. *)
From stdpp Require Export prelude list gmap strings fin_maps.
From Stdlib Require Export ZArith Lia Btauto.

#[global] Open Scope Z_scope.

(** ** Machine words

    The C integer types are modelled as [Z] with the wrap-around written out:
    [wrap w x] is the value of a [w]-bit unsigned integer after an operation
    whose mathematical result is [x]. *)
Definition wrap (w x : Z) : Z := x mod 2 ^ w.

(** [notw w x] is C's [~x] on a [w]-bit unsigned integer. *)
Definition notw (w x : Z) : Z := wrap w (Z.lnot x).

(** A value that fits the type. *)
Definition fits (w x : Z) : Prop := 0 <= x < 2 ^ w.

Declare Scope u64_scope.
Delimit Scope u64_scope with u64.
Notation "a ⊞ b" := (wrap 64 (a + b)) (at level 50, left associativity) : u64_scope.
Notation "a ⊟ b" := (wrap 64 (a - b)) (at level 50, left associativity) : u64_scope.
Notation "a ⊠ b" := (wrap 64 (a * b)) (at level 40, left associativity) : u64_scope.
#[global] Open Scope u64_scope.

(** ** Lemmas on machine words *)

Lemma wrap_small w x : fits w x -> wrap w x = x.
Proof. apply Z.mod_small. Qed.

Lemma wrap_fits w x : 0 <= w -> fits w (wrap w x).
Proof. intros Hw. apply Z.mod_pos_bound. lia. Qed.

Lemma wrap_nonneg w x : 0 <= w -> 0 <= wrap w x.
Proof. intros Hw. by apply (wrap_fits w x). Qed.

Lemma wrap_wrap w x : 0 <= w -> wrap w (wrap w x) = wrap w x.
Proof. intros Hw. by apply wrap_small, wrap_fits. Qed.

Lemma wrap_add_l w x y : wrap w (wrap w x + y) = wrap w (x + y).
Proof. apply Zplus_mod_idemp_l. Qed.

Lemma wrap_add_r w x y : wrap w (x + wrap w y) = wrap w (x + y).
Proof. apply Zplus_mod_idemp_r. Qed.

Lemma wrap_sub_l w x y : wrap w (wrap w x - y) = wrap w (x - y).
Proof. apply Zminus_mod_idemp_l. Qed.

Lemma wrap_sub_r w x y : wrap w (x - wrap w y) = wrap w (x - y).
Proof. apply Zminus_mod_idemp_r. Qed.

Lemma fits_0 w : 0 <= w -> fits w 0.
Proof. intros. split; [done|]. lia. Qed.

Lemma testbit_wrap w x i :
  0 <= w -> Z.testbit (wrap w x) i = bool_decide (i < w) && Z.testbit x i.
Proof.
  intros Hw. unfold wrap. case_bool_decide as Hi; simpl.
  - apply Z.mod_pow2_bits_low. lia.
  - apply Z.mod_pow2_bits_high. lia.
Qed.

Lemma testbit_fits w x i : fits w x -> 0 <= w <= i -> Z.testbit x i = false.
Proof.
  intros Hx Hi. rewrite <-(wrap_small w x Hx), testbit_wrap by lia.
  by rewrite bool_decide_false by lia.
Qed.

Lemma testbit_notw w x i :
  0 <= w -> 0 <= i ->
  Z.testbit (notw w x) i = bool_decide (i < w) && negb (Z.testbit x i).
Proof.
  intros Hw Hi. unfold notw. rewrite testbit_wrap by done.
  by rewrite Z.lnot_spec by done.
Qed.

Lemma testbit_one_shiftl r i :
  0 <= r -> Z.testbit (Z.shiftl 1 r) i = bool_decide (i = r).
Proof.
  intros Hr. rewrite Z.shiftl_1_l. case_bool_decide as Hi.
  - subst. by apply Z.pow2_bits_true.
  - apply Z.pow2_bits_false. done.
Qed.

Create Rewrite HintDb word_bits.
#[export] Hint Rewrite Z.land_spec Z.lor_spec Z.lxor_spec Z.testbit_0_l : word_bits.
#[export] Hint Rewrite testbit_wrap testbit_notw testbit_one_shiftl
  Z.shiftr_spec Z.shiftl_spec using lia : word_bits.

(** Bit-extensionality on non-negative indices, then boolean case analysis. *)
Ltac bitwise i :=
  apply Z.bits_inj'; intros i ?; autorewrite with word_bits.
Ltac bool_cases :=
  repeat case_bool_decide; try lia; simpl; try btauto; try done.

(** The single-bit operations of [bitmap_set], [bitmap_clear] and
    [bitmap_test], on one word. *)
Lemma word_set_fits w x r :
  fits w x -> 0 <= r < w -> fits w (Z.lor x (Z.shiftl 1 r)).
Proof.
  intros Hx Hr. rewrite <-(wrap_small w x Hx).
  assert (Z.shiftl 1 r = wrap w (Z.shiftl 1 r)) as ->.
  { symmetry. apply wrap_small. rewrite Z.shiftl_1_l. split; [lia|].
    apply Z.pow_lt_mono_r; lia. }
  replace (Z.lor _ _) with (wrap w (Z.lor x (Z.shiftl 1 r))).
  - apply wrap_fits. lia.
  - bitwise i. bool_cases.
Qed.

Lemma word_clear_fits w x y : 0 <= w -> fits w (Z.land x (notw w y)).
Proof.
  intros Hw. replace (Z.land _ _) with (wrap w (Z.land x (notw w y))).
  - by apply wrap_fits.
  - bitwise i. bool_cases.
Qed.

Lemma word_test_bit x r :
  0 <= r -> Z.land (Z.shiftr x r) 1 = Z.b2z (Z.testbit x r).
Proof.
  intros Hr. change 1 with (Z.ones 1). rewrite Z.land_ones by lia.
  rewrite Z.shiftr_div_pow2 by lia. by rewrite <-Z.testbit_spec' by lia.
Qed.

(** ** Masks

    [x & ~(2^k - 1)] rounds down to a multiple of [2^k]; the code uses it
    with [k = 12] to find a page, and in [align_up]. *)
Lemma land_mask_down w x k :
  fits w x -> 0 <= k <= w -> Z.land x (notw w (2 ^ k - 1)) = x / 2 ^ k * 2 ^ k.
Proof.
  intros Hx Hk. rewrite <-Z.shiftl_mul_pow2, <-Z.shiftr_div_pow2 by lia.
  replace (2 ^ k - 1) with (Z.ones k) by (rewrite Z.ones_equiv; lia).
  bitwise i. destruct (decide (i < k)) as [Hik|Hik].
  - rewrite Z.ones_spec_low by lia. rewrite (Z.testbit_neg_r _ (i - k)) by lia.
    simpl. btauto.
  - rewrite Z.ones_spec_high by lia. rewrite Z.shiftr_spec by lia.
    replace (i - k + k) with i by lia. simpl. case_bool_decide; [btauto|].
    rewrite (testbit_fits w x) by (done || lia). done.
Qed.

Lemma land_low x k : 0 <= k -> Z.land x (2 ^ k - 1) = x mod 2 ^ k.
Proof.
  intros Hk. replace (2 ^ k - 1) with (Z.ones k) by (rewrite Z.ones_equiv; lia).
  by rewrite Z.land_ones.
Qed.

Lemma lor_add_disjoint x y : Z.land x y = 0 -> Z.lor x y = x + y.
Proof.
  intros H. pose proof (Z.add_lor_land x y). lia.
Qed.

(** A multiple of [2^k] or-ed with a value below [2^k]. *)
Lemma lor_page x y k :
  0 <= k -> 0 <= y < 2 ^ k -> Z.lor (x * 2 ^ k) y = x * 2 ^ k + y.
Proof.
  intros Hk Hy. apply lor_add_disjoint.
  rewrite <-Z.shiftl_mul_pow2 by lia. bitwise i.
  destruct (decide (i < k)) as [Hik|Hik].
  - by rewrite (Z.testbit_neg_r _ (i - k)) by lia.
  - rewrite (testbit_fits k y) by (done || lia). btauto.
Qed.

(** ** Control flow

    The body of a loop either falls through to the next iteration or leaves
    the loop with a value ([break] and [return]). *)
Inductive flow (S R : Type) : Type :=
  | Next (s : S)
  | Leave (r : R).
Arguments Next {S R} s.
Arguments Leave {S R} r.

(** The state after a loop whose only exit is [break]. *)
Definition after_break {S} (x : flow S S) : S :=
  match x with Next s => s | Leave s => s end.

Section loops.
Context {S R : Type}.
Implicit Types (body : Z -> S -> flow S R) (s : S) (r : R).

Fixpoint for_loop (n : nat) (i : Z) body s : flow S R :=
  match n with
  | O => Next s
  | Datatypes.S n' =>
      match body i s with
      | Next s' => for_loop n' (i + 1) body s'
      | Leave r => Leave r
      end
  end.

(** [for (i = a; i < b; i++) body]: the counter runs over [a, b), which is
    empty when [b <= a]. *)
Definition for_range (a b : Z) body s : flow S R :=
  for_loop (Z.to_nat (b - a)) a body s.

Lemma for_range_empty a b body s : b <= a -> for_range a b body s = Next s.
Proof. intros H. unfold for_range. by rewrite Z2Nat.nonpos by lia. Qed.

Lemma for_range_step a b body s :
  a < b ->
  for_range a b body s =
    match body a s with
    | Next s' => for_range (a + 1) b body s'
    | Leave r => Leave r
    end.
Proof.
  intros H. unfold for_range.
  replace (Z.to_nat (b - a)) with (Datatypes.S (Z.to_nat (b - (a + 1)))) by lia.
  done.
Qed.

(** The loop rule: [I i s] holds before iteration [i], [Q] of every value
    the loop is left with. *)
Lemma for_range_rule (I : Z -> S -> Prop) (Q : R -> Prop) a b body s :
  a <= b -> I a s ->
  (forall i s, a <= i < b -> I i s ->
     match body i s with Next s' => I (i + 1) s' | Leave r => Q r end) ->
  match for_range a b body s with Next s' => I b s' | Leave r => Q r end.
Proof.
  intros Hab. remember (Z.to_nat (b - a)) as n eqn:Hn.
  revert a s Hab Hn. induction n as [|n IH]; intros a s Hab Hn HI Hbody.
  - rewrite for_range_empty by lia. by replace b with a by lia.
  - rewrite for_range_step by lia.
    pose proof (Hbody a s ltac:(lia) HI) as Hb.
    destruct (body a s) as [s'|r]; [|done].
    apply IH; [lia..|done|]. intros i s'' Hi. apply Hbody. lia.
Qed.

(** A search: the body leaves at the first index where [found] answers and
    otherwise keeps the state. *)
Lemma for_range_search (found : Z -> option R) a b body s :
  a <= b ->
  (forall i, a <= i < b ->
     body i s = match found i with Some r => Leave r | None => Next s end) ->
  (exists i r, a <= i < b /\ found i = Some r /\
     (forall j, a <= j < i -> found j = None) /\ for_range a b body s = Leave r) \/
  ((forall j, a <= j < b -> found j = None) /\ for_range a b body s = Next s).
Proof.
  intros Hab. remember (Z.to_nat (b - a)) as n eqn:Hn.
  revert a Hab Hn. induction n as [|n IH]; intros a Hab Hn Hbody.
  - right. rewrite for_range_empty by lia. split; [lia|done].
  - rewrite for_range_step by lia. rewrite (Hbody a) by lia.
    destruct (found a) as [r|] eqn:Hfa.
    + left. exists a, r. split_and!; [lia..|done| |done]. intros j Hj. lia.
    + destruct (IH (a + 1)) as [(i & r & Hi & Hfi & Hall & Hl)|[Hall Hl]];
        [lia..|intros i Hi; apply Hbody; lia| |].
      * left. exists i, r. split_and!; [lia..|done| |done]. intros j Hj.
        destruct (decide (j = a)) as [->|]; [done|]. apply Hall. lia.
      * right. split; [|done]. intros j Hj.
        destruct (decide (j = a)) as [->|]; [done|]. apply Hall. lia.
Qed.

(** A loop that never leaves early, as a total function. *)
Lemma for_range_next (f : Z -> S -> S) a b s :
  exists s', for_range a b (fun i s => Next (f i s)) s = Next (R := R) s'.
Proof.
  unfold for_range. generalize (Z.to_nat (b - a)). intros n. revert a s.
  induction n as [|n IH]; intros a s; simpl; eauto.
Qed.
End loops.

(** The loop rule for a loop whose only exit is [break]. *)
Lemma for_break_rule {S} (I : Z -> S -> Prop) (Q : S -> Prop) a b
    (body : Z -> S -> flow S S) s :
  a <= b -> I a s ->
  (forall i s, a <= i < b -> I i s ->
     match body i s with Next s' => I (i + 1) s' | Leave s' => Q s' end) ->
  (forall s, I b s -> Q s) ->
  Q (after_break (for_range a b body s)).
Proof.
  intros Hab Hs Hbody Hend.
  pose proof (for_range_rule I Q a b body s Hab Hs Hbody) as Hr.
  destruct (for_range a b body s); simpl; auto.
Qed.

(** The rule for a loop without early exit. *)
Lemma for_next_rule {S} (I : Z -> S -> Prop) a b (f : Z -> S -> S) s :
  a <= b -> I a s ->
  (forall i s, a <= i < b -> I i s -> I (i + 1) (f i s)) ->
  I b (after_break (for_range a b (fun i s => Next (f i s)) s)).
Proof. intros Hab Hs Hbody. by apply (for_break_rule I (I b)). Qed.

(** [while (c) body] where the number of iterations is not known beforehand
    (walks along pointers): [iterate k body s] runs [body] at most [2 ^ k]
    times, and is [Next] only when none of those runs left the loop. *)
Section while.
Context {S R : Type}.
Implicit Types (body : S -> flow S R).

Fixpoint iterate (k : nat) body (s : S) : flow S R :=
  match k with
  | O => body s
  | Datatypes.S k' =>
      match iterate k' body s with
      | Next s' => iterate k' body s'
      | Leave r => Leave r
      end
  end.

(** Total correctness: an invariant with a measure that every iteration
    decreases, and enough fuel for the measure. *)
Lemma iterate_rule (I : S -> Prop) (m : S -> Z) (Q : R -> Prop) body :
  (forall s, I s ->
     match body s with Next s' => I s' /\ 0 <= m s' < m s | Leave r => Q r end) ->
  forall k s, I s ->
    match iterate k body s with
    | Next s' => I s' /\ 0 <= m s' <= m s - 2 ^ Z.of_nat k
    | Leave r => Q r
    end.
Proof.
  intros Hbody. induction k as [|k IH]; intros s HI.
  - simpl. pose proof (Hbody s HI) as Hb.
    destruct (body s); [|done]. destruct Hb. split; [done|lia].
  - simpl iterate. pose proof (IH s HI) as Hs.
    destruct (iterate k body s) as [s'|r]; [|done].
    destruct Hs as [HI' Hm']. pose proof (IH s' HI') as Hs'.
    destruct (iterate k body s') as [s''|r]; [|done].
    destruct Hs' as [? Hm'']. split; [done|].
    rewrite Nat2Z.inj_succ, Z.pow_succ_r by lia. lia.
Qed.

Lemma iterate_total (I : S -> Prop) (m : S -> Z) (Q : R -> Prop) body k s :
  (forall s, I s ->
     match body s with Next s' => I s' /\ 0 <= m s' < m s | Leave r => Q r end) ->
  I s -> m s < 2 ^ Z.of_nat k ->
  exists r, iterate k body s = Leave r /\ Q r.
Proof.
  intros Hbody HI Hm. pose proof (iterate_rule I m Q body Hbody k s HI) as H.
  destruct (iterate k body s) as [s'|r]; [lia|eauto].
Qed.

(** A loop that keeps an invariant under which it never leaves diverges. *)
Lemma iterate_diverges (I : S -> Prop) body :
  (forall s, I s -> exists s', body s = Next s' /\ I s') ->
  forall k s, I s -> exists s', iterate k body s = Next s' /\ I s'.
Proof.
  intros Hbody. induction k as [|k IH]; intros s HI; simpl; [eauto|].
  destruct (IH s HI) as (s' & -> & HI'). eauto.
Qed.
End while.

(** Linear arithmetic with divisions and remainders by constants. *)
Ltac divlia := Z.to_euclidean_division_equations; lia.

(** The newline of the kernel's messages. *)
Definition NL : string := String (Ascii.ascii_of_nat 10) EmptyString.

(** A closed goal on numbers, by evaluation. *)
Ltac eval_done := first [reflexivity | vm_compute; repeat split; discriminate || reflexivity].
(** A closed goal with a decision procedure, by evaluation. *)
Ltac decide_done := apply (bool_decide_unpack _); vm_compute; exact I.
