(* ===== verification/Effects.v ===== *)
(** * Effects: faults, console calls and the monad of the kernel routines

    The routines of the kernel that print, fault or diverge are written in the
    monad [M S]: a routine takes the state [S] of its component and either
    finishes with a value, a new state and the console calls it made, in
    order, or ends in a fault.  The console calls are interpreted by the
    drivers ([Log.v]), so that a component's model stays independent of
    them. *)
From S2P Require Import Prelude.

(** What stops a routine short: a CPU exception, an access outside an object
    (undefined behaviour in C), a loop that does not terminate, or the CPU
    halted on purpose. *)
Inductive fault :=
  | PageFault (va : Z)
  | Unaligned (va : Z)   (* an access across two words, which the model does not cover *)
  | DivideError
  | OutOfBounds (idx : Z)
  | Diverges
  | Halted.

#[export] Instance fault_eq_dec : EqDecision fault.
Proof. solve_decision. Defined.

(** Log levels: [log_level_t] (src/kernel/log.h). *)
Definition LOG_DEBUG : Z := 0.
Definition LOG_INFO : Z := 1.
Definition LOG_WARN : Z := 2.
Definition LOG_ERROR : Z := 3.
Definition LOG_PANIC : Z := 4.

(** The calls of the drivers' output functions. *)
Inductive call :=
  | KPrint (s : string)
  | KPrintHex (v : Z)
  | SerialPuts (s : string)
  | SerialPutc (c : Z)
  | SerialPutHex64 (v : Z)
  | KLog (level : Z) (s : string)
  | KLogHex (level : Z) (s : string) (v : Z).

#[export] Instance call_eq_dec : EqDecision call.
Proof. solve_decision. Defined.

Inductive outcome (S A : Type) :=
  | Done (a : A) (s : S) (out : list call)
  | Stop (e : fault) (out : list call).
Arguments Done {S A} a s out.
Arguments Stop {S A} e out.

Definition M (S A : Type) : Type := S -> outcome S A.

Section monad.
Context {S : Type}.

#[export] Instance M_ret : MRet (M S) := fun A a s => Done a s [].

#[export] Instance M_bind : MBind (M S) := fun A B f m s =>
  match m s with
  | Done a s' w =>
      match f a s' with
      | Done b s'' w' => Done b s'' (w ++ w')
      | Stop e w' => Stop e (w ++ w')
      end
  | Stop e w => Stop e w
  end.

Definition get : M S S := fun s => Done s s [].
Definition put (s : S) : M S unit := fun _ => Done tt s [].
Definition modify (f : S -> S) : M S unit := fun s => Done tt (f s) [].
Definition run {A} (f : S -> A * S) : M S A := fun s => Done (f s).1 (f s).2 [].
Definition say (c : call) : M S unit := fun s => Done tt s [c].
Definition stop {A} (e : fault) : M S A := fun _ => Stop e [].

(** [for (i = a; i < b; i++)] over a monadic body; [Leave r] is a [return]. *)
Fixpoint mfor {R} (n : nat) (i : Z) (body : Z -> M S (option R)) : M S (option R) :=
  match n with
  | O => mret None
  | Datatypes.S n' =>
      r ← body i;
      match r with
      | Some _ => mret r
      | None => mfor n' (i + 1) body
      end
  end.

(** The loop rule: [I i s] holds before iteration [i], [Q r s] when the loop
    is left with [r]. *)
Lemma mfor_leave_rule {R} (I : Z -> S -> Prop) (Q : R -> S -> Prop) (body : Z -> M S (option R)) n a s :
  I a s ->
  (forall i s, a <= i < a + Z.of_nat n -> I i s ->
     exists r s' w, body i s = Done r s' w /\ match r with None => I (i + 1) s' | Some r => Q r s' end) ->
  exists r s' w, mfor n a body s = Done r s' w /\
    match r with None => I (a + Z.of_nat n) s' | Some r => Q r s' end.
Proof.
  revert a s. induction n as [|n IH]; intros a s HI Hbody.
  - exists None, s, []. simpl. rewrite Z.add_0_r. by split.
  - destruct (Hbody a s ltac:(lia) HI) as (r1 & s1 & w1 & E1 & HI1). simpl mfor. unfold mbind, M_bind.
    rewrite E1. destruct r1 as [r1|]; [by exists (Some r1), s1, (w1 ++ [])|].
    destruct (IH (a + 1) s1 HI1) as (r2 & s2 & w2 & E2 & HI2).
    { intros i s' Hi. apply Hbody. lia. }
    exists r2, s2, (w1 ++ w2). rewrite E2. split; [done|].
    by replace (a + Z.of_nat (Datatypes.S n)) with (a + 1 + Z.of_nat n) by lia.
Qed.

(** The rule for a loop that neither leaves early nor prints. *)
Lemma mfor_rule {R} (I : Z -> S -> Prop) (body : Z -> M S (option R)) n a s :
  I a s ->
  (forall i s, a <= i < a + Z.of_nat n -> I i s ->
     exists s', body i s = Done None s' [] /\ I (i + 1) s') ->
  exists s', mfor n a body s = Done None s' [] /\ I (a + Z.of_nat n) s'.
Proof.
  revert a s. induction n as [|n IH]; intros a s HI Hbody.
  - exists s. simpl. rewrite Z.add_0_r. by split.
  - destruct (Hbody a s ltac:(lia) HI) as (s1 & E1 & HI1).
    destruct (IH (a + 1) s1 HI1) as (s2 & E2 & HI2).
    { intros i s' Hi. apply Hbody. lia. }
    exists s2. split; [|by replace (a + Z.of_nat (Datatypes.S n)) with (a + 1 + Z.of_nat n) by lia].
    simpl. unfold mbind, M_bind. rewrite E1, E2. done.
Qed.

(** [while] over a monadic body: [Next] continues, [Leave] is a [break] or a
    [return].  [mwhile k] allows [2 ^ k] iterations; with [k = 64] more
    iterations than that can only be an endless loop of the code. *)
Fixpoint miterate {A R} (k : nat) (body : A -> M S (flow A R)) (a : A) : M S (flow A R) :=
  match k with
  | O => body a
  | Datatypes.S k' =>
      r ← miterate k' body a;
      match r with
      | Next a' => miterate k' body a'
      | Leave _ => mret r
      end
  end.

Definition mwhile {A R} (k : nat) (body : A -> M S (flow A R)) (a : A) : M S R :=
  r ← miterate k body a;
  match r with
  | Next _ => stop Diverges
  | Leave r => mret r
  end.

Lemma bind_done {A B} (m : M S A) (f : A -> M S B) s a s' w :
  m s = Done a s' w ->
  (m ≫= f) s =
    match f a s' with
    | Done b s'' w' => Done b s'' (w ++ w')
    | Stop e w' => Stop e (w ++ w')
    end.
Proof. intros H. unfold mbind, M_bind. by rewrite H. Qed.

(** The common case of a step without output. *)
Lemma bind_step {A B} (m : M S A) (f : A -> M S B) s a s' :
  m s = Done a s' [] -> (m ≫= f) s = f a s'.
Proof. intros H. rewrite (bind_done _ _ _ _ _ _ H). by destruct (f a s'). Qed.

Lemma bind_stop {A B} (m : M S A) (f : A -> M S B) s e w :
  m s = Stop e w -> (m ≫= f) s = Stop e w.
Proof. intros H. unfold mbind, M_bind. by rewrite H. Qed.

Lemma bind_inv {A B} (m : M S A) (f : A -> M S B) s b s'' w :
  (m ≫= f) s = Done b s'' w ->
  exists a s' w1 w2,
    m s = Done a s' w1 /\ f a s' = Done b s'' w2 /\ w = w1 ++ w2.
Proof.
  unfold mbind, M_bind. destruct (m s) as [a s' w1|]; [|done].
  destruct (f a s') as [b' s2 w2|] eqn:Hf; [|done].
  intros [= -> -> <-]. eauto 10.
Qed.

(** Monad laws, pointwise. *)
Lemma bind_ret_l {A B} (a : A) (f : A -> M S B) s : (mret a ≫= f) s = f a s.
Proof. unfold mbind, M_bind, mret, M_ret. by destruct (f a s). Qed.

Lemma bind_ret_r {A} (m : M S A) s : (m ≫= mret) s = m s.
Proof.
  unfold mbind, M_bind, mret, M_ret.
  destruct (m s); [by rewrite app_nil_r|done].
Qed.

Lemma bind_assoc {A B C} (m : M S A) (f : A -> M S B) (g : B -> M S C) s :
  ((m ≫= f) ≫= g) s = (m ≫= (fun a => f a ≫= g)) s.
Proof.
  unfold mbind, M_bind. destruct (m s) as [a s' w|]; [|done].
  destruct (f a s') as [b s'' w'|]; [|done].
  destruct (g b s''); by rewrite app_assoc.
Qed.

(** ** Loops

    [mloop n] runs at most [n] iterations one by one; [miterate k] is
    [mloop (2 ^ k)], so that a loop that leaves within that many iterations
    is executed exactly. *)
Section loops.
Context {A R : Type} (body : A -> M S (flow A R)).

Fixpoint mloop (n : nat) (a : A) : M S (flow A R) :=
  match n with
  | O => mret (Next a)
  | Datatypes.S n' =>
      r ← body a;
      match r with
      | Next a' => mloop n' a'
      | Leave _ => mret r
      end
  end.

Lemma mloop_add n m a s :
  mloop (n + m) a s =
    (r ← mloop n a; match r with Next a' => mloop m a' | Leave _ => mret r end) s.
Proof.
  revert a s. induction n as [|n IH]; intros a s; simpl; [by rewrite bind_ret_l|].
  rewrite bind_assoc. destruct (body a s) as [[a'|r] s' w|e w] eqn:E.
  - rewrite !(bind_done _ _ _ _ _ _ E). by rewrite IH.
  - rewrite !(bind_done _ _ _ _ _ _ E). by rewrite bind_ret_l.
  - by rewrite !(bind_stop _ _ _ _ _ E).
Qed.

Lemma miterate_mloop k a s : miterate k body a s = mloop (2 ^ k) a s.
Proof.
  revert a s. induction k as [|k IH]; intros a s.
  - simpl. unfold mbind, M_bind. destruct (body a s) as [[a'|r] s' w|e w]; [| |done];
      unfold mret, M_ret; by rewrite app_nil_r.
  - replace (2 ^ Datatypes.S k)%nat with (2 ^ k + 2 ^ k)%nat by (simpl; lia).
    rewrite mloop_add. simpl. pose proof (IH a s) as Hk.
    destruct (mloop (2 ^ k) a s) as [[a'|r] s' w|e w] eqn:E.
    + rewrite (bind_done _ _ _ _ _ _ Hk), (bind_done _ _ _ _ _ _ E). by rewrite IH.
    + by rewrite (bind_done _ _ _ _ _ _ Hk), (bind_done _ _ _ _ _ _ E).
    + by rewrite (bind_stop _ _ _ _ _ Hk), (bind_stop _ _ _ _ _ E).
Qed.

Lemma mloop_leave n m a s r s' w :
  mloop n a s = Done (Leave r) s' w -> (n <= m)%nat -> mloop m a s = Done (Leave r) s' w.
Proof.
  intros Hn Hle. replace m with (n + (m - n))%nat by lia. rewrite mloop_add.
  erewrite bind_done by exact Hn. unfold mret, M_ret. by rewrite app_nil_r.
Qed.

Lemma mwhile_leave k n a s r s' w :
  mloop n a s = Done (Leave r) s' w -> Z.of_nat n <= 2 ^ Z.of_nat k ->
  mwhile k body a s = Done r s' w.
Proof.
  intros Hn Hle. unfold mwhile.
  assert (n <= 2 ^ k)%nat by (apply Nat2Z.inj_le; by rewrite Nat2Z.inj_pow).
  erewrite bind_done by (rewrite miterate_mloop; by eapply mloop_leave).
  unfold mret, M_ret. by rewrite app_nil_r.
Qed.

Lemma mloop_next n a s a' s' w :
  body a s = Done (Next a') s' w ->
  mloop (Datatypes.S n) a s =
    match mloop n a' s' with
    | Done r s'' w' => Done r s'' (w ++ w')
    | Stop e w' => Stop e (w ++ w')
    end.
Proof. intros Hb. simpl. by erewrite bind_done by exact Hb. Qed.

Lemma mloop_done n a s r s' w :
  body a s = Done (Leave r) s' w -> mloop (Datatypes.S n) a s = Done (Leave r) s' w.
Proof.
  intros Hb. simpl. erewrite bind_done by exact Hb. unfold mret, M_ret. by rewrite app_nil_r.
Qed.

(** Total correctness of a loop that neither prints nor faults: [I k] holds
    with [k] iterations to go. *)
Lemma mwhile_rule (I : nat -> A -> S -> Prop) (Q : R -> S -> Prop) k n a s :
  I n a s -> Z.of_nat n < 2 ^ Z.of_nat k ->
  (forall j a s, I (Datatypes.S j) a s ->
     exists f s', body a s = Done f s' [] /\
       match f with Next a' => I j a' s' | Leave r => Q r s' end) ->
  (forall a s, I O a s -> exists r s', body a s = Done (Leave r) s' [] /\ Q r s') ->
  exists r s', mwhile k body a s = Done r s' [] /\ Q r s'.
Proof.
  intros HI Hn Hstep Hend.
  enough (exists r s', mloop (Datatypes.S n) a s = Done (Leave r) s' [] /\ Q r s') as (r & s' & E & HQ).
  { exists r, s'. split; [|done]. apply (mwhile_leave _ _ _ _ _ _ _ E). lia. }
  clear Hn. revert a s HI. induction n as [|n IH]; intros a s HI.
  - destruct (Hend _ _ HI) as (r & s' & E & HQ). exists r, s'. split; [by apply mloop_done|done].
  - destruct (Hstep _ _ _ HI) as ([a'|r] & s1 & E & HI'); [|by exists r, s1; split; [apply mloop_done|]].
    destruct (IH _ _ HI') as (r & s' & E' & HQ).
    exists r, s'. split; [|done]. rewrite (mloop_next _ _ _ _ _ _ E). by rewrite E'.
Qed.
End loops.
End monad.

(** [zoom view set m]: run a routine of a part of the state. *)
Definition zoom {S T A} (view : T -> S) (set : S -> T -> T) (m : M S A) : M T A :=
  fun t =>
    match m (view t) with
    | Done a s w => Done a (set s t) w
    | Stop e w => Stop e w
    end.

(** The final value, state and output of a routine that must finish. *)
Definition value_of {S A} (o : outcome S A) : option A :=
  match o with Done a _ _ => Some a | Stop _ _ => None end.
Definition state_of {S A} (o : outcome S A) : option S :=
  match o with Done _ s _ => Some s | Stop _ _ => None end.
Definition calls_of {S A} (o : outcome S A) : list call :=
  match o with Done _ _ w => w | Stop _ w => w end.

(** One step of symbolic execution of a monadic routine. *)
Ltac mstep :=
  first
    [ rewrite bind_ret_l
    | erewrite bind_done; [|reflexivity]
    | erewrite bind_done; [|eassumption]
    | erewrite bind_stop; [|reflexivity] ].
