(* ===== verification/CString.v ===== *)
(** * The memory and string functions (src/string.h)

    The functions run on the bytes the caller can reach: an address that is
    not in the map faults.  Pointers and counts are 64-bit. *)
From S2P Require Import Prelude Effects.

Abbreviation bytes := (gmap Z Z).
Local Abbreviation K := (M bytes).

(** [*p] and [*p = v] for an [unsigned char*]. *)
Definition ldb (p : Z) : K Z := fun m =>
  match m !! p with Some v => Done v m [] | None => Stop (PageFault p) [] end.
Definition stb (p v : Z) : K unit := fun m =>
  match m !! p with Some _ => Done tt (<[p := v]> m) [] | None => Stop (PageFault p) [] end.

Definition memset_step (ch : Z) (dn : Z * Z) : K (flow (Z * Z) unit) :=
  let '(d, n) := dn in
  if n =? 0 then mret (Leave tt)
  else stb d (wrap 8 ch);; mret (Next (d ⊞ 1, n ⊟ 1)).

Definition memset (dest ch n : Z) : K Z := mwhile 64 (memset_step ch) (dest, n);; mret dest.

(** The loop [memcpy] and the first branch of [memmove] share, on the pointers
    and the count. *)
Definition copy_up_step (dsn : Z * Z * Z) : K (flow (Z * Z * Z) unit) :=
  let '(d, s, n) := dsn in
  if n =? 0 then mret (Leave tt)
  else b ← ldb s; stb d b;; mret (Next (d ⊞ 1, s ⊞ 1, n ⊟ 1)).

Definition copy_up (dest src n : Z) : K unit := mwhile 64 copy_up_step (dest, src, n).

Definition memcpy (dest src n : Z) : K Z := copy_up dest src n;; mret dest.

Definition copy_down_step (dsn : Z * Z * Z) : K (flow (Z * Z * Z) unit) :=
  let '(d, s, n) := dsn in
  if n =? 0 then mret (Leave tt)
  else b ← ldb (s ⊟ 1); stb (d ⊟ 1) b;; mret (Next (d ⊟ 1, s ⊟ 1, n ⊟ 1)).

Definition copy_down (dest src n : Z) : K unit := mwhile 64 copy_down_step (dest, src, n).

Definition memmove (dest src n : Z) : K Z :=
  (if dest <? src then copy_up dest src n else copy_down (dest ⊞ n) (src ⊞ n) n);;
  mret dest.

Definition memcmp_step (pqn : Z * Z * Z) : K (flow (Z * Z * Z) Z) :=
  let '(p, q, n) := pqn in
  if n =? 0 then mret (Leave 0)
  else
    x ← ldb p;
    y ← ldb q;
    if negb (x =? y) then mret (Leave (x - y)) else mret (Next (p ⊞ 1, q ⊞ 1, n ⊟ 1)).

Definition memcmp (a b n : Z) : K Z := mwhile 64 memcmp_step (a, b, n).

Definition strlen_step (sl : Z * Z) : K (flow (Z * Z) Z) :=
  let '(s, len) := sl in
  c ← ldb s;
  if c =? 0 then mret (Leave len) else mret (Next (s ⊞ 1, len ⊞ 1)).

Definition strlen (s : Z) : K Z := mwhile 64 strlen_step (s, 0).

(** ** Correctness *)

(** A mapped object of [n] bytes that does not wrap around. *)
Definition object (m : bytes) (p n : Z) : Prop :=
  0 <= p /\ 0 <= n /\ p + n < 2 ^ 64 /\ forall i, 0 <= i < n -> is_Some (m !! (p + i)).

Definition within (p n a : Z) : Prop := p <= a < p + n.
#[export] Instance within_dec p n a : Decision (within p n a).
Proof. unfold within. apply _. Defined.

(** [m'] is [m] with the bytes at [d] replaced by what [src] held. *)
Definition copied (m m' : bytes) (d s n : Z) : Prop :=
  forall a, m' !! a = if decide (within d n a) then m !! (s + (a - d)) else m !! a.

Lemma object_byte m p n i : object m p n -> 0 <= i < n -> exists b, m !! (p + i) = Some b.
Proof. intros (_ & _ & _ & H) Hi. apply (H i Hi). Qed.

Lemma object_count m p n : object m p n -> Z.of_nat (Z.to_nat n) < 2 ^ Z.of_nat 64.
Proof. intros (? & ? & ? & _). change (2 ^ Z.of_nat 64) with (2 ^ 64). lia. Qed.

Lemma ldb_done m p v : m !! p = Some v -> ldb p m = Done v m [].
Proof. intros E. unfold ldb. by rewrite E. Qed.
Lemma stb_done m p v : is_Some (m !! p) -> stb p v m = Done tt (<[p := v]> m) [].
Proof. intros [x E]. unfold stb. by rewrite E. Qed.

Ltac word64 := unfold wrap; rewrite ?Z.mod_small; lia.

Section copies.
Context (m : bytes) (d s n : Z).
Context (Hd : object m d n) (Hs : object m s n).

(** After the bytes from [lo] to [hi] have been copied. *)
Definition partly (lo hi : Z) (m' : bytes) : Prop :=
  forall a, m' !! a = if decide (d + lo <= a < d + hi) then m !! (s + (a - d)) else m !! a.

Lemma partly_dest lo hi m' i : 0 <= lo -> hi <= n -> partly lo hi m' -> 0 <= i < n -> is_Some (m' !! (d + i)).
Proof.
  intros Hlo Hhi Hm Hi. rewrite Hm. destruct (decide _) as [Hw|Hw]; [|by apply Hd].
  apply Hs. lia.
Qed.

Lemma partly_source lo hi m' i :
  partly lo hi m' -> 0 <= i < n -> ~ (d + lo <= s + i < d + hi) -> m' !! (s + i) = m !! (s + i).
Proof. intros Hm Hi Ho. by rewrite Hm, decide_False by done. Qed.

Lemma partly_insert lo hi lo' hi' m' i b :
  partly lo hi m' -> 0 <= i < n -> m !! (s + i) = Some b ->
  (forall a, d + lo' <= a < d + hi' <-> a = d + i \/ d + lo <= a < d + hi) ->
  partly lo' hi' (<[d + i := b]> m').
Proof.
  intros Hm Hi Hb Hw a. destruct (decide (a = d + i)) as [->|Hne].
  - rewrite lookup_insert_eq, decide_True by (apply Hw; by left). by replace (s + (d + i - d)) with (s + i) by lia.
  - rewrite lookup_insert_ne by done. rewrite Hm.
    destruct (decide (d + lo <= a < d + hi)) as [H|H], (decide (d + lo' <= a < d + hi')) as [H'|H']; try done.
    + destruct H'. apply Hw. by right.
    + destruct (proj1 (Hw a) H'); [done|tauto].
Qed.

Lemma copy_up_ok : d <= s \/ s + n <= d -> exists m', copy_up d s n m = Done tt m' [] /\ copied m m' d s n.
Proof.
  intros Hov. pose proof (object_count _ _ _ Hd) as Hc. pose proof Hd as (D0 & D1 & D2 & _). pose proof Hs as (S0 & _ & S2 & _).
  unfold copy_up.
  destruct (mwhile_rule copy_up_step
    (fun k '(d', s', n') m' => exists j, 0 <= j /\ j + Z.of_nat k = n /\ d' = d + j /\ s' = s + j /\
       n' = Z.of_nat k /\ partly 0 j m') (fun (_ : unit) (m' : bytes) => partly 0 n m') 64 (Z.to_nat n) (d, s, n) m)
    as ([] & m' & E & HQ); [| exact Hc | | | exists m'; split; [exact E|]].
  - exists 0. split_and!; [lia..|]. intros a. by rewrite decide_False by lia.
  - intros k [[d' s'] n'] m' (j & J0 & J1 & -> & -> & -> & Hp).
    destruct (object_byte _ _ _ j Hs ltac:(lia)) as [b Eb].
    eexists _, _. split.
    + cbn beta iota delta [copy_up_step copy_down_step]. rewrite (proj2 (Z.eqb_neq _ _)) by lia.
      rewrite (bind_step _ _ _ _ _ (ldb_done m' (s + j) b ltac:(rewrite (partly_source _ _ _ _ Hp); [done|lia..]))).
      rewrite (bind_step _ _ _ _ _ (stb_done _ _ b (partly_dest 0 j m' j ltac:(lia) ltac:(lia) Hp ltac:(lia)))). reflexivity.
    + exists (j + 1). split_and!; [lia..|word64|word64|word64|].
      apply (partly_insert 0 j); [done|lia|done|lia].
  - intros [[d' s'] n'] m' (j & J0 & J1 & -> & -> & -> & Hp). eexists _, _. split; [reflexivity|].
    by replace n with j by lia.
  - intros a. rewrite HQ. unfold within. replace (d + 0) with d by lia. done.
Qed.

Lemma copy_down_ok : s <= d -> exists m', copy_down (d + n) (s + n) n m = Done tt m' [] /\ copied m m' d s n.
Proof.
  intros Hov. pose proof (object_count _ _ _ Hd) as Hc. pose proof Hd as (D0 & D1 & D2 & _). pose proof Hs as (S0 & _ & S2 & _).
  unfold copy_down.
  destruct (mwhile_rule copy_down_step
    (fun k '(d', s', n') m' => Z.of_nat k <= n /\ d' = d + Z.of_nat k /\ s' = s + Z.of_nat k /\
       n' = Z.of_nat k /\ partly (Z.of_nat k) n m') (fun (_ : unit) (m' : bytes) => partly 0 n m') 64 (Z.to_nat n) (d + n, s + n, n) m)
    as ([] & m' & E & HQ); [| exact Hc | | | exists m'; split; [exact E|]].
  - split_and!; [lia..|]. intros a. by rewrite decide_False by lia.
  - intros k [[d' s'] n'] m' (J0 & -> & -> & -> & Hp). set (j := Z.of_nat k) in *.
    destruct (object_byte _ _ _ j Hs ltac:(lia)) as [b Eb].
    eexists _, _. split.
    + cbn beta iota delta [copy_up_step copy_down_step]. rewrite (proj2 (Z.eqb_neq _ _)) by lia.
      replace (s + Z.of_nat (Datatypes.S k) ⊟ 1) with (s + j) by word64.
      replace (d + Z.of_nat (Datatypes.S k) ⊟ 1) with (d + j) by word64.
      rewrite (bind_step _ _ _ _ _ (ldb_done m' (s + j) b ltac:(rewrite (partly_source _ _ _ _ Hp); [done|lia..]))).
      rewrite (bind_step _ _ _ _ _ (stb_done _ _ b (partly_dest (Z.of_nat (Datatypes.S k)) n m' j ltac:(lia) ltac:(lia) Hp ltac:(lia)))). reflexivity.
    + split_and!; [lia|lia|lia|word64|].
      apply (partly_insert (Z.of_nat (Datatypes.S k)) n); [done|lia|done|lia].
  - intros [[d' s'] n'] m' (J0 & -> & -> & -> & Hp). eexists _, _. split; [reflexivity|done].
  - intros a. rewrite HQ. unfold within. replace (d + 0) with d by lia. done.
Qed.
End copies.

(** [memcpy] between blocks that do not overlap, or with the destination
    first. *)
Lemma memcpy_ok m d s n :
  object m d n -> object m s n -> d <= s \/ s + n <= d ->
  exists m', memcpy d s n m = Done d m' [] /\ copied m m' d s n.
Proof.
  intros Hd Hs Ho. destruct (copy_up_ok m d s n Hd Hs Ho) as (m' & E & Hm).
  exists m'. split; [|done]. unfold memcpy. by rewrite (bind_step _ _ _ _ _ E).
Qed.

(** [memmove] returns for all mapped blocks, overlapping or not, with the
    destination's bytes replaced by what the source held before the call and no
    other byte changed; a loop in either direction alone would not do. *)
Theorem memmove_correct m d s n :
  object m d n -> object m s n ->
  exists m', memmove d s n m = Done d m' [] /\ copied m m' d s n.
Proof.
  intros Hd Hs. pose proof Hd as (D0 & D1 & D2 & _). pose proof Hs as (S0 & _ & S2 & _).
  unfold memmove. destruct (Z.ltb_spec d s) as [Hlt|Hge].
  - destruct (copy_up_ok m d s n Hd Hs) as (m' & E & Hm); [by left; lia|].
    exists m'. split; [|done]. by rewrite (bind_step _ _ _ _ _ E).
  - replace (d ⊞ n) with (d + n) by word64. replace (s ⊞ n) with (s + n) by word64.
    destruct (copy_down_ok m d s n Hd Hs Hge) as (m' & E & Hm).
    exists m'. split; [|done]. by rewrite (bind_step _ _ _ _ _ E).
Qed.

Definition sample_bytes : bytes := list_to_map (imap (fun i b => (0x1000 + Z.of_nat i, b)) [1; 2; 3; 4; 5; 6]).

Lemma sample_object p n : (p =? 0x1000) || (p =? 0x1002) = true -> n = 4 -> object sample_bytes p n.
Proof.
  intros Hp ->. assert (p = 0x1000 \/ p = 0x1002) as [-> | ->] by (destruct (Z.eqb_spec p 0x1000), (Z.eqb_spec p 0x1002); auto; done);
    (split_and!; [done|done|done|]; intros i Hi;
     assert (i = 0 \/ i = 1 \/ i = 2 \/ i = 3) as [-> | [-> | [-> | ->]]] by lia; by eexists).
Qed.

(** Overlapping blocks, moved up: the case a plain copy loop gets wrong. *)
Lemma memmove_correct_witness :
  (exists m', memmove 0x1002 0x1000 4 sample_bytes = Done 0x1002 m' [] /\
     copied sample_bytes m' 0x1002 0x1000 4) /\
  option_map (fun m => map (fun i => m !! (0x1000 + i)) [0; 1; 2; 3; 4; 5])
    (state_of (memmove 0x1002 0x1000 4 sample_bytes)) = Some (map Some [1; 2; 1; 2; 3; 4]) /\
  option_map (fun m => map (fun i => m !! (0x1000 + i)) [0; 1; 2; 3; 4; 5])
    (state_of (memcpy 0x1002 0x1000 4 sample_bytes)) = Some (map Some [1; 2; 1; 2; 1; 2]).
Proof.
  split_and!; [|vm_compute; reflexivity..].
  apply (memmove_correct sample_bytes 0x1002 0x1000 4); by apply sample_object.
Defined.

Lemma memset_spec m d ch n :
  object m d n ->
  exists m', memset d ch n m = Done d m' [] /\
    forall a, m' !! a = if decide (within d n a) then Some (wrap 8 ch) else m !! a.
Proof.
  intros Hd. pose proof (object_count _ _ _ Hd) as Hc. pose proof Hd as (D0 & D1 & D2 & HD).
  destruct (mwhile_rule (memset_step ch)
    (fun k '(d', n') m' => exists j, 0 <= j /\ j + Z.of_nat k = n /\ d' = d + j /\ n' = Z.of_nat k /\
       forall a, m' !! a = if decide (within d j a) then Some (wrap 8 ch) else m !! a)
    (fun (_ : unit) (m' : bytes) => forall a, m' !! a = if decide (within d n a) then Some (wrap 8 ch) else m !! a)
    64 (Z.to_nat n) (d, n) m) as ([] & m' & E & HQ); [|exact Hc| | |].
  - exists 0. split_and!; [lia..|]. intros a. unfold within. by rewrite decide_False by lia.
  - intros k [d' n'] m' (j & J0 & J1 & -> & -> & Hp). unfold memset_step.
    rewrite (proj2 (Z.eqb_neq _ _)) by lia. eexists _, _. split.
    + rewrite (bind_step _ _ _ _ _ (stb_done m' (d + j) (wrap 8 ch)
        ltac:(rewrite Hp; unfold within; rewrite decide_False by lia; apply HD; lia))). reflexivity.
    + exists (j + 1). split_and!; [lia|lia|word64|word64|]. intros a. unfold within in *.
      destruct (decide (a = d + j)) as [->|Hne].
      * by rewrite lookup_insert_eq, decide_True by lia.
      * rewrite lookup_insert_ne, Hp by done.
        destruct (decide (d <= a < d + j)), (decide (d <= a < d + (j + 1))); done || lia.
  - intros [d' n'] m' (j & J0 & J1 & -> & -> & Hp). eexists _, _. split; [reflexivity|].
    by replace n with j by lia.
  - exists m'. split; [|done]. unfold memset. by rewrite (bind_step _ _ _ _ _ E).
Qed.

(** Up to the first difference, which decides. *)
Definition compares (m : bytes) (a b n r : Z) : Prop :=
  (r = 0 /\ forall i, 0 <= i < n -> m !! (a + i) = m !! (b + i)) \/
  exists i x y, 0 <= i < n /\ m !! (a + i) = Some x /\ m !! (b + i) = Some y /\ x <> y /\ r = x - y /\
    forall j, 0 <= j < i -> m !! (a + j) = m !! (b + j).

Lemma memcmp_ok m a b n :
  object m a n -> object m b n -> exists r, memcmp a b n m = Done r m [] /\ compares m a b n r.
Proof.
  intros Ha Hb. pose proof (object_count _ _ _ Ha) as Hc.
  pose proof Ha as (A0 & A1 & A2 & _). pose proof Hb as (B0 & _ & B2 & _).
  destruct (mwhile_rule memcmp_step
    (fun k '(p, q, n') m' => m' = m /\ exists j, 0 <= j /\ j + Z.of_nat k = n /\ p = a + j /\ q = b + j /\
       n' = Z.of_nat k /\ forall i, 0 <= i < j -> m !! (a + i) = m !! (b + i))
    (fun r m' => m' = m /\ compares m a b n r) 64 (Z.to_nat n) (a, b, n) m) as (r & m' & E & -> & HQ); [|exact Hc| | |by exists r].
  - split; [done|]. exists 0. split_and!; [lia..|]. intros i Hi. lia.
  - intros k [[p q] n'] ? (-> & j & J0 & J1 & -> & -> & -> & Hp). unfold memcmp_step.
    rewrite (proj2 (Z.eqb_neq _ _)) by lia.
    destruct (object_byte _ _ _ j Ha ltac:(lia)) as [x Ex]. destruct (object_byte _ _ _ j Hb ltac:(lia)) as [y Ey].
    rewrite (bind_step _ _ _ _ _ (ldb_done _ _ _ Ex)), (bind_step _ _ _ _ _ (ldb_done _ _ _ Ey)).
    destruct (Z.eqb_spec x y) as [->|Hne]; eexists _, _; (split; [reflexivity|]).
    + split; [done|]. exists (j + 1). split_and!; [lia|lia|word64|word64|word64|]. intros i Hi.
      destruct (decide (i = j)) as [->|]; [congruence|]. apply Hp. lia.
    + split; [done|]. right. exists j, x, y. split_and!; [lia|lia|done..].
  - intros [[p q] n'] ? (-> & j & J0 & J1 & -> & -> & -> & Hp). eexists _, _. split; [reflexivity|].
    split; [done|]. left. split; [done|]. by replace n with j by lia.
Qed.

(** A string of [k] characters and its terminator. *)
Definition cstring (m : bytes) (s k : Z) : Prop :=
  object m s (k + 1) /\ m !! (s + k) = Some 0 /\ 0 <= k /\ forall i, 0 <= i < k -> m !! (s + i) <> Some 0.

Lemma strlen_ok m s k : cstring m s k -> strlen s m = Done k m [].
Proof.
  intros (Hs & Ek & K0 & Hk). pose proof Hs as (S0 & S1 & S2 & _).
  destruct (mwhile_rule strlen_step
    (fun j '(p, len) m' => m' = m /\ len + Z.of_nat j = k /\ 0 <= len /\ p = s + len)
    (fun r m' => m' = m /\ r = k) 64 (Z.to_nat k) (s, 0) m) as (r & m' & E & -> & ->); [| | | |exact E].
  - split_and!; [done|lia..].
  - change (2 ^ Z.of_nat 64) with (2 ^ 64). lia.
  - intros j [p len] ? (-> & Hj & L0 & ->). unfold strlen_step.
    destruct (object_byte _ _ _ len Hs ltac:(lia)) as [c Ec].
    rewrite (bind_step _ _ _ _ _ (ldb_done _ _ _ Ec)), (proj2 (Z.eqb_neq _ _)).
    + eexists _, _. split; [reflexivity|]. split_and!; [done|word64|word64|word64].
    + intros ->. by apply (Hk len); [lia|].
  - intros [p len] ? (-> & Hj & L0 & ->). unfold strlen_step. assert (len = k) as -> by lia.
    rewrite (bind_step _ _ _ _ _ (ldb_done _ _ _ Ek)). eexists _, _. by split.
Qed.
