(* ===== verification/Stubs.v ===== *)
(** * The assembly entry points (src/isr/isr_asm.s, src/user/usermode.s)

    The interrupt stubs, the way into ring 3 and the system call entry, as
    lists of instructions with their execution on the general registers and
    the words of memory.  A C function they call is a parameter, of which the
    theorems assume the System V calling convention. *)
From S2P Require Import Prelude Effects.

Inductive reg :=
  | RAX | RBX | RCX | RDX | RSI | RDI | RBP | RSP
  | R8 | R9 | R10 | R11 | R12 | R13 | R14 | R15.

#[export] Instance reg_eq_dec : EqDecision reg.
Proof. solve_decision. Defined.

Record gprs := Gprs {
  g_rax : Z; g_rbx : Z; g_rcx : Z; g_rdx : Z; g_rsi : Z; g_rdi : Z; g_rbp : Z; g_rsp : Z;
  g_r8 : Z; g_r9 : Z; g_r10 : Z; g_r11 : Z; g_r12 : Z; g_r13 : Z; g_r14 : Z; g_r15 : Z;
}.

Definition gpr (r : reg) (g : gprs) : Z :=
  match r with
  | RAX => g_rax g | RBX => g_rbx g | RCX => g_rcx g | RDX => g_rdx g
  | RSI => g_rsi g | RDI => g_rdi g | RBP => g_rbp g | RSP => g_rsp g
  | R8 => g_r8 g | R9 => g_r9 g | R10 => g_r10 g | R11 => g_r11 g
  | R12 => g_r12 g | R13 => g_r13 g | R14 => g_r14 g | R15 => g_r15 g
  end.

Definition set_gpr (r : reg) (v : Z) (g : gprs) : gprs :=
  let '(Gprs ax bx cx dx si di bp sp r8 r9 r10 r11 r12 r13 r14 r15) := g in
  match r with
  | RAX => Gprs v bx cx dx si di bp sp r8 r9 r10 r11 r12 r13 r14 r15
  | RBX => Gprs ax v cx dx si di bp sp r8 r9 r10 r11 r12 r13 r14 r15
  | RCX => Gprs ax bx v dx si di bp sp r8 r9 r10 r11 r12 r13 r14 r15
  | RDX => Gprs ax bx cx v si di bp sp r8 r9 r10 r11 r12 r13 r14 r15
  | RSI => Gprs ax bx cx dx v di bp sp r8 r9 r10 r11 r12 r13 r14 r15
  | RDI => Gprs ax bx cx dx si v bp sp r8 r9 r10 r11 r12 r13 r14 r15
  | RBP => Gprs ax bx cx dx si di v sp r8 r9 r10 r11 r12 r13 r14 r15
  | RSP => Gprs ax bx cx dx si di bp v r8 r9 r10 r11 r12 r13 r14 r15
  | R8 => Gprs ax bx cx dx si di bp sp v r9 r10 r11 r12 r13 r14 r15
  | R9 => Gprs ax bx cx dx si di bp sp r8 v r10 r11 r12 r13 r14 r15
  | R10 => Gprs ax bx cx dx si di bp sp r8 r9 v r11 r12 r13 r14 r15
  | R11 => Gprs ax bx cx dx si di bp sp r8 r9 r10 v r12 r13 r14 r15
  | R12 => Gprs ax bx cx dx si di bp sp r8 r9 r10 r11 v r13 r14 r15
  | R13 => Gprs ax bx cx dx si di bp sp r8 r9 r10 r11 r12 v r14 r15
  | R14 => Gprs ax bx cx dx si di bp sp r8 r9 r10 r11 r12 r13 v r15
  | R15 => Gprs ax bx cx dx si di bp sp r8 r9 r10 r11 r12 r13 r14 v
  end.

(** What an interrupt saves and [iretq] restores. *)
Record context := Context_ {
  c_rip : Z;
  c_cs : Z;
  c_rflags : Z;
  c_rsp : Z;
  c_ss : Z;
}.

Record cpu := Cpu_ {
  regs : gprs;
  words : gmap Z Z;   (* the mapped words of memory *)
  cr3_reg : Z;
  resumed : option context;   (* set by iretq *)
}.

Definition set_regs (g : gprs) (c : cpu) : cpu := Cpu_ g (words c) (cr3_reg c) (resumed c).
Definition set_words (m : gmap Z Z) (c : cpu) : cpu := Cpu_ (regs c) m (cr3_reg c) (resumed c).
Definition set_cr3 (v : Z) (c : cpu) : cpu := Cpu_ (regs c) (words c) v (resumed c).
Definition set_resumed (x : context) (c : cpu) : cpu := Cpu_ (regs c) (words c) (cr3_reg c) (Some x).

(** The C functions the stubs call. *)
Inductive symbol :=
  | sym_isr_handler_c
  | sym_task_current
  | sym_tss_set_rsp0
  | sym_tss_get_rsp0
  | sym_syscall_dispatch.

#[export] Instance symbol_eq_dec : EqDecision symbol.
Proof. solve_decision. Defined.

(** What a push takes: [$v], [%r] and [disp(%base)]. *)
Inductive operand :=
  | Imm (v : Z)
  | Reg (r : reg)
  | Mem (disp : Z) (base : reg).

Inductive instr :=
  | Cli
  | Push (o : operand)
  | Pop (r : reg)
  | MovR (dst src : reg)
  | LoadM (disp : Z) (base dst : reg)
  | StoreM (src : reg) (disp : Z) (base : reg)
  | Lea (disp : Z) (base dst : reg)
  | AddI (v : Z) (r : reg)
  | OrI (v : Z) (r : reg)
  | MovCr3 (r : reg)
  | JzSkip (r : reg) (n : nat)   (* testq r, r; jz past the next n instructions *)
  | Call_ (f : symbol)
  | Iretq.

Section exec.
Context (callee : symbol -> cpu -> cpu).
Local Abbreviation K := (M cpu).

Definition reg_get (r : reg) : K Z := c ← get; mret (gpr r (regs c)).
Definition reg_set (r : reg) (v : Z) : K unit := modify (fun c => set_regs (set_gpr r v (regs c)) c).
Definition mem_ld (a : Z) : K Z := fun c =>
  match words c !! a with Some v => Done v c [] | None => Stop (PageFault a) [] end.
Definition mem_sd (a v : Z) : K unit := fun c =>
  match words c !! a with
  | Some _ => Done tt (set_words (<[a := v]> (words c)) c) []
  | None => Stop (PageFault a) []
  end.

Definition push (v : Z) : K unit :=
  sp ← reg_get RSP; mem_sd (sp ⊟ 8) v;; reg_set RSP (sp ⊟ 8).
Definition pop : K Z :=
  sp ← reg_get RSP; v ← mem_ld sp; reg_set RSP (sp ⊞ 8);; mret v.

Definition operand_value (o : operand) : K Z :=
  match o with
  | Imm v => mret v
  | Reg r => reg_get r
  | Mem d b => a ← reg_get b; mem_ld (a ⊞ d)
  end.

Definition step (i : instr) : K unit :=
  match i with
  | Cli => mret tt
  | Push o => v ← operand_value o; push v
  | Pop r => v ← pop; reg_set r v
  | MovR dst src => v ← reg_get src; reg_set dst v
  | LoadM d b dst => a ← reg_get b; v ← mem_ld (a ⊞ d); reg_set dst v
  | StoreM src d b => a ← reg_get b; v ← reg_get src; mem_sd (a ⊞ d) v
  | Lea d b dst => a ← reg_get b; reg_set dst (a ⊞ d)
  | AddI v r => a ← reg_get r; reg_set r (a ⊞ v)
  | OrI v r => a ← reg_get r; reg_set r (Z.lor a v)
  | MovCr3 r => v ← reg_get r; modify (set_cr3 v)
  | JzSkip _ _ => mret tt
  | Call_ f => modify (callee f)
  | Iretq =>
      rip ← pop;
      cs ← pop;
      rflags ← pop;
      rsp ← pop;
      ss ← pop;
      reg_set RSP rsp;;
      modify (set_resumed (Context_ rip cs rflags rsp ss))
  end.

(** Straight-line code with forward jumps: [skip] instructions are passed
    over. *)
Fixpoint exec (l : list instr) (skip : nat) : K unit :=
  match l with
  | [] => mret tt
  | i :: l =>
      match skip with
      | S n => exec l n
      | O =>
          match i with
          | JzSkip r n => v ← reg_get r; exec l (if v =? 0 then n else O)
          | _ => step i;; exec l O
          end
      end
  end.
End exec.

(** ** isr_asm.s *)

Definition isr_common_stub : list instr :=
  map (Push ∘ Reg) [RDI; RSI; RDX; RCX; RAX; R8; R9; RBX; RBP; R12; R13; R14; R15] ++
  [MovR RDI RSP; Call_ sym_isr_handler_c] ++
  map Pop [R15; R14; R13; R12; RBP; RBX; R9; R8; RAX; RCX; RDX; RSI; RDI] ++
  [AddI 16 RSP; Iretq].

(** [ISR_NOERRCODE] and [ISR_ERRCODE], up to the jump and past it. *)
Definition ISR_NOERRCODE (vector : Z) : list instr :=
  [Cli] ++ map Push [Imm 0; Imm vector] ++ isr_common_stub.
Definition ISR_ERRCODE (vector : Z) : list instr :=
  [Cli] ++ map Push [Imm vector] ++ isr_common_stub.

(** [isr_0] to [isr_31] and [isr_32] to [isr_47]. *)
Definition errcode_vectors : list Z := [8; 10; 11; 12; 13; 14].

Definition isr (vector : Z) : list instr :=
  if bool_decide (vector ∈ errcode_vectors) then ISR_ERRCODE vector else ISR_NOERRCODE vector.

(** ** usermode.s *)

Definition T_KSTACK : Z := 0x18.
Definition T_RING : Z := 0x30.
Definition T_CR3 : Z := 0x38.
Definition T_USER_RIP : Z := 0x40.
Definition T_USER_RSP : Z := 0x48.
Definition T_USER_RFLAGS : Z := 0x50.
Definition KERNEL_STACK_SIZE : Z := 8192.

Definition enter_user_mode : list instr :=
  [Call_ sym_task_current;
   LoadM T_KSTACK RAX RDI;
   JzSkip RDI 4;
   AddI KERNEL_STACK_SIZE RDI;
   Push (Reg RAX);
   Call_ sym_tss_set_rsp0;
   Pop RAX;
   LoadM T_CR3 RAX RDI;
   JzSkip RDI 1;
   MovCr3 RDI;
   Call_ sym_task_current;
   LoadM T_USER_RFLAGS RAX R11;
   OrI 0x200 R11;
   LoadM T_USER_RSP RAX R10;
   LoadM T_USER_RIP RAX R9] ++
  map Push [Imm 0x23; Reg R10; Reg R11; Imm 0x1B; Reg R9] ++
  [Iretq].

Definition syscall_entry : list instr :=
  map (Push ∘ Reg) [RAX; R11; RCX; RDI; RSI; RDX; R10; R8; R9; RBX; RBP; R12; R13; R14; R15] ++
  [Lea 120 RSP R15;
   Call_ sym_tss_get_rsp0;
   MovR RSP RAX] ++
  map Push
    [Mem (-120) R15; Mem (-112) R15; Mem (-104) R15; Mem (-96) R15; Mem (-88) R15; Mem (-80) R15;
     Mem (-72) R15; Mem (-64) R15; Mem (-8) R15; Mem (-24) R15; Mem (-48) R15; Mem (-40) R15;
     Mem (-32) R15;
     Imm 0x80; Imm 0;
     Mem (-24) R15; Imm 0x1B; Mem (-16) R15; Reg R15; Imm 0x23] ++
  [LoadM (-8) R15 RDI;
   LoadM (-32) R15 RSI;
   LoadM (-40) R15 RDX;
   LoadM (-48) R15 RCX;
   LoadM (-56) R15 R8;
   LoadM (-64) R15 R9;
   LoadM (-72) R15 RAX] ++
  map Push [Reg RAX] ++
  [Call_ sym_syscall_dispatch;
   AddI 8 RSP;
   StoreM RAX 0x78 RSP] ++
  map Pop [R15; R14; R13; R12; RBP; RBX; R9; R8; RAX; RCX; RDX; RSI; RDI] ++
  [AddI 16 RSP; Iretq].

(** ** Runs of pushes and pops *)

(** The words [vs] pushed from [k] on. *)
Fixpoint stack (k : Z) (vs : list Z) (m : gmap Z Z) : gmap Z Z :=
  match vs with
  | [] => m
  | v :: vs => stack (k - 8) vs (<[k - 8 := v]> m)
  end.

(** [n] mapped words below [k]. *)
Definition room (k : Z) (n : nat) (m : gmap Z Z) : Prop :=
  8 * Z.of_nat n <= k < 2 ^ 64 /\ forall i, (i < n)%nat -> is_Some (m !! (k - 8 * Z.of_nat (S i))).

Lemma stack_outside k vs m a :
  ~ (k - 8 * Z.of_nat (length vs) <= a < k) -> stack k vs m !! a = m !! a.
Proof.
  revert k m. induction vs as [|v vs IH]; intros k m Ha; [done|].
  cbn [length] in Ha. cbn [stack]. rewrite IH by lia. apply lookup_insert_ne. lia.
Qed.

Lemma stack_lookup k vs m i v :
  vs !! i = Some v -> stack k vs m !! (k - 8 * Z.of_nat (S i)) = Some v.
Proof.
  revert k m i. induction vs as [|w vs IH]; intros k m i Hi; [done|].
  destruct i as [|i]; cbn [stack].
  - simplify_eq/=. rewrite stack_outside by lia. replace (k - 8 * 1) with (k - 8) by lia. apply lookup_insert_eq.
  - simpl in Hi. rewrite <-(IH (k - 8) (<[k - 8 := w]> m) i Hi). f_equal. lia.
Qed.

Lemma room_shorter k n n' m : room k n m -> (n' <= n)%nat -> room k n' m.
Proof. intros [Hk Hm] Hn. split; [lia|]. intros i Hi. apply Hm. lia. Qed.

Lemma room_push k n v m : room k (S n) m -> room (k - 8) n (<[k - 8 := v]> m).
Proof.
  intros [Hk Hm]. split; [lia|]. intros i Hi. rewrite lookup_insert_ne by lia.
  replace (k - 8 - 8 * Z.of_nat (S i)) with (k - 8 * Z.of_nat (S (S i))) by lia. apply Hm. lia.
Qed.

Lemma set_gpr_same r v g : gpr r (set_gpr r v g) = v.
Proof. by destruct g, r. Qed.
Lemma set_gpr_other r r' v g : r <> r' -> gpr r' (set_gpr r v g) = gpr r' g.
Proof. intros H. destruct g, r, r'; done. Qed.
Lemma set_gpr_set r v w g : set_gpr r w (set_gpr r v g) = set_gpr r w g.
Proof. by destruct g, r. Qed.
Lemma set_gpr_comm r r' v v' g :
  r <> r' -> set_gpr r v (set_gpr r' v' g) = set_gpr r' v' (set_gpr r v g).
Proof. intros H. destruct g, r, r'; done. Qed.

Section runs.
Context (callee : symbol -> cpu -> cpu).
Local Abbreviation run := (exec callee).

(** The value of an operand, which the pushes between [lo] and [hi] do not
    change. *)
Definition pushed (c : cpu) (lo hi : Z) (o : operand) (v : Z) : Prop :=
  match o with
  | Imm w => v = w
  | Reg r => r <> RSP /\ v = gpr r (regs c)
  | Mem d b =>
      b <> RSP /\ words c !! (gpr b (regs c) ⊞ d) = Some v /\ ~ (lo <= gpr b (regs c) ⊞ d < hi)
  end.

Lemma operand_value_ok c lo hi o v : pushed c lo hi o v -> operand_value o c = Done v c [].
Proof.
  destruct o as [w|r|d b]; simpl.
  - by intros ->.
  - by intros [_ ->].
  - intros (_ & E & _). erewrite bind_step by reflexivity. unfold mem_ld. by rewrite E.
Qed.

Definition after_pushes (vs : list Z) (c : cpu) : cpu :=
  let k := gpr RSP (regs c) in
  Cpu_ (set_gpr RSP (k - 8 * Z.of_nat (length vs)) (regs c)) (stack k vs (words c)) (cr3_reg c) (resumed c).

Lemma stub_push_ok c v :
  room (gpr RSP (regs c)) 1 (words c) -> push v c = Done tt (after_pushes [v] c) [].
Proof.
  intros [Hk Hm]. destruct (Hm 0%nat ltac:(lia)) as [w Ew].
  unfold push. erewrite bind_step by reflexivity.
  replace (gpr RSP (regs c) ⊟ 8) with (gpr RSP (regs c) - 8) by (unfold wrap; rewrite Z.mod_small; lia).
  replace (gpr RSP (regs c) - 8 * Z.of_nat 1) with (gpr RSP (regs c) - 8) in Ew by lia.
  erewrite bind_step by (unfold mem_sd; rewrite Ew; reflexivity). reflexivity.
Qed.

Lemma exec_pushes os vs c l :
  Forall2 (pushed c (gpr RSP (regs c) - 8 * Z.of_nat (length vs)) (gpr RSP (regs c))) os vs ->
  room (gpr RSP (regs c)) (length vs) (words c) ->
  run (map Push os ++ l) 0 c = run l 0 (after_pushes vs c).
Proof.
  intros H. remember (gpr RSP (regs c)) as k eqn:Ek. revert c k Ek vs H.
  induction os as [|o os IH]; intros c k Ek vs H Hr; inversion H as [|? v ? vs' Ho Hos]; subst vs.
  - cbn [map app]. f_equal. destruct c as [g m c3 x]. unfold after_pushes. simpl in *. f_equal.
    destruct g. simpl in *. f_equal. lia.
  - cbn [length] in *. cbn [map app exec step].
    rewrite bind_assoc, (bind_step _ _ _ _ _ (operand_value_ok _ _ _ _ _ Ho)).
    rewrite (bind_step _ _ _ _ _ (stub_push_ok c v ltac:(rewrite <-Ek; eapply room_shorter; [exact Hr|lia]))).
    set (c1 := after_pushes [v] c).
    assert (gpr RSP (regs c1) = k - 8) as Ek1.
    { unfold c1, after_pushes. cbn [regs length]. rewrite set_gpr_same, <-Ek. lia. }
    assert (words c1 = <[k - 8 := v]> (words c)) as Ew by (by unfold c1, after_pushes; cbn [words stack]; rewrite <-Ek).
    rewrite (IH c1 (k - 8) (eq_sym Ek1) vs').
    + f_equal. unfold after_pushes. rewrite Ek1, Ew. unfold c1, after_pushes. cbn [regs cr3_reg resumed length stack].
      rewrite set_gpr_set, <-Ek. f_equal. f_equal. lia.
    + eapply Forall2_impl; [exact Hos|]. intros o' v' Hp. destruct o' as [w|r|d b]; cbn [pushed] in *; [done| |].
      * destruct Hp as [Hne ->]. split; [done|]. unfold c1, after_pushes. cbn [regs]. by rewrite set_gpr_other.
      * destruct Hp as (Hne & E & Ho').
        assert (gpr b (regs c1) = gpr b (regs c)) as -> by (unfold c1, after_pushes; cbn [regs]; by rewrite set_gpr_other).
        rewrite Ew. split_and!; [done| |lia]. rewrite lookup_insert_ne by lia. done.
    + rewrite Ew. by apply room_push.
Qed.

(** The registers after a run of pops. *)
Fixpoint load_gprs (rs : list reg) (vs : list Z) (g : gprs) : gprs :=
  match rs, vs with
  | r :: rs, v :: vs => load_gprs rs vs (set_gpr r v g)
  | _, _ => g
  end.

(** The words from [sp] on. *)
Definition holds_words (m : gmap Z Z) (sp : Z) (vs : list Z) : Prop :=
  0 <= sp /\ sp + 8 * Z.of_nat (length vs) < 2 ^ 64 /\
  forall i v, vs !! i = Some v -> m !! (sp + 8 * Z.of_nat i) = Some v.

Lemma holds_words_tail m sp v vs : holds_words m sp (v :: vs) -> holds_words m (sp + 8) vs.
Proof.
  intros (H0 & H1 & H2). cbn [length] in H1. split_and!; [lia..|]. intros i w Hi.
  rewrite <-(H2 (S i) w Hi). f_equal. lia.
Qed.

Lemma stub_pop_ok c v vs :
  holds_words (words c) (gpr RSP (regs c)) (v :: vs) ->
  pop c = Done v (set_regs (set_gpr RSP (gpr RSP (regs c) + 8) (regs c)) c) [].
Proof.
  intros (H0 & H1 & H2). cbn [length] in H1. pose proof (H2 O v eq_refl) as E.
  unfold pop. erewrite bind_step by reflexivity.
  rewrite (bind_step _ _ c v c).
  2: { unfold mem_ld. replace (gpr RSP (regs c)) with (gpr RSP (regs c) + 8 * Z.of_nat 0) at 1 by lia. by rewrite E. }
  erewrite bind_step by reflexivity.
  unfold mret, M_ret. do 3 f_equal. unfold wrap. apply Z.mod_small. lia.
Qed.

Lemma exec_pops rs vs c l :
  RSP ∉ rs -> length rs = length vs -> holds_words (words c) (gpr RSP (regs c)) vs ->
  run (map Pop rs ++ l) 0 c =
  run l 0 (set_regs (load_gprs rs vs (set_gpr RSP (gpr RSP (regs c) + 8 * Z.of_nat (length vs)) (regs c))) c).
Proof.
  revert vs c. induction rs as [|r rs IH]; intros [|v vs] c Hrs Hl Hw; try done.
  - cbn [map app load_gprs length]. f_equal. destruct c as [g m c3 x], g. simpl. unfold set_regs. simpl.
    do 2 f_equal. lia.
  - cbn [map app exec step load_gprs]. apply not_elem_of_cons in Hrs as [Hr Hrs].
    rewrite bind_assoc, (bind_step _ _ _ _ _ (stub_pop_ok c v vs Hw)).
    erewrite bind_step by reflexivity.
    rewrite (IH vs); [|done|by injection Hl|].
    + f_equal. unfold set_regs. cbn [regs words cr3_reg resumed length].
      rewrite set_gpr_other, set_gpr_same by done.
      rewrite (set_gpr_comm RSP r) by done. rewrite set_gpr_set.
      replace (gpr RSP (regs c) + 8 * Z.of_nat (S (length vs)))
        with (gpr RSP (regs c) + 8 + 8 * Z.of_nat (length vs)) by lia. done.
    + cbn [set_regs regs words]. rewrite set_gpr_other, set_gpr_same by done. by apply holds_words_tail in Hw.
Qed.
End runs.

Lemma after_pushes_app vs1 vs2 c :
  after_pushes vs2 (after_pushes vs1 c) = after_pushes (vs1 ++ vs2) c.
Proof.
  unfold after_pushes. cbn [regs words cr3_reg resumed]. rewrite set_gpr_same, set_gpr_set, length_app.
  f_equal; [f_equal; lia|].
  generalize (gpr RSP (regs c)) (words c). induction vs1 as [|v vs1 IH]; intros k m; cbn [app stack length].
  - f_equal. lia.
  - rewrite <-IH. f_equal. lia.
Qed.

Lemma stack_holds k vs m :
  8 * Z.of_nat (length vs) <= k < 2 ^ 64 ->
  holds_words (stack k vs m) (k - 8 * Z.of_nat (length vs)) (reverse vs).
Proof.
  intros Hk. split_and!; [lia|rewrite length_reverse; lia|]. intros i v Hi.
  pose proof (lookup_lt_Some _ _ _ Hi) as Hl. rewrite length_reverse in Hl.
  rewrite reverse_lookup in Hi by done.
  rewrite <-(stack_lookup k vs m _ v Hi). f_equal. lia.
Qed.

Lemma holds_words_app m sp vs1 vs2 :
  holds_words m sp (vs1 ++ vs2) ->
  holds_words m sp vs1 /\ holds_words m (sp + 8 * Z.of_nat (length vs1)) vs2.
Proof.
  intros (H0 & H1 & H2). rewrite length_app in H1. split; (split_and!; [lia..|]); intros i v Hi.
  - apply H2. by apply lookup_app_l_Some.
  - rewrite <-(H2 (length vs1 + i)%nat v); [f_equal; lia|].
    rewrite lookup_app_r by lia. by replace (length vs1 + i - length vs1)%nat with i by lia.
Qed.

Lemma exec_iretq callee c x l :
  holds_words (words c) (gpr RSP (regs c)) [c_rip x; c_cs x; c_rflags x; c_rsp x; c_ss x] ->
  exec callee (Iretq :: l) 0 c =
  exec callee l 0 (set_resumed x (set_regs (set_gpr RSP (c_rsp x) (regs c)) c)).
Proof.
  intros H. cbn [exec step]. rewrite bind_assoc.
  rewrite (bind_step _ _ _ _ _ (stub_pop_ok _ _ _ H)), bind_assoc. apply holds_words_tail in H.
  do 4 (rewrite ?bind_assoc;
    erewrite bind_step; [|eapply stub_pop_ok; cbn [set_regs regs words]; rewrite set_gpr_same; exact H];
    cbn [set_regs regs words cr3_reg resumed] in *; rewrite ?set_gpr_same, ?set_gpr_set in *;
    apply holds_words_tail in H).
  rewrite bind_assoc. erewrite bind_step by reflexivity. erewrite bind_step by reflexivity. f_equal.
  unfold set_resumed, set_regs. cbn [regs words cr3_reg resumed]. rewrite !set_gpr_set. by destruct x.
Qed.
