(* ===== verification/StubTheorems.v ===== *)
(** * What the assembly entry points do to the interrupted program

    The theorems about Stubs.v, for C functions that follow the System V
    calling convention. *)
From S2P Require Import Prelude Effects Stubs.

(** Reads a register through assignments. *)
Ltac read_gprs :=
  repeat match goal with
    | |- context [gpr ?r (set_gpr ?r' ?v ?g)] =>
        first [rewrite (set_gpr_same r v g) | rewrite (set_gpr_other r' r v g) by done]
    end.

(** A C function keeps the callee-saved registers and the [n] words its caller
    has on the stack, and unmaps nothing. *)
Record sysv (callee : symbol -> cpu -> cpu) (f : symbol) (n : nat) : Prop := {
  sysv_regs : forall c r, r ∈ [RBX; RBP; RSP; R12; R13; R14; R15] ->
    gpr r (regs (callee f c)) = gpr r (regs c);
  sysv_frame : forall c i, (i < n)%nat ->
    words (callee f c) !! (gpr RSP (regs c) + 8 * Z.of_nat i) = words c !! (gpr RSP (regs c) + 8 * Z.of_nat i);
  sysv_mapped : forall c a, is_Some (words c !! a) -> is_Some (words (callee f c) !! a);
  sysv_control : forall c, cr3_reg (callee f c) = cr3_reg c /\ resumed (callee f c) = resumed c;
}.

Lemma sysv_holds callee f n c vs :
  sysv callee f n -> (length vs <= n)%nat ->
  holds_words (words c) (gpr RSP (regs c)) vs ->
  holds_words (words (callee f c)) (gpr RSP (regs (callee f c))) vs.
Proof.
  intros Hf Hn (H0 & H1 & H2). rewrite (sysv_regs _ _ _ Hf) by decide_done.
  split_and!; [done..|]. intros i v Hi. rewrite (sysv_frame _ _ _ Hf); [by apply H2|].
  apply lookup_lt_Some in Hi. lia.
Qed.

(** ** Interrupts *)

(** The CPU's part: it saves the context on the stack at [top]. *)
Definition deliver callee (top : Z) (x : context) (err : option Z) : M cpu unit :=
  reg_set RSP top;;
  exec callee (map Push (map Imm ([c_ss x; c_rsp x; c_rflags x; c_cs x; c_rip x] ++ option_list err))) 0.

(** The registers of the frame, from its lowest word on. *)
Definition saved : list reg := [R15; R14; R13; R12; RBP; RBX; R9; R8; RAX; RCX; RDX; RSI; RDI].

(** The words of the frame: registers, vector, error code and context. *)
Definition isr_frame (c : cpu) (v : Z) (err : option Z) (x : context) : list Z :=
  map (fun r => gpr r (regs c)) saved ++
  [v; default 0 err; c_rip x; c_cs x; c_rflags x; c_rsp x; c_ss x].

Lemma pushed_imms c lo hi vs : Forall2 (pushed c lo hi) (map Imm vs) vs.
Proof. induction vs; simpl; constructor; done. Qed.

Lemma pushed_regs c lo hi rs :
  RSP ∉ rs -> Forall2 (pushed c lo hi) (map Reg rs) (map (fun r => gpr r (regs c)) rs).
Proof.
  induction rs as [|r rs IH]; intros Hrs; simpl; constructor.
  - split; [|done]. intros ->. set_solver.
  - apply IH. set_solver.
Qed.

Lemma after_pushes_room c vs n :
  room (gpr RSP (regs c)) (length vs + n) (words c) ->
  room (gpr RSP (regs (after_pushes vs c))) n (words (after_pushes vs c)).
Proof.
  intros [Hk Hm]. unfold after_pushes. cbn [regs words]. rewrite set_gpr_same. split; [lia|].
  intros i Hi. rewrite stack_outside by lia.
  replace (_ - _ - _) with (gpr RSP (regs c) - 8 * Z.of_nat (S (length vs + i))) by lia. apply Hm. lia.
Qed.

Lemma words_after_pushes vs c : words (after_pushes vs c) = stack (gpr RSP (regs c)) vs (words c).
Proof. done. Qed.

Lemma rsp_after_pushes vs c :
  gpr RSP (regs (after_pushes vs c)) = gpr RSP (regs c) - 8 * Z.of_nat (length vs).
Proof. apply set_gpr_same. Qed.

Lemma gpr_after_pushes r vs c : r <> RSP -> gpr r (regs (after_pushes vs c)) = gpr r (regs c).
Proof. intros Hr. unfold after_pushes. cbn [regs]. by rewrite set_gpr_other. Qed.

Lemma load_gprs_set r a rs vs g :
  r ∉ rs -> load_gprs rs vs (set_gpr r a g) = set_gpr r a (load_gprs rs vs g).
Proof.
  revert vs g. induction rs as [|r' rs IH]; intros [|v vs] g Hr; try done. cbn [load_gprs].
  apply not_elem_of_cons in Hr as [Hne Hr]. rewrite (set_gpr_comm r') by done. by apply IH.
Qed.

(** The pops, the step over vector and error code, and the return. *)
Lemma exec_epilogue callee c vs w1 w2 x :
  length vs = 13%nat ->
  holds_words (words c) (gpr RSP (regs c))
    (vs ++ [w1; w2] ++ [c_rip x; c_cs x; c_rflags x; c_rsp x; c_ss x]) ->
  exec callee (map Pop saved ++ [AddI 16 RSP; Iretq]) 0 c =
  Done tt (set_resumed x (set_regs (set_gpr RSP (c_rsp x) (load_gprs saved vs (regs c))) c)) [].
Proof.
  intros Hl Hw. pose proof Hw as (H0 & H1 & _). rewrite length_app, Hl in H1. cbn [length app] in H1.
  apply holds_words_app in Hw as [Hv Hw]. rewrite Hl in Hw. apply holds_words_app in Hw as [_ Hw].
  rewrite exec_pops with (vs := vs); [|decide_done|done|done].
  rewrite load_gprs_set by decide_done. rewrite Hl. set (g := load_gprs saved vs (regs c)).
  change (exec callee [AddI 16 RSP; Iretq] 0) with (step callee (AddI 16 RSP);; exec callee [Iretq] 0).
  rewrite (bind_step _ _ _ tt (set_regs (set_gpr RSP (gpr RSP (regs c) + 120) g) c)).
  - rewrite (exec_iretq _ _ x).
    + cbn [exec]. unfold set_resumed, set_regs, mret, M_ret. cbn [regs words cr3_reg]. by rewrite set_gpr_set.
    + cbn [set_regs regs words]. rewrite set_gpr_same. cbn [length] in Hw.
      replace (gpr RSP (regs c) + 120) with (gpr RSP (regs c) + 8 * Z.of_nat 13 + 8 * Z.of_nat 2) by lia. exact Hw.
  - cbn [step]. erewrite bind_step by reflexivity. unfold reg_set, modify, set_regs. cbn [regs words cr3_reg resumed].
    rewrite set_gpr_same, set_gpr_set. do 2 f_equal. f_equal. unfold wrap. rewrite Z.mod_small; lia.
Qed.

Section isr.
Context (callee : symbol -> cpu -> cpu).
Context (HC : sysv callee sym_isr_handler_c 20).
Local Abbreviation run := (exec callee).

(** Up to the call: the frame is on the stack and RDI points to it. *)
Definition at_handler (top : Z) (c : cpu) (v : Z) (err : option Z) (x : context) : cpu :=
  let c' := after_pushes (reverse (isr_frame c v err x)) (set_regs (set_gpr RSP top (regs c)) c) in
  set_regs (set_gpr RDI (top - 160) (regs c')) c'.

Lemma isr_enters top c v err x :
  (is_Some err <-> v ∈ errcode_vectors) ->
  room top 20 (words c) ->
  (deliver callee top x err;; run (isr v) 0) c =
  run ([Call_ sym_isr_handler_c] ++ map Pop saved ++ [AddI 16 RSP; Iretq]) 0 (at_handler top c v err x).
Proof.
  intros He Hr. unfold deliver. rewrite bind_assoc. erewrite bind_step by reflexivity.
  set (c0 := set_regs (set_gpr RSP top (regs c)) c).
  assert (gpr RSP (regs c0) = top) as Esp by apply set_gpr_same.
  assert (room (gpr RSP (regs c0)) 20 (words c0)) as Hr0 by by rewrite Esp.
  set (vs0 := [c_ss x; c_rsp x; c_rflags x; c_cs x; c_rip x] ++ option_list err).
  erewrite bind_step.
  2: { rewrite <-(app_nil_r (map Push (map Imm vs0))). rewrite exec_pushes with (vs := vs0); [reflexivity|apply pushed_imms|].
       eapply room_shorter; [exact Hr0|]. unfold vs0. destruct err; simpl; lia. }
  set (mid := if bool_decide (v ∈ errcode_vectors) then [v] else [0; v]).
  assert (length vs0 + length mid = 7)%nat as Hlen.
  { unfold vs0, mid. case_bool_decide as Hv; destruct err; simpl; try done.
    - by destruct (proj2 He Hv).
    - destruct Hv. apply He. by eexists. }
  assert (isr v = [Cli] ++ map Push (map Imm mid) ++ isr_common_stub) as -> by (unfold isr, mid; by case_bool_decide).
  cbn [app]. cbn [exec step]. rewrite bind_ret_l.
  rewrite exec_pushes with (vs := mid); [|apply pushed_imms|].
  2: { apply after_pushes_room. eapply room_shorter; [exact Hr0|]. lia. }
  rewrite after_pushes_app. unfold isr_common_stub.
  change (map (Push ∘ Reg) ?l) with (map Push (map Reg l)).
  rewrite exec_pushes with (vs := map (fun r => gpr r (regs c)) (reverse saved)).
  - rewrite after_pushes_app.
    assert ((vs0 ++ mid) ++ map (fun r => gpr r (regs c)) (reverse saved) = reverse (isr_frame c v err x)) as ->.
    { unfold vs0, mid, isr_frame. case_bool_decide as Hv; destruct err; try reflexivity.
      - by destruct (proj2 He Hv).
      - destruct Hv. apply He. by eexists. }
    cbn [app exec step]. rewrite bind_assoc. erewrite bind_step by reflexivity. erewrite bind_step by reflexivity.
    unfold at_handler. fold c0. do 3 f_equal. unfold after_pushes at 1. cbn [regs].
    rewrite set_gpr_same, Esp. done.
  - assert (forall r, r <> RSP -> gpr r (regs (after_pushes (vs0 ++ mid) c0)) = gpr r (regs c)) as Eg.
    { intros r Hne. rewrite gpr_after_pushes by done. by apply set_gpr_other. }
    assert (map (fun r => gpr r (regs c)) (reverse saved) =
      map (fun r => gpr r (regs (after_pushes (vs0 ++ mid) c0))) (reverse saved)) as ->.
    { apply map_ext_in. intros r Hr'. rewrite Eg; [done|]. intros ->. vm_compute in Hr'. naive_solver. }
    apply pushed_regs. decide_done.
  - apply after_pushes_room. eapply room_shorter; [exact Hr0|]. rewrite length_app, length_map. change (length (reverse saved)) with 13%nat. lia.
Qed.

Lemma at_handler_frame top c v err x :
  room top 20 (words c) ->
  holds_words (words (at_handler top c v err x)) (top - 160) (isr_frame c v err x).
Proof.
  intros [Hr _]. unfold at_handler, after_pushes. cbn [regs words set_regs]. rewrite set_gpr_same.
  rewrite <-(reverse_involutive (isr_frame c v err x)) at 2.
  apply (stack_holds top (reverse (isr_frame c v err x)) (words c)). exact Hr.
Qed.

Lemma at_handler_gpr top c v err x r :
  gpr r (regs (at_handler top c v err x)) =
  if decide (r = RDI) then top - 160 else if decide (r = RSP) then top - 160 else gpr r (regs c).
Proof.
  unfold at_handler. cbn [regs set_regs]. destruct (decide (r = RDI)) as [->|Hd]; [by rewrite set_gpr_same|].
  rewrite set_gpr_other by done. destruct (decide (r = RSP)) as [->|Hs].
  - unfold after_pushes. cbn [regs set_regs]. by rewrite !set_gpr_same.
  - rewrite gpr_after_pushes by done. by apply set_gpr_other.
Qed.

(** Registers are equal when all sixteen are. *)
Lemma gprs_eq g g' : (forall r, gpr r g = gpr r g') -> g = g'.
Proof.
  intros H. destruct g, g'.
  f_equal; [apply (H RAX)|apply (H RBX)|apply (H RCX)|apply (H RDX)|apply (H RSI)|apply (H RDI)|apply (H RBP)
    |apply (H RSP)|apply (H R8)|apply (H R9)|apply (H R10)|apply (H R11)|apply (H R12)|apply (H R13)
    |apply (H R14)|apply (H R15)].
Qed.
End isr.

(** C16: An interrupt's stub hands the C handler the frame the handler reads
    (saved registers, vector, error code and the CPU's context, in that order)
    and returns to the interrupted instruction with the stack pointer, the
    flags and all general registers as they were, except R10 and R11: these
    two keep whatever the handler left in them.  For every handler that follows
    the calling convention and every vector whose stub agrees with the CPU
    about the error code. *)
Theorem isr_stub_restores callee top c v err x :
  sysv callee sym_isr_handler_c 20 ->
  (is_Some err <-> v ∈ errcode_vectors) ->
  c_rsp x = gpr RSP (regs c) ->
  room top 20 (words c) ->
  exists h c',
    gpr RDI (regs h) = gpr RSP (regs h) /\
    holds_words (words h) (gpr RDI (regs h)) (isr_frame c v err x) /\
    (deliver callee top x err;; exec callee (isr v) 0) c = Done tt c' [] /\
    resumed c' = Some x /\
    let after := regs (callee sym_isr_handler_c h) in
    regs c' = set_gpr R10 (gpr R10 after) (set_gpr R11 (gpr R11 after) (regs c)).
Proof.
  intros HC He Hx Hr. set (h := at_handler top c v err x).
  pose proof (at_handler_frame top c v err x Hr) as Hf. fold h in Hf.
  assert (forall r, gpr r (regs h) = _) as Hg by (intros r; apply at_handler_gpr).
  set (h' := callee sym_isr_handler_c h).
  assert (holds_words (words h') (gpr RSP (regs h')) (isr_frame c v err x)) as Hf'.
  { apply (sysv_holds _ _ 20); [done|done|]. rewrite Hg. exact Hf. }
  eexists h, _. split; [by rewrite !Hg|]. split; [rewrite Hg; exact Hf|]. split.
  { rewrite isr_enters by done. fold h.
    cbn [app]. cbn [exec step]. erewrite bind_step by reflexivity. fold h'.
    apply (exec_epilogue callee h' (map (fun r => gpr r (regs c)) saved) v (default 0 err) x); done. }
  split; [done|]. apply gprs_eq. intros r. cbn [set_resumed set_regs regs].
  pose proof (sysv_regs _ _ _ HC h) as Hk. fold h' in Hk.
  destruct r; cbn [saved map load_gprs]; read_gprs; done.
Qed.

(** A handler that uses R10 and R11 as scratch, as the convention allows. *)
Definition clobber (f : symbol) (c : cpu) : cpu :=
  set_regs (set_gpr RAX 7 (set_gpr R10 0xBAD (set_gpr R11 0xBAD (regs c)))) c.

Lemma clobber_sysv f n : sysv clobber f n.
Proof.
  split; intros c.
  - intros r Hr. unfold clobber. cbn [regs set_regs].
    rewrite !set_gpr_other; [done|intros <-; apply (bool_decide_eq_true_2 _) in Hr; vm_compute in Hr; discriminate..].
  - done.
  - done.
  - done.
Qed.

Definition mapped_words (base : Z) (n : nat) : gmap Z Z :=
  list_to_map (map (fun i => (base + 8 * Z.of_nat i, 0)) (seq 0 n)).

Definition sample_cpu : cpu :=
  Cpu_ (Gprs 1 2 3 4 5 6 7 0x3000 8 9 10 11 12 13 14 15)
    (mapped_words 0x1F00 32 ∪ mapped_words 0x2F00 32) 0x1000 None.
Definition sample_context : context := Context_ 0x400000 0x1B 0x202 0x3000 0x23.

Lemma sample_room k n :
  forallb (fun i => bool_decide (is_Some (words sample_cpu !! (k - 8 * Z.of_nat (S i))))) (seq 0 n) = true ->
  8 * Z.of_nat n <= k < 2 ^ 64 -> room k n (words sample_cpu).
Proof.
  intros Hb Hk. split; [done|]. intros i Hi. rewrite forallb_forall in Hb.
  apply (bool_decide_unpack _). apply Is_true_true. apply Hb. apply in_seq. lia.
Qed.

(** The timer interrupts a program that has a value in R10. *)
Lemma isr_stub_restores_witness :
  exists c', (deliver clobber 0x2000 sample_context None;; exec clobber (isr 32) 0) sample_cpu = Done tt c' [] /\
    resumed c' = Some sample_context /\
    gpr R9 (regs c') = gpr R9 (regs sample_cpu) /\ gpr R10 (regs c') = 0xBAD.
Proof.
  destruct (isr_stub_restores clobber 0x2000 sample_cpu 32 None sample_context) as (h & c' & _ & _ & E & Ex & Eg).
  - apply clobber_sysv.
  - split; [intros [? [=]]|]. intros H. apply (bool_decide_eq_true_2 _) in H. vm_compute in H. discriminate.
  - reflexivity.
  - apply sample_room; [vm_compute; reflexivity|split; vm_compute; done].
  - exists c'. split; [exact E|]. split; [exact Ex|]. rewrite Eg. split.
    + by rewrite !set_gpr_other.
    + rewrite set_gpr_same. unfold clobber. cbn [regs set_regs]. by rewrite set_gpr_other, set_gpr_same.
Defined.

(** ** System calls *)

Lemma exec_loads callee (dds : list (Z * reg)) b vs c l :
  b ∉ map snd dds ->
  Forall2 (fun dd v => words c !! (gpr b (regs c) ⊞ dd.1) = Some v) dds vs ->
  exec callee (map (fun dd => LoadM dd.1 b dd.2) dds ++ l) 0 c =
  exec callee l 0 (set_regs (load_gprs (map snd dds) vs (regs c)) c).
Proof.
  intros Hb H. revert vs c Hb H. induction dds as [|[d r] dds IH]; intros vs c Hb H; inversion H as [|? v ? vs' Hv Hvs]; subst vs.
  - destruct c as [g m c3 x]. done.
  - cbn [map app snd] in *. apply not_elem_of_cons in Hb as [Hne Hb]. cbn [fst snd] in Hv.
    cbn [exec step]. rewrite bind_assoc. erewrite bind_step by reflexivity. rewrite bind_assoc.
    erewrite bind_step by (unfold mem_ld; cbn [fst]; rewrite Hv; reflexivity).
    erewrite bind_step by reflexivity.
    rewrite (IH vs'); [reflexivity|done|]. eapply Forall2_impl; [exact Hvs|]. intros dd w Hw.
    cbn [set_regs regs words]. by rewrite set_gpr_other.
Qed.

(** The registers [syscall_entry] pushes on the user stack, in order. *)
Definition user_saved : list reg :=
  [RAX; R11; RCX; RDI; RSI; RDX; R10; R8; R9; RBX; RBP; R12; R13; R14; R15].

(** The next operand is entry [i] of the registers on the user stack. *)
Ltac user_op H i := apply Forall2_cons; split; [apply (H i); [done|done|done|lia|lia]|].

Section syscall.
Context (callee : symbol -> cpu -> cpu) (c : cpu) (k : Z).
Local Abbreviation run := (exec callee).
Local Abbreviation u := (gpr RSP (regs c)).
Local Abbreviation usr r := (gpr r (regs c)).
Context (Hrsp0 : sysv callee sym_tss_get_rsp0 15).
Context (Hk : forall c, gpr RAX (regs (callee sym_tss_get_rsp0 c)) = k).
Context (Hu : room u 15 (words c)) (Hks : room k 21 (words c)).
Context (Hapart : k <= u - 120 \/ u <= k - 168).

(** The user registers can be read back from the user stack. *)
Definition user_words (m : gmap Z Z) : Prop :=
  forall i r, user_saved !! i = Some r -> m !! (u - 8 * Z.of_nat (S i)) = Some (usr r).

Lemma user_words_stack vs m :
  user_words m -> (length vs <= 21)%nat -> user_words (stack k vs m).
Proof.
  intros Hm Hl i r Hi. rewrite stack_outside; [by apply Hm|].
  apply lookup_lt_Some in Hi. change (length user_saved) with 15%nat in Hi. lia.
Qed.

(** The state after the second phase: on the kernel stack, R15 the user's stack
    pointer. *)
Definition on_kernel_stack : cpu :=
  let c1 := after_pushes (map (fun r => usr r) user_saved) c in
  let c2 := callee sym_tss_get_rsp0 (set_regs (set_gpr R15 u (regs c1)) c1) in
  set_regs (set_gpr RSP k (regs c2)) c2.

Lemma on_kernel_stack_ok :
  gpr RSP (regs on_kernel_stack) = k /\ gpr R15 (regs on_kernel_stack) = u /\
  user_words (words on_kernel_stack) /\ room k 21 (words on_kernel_stack).
Proof.
  unfold on_kernel_stack. set (c1 := set_regs _ (after_pushes _ c)).
  assert (gpr RSP (regs c1) = u - 120) as E1.
  { unfold c1. cbn [regs set_regs]. rewrite set_gpr_other by done. unfold after_pushes. cbn [regs]. by rewrite set_gpr_same. }
  cbn [regs words set_regs]. rewrite set_gpr_same, set_gpr_other by done. split_and!; [done| | |].
  - rewrite (sysv_regs _ _ _ Hrsp0) by decide_done. unfold c1. cbn [regs set_regs]. apply set_gpr_same.
  - intros i r Hi. pose proof (lookup_lt_Some _ _ _ Hi) as Hl. change (length user_saved) with 15%nat in Hl.
    replace (u - 8 * Z.of_nat (S i)) with (gpr RSP (regs c1) + 8 * Z.of_nat (14 - i)) by lia.
    rewrite (sysv_frame _ _ _ Hrsp0) by lia.
    replace (gpr RSP (regs c1) + 8 * Z.of_nat (14 - i)) with (u - 8 * Z.of_nat (S i)) by lia.
    apply stack_lookup. by rewrite list_lookup_fmap, Hi.
  - destruct Hks as [Hk1 Hk2]. split; [done|]. intros i Hi. apply (sysv_mapped _ _ _ Hrsp0).
    unfold c1, after_pushes. cbn [words set_regs]. destruct (decide (k <= u - 120)).
    + rewrite stack_outside by (change (length (map (fun r => usr r) user_saved)) with 15%nat; lia). by apply Hk2.
    + rewrite stack_outside by (change (length (map (fun r => usr r) user_saved)) with 15%nat; lia). by apply Hk2.
Qed.

(** The words of the kernel stack, in the order they are pushed. *)
Definition syscall_frame : list Z :=
  map (fun r => usr r) [R15; R14; R13; R12; RBP; RBX; R9; R8; RAX; RCX; RDX; RSI; RDI] ++
  [0x80; 0; usr RCX; 0x1B; usr R11; u; 0x23].

(** A word of the user stack as an operand. *)
Lemma user_operand c' lo hi i r :
  gpr R15 (regs c') = u -> user_words (words c') -> user_saved !! i = Some r ->
  k - 168 <= lo -> hi <= k ->
  pushed c' lo hi (Mem (- (8 * Z.of_nat (S i))) R15) (usr r).
Proof.
  intros E15 Hw Hi Hlo Hhi. pose proof (lookup_lt_Some _ _ _ Hi) as Hl. change (length user_saved) with 15%nat in Hl.
  assert (gpr R15 (regs c') ⊞ - (8 * Z.of_nat (S i)) = u - 8 * Z.of_nat (S i)) as Ea.
  { rewrite E15. unfold wrap. rewrite Z.mod_small; [lia|]. destruct Hu. lia. }
  cbn [pushed]. rewrite Ea. split_and!; [done|by apply Hw|lia].
Qed.

(** At the call of the dispatcher: the arguments are in place. *)
Definition at_dispatch : cpu :=
  let c3 := after_pushes syscall_frame on_kernel_stack in
  after_pushes [usr R9]
    (set_regs (load_gprs [RDI; RSI; RDX; RCX; R8; R9; RAX]
       (map (fun r => usr r) [RAX; RDI; RSI; RDX; R10; R8; R9]) (regs c3)) c3).

Lemma user_load c' i r :
  gpr R15 (regs c') = u -> user_words (words c') -> user_saved !! i = Some r ->
  words c' !! (gpr R15 (regs c') ⊞ - (8 * Z.of_nat (S i))) = Some (usr r).
Proof.
  intros E15 Hw Hi.
  destruct (user_operand c' k k i r E15 Hw Hi) as (_ & E & _); [lia..|exact E].
Qed.

Lemma syscall_calls :
  run syscall_entry 0 c =
  run ([Call_ sym_syscall_dispatch; AddI 8 RSP; StoreM RAX 0x78 RSP] ++ map Pop saved ++ [AddI 16 RSP; Iretq])
    0 at_dispatch.
Proof.
  destruct on_kernel_stack_ok as (Esp & E15 & Hw & Hr).
  match goal with |- _ = ?r => set (rhs := r) end.
  unfold syscall_entry. change (map (Push ∘ Reg) ?l) with (map Push (map Reg l)).
  rewrite exec_pushes with (vs := map (fun r => usr r) user_saved); [|by apply pushed_regs; decide_done|exact Hu].
  cbn [app]. cbn [exec step].
  rewrite bind_assoc. erewrite bind_step by reflexivity. erewrite bind_step by reflexivity.
  erewrite bind_step by reflexivity. rewrite bind_assoc. erewrite bind_step by reflexivity. erewrite bind_step by reflexivity.
  cbn [regs set_regs].
  assert (gpr RSP (regs (after_pushes (map (fun r => usr r) user_saved) c)) ⊞ 120 = u) as ->.
  { unfold after_pushes. cbn [regs]. rewrite set_gpr_same. change (length _) with 15%nat.
    unfold wrap. rewrite Z.mod_small; destruct Hu; lia. }
  rewrite Hk. fold on_kernel_stack.
  rewrite exec_pushes with (vs := syscall_frame); rewrite ?Esp; [| |eapply room_shorter; [exact Hr|simpl; lia]].
  2: { change (length syscall_frame) with 20%nat. pose proof (user_operand on_kernel_stack (k - 160) k) as Hop.
    user_op Hop 14%nat. user_op Hop 13%nat. user_op Hop 12%nat. user_op Hop 11%nat. user_op Hop 10%nat. user_op Hop 9%nat. user_op Hop 8%nat.
    user_op Hop 7%nat. user_op Hop 0%nat. user_op Hop 2%nat. user_op Hop 5%nat. user_op Hop 4%nat. user_op Hop 3%nat.
    do 2 (apply Forall2_cons; split; [done|]). user_op Hop 2%nat. apply Forall2_cons; split; [done|].
    user_op Hop 1%nat. apply Forall2_cons; split; [done|]. by repeat constructor. }
  set (c3 := after_pushes syscall_frame on_kernel_stack).
  assert (gpr R15 (regs c3) = u) as E15' by (unfold c3; by rewrite gpr_after_pushes).
  assert (user_words (words c3)) as Hw'.
  { unfold c3, after_pushes. cbn [words]. rewrite Esp. apply user_words_stack; [done|simpl; lia]. }
  change (LoadM (-8) R15 RDI :: ?l) with
    (map (fun dd => LoadM dd.1 R15 dd.2)
      [(-8, RDI); (-32, RSI); (-40, RDX); (-48, RCX); (-56, R8); (-64, R9); (-72, RAX)] ++ drop 6 l).
  rewrite exec_loads with (vs := map (fun r => usr r) [RAX; RDI; RSI; RDX; R10; R8; R9]); [|decide_done|].
  2: { repeat (apply Forall2_cons; split); [| | | | | | |by constructor]; cbn [fst].
    - by apply (user_load c3 0).
    - by apply (user_load c3 3).
    - by apply (user_load c3 4).
    - by apply (user_load c3 5).
    - by apply (user_load c3 6).
    - by apply (user_load c3 7).
    - by apply (user_load c3 8). }
  change (drop 6 (_ :: _ :: _ :: _ :: _ :: _ :: ?l)) with l.
  set (c4 := set_regs _ c3).
  assert (gpr RSP (regs c4) = gpr RSP (regs c3)) as Esp4.
  { unfold c4. cbn [regs set_regs map load_gprs]. by rewrite !set_gpr_other. }
  rewrite exec_pushes with (vs := [usr R9]).
  - reflexivity.
  - constructor; [|constructor]. split; [done|]. unfold c4. cbn [regs set_regs map load_gprs snd]. by rewrite set_gpr_same.
  - rewrite Esp4. unfold c4, c3. cbn [words set_regs].
    apply (after_pushes_room _ _ 1). rewrite Esp. eapply room_shorter; [exact Hr|]. simpl. lia.
Qed.

Lemma holds_words_insert m sp vs i v :
  holds_words m sp vs -> (i < length vs)%nat ->
  holds_words (<[sp + 8 * Z.of_nat i := v]> m) sp (<[i := v]> vs).
Proof.
  intros (H0 & H1 & H2) Hi. split_and!; [done|by rewrite length_insert|]. intros j w Hj.
  destruct (decide (i = j)) as [<-|Hne].
  - rewrite list_lookup_insert_eq in Hj by done. simplify_eq. apply lookup_insert_eq.
  - rewrite list_lookup_insert_ne in Hj by done. rewrite lookup_insert_ne by lia. by apply H2.
Qed.

Lemma at_dispatch_words :
  gpr RSP (regs at_dispatch) = k - 168 /\
  holds_words (words at_dispatch) (k - 168) (usr R9 :: reverse syscall_frame).
Proof.
  destruct on_kernel_stack_ok as (Esp & _ & _ & [Hr _]).
  unfold at_dispatch. set (c3 := after_pushes syscall_frame on_kernel_stack).
  set (c4 := set_regs _ c3).
  assert (gpr RSP (regs c3) = k - 160) as Esp3 by (unfold c3; rewrite rsp_after_pushes, Esp; reflexivity).
  assert (gpr RSP (regs c4) = gpr RSP (regs c3)) as Esp4.
  { unfold c4. cbn [regs set_regs map load_gprs]. by rewrite !set_gpr_other. }
  split; [rewrite rsp_after_pushes, Esp4, Esp3; simpl; lia|].
  rewrite words_after_pushes, Esp4. change (words c4) with (words c3).
  rewrite <-words_after_pushes. unfold c3. rewrite after_pushes_app, words_after_pushes, Esp.
  replace (k - 168) with (k - 8 * Z.of_nat (length (syscall_frame ++ [usr R9]))) by (simpl; lia).
  pose proof (stack_holds k (syscall_frame ++ [usr R9]) (words on_kernel_stack)) as Hh.
  rewrite reverse_app in Hh. apply Hh. simpl. lia.
Qed.
End syscall.

(** C18: The system call entry hands the dispatcher the call number and the
    six arguments of the user's registers, but does not return to the user: it
    pops the words of its own return frame into the general registers, so that
    [iretq] jumps to the dispatcher's result with the user's R12 as code
    segment, R13 as flags, R14 as stack pointer and R15 as stack segment, and
    the address to return to ends in RBP. *)
Theorem syscall_entry_returns_to_result callee c k :
  sysv callee sym_tss_get_rsp0 15 -> sysv callee sym_syscall_dispatch 21 ->
  (forall c, gpr RAX (regs (callee sym_tss_get_rsp0 c)) = k) ->
  room (gpr RSP (regs c)) 15 (words c) -> room k 21 (words c) ->
  k <= gpr RSP (regs c) - 120 \/ gpr RSP (regs c) <= k - 168 ->
  exists d c',
    map (fun r => gpr r (regs d)) [RDI; RSI; RDX; RCX; R8; R9] =
      map (fun r => gpr r (regs c)) [RAX; RDI; RSI; RDX; R10; R8] /\
    words d !! gpr RSP (regs d) = Some (gpr R9 (regs c)) /\
    exec callee syscall_entry 0 c = Done tt c' [] /\
    resumed c' = Some (Context_ (gpr RAX (regs (callee sym_syscall_dispatch d)))
      (gpr R12 (regs c)) (gpr R13 (regs c)) (gpr R14 (regs c)) (gpr R15 (regs c))) /\
    gpr RBP (regs c') = gpr RCX (regs c).
Proof.
  intros Hrsp0 Hdisp Hk Hu Hks Hap. set (d := at_dispatch callee c k).
  destruct (at_dispatch_words callee c k Hrsp0 Hks Hap) as [Esp Hw]. fold d in Esp, Hw.
  set (d' := callee sym_syscall_dispatch d).
  assert (holds_words (words d') (gpr RSP (regs d')) (gpr R9 (regs c) :: reverse (syscall_frame c))) as Hw'.
  { apply (sysv_holds _ _ 21); [done|simpl; lia|by rewrite Esp]. }
  apply holds_words_tail in Hw'.
  assert (gpr RSP (regs d') = k - 168) as Esp' by (unfold d'; rewrite (sysv_regs _ _ _ Hdisp) by decide_done; exact Esp).
  rewrite Esp' in Hw'. replace (k - 168 + 8) with (k - 160) in Hw' by lia.
  pose proof Hks as [Hkb _].
  apply (holds_words_insert _ _ _ 15 (gpr RAX (regs d'))) in Hw'; [|simpl; lia].
  replace (k - 160 + 8 * Z.of_nat 15) with (k - 40) in Hw' by lia.
  assert (is_Some (words d' !! (k - 40))) as [w Ew].
  { replace (k - 40) with (gpr RSP (regs d) + 8 * Z.of_nat 16) by (rewrite Esp; lia).
    unfold d'. rewrite (sysv_frame _ _ _ Hdisp) by lia. destruct Hw as (_ & _ & Hw).
    rewrite Esp. eexists. by apply (Hw 16%nat). }
  exists d. eexists. split_and!.
  - unfold d, at_dispatch. cbn [map]. rewrite !gpr_after_pushes by done.
    cbn [regs set_regs map load_gprs]. read_gprs. done.
  - rewrite Esp. destruct Hw as (_ & _ & Hw). rewrite <-(Hw 0%nat _ eq_refl). f_equal. lia.
  - rewrite (syscall_calls callee c k Hrsp0 Hk Hu Hks Hap). fold d. cbn [app]. cbn [exec step].
    erewrite bind_step by reflexivity. fold d'. rewrite bind_assoc. erewrite bind_step by reflexivity.
    erewrite bind_step by reflexivity. rewrite bind_assoc. erewrite bind_step by reflexivity.
    rewrite bind_assoc. erewrite bind_step by reflexivity.
    cbn [regs set_regs]. rewrite set_gpr_same, Esp'.
    replace (k - 168 ⊞ 8 ⊞ 120) with (k - 40) by (unfold wrap; rewrite !Z.mod_small; rewrite ?Z.mod_small; lia).
    erewrite bind_step by (unfold mem_sd; cbn [words set_regs]; rewrite Ew; reflexivity).
    rewrite set_gpr_other by done.
    apply (exec_epilogue callee _
      ([0x23; gpr RSP (regs c); gpr R11 (regs c); 0x1B; gpr RCX (regs c); 0; 0x80] ++
       map (fun r => gpr r (regs c)) [RDI; RSI; RDX; RCX; RAX; R8])
      (gpr R9 (regs c)) (gpr RBX (regs c))
      (Context_ (gpr RAX (regs d')) (gpr R12 (regs c)) (gpr R13 (regs c)) (gpr R14 (regs c)) (gpr R15 (regs c))));
      [done|].
    cbn [regs words set_words set_regs]. rewrite set_gpr_same.
    replace (k - 168 ⊞ 8) with (k - 160) by (unfold wrap; rewrite Z.mod_small; lia). exact Hw'.
  - reflexivity.
  - cbn [regs set_regs set_resumed saved map load_gprs app]. by read_gprs.
Qed.

(** The registers of a user program that calls [sys_test], on a machine whose
    kernel stack ends at 0x2000. *)
Definition test_callee (f : symbol) (c : cpu) : cpu :=
  let result := if decide (f = sym_tss_get_rsp0) then 0x2000 else 0xDEAD in
  set_regs (set_gpr RAX result (regs c)) c.

Lemma test_callee_sysv f n : sysv test_callee f n.
Proof.
  split; intros c; [|done..]. intros r Hr. unfold test_callee. cbn [regs set_regs].
  rewrite set_gpr_other; [done|intros <-; apply (bool_decide_eq_true_2 _) in Hr; vm_compute in Hr; discriminate].
Qed.

Lemma syscall_entry_returns_to_result_witness :
  exists c', exec test_callee syscall_entry 0 sample_cpu = Done tt c' [] /\
    resumed c' = Some (Context_ 0xDEAD 12 13 14 15).
Proof.
  destruct (syscall_entry_returns_to_result test_callee sample_cpu 0x2000) as (d & c' & _ & _ & E & Ex & _).
  - apply test_callee_sysv.
  - apply test_callee_sysv.
  - intros c. unfold test_callee. cbn [regs set_regs]. by rewrite set_gpr_same.
  - apply sample_room; [vm_compute; reflexivity|split; vm_compute; done].
  - apply sample_room; [vm_compute; reflexivity|split; vm_compute; done].
  - left. vm_compute. done.
  - exists c'. split; [exact E|]. rewrite Ex. unfold test_callee. cbn [regs set_regs]. by rewrite set_gpr_same.
Defined.

(** ** Entering ring 3 *)

(** The task [t] the stub runs for, as its control block describes it. *)
Record user_task (m : gmap Z Z) (t kstack cr3 rip rsp rflags : Z) : Prop := {
  ut_kstack : m !! (t ⊞ T_KSTACK) = Some kstack;
  ut_cr3 : m !! (t ⊞ T_CR3) = Some cr3;
  ut_rip : m !! (t ⊞ T_USER_RIP) = Some rip;
  ut_rsp : m !! (t ⊞ T_USER_RSP) = Some rsp;
  ut_rflags : m !! (t ⊞ T_USER_RFLAGS) = Some rflags;
}.

(** What the stub relies on: [task_current] answers [t], [tss_set_rsp0] stores
    its argument in the TSS (at [a0]), neither touches the control block. *)
Record runtime (callee : symbol -> cpu -> cpu) (t a0 : Z) : Prop := {
  rt_current : sysv callee sym_task_current 1;
  rt_set : sysv callee sym_tss_set_rsp0 1;
  rt_result : forall c, gpr RAX (regs (callee sym_task_current c)) = t;
  rt_store : forall c, gpr RSP (regs c) <> a0 ->
    words (callee sym_tss_set_rsp0 c) !! a0 = Some (gpr RDI (regs c));
  rt_same : forall c, words (callee sym_task_current c) !! a0 = words c !! a0;
  rt_tcb : forall f c a, f ∈ [sym_task_current; sym_tss_set_rsp0] ->
    a ∈ map (fun d => t ⊞ d) [T_KSTACK; T_CR3; T_USER_RIP; T_USER_RSP; T_USER_RFLAGS] ->
    words (callee f c) !! a = words c !! a;
}.

Lemma exec_load callee d b dst v c l :
  words c !! (gpr b (regs c) ⊞ d) = Some v ->
  exec callee (LoadM d b dst :: l) 0 c = exec callee l 0 (set_regs (set_gpr dst v (regs c)) c).
Proof.
  intros Hv. cbn [exec step]. rewrite bind_assoc. erewrite bind_step by reflexivity. rewrite bind_assoc.
  erewrite bind_step by (unfold mem_ld; rewrite Hv; reflexivity). by erewrite bind_step by reflexivity.
Qed.

Lemma exec_call callee f c l : exec callee (Call_ f :: l) 0 c = exec callee l 0 (callee f c).
Proof. cbn [exec step]. by erewrite bind_step by reflexivity. Qed.

Lemma exec_jz callee r n c l :
  exec callee (JzSkip r n :: l) 0 c = exec callee l (if gpr r (regs c) =? 0 then n else O) c.
Proof. cbn [exec]. by erewrite bind_step by reflexivity. Qed.

Lemma exec_or callee v r c l :
  exec callee (OrI v r :: l) 0 c = exec callee l 0 (set_regs (set_gpr r (Z.lor (gpr r (regs c)) v) (regs c)) c).
Proof. cbn [exec step]. rewrite bind_assoc. erewrite bind_step by reflexivity. by erewrite bind_step by reflexivity. Qed.

Lemma exec_add callee v r c l :
  exec callee (AddI v r :: l) 0 c = exec callee l 0 (set_regs (set_gpr r (gpr r (regs c) ⊞ v) (regs c)) c).
Proof. cbn [exec step]. rewrite bind_assoc. erewrite bind_step by reflexivity. by erewrite bind_step by reflexivity. Qed.

Lemma exec_cr3 callee r c l :
  exec callee (MovCr3 r :: l) 0 c = exec callee l 0 (set_cr3 (gpr r (regs c)) c).
Proof. cbn [exec step]. rewrite bind_assoc. erewrite bind_step by reflexivity. by erewrite bind_step by reflexivity. Qed.

Section enter.
Context (callee : symbol -> cpu -> cpu) (t a0 kstack cr3 rip rsp rflags : Z).
Context (HR : runtime callee t a0).
Local Abbreviation run := (exec callee).

Lemma user_task_call f c :
  f ∈ [sym_task_current; sym_tss_set_rsp0] -> user_task (words c) t kstack cr3 rip rsp rflags ->
  user_task (words (callee f c)) t kstack cr3 rip rsp rflags.
Proof.
  intros Hf [H1 H2 H3 H4 H5].
  split; (rewrite (rt_tcb _ _ _ HR); [done|done|]); apply list_elem_of_fmap; eexists; (split; [reflexivity|decide_done]).
Qed.

Lemma room_call f n sp c : sysv callee f n -> room sp 6 (words c) -> room sp 6 (words (callee f c)).
Proof. intros Hf [H1 H2]. split; [done|]. intros i Hi. by apply (sysv_mapped _ _ _ Hf), H2. Qed.

(** From the second read of the control block on. *)
Lemma enter_return c :
  user_task (words c) t kstack cr3 rip rsp rflags -> room (gpr RSP (regs c)) 6 (words c) ->
  ~ (gpr RSP (regs c) - 48 <= a0 < gpr RSP (regs c)) ->
  gpr RAX (regs c) = t ->
  exists c',
    run ([LoadM T_USER_RFLAGS RAX R11; OrI 0x200 R11; LoadM T_USER_RSP RAX R10; LoadM T_USER_RIP RAX R9] ++
         map Push [Imm 0x23; Reg R10; Reg R11; Imm 0x1B; Reg R9] ++ [Iretq]) 0 c = Done tt c' [] /\
    resumed c' = Some (Context_ rip 0x1B (Z.lor rflags 0x200) rsp 0x23) /\
    cr3_reg c' = cr3_reg c /\ words c' !! a0 = words c !! a0.
Proof.
  intros [_ _ H3 H4 H5] Hr Ha0 Et. pose proof Hr as [Hrb _]. cbn [app].
  rewrite (exec_load _ _ _ _ rflags) by by rewrite Et.
  rewrite exec_or. cbn [regs set_regs words]. rewrite set_gpr_same, set_gpr_set.
  rewrite (exec_load _ _ _ _ rsp) by (cbn [regs set_regs words]; read_gprs; by rewrite Et).
  cbn [regs set_regs words].
  rewrite (exec_load _ _ _ _ rip) by (cbn [regs set_regs words]; read_gprs; by rewrite Et).
  cbn [regs set_regs words cr3_reg resumed].
  set (c1 := set_regs (set_gpr R9 rip _) _).
  assert (gpr RSP (regs c1) = gpr RSP (regs c)) as Esp by (unfold c1; cbn [regs set_regs]; by read_gprs).
  rewrite exec_pushes with (vs := [0x23; rsp; Z.lor rflags 0x200; 0x1B; rip]).
  - rewrite (exec_iretq callee _ (Context_ rip 0x1B (Z.lor rflags 0x200) rsp 0x23)).
    + eexists. split; [reflexivity|]. split; [reflexivity|]. split; [reflexivity|].
      cbn [set_resumed set_regs words]. rewrite words_after_pushes, Esp.
      rewrite stack_outside by (change (length _) with 5%nat; lia). done.
    + rewrite rsp_after_pushes, words_after_pushes, Esp. change (length _) with 5%nat.
      apply (stack_holds (gpr RSP (regs c)) [0x23; rsp; Z.lor rflags 0x200; 0x1B; rip]).
      change (length _) with 5%nat. lia.
  - unfold c1. cbn [regs set_regs].
    repeat (apply Forall2_cons; split; [first [reflexivity|split; [done|cbn [regs set_regs]; by read_gprs]]|]).
    constructor.
  - rewrite Esp. eapply room_shorter; [exact Hr|]. simpl. lia.
Qed.

(** The part of the state the stub's steps keep. *)
Record entering (sp : Z) (c0 c : cpu) : Prop := {
  en_task : user_task (words c) t kstack cr3 rip rsp rflags;
  en_rax : gpr RAX (regs c) = t;
  en_rsp : gpr RSP (regs c) = sp;
  en_room : room sp 6 (words c);
  en_cr3 : cr3_reg c = cr3_reg c0;
}.

Lemma entering_call c0 c sp :
  user_task (words c) t kstack cr3 rip rsp rflags -> gpr RSP (regs c) = sp -> room sp 6 (words c) ->
  cr3_reg c = cr3_reg c0 -> entering sp c0 (callee sym_task_current c).
Proof.
  intros Ht Es Hr Ec. pose proof (rt_current _ _ _ HR) as Hcur. split.
  - by apply user_task_call; [set_solver|].
  - apply (rt_result _ _ _ HR).
  - rewrite (sysv_regs _ _ _ Hcur); [done|decide_done].
  - by eapply room_call.
  - by rewrite (proj1 (sysv_control _ _ _ Hcur c)).
Qed.

(** The first branch: RSP0 of the TSS. *)
Lemma enter_sets_stack c0 c sp rest :
  entering sp c0 c -> gpr RDI (regs c) = kstack ->
  ~ (sp - 48 <= a0 < sp) ->
  (forall a, a ∈ map (fun d => t ⊞ d) [T_KSTACK; T_CR3; T_USER_RIP; T_USER_RSP; T_USER_RFLAGS] ->
    ~ (sp - 48 <= a < sp)) ->
  exists c',
    run (AddI KERNEL_STACK_SIZE RDI :: Push (Reg RAX) :: Call_ sym_tss_set_rsp0 :: Pop RAX :: rest)
      (if kstack =? 0 then 4%nat else 0%nat) c = run rest 0 c' /\
    entering sp c0 c' /\
    words c' !! a0 = (if kstack =? 0 then words c !! a0 else Some (kstack ⊞ KERNEL_STACK_SIZE)).
Proof.
  intros [Ht Et Es Hr Ec] Ed Ha0 Hap. pose proof (rt_set _ _ _ HR) as Hset. pose proof Hr as [Hrb _].
  destruct (kstack =? 0); [by exists c|].
  rewrite exec_add, Ed. set (c1 := set_regs _ c).
  assert (gpr RSP (regs c1) = sp) as Es1 by (unfold c1; cbn [regs set_regs]; by read_gprs).
  change (Push (Reg RAX) :: ?l) with (map Push [Reg RAX] ++ l).
  rewrite exec_pushes with (vs := [t]).
  2: { constructor; [|constructor]. split; [done|]. unfold c1. cbn [regs set_regs]. by read_gprs. }
  2: { rewrite Es1. eapply room_shorter; [exact Hr|]. simpl. lia. }
  set (c2 := after_pushes [t] c1).
  assert (gpr RSP (regs c2) = sp - 8) as Es2 by (unfold c2; rewrite rsp_after_pushes, Es1; simpl; lia).
  assert (words c2 = <[sp - 8 := t]> (words c)) as Ew2 by (unfold c2; rewrite words_after_pushes, Es1; reflexivity).
  assert (user_task (words c2) t kstack cr3 rip rsp rflags) as Ht2.
  { rewrite Ew2. destruct Ht. split; (rewrite lookup_insert_ne; [done|]); intros E;
      (eapply (Hap (sp - 8)); [rewrite E; apply list_elem_of_fmap; eexists; (split; [reflexivity|decide_done])|lia]). }
  rewrite exec_call. set (c3 := callee sym_tss_set_rsp0 c2).
  assert (gpr RSP (regs c3) = sp - 8) as Es3 by (unfold c3; rewrite (sysv_regs _ _ _ Hset); [done|decide_done]).
  change (Pop RAX :: rest) with (map Pop [RAX] ++ rest).
  rewrite exec_pops with (vs := [t]); [|decide_done|done|].
  2: { apply (sysv_holds _ _ 1); [done|simpl; lia|]. rewrite Es2, Ew2. split_and!; [lia|simpl; lia|].
    intros [|i] v Hi; [|done]. simplify_eq/=. rewrite Z.add_0_r. apply lookup_insert_eq. }
  eexists. split; [reflexivity|]. split; [split|].
  - cbn [words set_regs]. unfold c3. by apply user_task_call; [set_solver|].
  - cbn [regs set_regs load_gprs]. by read_gprs.
  - cbn [regs set_regs load_gprs]. read_gprs. rewrite Es3. simpl. lia.
  - cbn [words set_regs]. unfold c3. eapply room_call; [exact Hset|]. rewrite Ew2. destruct Hr as [_ Hr].
    split; [done|]. intros i Hi. destruct (decide (i = 0)%nat) as [->|].
    + replace (sp - 8 * Z.of_nat 1) with (sp - 8) by lia. rewrite lookup_insert_eq. by eexists.
    + rewrite lookup_insert_ne by lia. by apply Hr.
  - cbn [cr3_reg set_regs]. unfold c3. by rewrite (proj1 (sysv_control _ _ _ Hset c2)).
  - cbn [words set_regs]. unfold c3. rewrite (rt_store _ _ _ HR) by (rewrite Es2; lia). unfold c2.
    rewrite gpr_after_pushes by done. unfold c1. cbn [regs set_regs]. by rewrite set_gpr_same.
Qed.
End enter.

(** C17: [enter_user_mode] enters ring 3 at the task's instruction and stack
    pointer with interrupts enabled, in the task's address space when it has
    one, with the stack for the next interrupt from ring 3 at the top of the
    task's kernel stack. *)
Theorem enter_user_mode_enters callee c t a0 kstack cr3 rip rsp rflags :
  runtime callee t a0 ->
  user_task (words c) t kstack cr3 rip rsp rflags ->
  room (gpr RSP (regs c)) 6 (words c) ->
  ~ (gpr RSP (regs c) - 48 <= a0 < gpr RSP (regs c)) ->
  (forall a, a ∈ map (fun d => t ⊞ d) [T_KSTACK; T_CR3; T_USER_RIP; T_USER_RSP; T_USER_RFLAGS] ->
    ~ (gpr RSP (regs c) - 48 <= a < gpr RSP (regs c))) ->
  exists c',
    exec callee enter_user_mode 0 c = Done tt c' [] /\
    resumed c' = Some (Context_ rip 0x1B (Z.lor rflags 0x200) rsp 0x23) /\
    cr3_reg c' = (if cr3 =? 0 then cr3_reg c else cr3) /\
    words c' !! a0 = (if kstack =? 0 then words c !! a0 else Some (kstack ⊞ KERNEL_STACK_SIZE)).
Proof.
  intros HR Ht Hr Ha0 Hap. unfold enter_user_mode. cbn [app].
  rewrite exec_call. set (c1 := callee sym_task_current c).
  pose proof (entering_call callee t a0 kstack cr3 rip rsp rflags HR c c _ Ht eq_refl Hr eq_refl) as H1. fold c1 in H1.
  rewrite (exec_load _ _ _ _ kstack) by (rewrite (en_rax _ _ _ _ _ _ _ _ _ H1); apply (en_task _ _ _ _ _ _ _ _ _ H1)).
  set (c2 := set_regs _ c1). rewrite exec_jz.
  assert (gpr RDI (regs c2) = kstack) as Ed2 by (unfold c2; cbn [regs set_regs]; by read_gprs). rewrite Ed2.
  assert (entering t kstack cr3 rip rsp rflags (gpr RSP (regs c)) c c2) as H2.
  { destruct H1. split; unfold c2; cbn [regs set_regs words cr3_reg]; read_gprs; done. }
  destruct (enter_sets_stack callee t a0 kstack cr3 rip rsp rflags HR c c2 _
    (LoadM T_CR3 RAX RDI :: JzSkip RDI 1 :: MovCr3 RDI :: Call_ sym_task_current ::
     [LoadM T_USER_RFLAGS RAX R11; OrI 0x200 R11; LoadM T_USER_RSP RAX R10; LoadM T_USER_RIP RAX R9] ++
     map Push [Imm 0x23; Reg R10; Reg R11; Imm 0x1B; Reg R9] ++ [Iretq]) H2 Ed2 Ha0 Hap) as (c3 & E3 & H3 & Ea3).
  cbn [app] in E3. rewrite E3. destruct H3 as [Ht3 Et3 Es3 Hr3 Ec3].
  rewrite (exec_load _ _ _ _ cr3) by (rewrite Et3; apply Ht3). rewrite exec_jz.
  cbn [regs set_regs]. rewrite set_gpr_same.
  set (c4 := if cr3 =? 0 then set_regs (set_gpr RDI cr3 (regs c3)) c3
             else set_cr3 cr3 (set_regs (set_gpr RDI cr3 (regs c3)) c3)).
  match goal with |- context [exec callee (MovCr3 RDI :: ?l) ?n ?x] =>
    assert (exec callee (MovCr3 RDI :: l) n x = exec callee l 0 c4) as -> end.
  { unfold c4. destruct (cr3 =? 0); [done|]. rewrite exec_cr3. cbn [regs set_regs]. by rewrite set_gpr_same. }
  assert (words c4 = words c3 /\ gpr RSP (regs c4) = gpr RSP (regs c)) as [Ew4 Es4].
  { unfold c4. destruct (cr3 =? 0); cbn [words regs set_cr3 set_regs]; by read_gprs. }
  rewrite exec_call.
  destruct (entering_call callee t a0 kstack cr3 rip rsp rflags HR c4 c4 (gpr RSP (regs c))) as [Ht5 Et5 Es5 Hr5 Ec5];
    [by rewrite Ew4|done|by rewrite Ew4|done|].
  destruct (enter_return callee t a0 kstack cr3 rip rsp rflags (callee sym_task_current c4) Ht5) as (c' & E & Ex & Ec & Ea);
    [by rewrite Es5|by rewrite Es5|done|].
  exists c'. split; [exact E|]. split; [exact Ex|]. rewrite Ec, Ea, (rt_same _ _ _ HR), Ew4, Ea3, Ec5. split.
  - unfold c4. destruct (cr3 =? 0); [|done]. cbn [cr3_reg set_regs]. by rewrite Ec3.
  - unfold c2. cbn [words set_regs]. unfold c1. by rewrite (rt_same _ _ _ HR).
Qed.

(** A user task at 0x1F00, the TSS's RSP0 at 0x1F80. *)
Definition user_cpu : cpu :=
  set_words (<[0x1F18 := 0x5000]> (<[0x1F38 := 0x77000]> (<[0x1F40 := 0x400000]>
    (<[0x1F48 := 0x80001000]> (<[0x1F50 := 0x200]> (words sample_cpu)))))) sample_cpu.

Definition user_callee (f : symbol) (c : cpu) : cpu :=
  if decide (f = sym_task_current) then set_regs (set_gpr RAX 0x1F00 (regs c)) c
  else if decide (gpr RSP (regs c) = 0x1F80) then c
  else set_words (<[0x1F80 := gpr RDI (regs c)]> (words c)) c.

Lemma user_callee_runtime : runtime user_callee 0x1F00 0x1F80.
Proof.
  assert (forall n, sysv user_callee sym_task_current n) as Hc.
  { intros n. split; intros c; [|done..]. intros r Hr. unfold user_callee. rewrite decide_True by done. cbn [regs set_regs].
    rewrite set_gpr_other; [done|intros <-; apply (bool_decide_eq_true_2 _) in Hr; vm_compute in Hr; discriminate]. }
  split.
  - apply Hc.
  - split; intros c; unfold user_callee; rewrite decide_False by done; destruct (decide (_ = 0x1F80)); try done.
    + intros [|i] Hi; [|lia]. cbn [words set_words]. rewrite lookup_insert_ne; [done|lia].
    + intros a Ha. cbn [words set_words]. destruct (decide (a = 0x1F80)) as [->|].
      * rewrite lookup_insert_eq. by eexists.
      * by rewrite lookup_insert_ne.
  - intros c. unfold user_callee. rewrite decide_True by done. cbn [regs set_regs]. apply set_gpr_same.
  - intros c Hc'. unfold user_callee. rewrite decide_False, decide_False by done. apply lookup_insert_eq.
  - done.
  - intros f c a _ Ha. unfold user_callee. destruct (decide _); [done|]. destruct (decide _); [done|].
    apply lookup_insert_ne. intros <-. apply (bool_decide_eq_true_2 _) in Ha. vm_compute in Ha. discriminate.
Qed.

Lemma enter_user_mode_enters_witness :
  exists c', exec user_callee enter_user_mode 0 user_cpu = Done tt c' [] /\
    resumed c' = Some (Context_ 0x400000 0x1B 0x200 0x80001000 0x23) /\
    cr3_reg c' = 0x77000 /\ words c' !! 0x1F80 = Some 0x7000.
Proof.
  apply (enter_user_mode_enters user_callee user_cpu 0x1F00 0x1F80 0x5000 0x77000 0x400000 0x80001000 0x200).
  - apply user_callee_runtime.
  - split; vm_compute; reflexivity.
  - split; [split; vm_compute; done|]. intros i Hi. apply (bool_decide_unpack _).
    do 6 (destruct i as [|i]; [vm_compute; exact I|]). lia.
  - vm_compute. intros [H _]. by apply H.
  - intros a Ha. apply list_elem_of_fmap in Ha as (d & -> & Hd).
    rewrite !elem_of_cons in Hd.
    destruct Hd as [-> | [-> | [-> | [-> | [-> | Hd]]]]]; [vm_compute; intros [H _]; by apply H..|].
    by apply not_elem_of_nil in Hd.
Defined.
