(* ===== verification/Multiboot.v ===== *)
(** * Multiboot2 information structure (src/mm/multiboot2.h)

    Physical memory is read through [mem], the function from a byte's address
    to its value; the structure itself is written by the boot loader. *)
From S2P Require Import Prelude Effects.

(** Little-endian reads of [n] bytes. *)
Fixpoint le_read (n : nat) (mem : Z -> Z) (a : Z) : Z :=
  match n with
  | O => 0
  | S n' => mem a + 2 ^ 8 * le_read n' mem (a + 1)
  end.

Definition read_u16 := le_read 2.
Definition read_u32 := le_read 4.
Definition read_u64 := le_read 8.

Definition bytes_ok (mem : Z -> Z) : Prop := forall a, fits 8 (mem a).

Lemma le_read_fits n mem a : bytes_ok mem -> fits (8 * Z.of_nat n) (le_read n mem a).
Proof.
  intros Hm. revert a. induction n as [|n IH]; intros a; [done|].
  simpl le_read. specialize (IH (a + 1)). specialize (Hm a). unfold fits in *.
  replace (8 * Z.of_nat (S n)) with (8 + 8 * Z.of_nat n) by lia.
  rewrite Z.pow_add_r by lia. nia.
Qed.

Module Multiboot2.
(** [struct multiboot2_info], [struct multiboot2_tag] and
    [struct multiboot2_tag_mmap]: field reads at the packed offsets. *)
Definition total_size (mem : Z -> Z) (mbi : Z) : Z := read_u32 mem mbi.
Definition tag_type (mem : Z -> Z) (tag : Z) : Z := read_u32 mem tag.
Definition tag_size (mem : Z -> Z) (tag : Z) : Z := read_u32 mem (tag + 4).
Definition mmap_entry_size (mem : Z -> Z) (tag : Z) : Z := read_u32 mem (tag + 8).
Definition sizeof_tag_mmap : Z := 16.

(** [struct multiboot2_mmap_entry], 24 bytes. *)
Record mmap_entry := MmapEntry { base_addr : Z; length : Z; type : Z }.
Definition sizeof_mmap_entry : Z := 24.
Definition read_mmap_entry (mem : Z -> Z) (a : Z) : mmap_entry :=
  MmapEntry (read_u64 mem a) (read_u64 mem (a + 8)) (read_u32 mem (a + 16)).

Definition MULTIBOOT2_MEMORY_AVAILABLE : Z := 1.

(** [offset += (tag->size + 7) & ~7] in [uint32_t]. *)
Definition tag_stride (size : Z) : Z := Z.land (wrap 32 (size + 7)) (notw 32 7).

(** The body of the loop of [multiboot2_find_tag]; [Leave 0] is NULL. *)
Definition find_tag_body (mem : Z -> Z) (mbi typ offset : Z) : flow Z Z :=
  if offset <? total_size mem mbi then
    let tag := mbi + offset in
    if tag_type mem tag =? 0 then Leave 0
    else if tag_type mem tag =? typ then Leave tag
    else Next (wrap 32 (offset + tag_stride (tag_size mem tag)))
  else Leave 0.

(** The offset is a [uint32_t], so [2 ^ 32] iterations without leaving
    revisit an offset: the loop then runs for ever. *)
Definition multiboot2_find_tag (mem : Z -> Z) (mbi typ : Z) : option Z :=
  match iterate 32 (find_tag_body mem mbi typ) 8 with
  | Leave tag => Some tag
  | Next _ => None
  end.

(** ** The layout the boot loader writes

    [tags_at mem mbi off tags]: from offset [off] on, memory holds the
    tags (type, size), each padded to 8 bytes, and then the end of the
    structure: an end tag (type 0) or the offset [total_size]. *)
Definition padded (size : Z) : Z := (size + 7) / 8 * 8.

Fixpoint tags_at (mem : Z -> Z) (mbi off : Z) (tags : list (Z * Z)) : Prop :=
  match tags with
  | [] => total_size mem mbi <= off \/ tag_type mem (mbi + off) = 0
  | (typ, size) :: rest =>
      off < total_size mem mbi /\ typ <> 0 /\ 0 < size /\
      tag_type mem (mbi + off) = typ /\ tag_size mem (mbi + off) = size /\
      off + padded size < 2 ^ 32 /\
      tags_at mem mbi (off + padded size) rest
  end.

#[export] Instance tags_at_dec mem mbi off tags : Decision (tags_at mem mbi off tags).
Proof.
  revert off. induction tags as [|[typ size] rest IH]; intros off; simpl; apply _.
Defined.

(** The specification: the address of the first tag of that type. *)
Fixpoint lookup_tag (mbi typ off : Z) (tags : list (Z * Z)) : Z :=
  match tags with
  | [] => 0
  | (t, size) :: rest =>
      if t =? typ then mbi + off else lookup_tag mbi typ (off + padded size) rest
  end.

Lemma tag_stride_padded size : 0 < size -> padded size < 2 ^ 32 -> tag_stride size = padded size.
Proof.
  intros Hs Hp. unfold tag_stride. unfold padded in *.
  rewrite wrap_small by (unfold fits; divlia).
  change 7 with (2 ^ 3 - 1) at 2.
  rewrite land_mask_down by (unfold fits; divlia || lia). done.
Qed.

Lemma padded_pos size : 0 < size -> 8 <= padded size.
Proof. unfold padded. divlia. Qed.

Lemma find_tag_iterate mem mbi typ tags k off :
  typ <> 0 -> 0 <= off -> tags_at mem mbi off tags ->
  2 ^ 32 - off <= 2 ^ Z.of_nat k * 8 -> off < 2 ^ 32 ->
  exists r, iterate k (find_tag_body mem mbi typ) off = Leave r /\
    r = lookup_tag mbi typ off tags.
Proof.
  intros Htyp Hoff Htags Hk Hlt.
  pose (I := fun o => 0 <= o < 2 ^ 32 /\ exists ts, tags_at mem mbi o ts /\
    lookup_tag mbi typ o ts = lookup_tag mbi typ off tags).
  apply (iterate_total I (fun o => (2 ^ 32 - o - 1) / 8)).
  - intros o (Ho & ts & Hts & Hlook). unfold find_tag_body.
    destruct ts as [|[t size] rest]; simpl in Hts.
    + destruct Hts as [Hend|Hend].
      * rewrite (proj2 (Z.ltb_ge _ _)) by lia. done.
      * rewrite Hend. simpl. by destruct (_ <? _).
    + destruct Hts as (Hin & Ht0 & Hsz & -> & -> & Hnext & Hrest).
      rewrite (proj2 (Z.ltb_lt _ _)) by lia.
      rewrite (proj2 (Z.eqb_neq _ _) Ht0). simpl in Hlook.
      destruct (t =? typ); [by rewrite <-Hlook|].
      rewrite tag_stride_padded by lia.
      pose proof (padded_pos size Hsz).
      rewrite wrap_small by (unfold fits; lia).
      split; [|divlia]. split; [lia|]. eauto.
  - split; [lia|]. eauto.
  - divlia.
Qed.

Lemma find_tag_correct_aux mem mbi typ tags :
  typ <> 0 -> tags_at mem mbi 8 tags ->
  multiboot2_find_tag mem mbi typ = Some (lookup_tag mbi typ 8 tags).
Proof.
  intros Htyp Htags. unfold multiboot2_find_tag.
  destruct (find_tag_iterate mem mbi typ tags 32 8) as (r & -> & ->); [lia..|done| |done|done].
  lia.
Qed.

(** C36: on a well-formed structure the loop terminates with the
    first tag of the requested type, or NULL when there is none. *)
Theorem find_tag_correct mem mbi typ tags :
  typ <> 0 -> tags_at mem mbi 8 tags ->
  multiboot2_find_tag mem mbi typ = Some (lookup_tag mbi typ 8 tags).
Proof. apply find_tag_correct_aux. Qed.

(** A tag of size 0 that is not the one looked for makes the loop run
    for ever: however many iterations are run, it stays at that tag. *)
Theorem find_tag_zero_size_diverges mem mbi typ off :
  0 <= off < 2 ^ 32 -> off < total_size mem mbi ->
  tag_type mem (mbi + off) <> 0 -> tag_type mem (mbi + off) <> typ ->
  tag_size mem (mbi + off) = 0 ->
  forall k, iterate k (find_tag_body mem mbi typ) off = Next off.
Proof.
  intros Hoff Hlt H0 Ht Hsz k.
  destruct (iterate_diverges (fun o => o = off) (find_tag_body mem mbi typ))
    with (k := k) (s := off) as (s' & -> & ->); [|done|done].
  intros o ->. unfold find_tag_body.
  rewrite (proj2 (Z.ltb_lt _ _)), (proj2 (Z.eqb_neq _ _) H0), (proj2 (Z.eqb_neq _ _) Ht) by done.
  rewrite Hsz. change (tag_stride 0) with 0. rewrite Z.add_0_r.
  rewrite wrap_small by done. eauto.
Qed.

(** ** Witnesses *)

(** Two tags, the second one a memory map, and the end tag. *)
Definition sample_bytes : list Z :=
  [48; 0; 0; 0; 0; 0; 0; 0;
   4; 0; 0; 0; 12; 0; 0; 0; 0; 0; 0; 0; 0; 0; 0; 0;
   6; 0; 0; 0; 16; 0; 0; 0; 24; 0; 0; 0; 0; 0; 0; 0;
   0; 0; 0; 0; 8; 0; 0; 0].
Definition sample_mem (a : Z) : Z := default 0 (sample_bytes !! Z.to_nat a).

Lemma find_tag_correct_witness : multiboot2_find_tag sample_mem 0 6 = Some 24.
Proof. apply (find_tag_correct sample_mem 0 6 [(4, 12); (6, 16)]); [done|decide_done]. Defined.

(** The same with a tag of size 0 in front. *)
Definition sample_bad_mem (a : Z) : Z := if a =? 12 then 0 else sample_mem a.

Lemma find_tag_zero_size_diverges_witness :
  iterate 64 (find_tag_body sample_bad_mem 0 6) 8 = Next 8.
Proof. apply (find_tag_zero_size_diverges sample_bad_mem 0 6 8); eval_done. Defined.
End Multiboot2.
