(* ===== verification/PmmInterface.v ===== *)
(** * The frame allocator's interface (src/mm/pmm.h)

    The constants and macros of the header, and the contract its clients
    (paging, the heap, the ELF loader, the interrupt stacks) are verified
    against.  [Pmm.v] discharges the contract. *)
From S2P Require Import Prelude.

Definition PMM_FRAME_SIZE : Z := 4096.
Definition PMM_FRAME_SHIFT : Z := 12.
Definition PMM_FRAME_TO_ADDR (frame : Z) : Z := wrap 64 (Z.shiftl frame PMM_FRAME_SHIFT).
Definition PMM_ADDR_TO_FRAME (addr : Z) : Z := Z.shiftr addr PMM_FRAME_SHIFT.
Definition MAX_FRAMES : Z := 1024 * 1024.

Lemma frame_to_addr f : 0 <= f < MAX_FRAMES -> PMM_FRAME_TO_ADDR f = f * PMM_FRAME_SIZE.
Proof.
  unfold MAX_FRAMES, PMM_FRAME_TO_ADDR, PMM_FRAME_SHIFT, PMM_FRAME_SIZE. intros Hf.
  rewrite Z.shiftl_mul_pow2 by lia. apply wrap_small. unfold fits. lia.
Qed.

Lemma addr_to_frame a : PMM_ADDR_TO_FRAME a = a / PMM_FRAME_SIZE.
Proof. unfold PMM_ADDR_TO_FRAME, PMM_FRAME_SHIFT. by rewrite Z.shiftr_div_pow2. Qed.

(** The operations a client calls: [pmm_alloc_frame] and [pmm_free_frame]. *)
Class FrameAlloc (S : Type) := {
  fa_alloc : S -> Z * S;
  fa_free : Z -> S -> S;
  fa_inv : S -> Prop;
  fa_avail : S -> gset Z;      (* the frames it may hand out *)
  fa_owned : S -> Z -> Prop;   (* the frames it manages, free or not *)
}.

(** The contract: an address that is returned is page aligned, not 0 and
    was available; it leaves the available set and nothing else does.  0 is
    returned only when nothing is available.  Frame 0 is never available. *)
Class FrameAllocOk (S : Type) `{FrameAlloc S} : Prop := {
  fa_alloc_some : forall s a s',
    fa_inv s -> fa_alloc s = (a, s') -> a <> 0 ->
    exists f, a = f * PMM_FRAME_SIZE /\ 0 < f < MAX_FRAMES /\ f ∈ fa_avail s /\
      fa_inv s' /\ fa_avail s' = fa_avail s ∖ {[f]} /\
      (forall g, fa_owned s' g <-> fa_owned s g);
  fa_alloc_none : forall s s',
    fa_inv s -> fa_alloc s = (0, s') -> s' = s /\ fa_avail s = ∅;
  fa_free_ok : forall s f,
    fa_inv s -> fa_owned s f -> 0 < f ->
    fa_inv (fa_free (f * PMM_FRAME_SIZE) s) /\
    fa_avail (fa_free (f * PMM_FRAME_SIZE) s) = {[f]} ∪ fa_avail s /\
    (forall g, fa_owned (fa_free (f * PMM_FRAME_SIZE) s) g <-> fa_owned s g);
  fa_avail_owned : forall s f, fa_inv s -> f ∈ fa_avail s -> fa_owned s f;
  fa_avail_pos : forall s f, fa_inv s -> f ∈ fa_avail s -> 0 < f;
}.
