(* ===== verification/PagingInterface.v ===== *)
(** * The paging interface (src/mm/paging.h)

    The constants of the header, the flags of a page table entry and the
    indices of a virtual address at the four levels, shared by paging.c, the
    ELF loader and kernel_main, which all walk page tables by hand. *)
From S2P Require Import Prelude.

Definition HIGHER_HALF_BASE : Z := 0xFFFFFFFF80000000.
Definition USER_ADDR_LIMIT : Z := 0x0000800000000000.
Definition PAGE_TABLE_ENTRIES : Z := 512.

Definition PAGE_PRESENT : Z := Z.shiftl 1 0.
Definition PAGE_WRITABLE : Z := Z.shiftl 1 1.
Definition PAGE_USER : Z := Z.shiftl 1 2.
Definition PAGE_PS : Z := Z.shiftl 1 7.
Definition PAGE_NO_EXECUTE : Z := Z.shiftl 1 63.

(** [e & PAGE_PRESENT] as a condition, and the other flags. *)
Definition has_flag (e flag : Z) : bool := negb (Z.land e flag =? 0).
Definition present (e : Z) : bool := has_flag e PAGE_PRESENT.
(** [e & ~0xFFFULL] *)
Definition page_base (e : Z) : Z := Z.land e (notw 64 0xFFF).

(** Indices of a virtual address at the four levels. *)
Definition pml4_idx (virt : Z) : Z := Z.land (Z.shiftr virt 39) 0x1FF.
Definition pdpt_idx (virt : Z) : Z := Z.land (Z.shiftr virt 30) 0x1FF.
Definition pd_idx (virt : Z) : Z := Z.land (Z.shiftr virt 21) 0x1FF.
Definition pt_idx (virt : Z) : Z := Z.land (Z.shiftr virt 12) 0x1FF.

(** ** Lemmas *)

Lemma page_base_eq e : fits 64 e -> page_base e = e / 4096 * 4096.
Proof.
  intros He. unfold page_base. change 0xFFF with (2 ^ 12 - 1).
  by rewrite land_mask_down by (done || lia).
Qed.

Lemma page_base_aligned e : page_base e mod 4096 = 0.
Proof.
  unfold page_base. change 4096 with (2 ^ 12). rewrite <-Z.land_ones by lia.
  bitwise i. destruct (decide (i < 12)) as [Hi|Hi].
  - rewrite (Z.testbit_ones_nonneg 12 i), (proj2 (Z.ltb_lt _ _) Hi) by lia.
    change 0xFFF with (Z.ones 12).
    rewrite (Z.testbit_ones_nonneg 12 i), (proj2 (Z.ltb_lt _ _) Hi) by lia.
    simpl. btauto.
  - rewrite (Z.testbit_ones_nonneg 12 i), (proj2 (Z.ltb_ge _ _)) by lia. btauto.
Qed.

Lemma page_base_fits e : fits 64 (page_base e).
Proof. apply word_clear_fits. lia. Qed.

(** An entry made of a page address and flags. *)
Lemma page_base_lor pa flags :
  fits 64 pa -> pa mod 4096 = 0 -> 0 <= flags < 4096 -> page_base (Z.lor pa flags) = pa.
Proof.
  intros [Hp0 Hp] Hal Hf.
  assert (pa = pa / 4096 * 2 ^ 12) as Heq by divlia.
  rewrite Heq, lor_page by lia. rewrite page_base_eq; [divlia|].
  unfold fits. split; divlia.
Qed.

Lemma has_flag_bit e k : 0 <= k -> has_flag e (Z.shiftl 1 k) = Z.testbit e k.
Proof.
  intros Hk. unfold has_flag. destruct (Z.testbit e k) eqn:Hb.
  - apply negb_true_iff, Z.eqb_neq. intros H0.
    assert (Z.testbit (Z.land e (Z.shiftl 1 k)) k = true) as H1.
    { rewrite Z.land_spec, Hb, testbit_one_shiftl by lia. by rewrite bool_decide_true. }
    by rewrite H0, Z.testbit_0_l in H1.
  - apply negb_false_iff, Z.eqb_eq. apply Z.bits_inj'. intros i Hi.
    rewrite Z.land_spec, testbit_one_shiftl, Z.testbit_0_l by lia.
    destruct (decide (i = k)) as [->|]; [by rewrite Hb|].
    rewrite bool_decide_false by done. apply andb_false_r.
Qed.

Lemma present_bit e : present e = Z.testbit e 0.
Proof. by apply (has_flag_bit e 0). Qed.

Lemma present_lor e f : present (Z.lor e f) = present e || present f.
Proof. by rewrite !present_bit, Z.lor_spec. Qed.

Lemma present_zero : present 0 = false.
Proof. done. Qed.

Lemma idx_range x : 0 <= Z.land x 0x1FF < 512.
Proof.
  change 0x1FF with (2 ^ 9 - 1). rewrite land_low by lia. apply Z.mod_pos_bound. lia.
Qed.

(** The indices as digits of the page number. *)
Lemma idx_digits virt :
  pml4_idx virt = virt / 2 ^ 39 mod 512 /\ pdpt_idx virt = virt / 2 ^ 30 mod 512 /\
  pd_idx virt = virt / 2 ^ 21 mod 512 /\ pt_idx virt = virt / 2 ^ 12 mod 512.
Proof.
  unfold pml4_idx, pdpt_idx, pd_idx, pt_idx. change 0x1FF with (2 ^ 9 - 1).
  rewrite !land_low, !Z.shiftr_div_pow2 by lia. done.
Qed.
