(* ===== verification/Pmm.v ===== *)
(** * Physical memory manager (src/mm/pmm.c, src/mm/pmm.h)

    The statics of pmm.c are the record [pmm_state]; the words of the bitmap
    are the memory at the pointer [bitmap], keyed by word index.  Memory that
    was never written holds what the machine left there, so the initial map
    is arbitrary; a key that is absent reads as 0. *)
From S2P Require Import Prelude PmmInterface.

Record pmm_state := Pmm {
  bitmap_ptr : Z;
  bitmap : gmap Z Z;
  total_frames : Z;
  used_frames : Z;
}.

(** The statics before [pmm_init], over the RAM [ram] under the bitmap. *)
Definition pmm_boot (ram : gmap Z Z) : pmm_state := Pmm 0 ram 0 0.

Definition word (st : pmm_state) (i : Z) : Z := default 0 (bitmap st !! i).

Definition set_word (i w : Z) (st : pmm_state) : pmm_state :=
  Pmm (bitmap_ptr st) (<[i := w]> (bitmap st)) (total_frames st) (used_frames st).
Definition set_used_frames (n : Z) (st : pmm_state) : pmm_state :=
  Pmm (bitmap_ptr st) (bitmap st) (total_frames st) n.

Definition bitmap_set (frame : Z) (st : pmm_state) : pmm_state :=
  set_word (frame / 32)
    (Z.lor (word st (frame / 32)) (Z.shiftl 1 (frame mod 32))) st.

Definition bitmap_clear (frame : Z) (st : pmm_state) : pmm_state :=
  set_word (frame / 32)
    (Z.land (word st (frame / 32)) (notw 32 (Z.shiftl 1 (frame mod 32)))) st.

Definition bitmap_test (frame : Z) (st : pmm_state) : Z :=
  Z.land (Z.shiftr (word st (frame / 32)) (frame mod 32)) 1.

(** [bitmap_set(f); used_frames++;] *)
Definition take_frame (f : Z) (st : pmm_state) : pmm_state :=
  let st := bitmap_set f st in set_used_frames (used_frames st ⊞ 1) st.

(** [bitmap_clear(f); used_frames--;] *)
Definition give_frame (f : Z) (st : pmm_state) : pmm_state :=
  let st := bitmap_clear f st in set_used_frames (used_frames st ⊟ 1) st.

(** [if (!bitmap_test(f)) { bitmap_set(f); used_frames++; }] *)
Definition mark_used (f : Z) (st : pmm_state) : pmm_state :=
  if bitmap_test f st =? 0 then take_frame f st else st.

(** [if (bitmap_test(f)) { bitmap_clear(f); used_frames--; }] *)
Definition mark_free (f : Z) (st : pmm_state) : pmm_state :=
  if negb (bitmap_test f st =? 0) then give_frame f st else st.

(** The loop both passes of [pmm_init] and [pmm_mark_region] run:
    [for (f = start; f < end; f++) { if (f >= total_frames) break; ... }]. *)
Definition mark_range (start_frame end_frame : Z) (used : bool) (st : pmm_state) : pmm_state :=
  after_break
    (for_range start_frame end_frame
       (fun f st =>
          if total_frames st <=? f then Leave st
          else Next (if used then mark_used f st else mark_free f st)) st).

Definition pmm_mark_region (base size : Z) (used : bool) (st : pmm_state) : pmm_state :=
  let start_frame := PMM_ADDR_TO_FRAME base in
  let end_frame := PMM_ADDR_TO_FRAME (base ⊞ size ⊞ PMM_FRAME_SIZE ⊟ 1) in
  mark_range start_frame end_frame used st.

Definition pmm_alloc_frame (st : pmm_state) : Z * pmm_state :=
  match
    for_range 0 (total_frames st)
      (fun i st =>
         if bitmap_test i st =? 0 then
           let st := take_frame i st in
           Leave (PMM_FRAME_TO_ADDR i, st)
         else Next st) st
  with
  | Leave r => r
  | Next st => (0, st)
  end.

(** [for (f = run_start; f < run_start + count; f++) { bitmap_set(f); used_frames++; }] *)
Definition take_run (run_start count : Z) (st : pmm_state) : pmm_state :=
  after_break
    (for_range run_start (run_start ⊞ count)
       (fun f st => Next (take_frame f st)) st).

(** The body of the scan of [pmm_alloc_frames], on (run, run_start). *)
Definition scan_body (count i : Z) (s : Z * Z * pmm_state)
    : flow (Z * Z * pmm_state) (Z * pmm_state) :=
  let '(run, run_start, st) := s in
  if bitmap_test i st =? 0 then
    let run_start := if run =? 0 then i else run_start in
    let run := run ⊞ 1 in
    if run =? count then
      Leave (PMM_FRAME_TO_ADDR run_start, take_run run_start count st)
    else Next (run, run_start, st)
  else Next (0, run_start, st).

Definition pmm_alloc_frames (count : Z) (st : pmm_state) : Z * pmm_state :=
  if count =? 0 then (0, st)
  else if count =? 1 then pmm_alloc_frame st
  else
    match for_range 0 (total_frames st) (scan_body count) (0, 0, st) with
    | Leave r => r
    | Next (_, _, st) => (0, st)
    end.

Definition pmm_free_frame (addr : Z) (st : pmm_state) : pmm_state :=
  let frame := PMM_ADDR_TO_FRAME addr in
  if (frame <? total_frames st) && negb (bitmap_test frame st =? 0) then
    give_frame frame st
  else st.

Definition pmm_free_frames (addr count : Z) (st : pmm_state) : pmm_state :=
  after_break
    (for_range 0 count
       (fun i st => Next (pmm_free_frame (addr ⊞ i ⊠ PMM_FRAME_SIZE) st)) st).

Definition pmm_total_memory (st : pmm_state) : Z := total_frames st ⊠ PMM_FRAME_SIZE.
Definition pmm_free_frames_count (st : pmm_state) : Z := total_frames st ⊟ used_frames st.

(** ** The bitmap as a set of free frames *)

Definition is_used (st : pmm_state) (f : Z) : bool :=
  Z.testbit (word st (f / 32)) (f mod 32).

Definition free_set (st : pmm_state) : gset Z :=
  list_to_set (filter (fun f => is_used st f = false) (seqZ 0 (total_frames st))).

(** The invariant: the frames tracked fit the allocator's limit and
    [used_frames] counts the set bits. *)
Record pmm_wf (st : pmm_state) : Prop := {
  wf_total : 0 <= total_frames st <= MAX_FRAMES;
  wf_used : used_frames st = total_frames st - Z.of_nat (size (free_set st));
}.

(** What every operation leaves alone: the placement of the bitmap and all
    memory outside its [(total_frames + 31) / 32] words. *)
Record evolves (st st' : pmm_state) : Prop := {
  ev_ptr : bitmap_ptr st' = bitmap_ptr st;
  ev_total : total_frames st' = total_frames st;
  ev_words : forall i, ~ (0 <= i < (total_frames st + 31) / 32) ->
    bitmap st' !! i = bitmap st !! i;
}.

#[export] Instance evolves_preorder : PreOrder evolves.
Proof.
  split.
  - intros st. by split.
  - intros a b c [Hp Ht Hw] [Hp' Ht' Hw']. split; [congruence..|].
    intros i Hi. rewrite Hw' by by rewrite Ht. auto.
Qed.

Lemma bitmap_test_spec f st : bitmap_test f st = Z.b2z (is_used st f).
Proof. apply word_test_bit. divlia. Qed.

Lemma bitmap_test_zero f st : (bitmap_test f st =? 0) = negb (is_used st f).
Proof. rewrite bitmap_test_spec. by destruct (is_used st f). Qed.

Lemma word_set_word st i w j :
  word (set_word i w st) j = if decide (i = j) then w else word st j.
Proof. unfold word, set_word. simpl. rewrite lookup_insert. by case_decide. Qed.

Lemma same_bit f g : f / 32 = g / 32 -> (g mod 32 = f mod 32 <-> g = f).
Proof. intros H. divlia. Qed.

Lemma is_used_set f st g :
  is_used (bitmap_set f st) g = bool_decide (g = f) || is_used st g.
Proof.
  unfold is_used, bitmap_set. rewrite word_set_word. case_decide as Hw.
  - rewrite Z.lor_spec, testbit_one_shiftl by divlia. rewrite Hw, orb_comm.
    f_equal. apply bool_decide_ext. by apply same_bit.
  - by rewrite bool_decide_false by congruence.
Qed.

Lemma is_used_clear f st g :
  is_used (bitmap_clear f st) g = negb (bool_decide (g = f)) && is_used st g.
Proof.
  unfold is_used, bitmap_clear. rewrite word_set_word. case_decide as Hw.
  - rewrite Z.land_spec, testbit_notw, testbit_one_shiftl by divlia.
    rewrite (bool_decide_true (g mod 32 < 32)) by divlia.
    rewrite Hw, andb_comm. f_equal. simpl. f_equal.
    apply bool_decide_ext. by apply same_bit.
  - by rewrite bool_decide_false by congruence.
Qed.

Lemma is_used_set_used_frames n st g : is_used (set_used_frames n st) g = is_used st g.
Proof. done. Qed.

Lemma is_used_take f st g : is_used (take_frame f st) g = bool_decide (g = f) || is_used st g.
Proof. apply is_used_set. Qed.

Lemma is_used_give f st g :
  is_used (give_frame f st) g = negb (bool_decide (g = f)) && is_used st g.
Proof. apply is_used_clear. Qed.

Lemma elem_of_free_set st f :
  f ∈ free_set st <-> 0 <= f < total_frames st /\ is_used st f = false.
Proof.
  unfold free_set. rewrite elem_of_list_to_set, list_elem_of_filter, elem_of_seqZ.
  naive_solver lia.
Qed.

Lemma free_set_take f st : free_set (take_frame f st) = free_set st ∖ {[f]}.
Proof.
  apply set_eq. intros g. rewrite elem_of_difference, elem_of_singleton.
  rewrite !elem_of_free_set, is_used_take. simpl.
  destruct (decide (g = f)); [rewrite bool_decide_true by done|rewrite bool_decide_false by done];
    simpl; naive_solver.
Qed.

Lemma free_set_give f st :
  0 <= f < total_frames st -> free_set (give_frame f st) = {[f]} ∪ free_set st.
Proof.
  intros Hf. apply set_eq. intros g. rewrite elem_of_union, elem_of_singleton.
  rewrite !elem_of_free_set, is_used_give. simpl.
  destruct (decide (g = f)); [rewrite bool_decide_true by done|rewrite bool_decide_false by done];
    simpl; naive_solver.
Qed.

Lemma evolves_word i w n st :
  0 <= i < (total_frames st + 31) / 32 ->
  evolves st (set_used_frames n (set_word i w st)).
Proof. intros Hi. split; [done..|]. intros j Hj. apply lookup_insert_ne. lia. Qed.

Lemma evolves_take f st : 0 <= f < total_frames st -> evolves st (take_frame f st).
Proof. intros Hf. apply evolves_word. divlia. Qed.

Lemma evolves_give f st : 0 <= f < total_frames st -> evolves st (give_frame f st).
Proof. intros Hf. apply evolves_word. divlia. Qed.

Lemma free_set_size st : 0 <= total_frames st -> Z.of_nat (size (free_set st)) <= total_frames st.
Proof.
  intros Ht. unfold free_set.
  rewrite size_list_to_set by apply NoDup_filter, NoDup_seqZ.
  pose proof (length_filter (fun f => is_used st f = false) (seqZ 0 (total_frames st))).
  rewrite length_seqZ in *. lia.
Qed.

Lemma size_take f st :
  f ∈ free_set st -> size (free_set st) = S (size (free_set (take_frame f st))).
Proof.
  intros Hf. rewrite free_set_take, size_difference by set_solver.
  assert (size (free_set st) <> 0%nat) by (apply size_non_empty_iff; set_solver).
  rewrite size_singleton. lia.
Qed.

Lemma size_give f st :
  0 <= f < total_frames st -> f ∉ free_set st ->
  size (free_set (give_frame f st)) = S (size (free_set st)).
Proof.
  intros Hf Hnf. rewrite free_set_give, size_union by (done || set_solver).
  by rewrite size_singleton.
Qed.

Lemma wf_take f st : pmm_wf st -> f ∈ free_set st -> pmm_wf (take_frame f st).
Proof.
  intros [Ht Hu] Hf. split; [done|].
  pose proof (free_set_size st ltac:(lia)). pose proof (size_take f st Hf).
  change (used_frames st ⊞ 1 =
    total_frames st - Z.of_nat (size (free_set (take_frame f st)))).
  unfold MAX_FRAMES in *. rewrite wrap_small by (unfold fits; lia). lia.
Qed.

Lemma wf_give f st :
  pmm_wf st -> 0 <= f < total_frames st -> f ∉ free_set st -> pmm_wf (give_frame f st).
Proof.
  intros [Ht Hu] Hf Hnf. split; [done|].
  pose proof (free_set_size (give_frame f st) ltac:(simpl; lia)) as Hs.
  pose proof (size_give f st Hf Hnf).
  change (used_frames st ⊟ 1 =
    total_frames st - Z.of_nat (size (free_set (give_frame f st)))).
  change (total_frames (give_frame f st)) with (total_frames st) in Hs.
  unfold MAX_FRAMES in *. rewrite wrap_small by (unfold fits; lia). lia.
Qed.

Create HintDb pmm.
#[export] Hint Resolve wf_take wf_give evolves_take evolves_give : pmm.

(** ** The abstract allocator

    A set of free frame numbers.  [alloc_spec count s r s'] is first-fit
    allocation of [count] contiguous frames, with 0 for failure. *)
Definition frame_run (f count : Z) : gset Z := list_to_set (seqZ f count).

Lemma elem_of_frame_run f count g : g ∈ frame_run f count <-> f <= g < f + count.
Proof. unfold frame_run. by rewrite elem_of_list_to_set, elem_of_seqZ. Qed.

Definition alloc_spec (count : Z) (s : gset Z) (r : Z) (s' : gset Z) : Prop :=
  (exists f, frame_run f count ⊆ s /\ (forall g, frame_run g count ⊆ s -> f <= g) /\
     r = f * PMM_FRAME_SIZE /\ s' = s ∖ frame_run f count) \/
  ((forall f, ~ frame_run f count ⊆ s) /\ r = 0 /\ s' = s).

(** A step that refines the abstract state change [s -> s'] and keeps the
    invariant and everything outside the allocator's footprint. *)
Definition refines_to (st st' : pmm_state) (s' : gset Z) : Prop :=
  pmm_wf st' /\ evolves st st' /\ free_set st' = s'.

Lemma refines_take f st :
  pmm_wf st -> f ∈ free_set st ->
  refines_to st (take_frame f st) (free_set st ∖ {[f]}).
Proof.
  intros Hwf Hf. pose proof (proj1 (elem_of_free_set st f) Hf) as [? _].
  split_and!; auto with pmm. apply free_set_take.
Qed.

Lemma refines_mark_free f st :
  pmm_wf st -> 0 <= f < total_frames st ->
  refines_to st (mark_free f st) ({[f]} ∪ free_set st).
Proof.
  intros Hwf Hf. unfold mark_free. rewrite bitmap_test_zero, negb_involutive.
  destruct (is_used st f) eqn:Hu.
  - assert (f ∉ free_set st) by (rewrite elem_of_free_set; intros [_ ?]; congruence).
    split_and!; auto with pmm. by apply free_set_give.
  - assert (f ∈ free_set st) by by apply elem_of_free_set.
    split_and!; [done..|]. set_solver.
Qed.

Lemma refines_mark_used f st :
  pmm_wf st -> 0 <= f < total_frames st ->
  refines_to st (mark_used f st) (free_set st ∖ {[f]}).
Proof.
  intros Hwf Hf. unfold mark_used. rewrite bitmap_test_zero.
  destruct (is_used st f) eqn:Hu; simpl.
  - assert (f ∉ free_set st) by (rewrite elem_of_free_set; intros [_ ?]; congruence).
    split_and!; [done..|]. set_solver.
  - apply refines_take; [done|]. by apply elem_of_free_set.
Qed.

(** What [pmm_alloc_frame] returns, in terms of the bitmap. *)
Lemma alloc_frame_cases st :
  (exists f, f ∈ free_set st /\ (forall g, g ∈ free_set st -> f <= g) /\
     pmm_alloc_frame st = (PMM_FRAME_TO_ADDR f, take_frame f st)) \/
  ((forall f, f ∉ free_set st) /\ pmm_alloc_frame st = (0, st)).
Proof.
  unfold pmm_alloc_frame.
  destruct (decide (0 <= total_frames st)) as [Ht|Ht].
  2: { right. rewrite for_range_empty by lia. split; [|done].
       intros f. rewrite elem_of_free_set. lia. }
  match goal with |- context [for_range 0 _ ?b st] => set (body := b) end.
  destruct (for_range_search
    (fun i => if is_used st i then None
              else Some (PMM_FRAME_TO_ADDR i, take_frame i st)) 0 (total_frames st) body st)
    as [(f & r & Hf & Hfound & Hall & ->)|[Hall ->]]; [done| | |].
  - intros i Hi. unfold body. rewrite bitmap_test_zero. by destruct (is_used st i).
  - left. destruct (is_used st f) eqn:Hu; [done|]. simplify_eq.
    exists f. split_and!; [by apply elem_of_free_set| |done].
    intros g [Hg Hgu]%elem_of_free_set. destruct (decide (g < f)); [|lia].
    specialize (Hall g ltac:(lia)). by rewrite Hgu in Hall.
  - right. split; [|done]. intros f [Hf Hfu]%elem_of_free_set.
    specialize (Hall f Hf). by rewrite Hfu in Hall.
Qed.

Lemma frame_run_nil f : frame_run f 0 = ∅.
Proof. done. Qed.

Lemma frame_run_one f : frame_run f 1 = {[f]}.
Proof. apply set_eq. intros g. rewrite elem_of_frame_run, elem_of_singleton. lia. Qed.

Lemma frame_run_subset_free st f count :
  0 < count -> frame_run f count ⊆ free_set st -> 0 <= f /\ f + count <= total_frames st.
Proof.
  intros Hc Hsub.
  pose proof (Hsub f ltac:(apply elem_of_frame_run; lia)) as [? _]%elem_of_free_set.
  pose proof (Hsub (f + count - 1) ltac:(apply elem_of_frame_run; lia)) as [? _]%elem_of_free_set.
  lia.
Qed.

Lemma refines_trans st st1 st2 s1 s2 :
  refines_to st st1 s1 -> refines_to st1 st2 s2 -> refines_to st st2 s2.
Proof. intros (_ & ? & _) (? & ? & ?). split_and!; [done|by etrans|done]. Qed.

Lemma take_run_refines f count st :
  pmm_wf st -> 0 < count -> frame_run f count ⊆ free_set st ->
  refines_to st (take_run f count st) (free_set st ∖ frame_run f count).
Proof.
  intros Hwf Hc Hsub. pose proof (frame_run_subset_free st f count Hc Hsub) as [? ?].
  pose proof (wf_total st Hwf) as Htot. unfold MAX_FRAMES in Htot.
  unfold take_run. rewrite wrap_small by (unfold fits; lia).
  replace count with (f + count - f) at 2 by lia.
  apply (for_next_rule (fun i s => refines_to st s (free_set st ∖ frame_run f (i - f))));
    [lia|..].
  - rewrite Z.sub_diag. split_and!; [done..|]. by rewrite frame_run_nil, difference_empty_L.
  - intros i s Hi Hs. eapply refines_trans; [done|]. destruct Hs as (Hwf' & _ & Hfs).
    replace (free_set st ∖ frame_run f (i + 1 - f)) with (free_set s ∖ {[i]}).
    + apply refines_take; [done|].
      rewrite Hfs, elem_of_difference, elem_of_frame_run. split; [|lia].
      apply Hsub, elem_of_frame_run. lia.
    + rewrite Hfs. apply set_eq. intros g.
      rewrite !elem_of_difference, !elem_of_frame_run, elem_of_singleton.
      split; intros ?; split_and!; try tauto; lia.
Qed.

(** The scan of [pmm_alloc_frames]: [run] free frames end just before [i], and
    no run of [count] free frames starts before them. *)
Definition scan_inv (st : pmm_state) (count i : Z) (s : Z * Z * pmm_state) : Prop :=
  let '(run, run_start, st') := s in
  st' = st /\ 0 <= run <= i /\ run < count /\ (run <> 0 -> run_start = i - run) /\
  (forall j, i - run <= j < i -> j ∈ free_set st) /\
  (forall g, frame_run g count ⊆ free_set st -> i - run <= g).

Lemma scan_result f count st r st' :
  pmm_wf st -> 0 < count -> frame_run f count ⊆ free_set st ->
  (forall g, frame_run g count ⊆ free_set st -> f <= g) ->
  r = PMM_FRAME_TO_ADDR f -> st' = take_run f count st ->
  pmm_wf st' /\ evolves st st' /\ alloc_spec count (free_set st) r (free_set st').
Proof.
  intros Hwf Hc Hsub Hmin -> ->.
  pose proof (frame_run_subset_free st f count Hc Hsub) as [? ?].
  pose proof (wf_total st Hwf).
  destruct (take_run_refines f count st) as (? & ? & Hfs); [done..|].
  split_and!; [done..|]. left. exists f. rewrite frame_to_addr by lia. done.
Qed.

(** One iteration of the scan. *)
Lemma scan_step st count i run rs s :
  pmm_wf st -> 1 < count -> 0 <= i < total_frames st ->
  scan_inv st count i (run, rs, s) ->
  match scan_body count i (run, rs, s) with
  | Next s' => scan_inv st count (i + 1) s'
  | Leave r => pmm_wf r.2 /\ evolves st r.2 /\
      alloc_spec count (free_set st) r.1 (free_set r.2)
  end.
Proof.
  intros Hwf Hc Hi (-> & Hrun & Hlt & Hrs & Hfree & Hmin).
  unfold scan_body. rewrite bitmap_test_zero. destruct (is_used st i) eqn:Hu; simpl.
  - (* a used frame: no run crosses it *)
    split_and!; [done|lia..| |]; [intros j Hj; lia|].
    intros g Hg. specialize (Hmin g Hg).
    destruct (decide (g <= i)); [|lia]. exfalso.
    assert (i ∈ free_set st) as [_ ?]%elem_of_free_set; [|congruence].
    apply Hg, elem_of_frame_run. lia.
  - pose proof (wf_total st Hwf) as Htot. unfold MAX_FRAMES in Htot.
    rewrite wrap_small by (unfold fits; lia).
    assert ((if run =? 0 then i else rs) = i - run) as ->.
    { destruct (Z.eqb_spec run 0); [lia|auto]. }
    assert (forall j, i - run <= j < i + 1 -> j ∈ free_set st) as Hfree'.
    { intros j Hj. destruct (decide (j = i)) as [->|]; [by apply elem_of_free_set|].
      apply Hfree. lia. }
    destruct (Z.eqb_spec (run + 1) count) as [Heq|Hne].
    + eapply scan_result; [done|lia| |exact Hmin|done|done].
      intros g Hg%elem_of_frame_run. apply Hfree'. lia.
    + split_and!; [done|lia..| |]; [intros j Hj; apply Hfree'; lia|].
      intros g Hg. specialize (Hmin g Hg). lia.
Qed.

Lemma alloc_frame_refines_aux st r st' :
  pmm_wf st -> pmm_alloc_frame st = (r, st') ->
  pmm_wf st' /\ evolves st st' /\ alloc_spec 1 (free_set st) r (free_set st').
Proof.
  intros Hwf Halloc.
  destruct (alloc_frame_cases st) as [(f & Hf & Hmin & Heq)|[Hnone Heq]];
    rewrite Halloc in Heq; simplify_eq.
  - pose proof (refines_take f st Hwf Hf) as (? & ? & Hfs). split_and!; [done..|].
    left. exists f. rewrite frame_run_one.
    pose proof (proj1 (elem_of_free_set st f) Hf) as [? _]. pose proof (wf_total st Hwf).
    rewrite frame_to_addr by lia. split_and!; [set_solver| |done..].
    intros g. rewrite frame_run_one. set_solver.
  - split_and!; [done..|]. right. split_and!; [|done..].
    intros f. rewrite frame_run_one. set_solver.
Qed.

(** [pmm_alloc_frame] refines first-fit allocation of one frame: it
    returns the address of the lowest free frame and takes exactly that frame
    out of the free set, or returns 0 with nothing changed when no frame is
    free; the counter stays exact and no memory outside the bitmap is
    written. *)
Theorem pmm_alloc_frame_refines st r st' :
  pmm_wf st -> pmm_alloc_frame st = (r, st') ->
  pmm_wf st' /\ evolves st st' /\ alloc_spec 1 (free_set st) r (free_set st').
Proof. apply alloc_frame_refines_aux. Qed.

Lemma pmm_alloc_frames_refines_aux count st r st' :
  pmm_wf st -> 0 < count -> pmm_alloc_frames count st = (r, st') ->
  pmm_wf st' /\ evolves st st' /\ alloc_spec count (free_set st) r (free_set st').
Proof.
  intros Hwf Hc. unfold pmm_alloc_frames.
  rewrite (proj2 (Z.eqb_neq count 0)) by lia.
  destruct (Z.eqb_spec count 1) as [->|Hc1]; [by apply alloc_frame_refines_aux|].
  pose proof (wf_total st Hwf) as Htot.
  intros Halloc.
  assert (match for_range 0 (total_frames st) (scan_body count) (0, 0, st) with
          | Next s => scan_inv st count (total_frames st) s
          | Leave r => pmm_wf r.2 /\ evolves st r.2 /\
              alloc_spec count (free_set st) r.1 (free_set r.2)
          end) as Hr;
    [apply for_range_rule; [lia|..]
    |destruct (for_range _ _ _ _) as [[[run rs] s']|[r0 s0]]].
  - split_and!; [done|lia..| |]; [intros j Hj; lia|].
    intros g Hg. pose proof (frame_run_subset_free _ _ _ Hc Hg). lia.
  - intros i [[run rs] s] Hi. apply scan_step; [done|lia..].
  - simplify_eq. destruct Hr as (-> & Hrun & Hlt & _ & Hfree & Hmin).
    split_and!; [done..|]. right. split_and!; [|done..]. intros f Hf.
    pose proof (Hmin f Hf). pose proof (frame_run_subset_free _ _ _ Hc Hf). lia.
  - by simplify_eq.
Qed.

(** C32: [pmm_alloc_frames] refines first-fit allocation of [count] contiguous
    frames, for every [count] but 0 (which returns 0): the run it returns is
    free, is the lowest such run, and is taken as a whole; it fails only when
    there is no run of that length. *)
Theorem pmm_alloc_frames_refines count st r st' :
  pmm_wf st -> 0 < count -> pmm_alloc_frames count st = (r, st') ->
  pmm_wf st' /\ evolves st st' /\ alloc_spec count (free_set st) r (free_set st').
Proof. apply pmm_alloc_frames_refines_aux. Qed.

(** ** Freeing *)

Lemma free_frame_refines addr st :
  pmm_wf st -> 0 <= addr ->
  refines_to st (pmm_free_frame addr st)
    (if decide (addr / PMM_FRAME_SIZE < total_frames st)
     then {[addr / PMM_FRAME_SIZE]} ∪ free_set st else free_set st).
Proof.
  intros Hwf Ha. unfold pmm_free_frame. rewrite addr_to_frame.
  assert (0 <= addr / PMM_FRAME_SIZE) by (unfold PMM_FRAME_SIZE; divlia).
  case_decide as Hlt.
  - rewrite (proj2 (Z.ltb_lt _ _) Hlt). apply refines_mark_free; [done|lia].
  - rewrite (proj2 (Z.ltb_ge _ _)) by lia. split_and!; [done..|]. done.
Qed.

Lemma free_frames_refines_aux addr count st :
  pmm_wf st -> 0 <= addr -> 0 <= count -> addr + count * PMM_FRAME_SIZE <= 2 ^ 64 ->
  let st' := pmm_free_frames addr count st in
  pmm_wf st' /\ evolves st st' /\
  (forall g, g ∈ free_set st' <-> g ∈ free_set st \/
     (g < total_frames st /\ addr / PMM_FRAME_SIZE <= g < addr / PMM_FRAME_SIZE + count)).
Proof.
  intros Hwf Ha Hc Hov. unfold pmm_free_frames.
  apply (for_next_rule (fun n s => pmm_wf s /\ evolves st s /\
    (forall g, g ∈ free_set s <-> g ∈ free_set st \/
       (g < total_frames st /\ addr / PMM_FRAME_SIZE <= g < addr / PMM_FRAME_SIZE + n))));
    [lia| |].
  - split_and!; [done..|]. intros g. split; [auto|]. intros [|]; [done|lia].
  - unfold PMM_FRAME_SIZE in *. intros i s Hi (Hwfs & Hev & Hfs).
    assert (addr ⊞ i ⊠ 4096 = addr + i * 4096) as ->.
    { rewrite wrap_add_r, wrap_small; [done|]. unfold fits. lia. }
    destruct (free_frame_refines (addr + i * 4096) s Hwfs ltac:(lia)) as (? & ? & Hset).
    split_and!; [done|by etrans|]. unfold PMM_FRAME_SIZE in Hset.
    rewrite Z.div_add, (ev_total _ _ Hev) in Hset by lia.
    intros g. rewrite Hset. case_decide; rewrite ?elem_of_union, ?elem_of_singleton, Hfs;
      split; intros Hg; destruct_or?; try (subst; tauto); try lia; try tauto;
      destruct (decide (g = addr / 4096 + i)) as [->|]; try tauto; right; lia.
Qed.

(** C34: [pmm_free_frames] gives back exactly the frames of the block that the
    allocator tracks; a frame that is free already stays free and is not
    counted twice (a double free changes nothing). *)
Theorem pmm_free_frames_refines addr count st :
  pmm_wf st -> 0 <= addr -> 0 <= count -> addr + count * PMM_FRAME_SIZE <= 2 ^ 64 ->
  let st' := pmm_free_frames addr count st in
  pmm_wf st' /\ evolves st st' /\
  (forall g, g ∈ free_set st' <-> g ∈ free_set st \/
     (g < total_frames st /\ addr / PMM_FRAME_SIZE <= g < addr / PMM_FRAME_SIZE + count)).
Proof. apply free_frames_refines_aux. Qed.

(** ** Observational equivalence

    Two allocators that answer every test alike; the words of the bitmap
    above [total_frames] may differ.  Allocation and freeing respect it, so
    states can be rewritten up to [≡]. *)
#[export] Instance pmm_equiv : Equiv pmm_state := fun st st' =>
  bitmap_ptr st = bitmap_ptr st' /\ total_frames st = total_frames st' /\
  used_frames st = used_frames st' /\ free_set st = free_set st'.

#[export] Instance pmm_equivalence : Equivalence (≡@{pmm_state}).
Proof.
  split.
  - intros st. by split_and!.
  - intros a b (? & ? & ? & ?). by split_and!.
  - intros a b c (? & ? & ? & ?) (? & ? & ? & ?). split_and!; by etrans.
Qed.

#[export] Instance take_frame_proper f : Proper ((≡) ==> (≡)) (take_frame f).
Proof.
  intros a b (Hp & Ht & Hu & Hf). split_and!; simpl; [done|done|by rewrite Hu|].
  by rewrite !free_set_take, Hf.
Qed.

#[export] Instance pmm_alloc_frame_proper :
  Proper ((≡) ==> prod_relation (=) (≡)) pmm_alloc_frame.
Proof.
  intros a b Hab. pose proof Hab as (_ & _ & _ & Hf).
  destruct (alloc_frame_cases a) as [(f & Hfa & Hmina & ->)|[Hna ->]],
           (alloc_frame_cases b) as [(g & Hgb & Hminb & ->)|[Hnb ->]].
  - assert (f = g) as ->.
    { rewrite Hf in Hfa, Hmina. specialize (Hmina _ Hgb). specialize (Hminb _ Hfa). lia. }
    split; [done|]. simpl. by rewrite Hab.
  - rewrite Hf in Hfa. by destruct (Hnb f).
  - rewrite <-Hf in Hgb. by destruct (Hna g).
  - by split.
Qed.

Lemma pmm_equiv_intro st st' :
  pmm_wf st -> pmm_wf st' -> bitmap_ptr st = bitmap_ptr st' ->
  total_frames st = total_frames st' -> free_set st = free_set st' -> st ≡ st'.
Proof.
  intros Hwf Hwf' Hp Ht Hf. split_and!; [done..| |done].
  by rewrite (wf_used st Hwf), (wf_used st' Hwf'), Ht, Hf.
Qed.

(** C35: freeing a block that [pmm_alloc_frames] returned restores the
    allocator: same counters and the same set of free frames. *)
Theorem pmm_alloc_free_roundtrip count st a st' :
  pmm_wf st -> 0 < count -> pmm_alloc_frames count st = (a, st') -> a <> 0 ->
  pmm_free_frames a count st' ≡ st.
Proof.
  intros Hwf Hc Halloc Ha.
  destruct (pmm_alloc_frames_refines_aux count st a st') as (Hwf' & Hev & Hspec); [done..|].
  destruct Hspec as [(f & Hsub & _ & -> & Hfs)|(_ & ? & _)]; [|done].
  pose proof (frame_run_subset_free _ _ _ Hc Hsub) as [? ?].
  pose proof (wf_total st Hwf) as Htot. unfold MAX_FRAMES in Htot.
  destruct (free_frames_refines_aux (f * PMM_FRAME_SIZE) count st') as (Hwf2 & Hev2 & Hfs2);
    [done|unfold PMM_FRAME_SIZE; lia..|].
  apply pmm_equiv_intro; [done..| | |].
  - by rewrite (ev_ptr _ _ Hev2), (ev_ptr _ _ Hev).
  - by rewrite (ev_total _ _ Hev2), (ev_total _ _ Hev).
  - apply set_eq. intros g. rewrite Hfs2, Hfs, elem_of_difference, elem_of_frame_run.
    rewrite (ev_total _ _ Hev), Z.div_mul by done.
    destruct (decide (f <= g < f + count)) as [Hg|]; [|tauto].
    split; [|intros; right; lia]. intros _. by apply Hsub, elem_of_frame_run.
Qed.

(** ** The contract of pmm.h

    The clients rely on frame 0 never being handed out, because its address
    is the failure value; [pmm_init] guarantees it (first MiB). *)
#[export] Instance pmm_FrameAlloc : FrameAlloc pmm_state := {
  fa_alloc := pmm_alloc_frame;
  fa_free := pmm_free_frame;
  fa_inv st := pmm_wf st /\ 0 ∉ free_set st;
  fa_avail := free_set;
  fa_owned st f := 0 <= f < total_frames st;
}.

#[export] Instance pmm_FrameAllocOk : FrameAllocOk pmm_state.
Proof.
  split; simpl.
  - intros st a st' [Hwf H0] Halloc Ha.
    destruct (alloc_frame_refines_aux _ _ _ Hwf Halloc) as (Hwf' & Hev & Hspec).
    destruct Hspec as [(f & Hsub & _ & -> & Hfs)|(_ & ? & _)]; [|done].
    rewrite frame_run_one in *. assert (f ∈ free_set st) as Hf by set_solver.
    pose proof (proj1 (elem_of_free_set _ _) Hf) as [? _]. pose proof (wf_total st Hwf).
    exists f. split_and!; [done| |lia|done|done|set_solver|done|].
    + destruct (decide (f = 0)) as [->|]; [done|lia].
    + intros g. by rewrite (ev_total _ _ Hev).
  - intros st st' [Hwf H0] Halloc.
    destruct (alloc_frame_cases st) as [(f & Hf & _ & Heq)|[Hnone Heq]];
      rewrite Halloc in Heq; simplify_eq.
    + pose proof (proj1 (elem_of_free_set _ _) Hf) as [? _]. pose proof (wf_total st Hwf).
      match goal with E : 0 = PMM_FRAME_TO_ADDR f |- _ => rewrite frame_to_addr in E by lia end.
      unfold PMM_FRAME_SIZE in *. by assert (f = 0) as -> by lia.
    + split; [done|]. set_solver.
  - intros st f [Hwf H0] Hf Hpos. unfold PMM_FRAME_SIZE.
    destruct (free_frame_refines (f * 4096) st Hwf ltac:(lia)) as (? & Hev & Hfs).
    unfold PMM_FRAME_SIZE in Hfs. rewrite Z.div_mul in Hfs by done.
    rewrite decide_True in Hfs by lia.
    split_and!; [done| |done|by intros g; rewrite (ev_total _ _ Hev)].
    rewrite Hfs, elem_of_union, elem_of_singleton. intros [|]; [lia|done].
  - by intros st f _ [? _]%elem_of_free_set.
  - intros st f [_ H0] Hf. pose proof (proj1 (elem_of_free_set _ _) Hf) as [? _].
    destruct (decide (f = 0)) as [->|]; [done|lia].
Qed.

