(* ===== verification/PmmInit.v ===== *)
(** * Initialisation of the frame allocator (pmm_init, src/mm/pmm.c)

    The memory map of the multiboot structure is turned into the bitmap.  The
    console calls of [pmm_init] are emitted after the state changes; the code
    interleaves them with the passes, which they do not affect. *)
From S2P Require Import Prelude Effects Multiboot PmmInterface PagingInterface Pmm.

(** ** pmm_init *)
Section init.
(** The linker symbol [_kernel_end] (its address). *)
Context (_kernel_end : Z).

Definition kernel_phys_end : Z := _kernel_end ⊟ HIGHER_HALF_BASE.

(** First pass: the highest end of an entry. *)
Definition max_addr_of (entry : Z -> Multiboot2.mmap_entry) (entry_count : Z) : Z :=
  after_break
    (for_range 0 entry_count
       (fun i max_addr =>
          let e := Multiboot2.base_addr (entry i) ⊞ Multiboot2.length (entry i) in
          Next (if max_addr <? e then e else max_addr)) 0).

(** Second pass: one memory map entry. *)
Definition apply_entry (e : Multiboot2.mmap_entry) (st : pmm_state) : pmm_state :=
  let base := Multiboot2.base_addr e in
  let len := Multiboot2.length e in
  if Multiboot2.type e =? Multiboot2.MULTIBOOT2_MEMORY_AVAILABLE then
    mark_range (PMM_ADDR_TO_FRAME base) (PMM_ADDR_TO_FRAME (base ⊞ len)) false st
  else pmm_mark_region base len true st.

(** The end of [pmm_init]: low memory, the kernel image, the bitmap and the
    VGA buffer are marked used. *)
Definition reserve (bitmap_bytes : Z) (st : pmm_state) : pmm_state :=
  let st := pmm_mark_region 0 0x100000 true st in
  let st := pmm_mark_region 0x100000 (kernel_phys_end ⊟ 0x100000) true st in
  let st := pmm_mark_region (bitmap_ptr st) bitmap_bytes true st in
  pmm_mark_region 0xB8000 0x8000 true st.

(** From line 142 on: the bitmap is placed and filled. *)
Definition pmm_fill (max_addr : Z) (entry : Z -> Multiboot2.mmap_entry)
    (entry_count : Z) (st : pmm_state) : pmm_state :=
  let total := max_addr / PMM_FRAME_SIZE in
  let total := if MAX_FRAMES <? total then MAX_FRAMES else total in
  let bitmap_bytes := (total + 31) / 32 * 4 in
  let st := Pmm kernel_phys_end (bitmap st) total (used_frames st) in
  let st := pmm_mark_region (bitmap_ptr st) bitmap_bytes true st in
  let st := after_break
    (for_range 0 entry_count (fun i st => Next (apply_entry (entry i) st)) st) in
  reserve bitmap_bytes st.

Definition hex_digit (n : Z) : Ascii.ascii :=
  default Ascii.zero
    (String.get (Z.to_nat n) "0123456789ABCDEF").

(** [buf[i] = "0123456789ABCDEF"[v & 0xF]; v >>= 4] for i = 15 .. 0. *)
Fixpoint hex_buf (n : nat) (v : Z) (acc : string) : string :=
  match n with
  | O => acc
  | S n' => hex_buf n' (Z.shiftr v 4) (String (hex_digit (Z.land v 0xF)) acc)
  end.

Definition pmm_init (mem : Z -> Z) (mbi : Z) : M pmm_state unit :=
  match Multiboot2.multiboot2_find_tag mem mbi 6 with
  | None => stop Diverges
  | Some mmap_tag =>
      if mmap_tag =? 0 then say (KPrint ("PMM: ERROR - No memory map from GRUB!" +:+ NL))
      else
        let entry i := Multiboot2.read_mmap_entry mem
          (mmap_tag + Multiboot2.sizeof_tag_mmap + i * Multiboot2.sizeof_mmap_entry) in
        let mmap_size := wrap 32 (Multiboot2.tag_size mem mmap_tag - Multiboot2.sizeof_tag_mmap) in
        let entry_size := Multiboot2.mmap_entry_size mem mmap_tag in
        if entry_size =? 0 then stop DivideError
        else
          let entry_count := mmap_size / entry_size in
          st ← get;
          put (pmm_fill (max_addr_of entry entry_count) entry entry_count st);;
          say (SerialPuts "[PMM] Bitmap at ");;
          say (SerialPuts "0x");;
          say (SerialPuts (hex_buf 16 kernel_phys_end ""));;
          say (SerialPuts NL)
  end.
End init.

(** ** Correctness *)

(** A region marked used, clipped at [total_frames] by the [break]. *)
Lemma mark_range_used s e st :
  pmm_wf st -> 0 <= s ->
  refines_to st (mark_range s e true st) (free_set st ∖ frame_run s (e - s)).
Proof.
  intros Hwf Hs. unfold mark_range. destruct (decide (s <= e)) as [Hse|Hse].
  2: { rewrite for_range_empty by lia. simpl. split_and!; [done..|].
       apply set_eq. intros g. rewrite elem_of_difference, elem_of_frame_run.
       split; [intros ?; split; [done|lia]|tauto]. }
  apply (for_break_rule (fun i st' => refines_to st st' (free_set st ∖ frame_run s (i - s))));
    [done| | |done].
  - rewrite Z.sub_diag, frame_run_nil, difference_empty_L. by split_and!.
  - intros i st' Hi Hst'. pose proof Hst' as (Hwf' & Hev & Hfs).
    destruct (Z.leb_spec (total_frames st') i) as [Hle|Hlt].
    + split_and!; [done..|]. rewrite Hfs. apply set_eq. intros g.
      rewrite !elem_of_difference, !elem_of_frame_run, elem_of_free_set.
      rewrite <-(ev_total _ _ Hev).
      split; intros [? ?]; (split; [done|lia]).
    + eapply refines_trans; [done|].
      replace (free_set st ∖ frame_run s (i + 1 - s)) with (free_set st' ∖ {[i]}).
      * apply refines_mark_used; [done|lia].
      * rewrite Hfs. apply set_eq. intros g.
        rewrite !elem_of_difference, !elem_of_frame_run, elem_of_singleton.
        split; intros ?; split_and!; try tauto; lia.
Qed.

Definition clipped_run (st : pmm_state) (s e : Z) : gset Z :=
  frame_run s (Z.min e (total_frames st) - s).

Lemma mark_range_free s e st :
  pmm_wf st -> 0 <= s ->
  refines_to st (mark_range s e false st) (clipped_run st s e ∪ free_set st).
Proof.
  intros Hwf Hs. unfold mark_range, clipped_run. destruct (decide (s <= e)) as [Hse|Hse].
  2: { rewrite for_range_empty by lia. simpl. split_and!; [done..|].
       apply set_eq. intros g. rewrite elem_of_union, elem_of_frame_run.
       split; [tauto|intros [|]; [lia|done]]. }
  apply (for_break_rule (fun i st' => refines_to st st'
      (frame_run s (Z.min i (total_frames st) - s) ∪ free_set st))); [done| | |done].
  - split_and!; [done..|]. apply set_eq. intros g.
    rewrite elem_of_union, elem_of_frame_run.
    split; [tauto|intros [|]; [lia|done]].
  - intros i st' Hi Hst'. pose proof Hst' as (Hwf' & Hev & Hfs).
    pose proof (ev_total _ _ Hev) as Htot.
    destruct (Z.leb_spec (total_frames st') i) as [Hle|Hlt].
    + split_and!; [done..|]. rewrite Hfs.
      by replace (Z.min i (total_frames st)) with (Z.min e (total_frames st)) by lia.
    + eapply refines_trans; [done|].
      replace (frame_run s (Z.min (i + 1) (total_frames st) - s) ∪ free_set st)
        with ({[i]} ∪ free_set st').
      * apply refines_mark_free; [done|lia].
      * rewrite Hfs. apply set_eq. intros g.
        rewrite !elem_of_union, !elem_of_frame_run, elem_of_singleton.
        split; intros Hg; destruct_or?; try tauto; try (left; lia);
          destruct (decide (g = i)); try tauto; right; left; lia.
Qed.

(** Which frames a memory map entry is about: the code rounds an available
    entry down at both ends, and the others out to whole frames. *)
Definition covers_end (e : Multiboot2.mmap_entry) : Z :=
  (if Multiboot2.type e =? Multiboot2.MULTIBOOT2_MEMORY_AVAILABLE
   then Multiboot2.base_addr e ⊞ Multiboot2.length e
   else Multiboot2.base_addr e ⊞ Multiboot2.length e ⊞ PMM_FRAME_SIZE ⊟ 1) / PMM_FRAME_SIZE.
Definition covers (e : Multiboot2.mmap_entry) (g : Z) : Prop :=
  Multiboot2.base_addr e / PMM_FRAME_SIZE <= g < covers_end e.

#[export] Instance covers_dec e g : Decision (covers e g).
Proof. unfold covers. apply _. Defined.

(** The memory map's verdict on a frame: the last entry that covers it
    decides, and a frame no entry covers keeps its initial state. *)
Fixpoint map_says_free (es : list Multiboot2.mmap_entry) (g : Z) (init : bool) : bool :=
  match es with
  | [] => init
  | e :: es =>
      map_says_free es g
        (if decide (covers e g)
         then Multiboot2.type e =? Multiboot2.MULTIBOOT2_MEMORY_AVAILABLE else init)
  end.

Definition entry_ok (e : Multiboot2.mmap_entry) : Prop :=
  fits 64 (Multiboot2.base_addr e) /\ fits 64 (Multiboot2.length e).

Lemma apply_entry_spec e st :
  pmm_wf st -> entry_ok e ->
  pmm_wf (apply_entry e st) /\ evolves st (apply_entry e st) /\
  forall g, 0 <= g < total_frames st ->
    (g ∈ free_set (apply_entry e st) <->
     (if decide (covers e g)
      then Multiboot2.type e =? Multiboot2.MULTIBOOT2_MEMORY_AVAILABLE
      else bool_decide (g ∈ free_set st)) = true).
Proof.
  intros Hwf [[Hb _] _].
  assert (0 <= Multiboot2.base_addr e / PMM_FRAME_SIZE) as Hs
    by (unfold PMM_FRAME_SIZE; divlia).
  assert (apply_entry e st = mark_range (Multiboot2.base_addr e / PMM_FRAME_SIZE)
    (covers_end e) (negb (Multiboot2.type e =? Multiboot2.MULTIBOOT2_MEMORY_AVAILABLE)) st)
    as ->.
  { unfold apply_entry, pmm_mark_region, covers_end. rewrite !addr_to_frame.
    by destruct (_ =? _). }
  destruct (_ =? _); simpl.
  - destruct (mark_range_free (Multiboot2.base_addr e / PMM_FRAME_SIZE)
      (covers_end e) st) as (? & ? & Hfs); [done..|].
    split_and!; [done..|]. intros g Hg. rewrite Hfs. unfold clipped_run.
    rewrite elem_of_union, elem_of_frame_run. unfold covers. case_decide.
    + split; [done|]. intros _. left. lia.
    + rewrite bool_decide_eq_true. split; [intros [|]; [lia|done]|auto].
  - destruct (mark_range_used (Multiboot2.base_addr e / PMM_FRAME_SIZE)
      (covers_end e) st) as (? & ? & Hfs); [done..|].
    split_and!; [done..|]. intros g Hg. rewrite Hfs. unfold covers.
    rewrite elem_of_difference, elem_of_frame_run. case_decide.
    + split; [|done]. lia.
    + rewrite bool_decide_eq_true. split; [tauto|]. intros ?. split; [done|lia].
Qed.

Lemma apply_entries_spec (entry : Z -> Multiboot2.mmap_entry) n st :
  pmm_wf st -> 0 <= n -> (forall i, entry_ok (entry i)) ->
  let st' := after_break (for_range 0 n (fun i st => Next (apply_entry (entry i) st)) st) in
  pmm_wf st' /\ evolves st st' /\
  forall g, 0 <= g < total_frames st ->
    (g ∈ free_set st' <->
     map_says_free (entry <$> seqZ 0 n) g (bool_decide (g ∈ free_set st)) = true).
Proof.
  intros Hwf Hn Hok.
  apply (for_next_rule (fun i s => pmm_wf s /\ evolves st s /\
    forall g, 0 <= g < total_frames st ->
      (g ∈ free_set s <->
       map_says_free (entry <$> seqZ 0 i) g (bool_decide (g ∈ free_set st)) = true)));
    [done| |].
  - split_and!; [done..|]. intros g Hg. simpl. by rewrite bool_decide_eq_true.
  - intros i s Hi (Hwfs & Hev & Hfs).
    destruct (apply_entry_spec (entry i) s Hwfs (Hok i)) as (? & ? & Hstep).
    split_and!; [done|by etrans|]. intros g Hg.
    rewrite Hstep by by rewrite (ev_total _ _ Hev).
    rewrite seqZ_app, fmap_app by lia. simpl.
    assert (forall es b, map_says_free (es ++ [entry i]) g b =
      if decide (covers (entry i) g)
      then Multiboot2.type (entry i) =? Multiboot2.MULTIBOOT2_MEMORY_AVAILABLE
      else map_says_free es g b) as Hsnoc.
    { induction es as [|e es IH]; intros b; simpl; [done|apply IH]. }
    rewrite Z.add_0_l, Hsnoc. case_decide; [done|].
    by rewrite bool_decide_eq_true, Hfs.
Qed.

Lemma mark_region_used base size st :
  pmm_wf st -> 0 <= base -> 0 <= size -> base + size + PMM_FRAME_SIZE <= 2 ^ 64 ->
  let st' := pmm_mark_region base size true st in
  pmm_wf st' /\ evolves st st' /\
  (forall g, g ∈ free_set st' <->
     g ∈ free_set st /\
     (g < base / PMM_FRAME_SIZE \/ (base + size + PMM_FRAME_SIZE - 1) / PMM_FRAME_SIZE <= g)).
Proof.
  intros Hwf Hb Hs Hov. unfold pmm_mark_region. rewrite !addr_to_frame.
  replace (base ⊞ size ⊞ PMM_FRAME_SIZE ⊟ 1) with (base + size + PMM_FRAME_SIZE - 1).
  2: { unfold PMM_FRAME_SIZE in *. rewrite wrap_sub_l, wrap_small; unfold fits; [|].
       - rewrite wrap_small; [lia|unfold fits; lia].
       - rewrite wrap_small; unfold fits; lia. }
  destruct (mark_range_used (base / PMM_FRAME_SIZE)
    ((base + size + PMM_FRAME_SIZE - 1) / PMM_FRAME_SIZE) st) as (? & ? & Hfs);
    [done|unfold PMM_FRAME_SIZE in *; divlia|].
  split_and!; [done..|]. intros g. rewrite Hfs, elem_of_difference, elem_of_frame_run.
  split; intros [? ?]; split; [done|lia|done|lia].
Qed.

Lemma zero_ram_wf st ptr total :
  (forall i, word st i = 0) -> 0 <= total <= MAX_FRAMES ->
  let st' := Pmm ptr (bitmap st) total 0 in
  pmm_wf st' /\ forall g, g ∈ free_set st' <-> 0 <= g < total.
Proof.
  intros Hz Ht st'.
  assert (forall g, is_used st' g = false) as Hu.
  { intros g. unfold is_used, word in *. simpl. rewrite Hz. apply Z.testbit_0_l. }
  assert (free_set st' = frame_run 0 total) as Hfs.
  { apply set_eq. intros g. rewrite elem_of_free_set, elem_of_frame_run, Hu. simpl. naive_solver lia. }
  split; [|intros g; rewrite Hfs, elem_of_frame_run; lia].
  split; [done|]. rewrite Hfs. unfold frame_run. simpl.
  rewrite size_list_to_set by apply NoDup_seqZ. rewrite length_seqZ. lia.
Qed.

Lemma reserve_spec _kernel_end bytes st :
  let kend := kernel_phys_end _kernel_end in
  pmm_wf st -> bitmap_ptr st = kend -> 0x100000 <= kend <= 2 ^ 63 -> 0 <= bytes <= 2 ^ 17 ->
  let st' := reserve _kernel_end bytes st in
  pmm_wf st' /\ evolves st st' /\
  (forall g, g ∈ free_set st' <-> g ∈ free_set st /\ kend + bytes <= g * PMM_FRAME_SIZE).
Proof.
  intros kend Hwf Hptr Hk Hb. unfold reserve. fold kend.
  rewrite (wrap_small 64 (kend - _)) by (unfold fits; lia). clearbody kend.
  destruct (mark_region_used 0 0x100000 st) as (Hwf1 & He1 & Hf1);
    [done|unfold PMM_FRAME_SIZE; lia..|].
  set (st1 := pmm_mark_region 0 _ _ st) in *.
  destruct (mark_region_used 0x100000 (kend - 0x100000) st1) as (Hwf2 & He2 & Hf2);
    [done|unfold PMM_FRAME_SIZE; lia..|].
  set (st2 := pmm_mark_region 0x100000 _ _ st1) in *.
  rewrite (ev_ptr _ _ He2), (ev_ptr _ _ He1), Hptr.
  destruct (mark_region_used kend bytes st2) as (Hwf3 & He3 & Hf3);
    [done|unfold PMM_FRAME_SIZE; lia..|].
  set (st3 := pmm_mark_region kend _ _ st2) in *.
  destruct (mark_region_used 0xB8000 0x8000 st3) as (Hwf4 & He4 & Hf4);
    [done|unfold PMM_FRAME_SIZE; lia..|].
  split_and!; [done|by do 3 (etrans; [|done])|].
  intros g. rewrite Hf4, Hf3, Hf2, Hf1, elem_of_free_set. unfold PMM_FRAME_SIZE.
  clear - Hk Hb. split; intros ?; destruct_and?; split_and!; try done; divlia.
Qed.

(** The fill over zeroed RAM, for any entries. *)
Lemma pmm_fill_correct_aux (_kernel_end max_addr n : Z)
    (entry : Z -> Multiboot2.mmap_entry) (st : pmm_state) :
  (forall i, word st i = 0) -> used_frames st = 0 ->
  0 <= max_addr -> 0 <= n -> (forall i, entry_ok (entry i)) ->
  0x100000 <= kernel_phys_end _kernel_end <= 2 ^ 63 ->
  let st' := pmm_fill _kernel_end max_addr entry n st in
  let total := Z.min (max_addr / PMM_FRAME_SIZE) MAX_FRAMES in
  pmm_wf st' /\ bitmap_ptr st' = kernel_phys_end _kernel_end /\ total_frames st' = total /\
  forall g, g ∈ free_set st' <->
    0 <= g < total /\
    kernel_phys_end _kernel_end + (total + 31) / 32 * 4 <= g * PMM_FRAME_SIZE /\
    map_says_free (entry <$> seqZ 0 n) g true = true.
Proof.
  intros Hram Hused Hmax Hn Hok Hend. unfold pmm_fill. rewrite Hused.
  set (kend := kernel_phys_end _kernel_end) in *.
  replace (if MAX_FRAMES <? max_addr / PMM_FRAME_SIZE then MAX_FRAMES
           else max_addr / PMM_FRAME_SIZE)
    with (Z.min (max_addr / PMM_FRAME_SIZE) MAX_FRAMES)
    by (destruct (Z.ltb_spec MAX_FRAMES (max_addr / PMM_FRAME_SIZE)); lia).
  set (total := Z.min _ _). cbn [bitmap_ptr].
  assert (0 <= total <= MAX_FRAMES) as Htot
    by (unfold total, PMM_FRAME_SIZE, MAX_FRAMES; split; [apply Z.min_glb|]; divlia).
  set (bytes := (total + 31) / 32 * 4).
  assert (0 <= bytes <= 2 ^ 17) as Hbytes
    by (unfold bytes, MAX_FRAMES in *; clearbody total; divlia).
  unfold PMM_FRAME_SIZE, MAX_FRAMES in *.
  destruct (zero_ram_wf st kend total Hram Htot) as [Hwf0 Hf0].
  set (st0 := Pmm kend (bitmap st) total 0) in *.
  destruct (mark_region_used kend bytes st0) as (Hwf1 & He1 & Hf1);
    [done|unfold PMM_FRAME_SIZE; lia..|].
  set (st1 := pmm_mark_region kend bytes true st0) in *.
  destruct (apply_entries_spec entry n st1 Hwf1 Hn Hok) as (Hwf2 & He2 & Hf2).
  set (st2 := after_break _) in *.
  destruct (reserve_spec _kernel_end bytes st2) as (Hwf3 & He3 & Hf3);
    [done|by rewrite (ev_ptr _ _ He2), (ev_ptr _ _ He1)|done..|].
  change (kernel_phys_end _kernel_end) with kend in Hf3.
  split_and!; [done| | |].
  - by rewrite (ev_ptr _ _ He3), (ev_ptr _ _ He2), (ev_ptr _ _ He1).
  - by rewrite (ev_total _ _ He3), (ev_total _ _ He2), (ev_total _ _ He1).
  - intros g. rewrite Hf3. unfold PMM_FRAME_SIZE in *.
    assert (total_frames st1 = total) as Ht1 by by rewrite (ev_total _ _ He1).
    assert (forall g, g ∈ free_set st2 -> 0 <= g < total) as Hin.
    { intros h [Hh _]%elem_of_free_set. by rewrite (ev_total _ _ He2), Ht1 in Hh. }
    rewrite Ht1 in Hf2.
    assert (0 <= g < total -> kend + bytes <= g * 4096 -> g ∈ free_set st1) as Hinit.
    { intros Hg Habove. apply Hf1. split; [by apply Hf0|]. right. divlia. }
    split.
    + intros [Hg Habove]. pose proof (Hin g Hg) as Hr. split_and!; [lia..|].
      apply Hf2 in Hg; [|done]. by rewrite bool_decide_true in Hg by auto.
    + intros (Hg & Habove & Hmap). split; [|done]. apply Hf2; [done|].
      by rewrite bool_decide_true by auto.
Qed.

Lemma max_addr_of_spec entry n :
  0 <= n ->
  0 <= max_addr_of entry n /\
  forall i, 0 <= i < n ->
    Multiboot2.base_addr (entry i) ⊞ Multiboot2.length (entry i) <= max_addr_of entry n.
Proof.
  intros Hn. unfold max_addr_of.
  apply (for_next_rule (fun k m => 0 <= m /\ forall i, 0 <= i < k ->
    Multiboot2.base_addr (entry i) ⊞ Multiboot2.length (entry i) <= m)); [done| |].
  - split; [done|]. intros i Hi. lia.
  - intros k m Hk [Hm Hall]. split.
    + destruct (Z.ltb_spec m (Multiboot2.base_addr (entry k) ⊞ Multiboot2.length (entry k))); lia.
    + intros i Hi. destruct (decide (i = k)) as [->|].
      * destruct (Z.ltb_spec m (Multiboot2.base_addr (entry k) ⊞ Multiboot2.length (entry k))); lia.
      * specialize (Hall i ltac:(lia)).
        destruct (Z.ltb_spec m (Multiboot2.base_addr (entry k) ⊞ Multiboot2.length (entry k))); lia.
Qed.

(** The memory map a multiboot structure holds, as [pmm_init] reads it. *)
Definition mmap_entry_at (mem : Z -> Z) (tag i : Z) : Multiboot2.mmap_entry :=
  Multiboot2.read_mmap_entry mem
    (tag + Multiboot2.sizeof_tag_mmap + i * Multiboot2.sizeof_mmap_entry).
Definition mmap_entry_count (mem : Z -> Z) (tag : Z) : Z :=
  wrap 32 (Multiboot2.tag_size mem tag - Multiboot2.sizeof_tag_mmap)
  / Multiboot2.mmap_entry_size mem tag.

Lemma mmap_entry_ok mem tag i : bytes_ok mem -> entry_ok (mmap_entry_at mem tag i).
Proof. intros Hm. by split; apply (le_read_fits 8). Qed.

Lemma mmap_entry_count_nonneg mem tag : bytes_ok mem -> 0 <= mmap_entry_count mem tag.
Proof.
  intros Hm. pose proof (le_read_fits 4 mem (tag + 8) Hm) as [? _].
  unfold mmap_entry_count.
  destruct (decide (Multiboot2.mmap_entry_size mem tag = 0)) as [->|Hne].
  - by rewrite Z.div_0_r.
  - apply Z.div_pos; [apply wrap_nonneg; lia|].
    unfold Multiboot2.mmap_entry_size, read_u32 in *. lia.
Qed.


(** ** What the memory map leaves open *)

Lemma map_says_free_uncovered es g b :
  Forall (fun e => ~ covers e g) es -> map_says_free es g b = b.
Proof.
  intros H. revert b. induction H as [|e es He _ IH]; intros b; [done|].
  simpl. by rewrite decide_False.
Qed.

(** A frame that no entry of the memory map covers (a hole, where there is
    no RAM) is free after [pmm_init] when it lies between the end of the
    bitmap and the highest address of the map: the allocator hands it out. *)
Theorem pmm_init_hole_is_free (_kernel_end max_addr n g : Z)
    (entry : Z -> Multiboot2.mmap_entry) (st : pmm_state) :
  (forall i, word st i = 0) -> used_frames st = 0 ->
  0 <= max_addr -> 0 <= n -> (forall i, entry_ok (entry i)) ->
  0x100000 <= kernel_phys_end _kernel_end <= 2 ^ 63 ->
  let st' := pmm_fill _kernel_end max_addr entry n st in
  0 <= g < total_frames st' ->
  kernel_phys_end _kernel_end + (total_frames st' + 31) / 32 * 4 <= g * PMM_FRAME_SIZE ->
  Forall (fun e => ~ covers e g) (entry <$> seqZ 0 n) ->
  g ∈ free_set st'.
Proof.
  intros Hram Hused Hmax Hn Hok Hend st' Hg Habove Hhole.
  destruct (pmm_fill_correct_aux _kernel_end max_addr n entry st)
    as (_ & _ & Htot & Hfree); [done..|]. fold st' in Htot, Hfree.
  rewrite Htot in *. apply Hfree. split_and!; [lia..|].
  by apply map_says_free_uncovered.
Qed.

(** ** Witnesses *)

(** A machine with 2 MiB of RAM below a hole, and a reserved page at 4 MiB. *)
Definition sample_entry (i : Z) : Multiboot2.mmap_entry :=
  if i =? 0 then Multiboot2.MmapEntry 0 0x200000 1
  else Multiboot2.MmapEntry 0x400000 0x1000 2.
Definition sample_kernel_end : Z := HIGHER_HALF_BASE + 0x110000.
Definition sample_pmm : pmm_state :=
  pmm_fill sample_kernel_end 0x401000 sample_entry 2 (pmm_boot ∅).

Lemma sample_entry_ok i : entry_ok (sample_entry i).
Proof. unfold sample_entry. destruct (i =? 0); by repeat split. Qed.

Lemma sample_pmm_wf : pmm_wf sample_pmm.
Proof.
  apply pmm_fill_correct_aux; [done..|apply sample_entry_ok|decide_done].
Qed.

(** The bitmap is not cleared before use: over RAM that holds set bits the
    counter [used_frames] drifts, and [pmm_free_frames_count] no longer is
    the number of free frames. *)
Theorem pmm_init_dirty_ram_miscounts :
  let st := pmm_fill sample_kernel_end 0x401000 sample_entry 2
              (pmm_boot {[ 10 := 0xFFFFFFFF ]}) in
  pmm_free_frames_count st = Z.of_nat (size (free_set st)) + 32.
Proof. vm_compute. reflexivity. Qed.

Lemma pmm_init_hole_is_free_witness : 0x300 ∈ free_set sample_pmm.
Proof.
  apply (pmm_init_hole_is_free sample_kernel_end 0x401000 2 0x300 sample_entry (pmm_boot ∅)).
  1,2: done.
  1,2: done.
  - apply sample_entry_ok.
  - decide_done.
  - decide_done.
  - decide_done.
  - decide_done.
Defined.

Lemma pmm_alloc_frame_refines_witness :
  alloc_spec 1 (free_set sample_pmm) 0x111000 (free_set (pmm_alloc_frame sample_pmm).2).
Proof.
  apply (pmm_alloc_frame_refines sample_pmm); [apply sample_pmm_wf|].
  vm_compute. reflexivity.
Defined.

Lemma pmm_alloc_frames_refines_witness :
  alloc_spec 3 (free_set sample_pmm) 0x111000 (free_set (pmm_alloc_frames 3 sample_pmm).2).
Proof.
  apply (pmm_alloc_frames_refines 3 sample_pmm); [apply sample_pmm_wf|done|].
  vm_compute. reflexivity.
Defined.

Lemma pmm_free_frames_refines_witness :
  pmm_wf (pmm_free_frames 0x100000 2 sample_pmm).
Proof.
  apply (pmm_free_frames_refines 0x100000 2 sample_pmm); [apply sample_pmm_wf|done..].
Defined.

Lemma pmm_alloc_free_roundtrip_witness :
  pmm_free_frames 0x111000 3 (pmm_alloc_frames 3 sample_pmm).2 ≡ sample_pmm.
Proof.
  apply (pmm_alloc_free_roundtrip 3); [apply sample_pmm_wf|done| |done].
  vm_compute. reflexivity.
Defined.

(** A multiboot structure at address 0x9000 with one memory map tag: one
    available entry of 4 MiB. *)
Definition sample_mbi_bytes : list Z :=
  [56; 0; 0; 0; 0; 0; 0; 0;
   6; 0; 0; 0; 40; 0; 0; 0; 24; 0; 0; 0; 0; 0; 0; 0;
   0; 0; 0; 0; 0; 0; 0; 0; 0; 0; 64; 0; 0; 0; 0; 0; 1; 0; 0; 0; 0; 0; 0; 0;
   0; 0; 0; 0; 8; 0; 0; 0].
Definition sample_mem (a : Z) : Z :=
  if decide (0x9000 <= a) then default 0 (sample_mbi_bytes !! Z.to_nat (a - 0x9000)) else 0.

Lemma sample_mem_ok : bytes_ok sample_mem.
Proof.
  intros a. unfold sample_mem. case_decide; [|done].
  destruct (sample_mbi_bytes !! _) eqn:E; [|done]. simpl.
  assert (Forall (fits 8) sample_mbi_bytes) as Hall by (repeat constructor; done).
  by eapply Forall_lookup_1 in Hall.
Qed.

