(* ===== verification/Paging.v ===== *)
(** * Virtual memory (src/mm/paging.c, src/mm/paging.h): the model

    Physical memory is a map from the address of a 64-bit word to its value;
    page tables are arrays of such words.  The kernel reaches a page table
    through a pointer into its window at [HIGHER_HALF_BASE]: the access is
    translated by the entries of [pt_hi_kernel], as the MMU does it, so the
    scratch page, which the code points at one frame after another, aliases
    here exactly as it does on the machine.

    The frame allocator is any implementation of the contract of pmm.h. *)
From S2P Require Import Prelude Effects PmmInterface PagingInterface.

Definition SCRATCH_VA : Z := 0xFFFFFFFF801FF000.
Definition SCRATCH_PT_IDX : Z := 511.

(** The addresses of the static tables (virtual, from the linker). *)
Record layout := Layout {
  pml4_new : Z;
  pdpt_id : Z;
  pdpt_hi : Z;
  pd_id : Z;
  pd_hi : Z;
  pt_hi_kernel : Z;
  pt_id_0 : Z;
  pt_id_1 : Z;
}.

Definition phys (va : Z) : Z := va ⊟ HIGHER_HALF_BASE.

Record pg_state (FA : Type) := Pg {
  pmem : gmap Z Z;    (* physical memory *)
  cr3 : Z;            (* the CPU's CR3 *)
  new_pml4 : Z;       (* the static pointer [new_pml4]; 0 is NULL *)
  frames : FA;        (* the frame allocator *)
}.
Arguments Pg {FA} _ _ _ _.
Arguments pmem {FA} _.
Arguments cr3 {FA} _.
Arguments new_pml4 {FA} _.
Arguments frames {FA} _.

Definition set_pmem {FA} (m : gmap Z Z) (st : pg_state FA) : pg_state FA :=
  Pg m (cr3 st) (new_pml4 st) (frames st).
Definition set_frames {FA} (fa : FA) (st : pg_state FA) : pg_state FA :=
  Pg (pmem st) (cr3 st) (new_pml4 st) fa.

(** ** Memory words and page table entries *)

Definition rdm (m : gmap Z Z) (a : Z) : Z := default 0 (m !! a).
Definition entry (m : gmap Z Z) (table idx : Z) : Z := rdm m (table + 8 * idx).

(** [memset(p, 0, 4096)] on a physical frame. *)
Definition zero_frame (pa : Z) (m : gmap Z Z) : gmap Z Z :=
  after_break (for_range 0 512 (fun i m => Next (<[pa + 8 * i := 0]> m)) m).

Section paging.
Context {FA : Type} `{FrameAlloc FA}.
Context (L : layout).
Local Abbreviation K := (M (pg_state FA)).

(** ** Kernel accesses *)

(** The translation of a kernel pointer into the 2 MiB window, by the entry
    of [pt_hi_kernel] for its page.  The levels above it are written once, by
    [paging_init]. *)
Definition kva (m : gmap Z Z) (va : Z) : option Z :=
  if (HIGHER_HALF_BASE <=? va) && (va <? HIGHER_HALF_BASE + 0x200000) then
    let e := entry m (phys (pt_hi_kernel L)) ((va - HIGHER_HALF_BASE) / 4096) in
    if present e then Some (page_base e + va mod 4096) else None
  else None.

Definition translate (va : Z) : K Z := fun st =>
  match kva (pmem st) va with
  | Some pa => Done pa st []
  | None => Stop (PageFault va) []
  end.

(** [p[i]] and [p[i] = v] for a [uint64_t*] p. *)
Definition load (p i : Z) : K Z :=
  pa ← translate (p + 8 * i); st ← get; mret (rdm (pmem st) pa).
Definition store (p i v : Z) : K unit :=
  pa ← translate (p + 8 * i); modify (fun st => set_pmem (<[pa := v]> (pmem st)) st).
(** [memset(p, 0, 4096)] *)
Definition memset_page (p : Z) : K unit :=
  pa ← translate p; modify (fun st => set_pmem (zero_frame pa (pmem st)) st).

Definition alloc_frame : K Z := fun st =>
  let '(a, fa) := fa_alloc (frames st) in Done a (set_frames fa st) [].
Definition free_frame (pa : Z) : K unit :=
  modify (fun st => set_frames (fa_free pa (frames st)) st).

Definition paging_read_cr3 : K Z := st ← get; mret (cr3 st).

(** ** Operations *)

Definition scratch_map (pa : Z) : K Z :=
  store (pt_hi_kernel L) SCRATCH_PT_IDX
    (Z.lor (Z.lor (page_base pa) PAGE_PRESENT) PAGE_WRITABLE);;
  mret SCRATCH_VA.

Definition virt_for_phys (pa : Z) : K Z :=
  if pa <? 0x200000 then mret (pa ⊞ HIGHER_HALF_BASE) else scratch_map pa.

Definition paging_phys_to_virt (pa : Z) : K Z := virt_for_phys pa.

(** [paging_init] runs on the tables of boot.s, which map the window to the
    first 2 MiB: a static table is reached at its physical address. *)
Definition paging_init : K unit :=
  let pml4_pa := phys (pml4_new L) in
  let pdpt_id_pa := phys (pdpt_id L) in
  let pdpt_hi_pa := phys (pdpt_hi L) in
  let pd_id_pa := phys (pd_id L) in
  let pd_hi_pa := phys (pd_hi L) in
  let pt_hi_pa := phys (pt_hi_kernel L) in
  let pt_id0_pa := phys (pt_id_0 L) in
  let pt_id1_pa := phys (pt_id_1 L) in
  let rw := Z.lor PAGE_PRESENT PAGE_WRITABLE in
  let rw_user := Z.lor (Z.lor PAGE_PRESENT PAGE_WRITABLE) PAGE_USER in
  let set table i v m := <[table + 8 * i := v]> m in
  modify (fun st =>
    let m := pmem st in
    let m := zero_frame pml4_pa m in
    let m := zero_frame pdpt_id_pa m in
    let m := zero_frame pdpt_hi_pa m in
    let m := zero_frame pd_id_pa m in
    let m := zero_frame pd_hi_pa m in
    let m := zero_frame pt_hi_pa m in
    let m := zero_frame pt_id0_pa m in
    let m := zero_frame pt_id1_pa m in
    let m := set pml4_pa 0 (Z.lor pdpt_id_pa rw) m in
    let m := set pdpt_id_pa 0 (Z.lor pd_id_pa rw) m in
    let m := set pd_id_pa 0 (Z.lor pt_id0_pa rw) m in
    let m := set pd_id_pa 1 (Z.lor pt_id1_pa rw) m in
    let m := after_break (for_range 0 512 (fun i m =>
      let m := set pt_id0_pa i (Z.lor (i * PMM_FRAME_SIZE) rw) m in
      Next (set pt_id1_pa i (Z.lor ((i + 512) * PMM_FRAME_SIZE) rw) m)) m) in
    let m := set pml4_pa 511 (Z.lor pdpt_hi_pa rw_user) m in
    let m := set pdpt_hi_pa 510 (Z.lor pd_hi_pa rw_user) m in
    let m := set pd_hi_pa 0 (Z.lor pt_hi_pa rw_user) m in
    let m := after_break (for_range 0 512 (fun i m =>
      Next (set pt_hi_pa i (Z.lor (i * PMM_FRAME_SIZE) rw_user) m)) m) in
    Pg m pml4_pa (pml4_new L) (frames st)).

(** The block [paging_map_page] runs at each of the three upper levels: when
    [table[idx]] is not present, a frame is allocated, zeroed through the
    scratch page and linked ([link_new]; [false] is [return -1]); then the next
    table's pointer is computed. *)
Definition link_new (table idx intermediate_rw : Z) : K bool :=
  frame ← alloc_frame;
  if frame =? 0 then mret false
  else
    p ← scratch_map frame;
    memset_page p;;
    store table idx (Z.lor frame intermediate_rw);;
    mret true.

Definition descend (table idx intermediate_rw : Z) : K (option Z) :=
  e ← load table idx;
  linked ← (if present e then mret true else link_new table idx intermediate_rw);
  if linked : bool then
    e ← load table idx;
    next ← virt_for_phys (page_base e);
    mret (Some next)
  else mret None.

Definition paging_map_page (virt phys flags : Z) : K Z :=
  st ← get;
  if new_pml4 st =? 0 then mret (-1)
  else
    let pi := pml4_idx virt in
    let pdi := pdpt_idx virt in
    let pdi2 := pd_idx virt in
    let pti := pt_idx virt in
    let rw := Z.lor PAGE_PRESENT PAGE_WRITABLE in
    let intermediate_rw := if pi =? 511 then Z.lor rw PAGE_USER else rw in
    pdpt ← descend (new_pml4 st) pi intermediate_rw;
    match pdpt with
    | None => mret (-1)
    | Some pdpt =>
        pd ← descend pdpt pdi intermediate_rw;
        match pd with
        | None => mret (-1)
        | Some pd =>
            pt ← descend pd pdi2 intermediate_rw;
            match pt with
            | None => mret (-1)
            | Some pt =>
                store pt pti (Z.lor (page_base phys) flags);;
                mret 0
            end
        end
    end.

(** [p = virt_for_phys(table[idx] & ~0xFFFULL)] when [table[idx]] is present;
    [None] is the early return of the walks. *)
Definition follow (table idx : Z) : K (option Z) :=
  e ← load table idx;
  if present e then
    e ← load table idx;
    next ← virt_for_phys (page_base e);
    mret (Some next)
  else mret None.

(** The three upper levels of a walk, ending in the page table. *)
Definition walk_to_pt (pml4 virt : Z) : K (option Z) :=
  pdpt ← follow pml4 (pml4_idx virt);
  match pdpt with
  | None => mret None
  | Some pdpt =>
      pd ← follow pdpt (pdpt_idx virt);
      match pd with
      | None => mret None
      | Some pd => follow pd (pd_idx virt)
      end
  end.

Definition paging_unmap_page (virt : Z) : K unit :=
  st ← get;
  if new_pml4 st =? 0 then mret tt
  else
    pt ← walk_to_pt (new_pml4 st) virt;
    match pt with
    | None => mret tt
    | Some pt => store pt (pt_idx virt) 0
    end.

Definition paging_virt_to_phys_cr3 (cr3_pa virt : Z) : K Z :=
  pml4 ← virt_for_phys cr3_pa;
  pt ← walk_to_pt pml4 virt;
  match pt with
  | None => mret 0
  | Some pt =>
      e ← load pt (pt_idx virt);
      if present e then mret (Z.lor (page_base e) (Z.land virt 0xFFF)) else mret 0
  end.

Definition paging_virt_to_phys (virt : Z) : K Z :=
  st ← get;
  if new_pml4 st =? 0 then mret 0
  else
    c ← paging_read_cr3;
    paging_virt_to_phys_cr3 (page_base c) virt.

Definition paging_kernel_cr3 : K Z := c ← paging_read_cr3; mret (page_base c).

Definition paging_create_user_space : K Z :=
  new_pml4_pa ← alloc_frame;
  if new_pml4_pa =? 0 then mret 0
  else
    user_pml4 ← virt_for_phys new_pml4_pa;
    memset_page user_pml4;;
    c ← paging_read_cr3;
    kernel_pml4 ← virt_for_phys (page_base c);
    e ← load kernel_pml4 511;
    store user_pml4 511 e;;
    mret new_pml4_pa.

(** [for (va = first; va < limit; va += PMM_FRAME_SIZE)] with a [return]. *)
Definition for_pages {R} (first limit : Z) (body : Z -> K (option R)) : K (option R) :=
  mfor (Z.to_nat ((limit - first + PMM_FRAME_SIZE - 1) / PMM_FRAME_SIZE)) 0
    (fun k => body (first + k * PMM_FRAME_SIZE)).

(** The second loop of [user_mem_check], on one page. *)
Definition check_page (writable : bool) (va : Z) : K (option Z) :=
  c ← paging_read_cr3;
  pml4 ← virt_for_phys (page_base c);
  pt ← walk_to_pt pml4 va;
  match pt with
  | None => mret (Some 0)
  | Some pt =>
      e ← load pt (pt_idx va);
      if negb (present e) then mret (Some 0)
      else if writable && negb (has_flag e PAGE_WRITABLE) then mret (Some 0)
      else if negb (has_flag e PAGE_USER) then mret (Some 0)
      else mret None
  end.

Definition user_mem_check (addr len : Z) (writable : bool) : K Z :=
  if USER_ADDR_LIMIT <=? addr then mret 0
  else if len =? 0 then mret 1
  else if addr ⊞ len <? addr then mret 0
  else if USER_ADDR_LIMIT <? addr ⊞ len then mret 0
  else
    let first := page_base addr in
    r ← for_pages first (addr ⊞ len) (fun va =>
          pa ← paging_virt_to_phys va;
          if pa =? 0 then mret (Some 0) else mret None);
    match r with
    | Some r => mret r
    | None =>
        r ← for_pages first (addr ⊞ len) (check_page writable);
        mret (default 1 r)
    end.

(** [for (i = 0; i < n; i++)] over the entries of a table that are present. *)
Definition for_present (table n : Z) (body : Z -> K unit) : K unit :=
  mfor (R := unit) (Z.to_nat n) 0 (fun i =>
    e ← load table i;
    (if present e then body i else mret tt);;
    mret None);;
  mret tt.

(** The page table of [pd[pdi2]], and the frames it maps. *)
Definition free_pt (pd pdi2 : Z) : K unit :=
  e ← load pd pdi2;
  if has_flag e PAGE_PS then
    e ← load pd pdi2; free_frame (page_base e)
  else
    e ← load pd pdi2;
    pt ← virt_for_phys (page_base e);
    for_present pt 512 (fun pti => e ← load pt pti; free_frame (page_base e));;
    e ← load pd pdi2;
    free_frame (page_base e).

Definition free_pd (pdpt pdi : Z) : K unit :=
  e ← load pdpt pdi;
  pd ← virt_for_phys (page_base e);
  for_present pd 512 (free_pt pd);;
  e ← load pdpt pdi;
  free_frame (page_base e).

Definition free_pdpt (pml4 pi : Z) : K unit :=
  e ← load pml4 pi;
  pdpt ← virt_for_phys (page_base e);
  for_present pdpt 512 (free_pd pdpt);;
  e ← load pml4 pi;
  free_frame (page_base e).

Definition paging_free_user_space (cr3_pa : Z) : K unit :=
  pml4 ← virt_for_phys cr3_pa;
  if pml4 =? 0 then mret tt
  else
    for_present pml4 511 (free_pdpt pml4);;
    free_frame cr3_pa.
End paging.
