(* ===== verification/PageTable.v ===== *)
(** * Page tables as trees

    The theory of the four-level walk the MMU performs on physical memory,
    independent of the code: tables are reached from a root by a path of
    indices, the tables of a well-formed address space form a tree, and the
    three memory updates that paging.c makes (write a leaf entry, clear a
    frame, link a fresh table) change exactly the walks one expects. *)
From S2P Require Import Prelude PagingInterface Paging.

Definition valid_idx (i : Z) : Prop := 0 <= i < 512.
Definition valid_path (p : list Z) : Prop := Forall valid_idx p /\ (length p <= 3)%nat.

(** The table reached from table [t] by following [p]. *)
Fixpoint table_at (m : gmap Z Z) (t : Z) (p : list Z) : option Z :=
  match p with
  | [] => Some t
  | i :: p =>
      if present (entry m t i) then table_at m (page_base (entry m t i)) p else None
  end.

(** The walk of a virtual address: its leaf entry, when all four levels are
    present. *)
Definition va_path (va : Z) : list Z := [pml4_idx va; pdpt_idx va; pd_idx va].
Definition walk (m : gmap Z Z) (root va : Z) : option Z :=
  pt ← table_at m root (va_path va);
  let e := entry m pt (pt_idx va) in if present e then Some e else None.

(** The physical address the MMU computes from a leaf entry. *)
Definition xlate (e va : Z) : Z := Z.lor (page_base e) (Z.land va 0xFFF).

Definition aligned (t : Z) : Prop := fits 64 t /\ t mod 4096 = 0.

Record tree (m : gmap Z Z) (root : Z) : Prop := {
  tree_root : aligned root;
  tree_inj : forall p q t, valid_path p -> valid_path q ->
    table_at m root p = Some t -> table_at m root q = Some t -> p = q;
}.

Lemma aligned_page_base e : aligned (page_base e).
Proof. split; [apply page_base_fits|apply page_base_aligned]. Qed.

Lemma valid_va_path va : valid_path (va_path va).
Proof. split; [|done]. repeat constructor; apply idx_range. Qed.

Lemma valid_pt_idx va : valid_idx (pt_idx va).
Proof. apply idx_range. Qed.

#[export] Hint Resolve aligned_page_base valid_va_path valid_pt_idx : core.

Lemma table_at_snoc m t p i :
  table_at m t (p ++ [i]) =
    t' ← table_at m t p;
    if present (entry m t' i) then Some (page_base (entry m t' i)) else None.
Proof.
  revert t. induction p as [|j p IH]; intros t; simpl; [done|].
  destruct (present (entry m t j)); [apply IH|done].
Qed.

Lemma table_at_app m t p q :
  table_at m t (p ++ q) = t' ← table_at m t p; table_at m t' q.
Proof.
  revert t. induction p as [|j p IH]; intros t; simpl; [done|].
  destruct (present (entry m t j)); [apply IH|done].
Qed.

Lemma table_aligned m root p t : aligned root -> table_at m root p = Some t -> aligned t.
Proof.
  intros Hr. destruct p as [|i p _] using rev_ind; [by intros [= <-]|].
  rewrite table_at_snoc. destruct (table_at m root p) as [t'|]; simpl; [|done].
  destruct (present _); [|done]. by intros [= <-].
Qed.

Lemma valid_path_prefix p q : valid_path (p ++ q) -> valid_path p.
Proof.
  intros [Hf Hl]. rewrite length_app in Hl. apply Forall_app in Hf as [? ?].
  split; [done|lia].
Qed.

Lemma valid_path_snoc p i : valid_path (p ++ [i]) -> valid_path p /\ valid_idx i /\ (length p < 3)%nat.
Proof.
  intros Hv. split; [by eapply valid_path_prefix|]. destruct Hv as [Hf Hl].
  rewrite length_app in Hl. simpl in Hl. apply Forall_app in Hf as [_ Hi].
  inversion Hi. split; [done|lia].
Qed.

Lemma valid_path_snoc_intro p i :
  valid_path p -> valid_idx i -> (length p < 3)%nat -> valid_path (p ++ [i]).
Proof.
  intros [Hf Hl] Hi Hlt. split; [apply Forall_app; auto|]. rewrite length_app. simpl. lia.
Qed.

(** Alignment of tables that were reached. *)
Ltac table_side :=
  first [ assumption | apply valid_pt_idx
        | eapply table_aligned; [|eassumption]; assumption | apply idx_range ].

(** ** Entries under memory updates *)

Lemma entry_addr_inj t i t' j :
  aligned t -> aligned t' -> valid_idx i -> valid_idx j ->
  t + 8 * i = t' + 8 * j -> t = t' /\ i = j.
Proof. intros [_ Ha] [_ Ha'] Hi Hj Heq. unfold valid_idx in *. divlia. Qed.

Lemma entry_insert m t i v t' j :
  aligned t -> aligned t' -> valid_idx i -> valid_idx j ->
  entry (<[t + 8 * i := v]> m) t' j =
    if decide (t' = t /\ j = i) then v else entry m t' j.
Proof.
  intros Ht Ht' Hi Hj. unfold entry, rdm. rewrite lookup_insert.
  destruct (decide (t + 8 * i = t' + 8 * j)) as [Heq|Hne].
  - apply entry_addr_inj in Heq as [-> ->]; [|done..]. by rewrite decide_True.
  - rewrite decide_False; [done|]. intros [-> ->]. done.
Qed.

Lemma lookup_zero_frame pa m a :
  zero_frame pa m !! a =
    if decide (pa <= a < pa + 4096 /\ (a - pa) mod 8 = 0) then Some 0 else m !! a.
Proof.
  set (in_frame := fun n b => pa <= b < pa + 8 * n /\ (b - pa) mod 8 = 0).
  set (I := fun n (m' : gmap Z Z) => forall b,
    m' !! b = if decide (in_frame n b) then Some 0 else m !! b).
  assert (I 512 (zero_frame pa m)) as H; [|apply H].
  unfold zero_frame. apply (for_next_rule I); [done| |].
  - intros b. rewrite decide_False; [done|]. unfold in_frame. lia.
  - intros i m' Hi Hm' b. rewrite lookup_insert, Hm'. unfold in_frame.
    destruct (decide (pa + 8 * i = b)) as [<-|Hne].
    + rewrite decide_True; [done|]. divlia.
    + apply decide_ext. divlia.
Qed.

Lemma entry_zero_frame pa m t i :
  aligned pa -> aligned t -> valid_idx i ->
  entry (zero_frame pa m) t i = if decide (t = pa) then 0 else entry m t i.
Proof.
  intros [_ Hp] [_ Ht] Hi. unfold entry, rdm. rewrite lookup_zero_frame.
  unfold valid_idx in *. destruct (decide (t = pa)) as [->|Hne].
  - rewrite decide_True; [done|]. divlia.
  - rewrite decide_False; [done|]. divlia.
Qed.

#[global] Opaque zero_frame.

(** ** Effect of the updates on walks *)

Definition same_tables (m m' : gmap Z Z) (root : Z) : Prop :=
  forall q, valid_path q -> table_at m' root q = table_at m root q.

Lemma same_tables_tree m m' root : same_tables m m' root -> tree m root -> tree m' root.
Proof.
  intros Hs [Hr Hinj]. split; [done|]. intros p q t Hp Hq. rewrite !Hs by done.
  by apply Hinj.
Qed.

Lemma table_at_agree m m' root p :
  (forall q i r t, p = q ++ i :: r -> table_at m root q = Some t ->
     entry m' t i = entry m t i) ->
  table_at m' root p = table_at m root p.
Proof.
  induction p as [|i p IH] using rev_ind; intros Hagree; [done|].
  rewrite !table_at_snoc, IH.
  - destruct (table_at m root p) as [t|] eqn:Ht; [|done]. simpl.
    by rewrite (Hagree p i [] t).
  - intros q j r t -> Ht. apply (Hagree q j (r ++ [i])); [|done].
    by rewrite <-app_assoc.
Qed.

Lemma valid_path_split q i r : valid_path (q ++ i :: r) -> valid_path q /\ valid_idx i.
Proof.
  intros Hv. split; [by eapply valid_path_prefix|].
  destruct Hv as [Hf _]. apply Forall_app in Hf as [_ Hf]. by inversion Hf.
Qed.

(** Writing entry [i] of the table at [p] leaves all paths alone that do not
    go through that entry. *)
Lemma write_table_at m root p t i v q :
  tree m root -> valid_path p -> valid_idx i -> table_at m root p = Some t ->
  valid_path q -> ~ (p ++ [i]) `prefix_of` q ->
  table_at (<[t + 8 * i := v]> m) root q = table_at m root q.
Proof.
  intros [Hr Hinj] Hp Hi Ht Hq Hnot. apply table_at_agree. intros q' j r t' -> Ht'.
  apply valid_path_split in Hq as [Hq' Hj].
  rewrite entry_insert by table_side.
  rewrite decide_False; [done|]. intros [-> ->].
  rewrite (Hinj _ _ _ Hp Hq' Ht Ht') in Hnot. apply Hnot. exists r.
  by rewrite <-app_assoc.
Qed.

Section leaf.
Context (m : gmap Z Z) (root : Z) (p : list Z) (t i v : Z).
Context (Htree : tree m root) (Hp : valid_path p) (Hlen : length p = 3%nat).
Context (Hi : valid_idx i) (Ht : table_at m root p = Some t).

Lemma leaf_same_tables : same_tables m (<[t + 8 * i := v]> m) root.
Proof.
  intros q Hq. apply (write_table_at m root p t i v q); [done..|].
  intros [r ->]. destruct Hq as [_ Hl]. rewrite !length_app in Hl. simpl in Hl. lia.
Qed.

Lemma leaf_walk va :
  walk (<[t + 8 * i := v]> m) root va =
    if decide (va_path va = p /\ pt_idx va = i)
    then (if present v then Some v else None) else walk m root va.
Proof.
  unfold walk. rewrite leaf_same_tables by done.
  destruct (table_at m root (va_path va)) as [t'|] eqn:Hva; simpl.
  - destruct Htree as [Hr Hinj]. rewrite entry_insert by table_side.
    destruct (decide (t' = t /\ pt_idx va = i)) as [[-> <-]|Hne].
    + rewrite decide_True; [done|]. split; [|done]. by eapply Hinj.
    + rewrite decide_False; [done|]. intros [<- <-]. apply Hne.
      split; [congruence|done].
  - rewrite decide_False; [done|]. intros [<- _]. congruence.
Qed.
End leaf.

(** [f] is not a table of the address space. *)
Definition fresh (m : gmap Z Z) (root f : Z) : Prop :=
  forall q, valid_path q -> table_at m root q <> Some f.

Lemma fresh_same_tables m m' root f :
  same_tables m m' root -> fresh m root f -> fresh m' root f.
Proof. intros Hs Hf q Hq. rewrite Hs by done. by apply Hf. Qed.

Lemma zero_same_tables m root f :
  tree m root -> aligned f -> fresh m root f -> same_tables m (zero_frame f m) root.
Proof.
  intros [Hr _] Hf Hfresh q Hq. apply table_at_agree. intros q' j r t' -> Ht'.
  apply valid_path_split in Hq as [Hq' Hj].
  rewrite entry_zero_frame by table_side.
  rewrite decide_False; [done|]. intros ->. by eapply Hfresh.
Qed.

Lemma zero_walk m root f va :
  tree m root -> aligned f -> fresh m root f -> walk (zero_frame f m) root va = walk m root va.
Proof.
  intros Htree Hf Hfresh. unfold walk. rewrite zero_same_tables by done.
  destruct (table_at m root (va_path va)) as [t'|] eqn:Hva; simpl; [|done].
  destruct Htree as [Hr _]. rewrite entry_zero_frame by table_side.
  rewrite decide_False; [done|]. intros ->. by eapply Hfresh.
Qed.

(** Linking a cleared frame [f] under the absent entry [i] of the table at
    [p]. *)
Section link.
Context (m : gmap Z Z) (root : Z) (p : list Z) (t i f v : Z).
Context (Htree : tree m root) (Hp : valid_path (p ++ [i])).
Context (Ht : table_at m root p = Some t) (Habs : present (entry m t i) = false).
Context (Hf : aligned f) (Hfresh : fresh m root f).
Context (Hzero : forall j, valid_idx j -> entry m f j = 0).
Context (Hv : present v = true) (Hbase : page_base v = f).

Local Abbreviation m' := (<[t + 8 * i := v]> m).

Lemma link_table_at q :
  valid_path q ->
  table_at m' root q =
    if decide (q = p ++ [i]) then Some f
    else if decide ((p ++ [i]) `prefix_of` q) then None else table_at m root q.
Proof.
  apply valid_path_snoc in Hp as (Hp' & Hi & Hlen). intros Hq.
  assert (table_at m' root (p ++ [i]) = Some f) as Hnew.
  { rewrite table_at_snoc. rewrite (write_table_at _ _ p t i v p) by (try done; intros [r Hr];
      apply (f_equal length) in Hr; rewrite !length_app in Hr; simpl in Hr; lia).
    rewrite Ht. simpl. destruct Htree as [Hr _].
    rewrite entry_insert by table_side. rewrite decide_True by done.
    by rewrite Hv, Hbase. }
  case_decide as Heq; [by subst|]. case_decide as Hpre.
  - destruct Hpre as [[|j r] ->]; [by rewrite app_nil_r in Heq|].
    rewrite table_at_app, Hnew. simpl. apply valid_path_split in Hq as [_ Hj].
    destruct Htree as [Hr _].
    rewrite entry_insert by table_side. rewrite decide_False.
    + by rewrite Hzero, present_zero.
    + intros [-> _]. by eapply Hfresh.
  - by apply (write_table_at m root p t).
Qed.

Lemma link_absent q : valid_path q -> (p ++ [i]) `prefix_of` q -> table_at m root q = None.
Proof.
  intros Hq [r ->]. rewrite table_at_app, table_at_snoc, Ht. simpl. by rewrite Habs.
Qed.

Lemma link_grows q t' :
  valid_path q -> table_at m root q = Some t' -> table_at m' root q = Some t'.
Proof.
  intros Hq Hq'. rewrite link_table_at by done.
  case_decide; [subst|case_decide; [|done]].
  - by rewrite (link_absent (p ++ [i])) in Hq'.
  - by rewrite link_absent in Hq'.
Qed.

Lemma link_tables q t' :
  valid_path q -> table_at m' root q = Some t' ->
  (q = p ++ [i] /\ t' = f) \/ table_at m root q = Some t'.
Proof.
  intros Hq. rewrite link_table_at by done.
  case_decide; [intros [= <-]; by left|case_decide; [done|by right]].
Qed.

Lemma link_tree : tree m' root.
Proof.
  destruct Htree as [Hr Hinj]. split; [done|]. intros q1 q2 t' Hq1 Hq2 H1 H2.
  apply link_tables in H1 as [[-> ->]|H1]; [| |done];
    apply link_tables in H2 as [[-> ?]|H2]; try done; subst.
  - by destruct (Hfresh q2).
  - by destruct (Hfresh q1).
  - by eapply Hinj.
Qed.

Lemma link_walk va : walk m' root va = walk m root va.
Proof.
  unfold walk. rewrite link_table_at by done.
  pose proof (valid_path_snoc _ _ Hp) as (Hp' & Hi & Hlen).
  destruct Htree as [Hr Hinj].
  case_decide as Heq; [|case_decide as Hpre].
  - rewrite (link_absent (va_path va)) by (rewrite ?Heq; auto). simpl.
    rewrite entry_insert by table_side. rewrite decide_False.
    + by rewrite Hzero, present_zero by done.
    + intros [-> _]. by eapply Hfresh.
  - by rewrite (link_absent (va_path va)).
  - destruct (table_at m root (va_path va)) as [t'|] eqn:Hva; simpl; [|done].
    rewrite entry_insert by table_side. rewrite decide_False; [done|].
    intros [-> _]. assert (va_path va = p) as Hpp by by eapply Hinj.
    rewrite <-Hpp in Hlen. simpl in Hlen. lia.
Qed.
End link.

(** ** Page sizes *)

(** The user half has no 2 MiB pages: neither paging.c nor the loader makes
    any. *)
Definition no_huge_pages (m : gmap Z Z) (root : Z) : Prop :=
  forall i j k t, i <> 511 -> valid_path [i; j; k] -> table_at m root [i; j] = Some t ->
    present (entry m t k) = true -> has_flag (entry m t k) PAGE_PS = false.

(** A link to a table is none. *)
Lemma linked_small f rw :
  aligned f -> has_flag rw PAGE_PS = false -> has_flag (Z.lor f rw) PAGE_PS = false.
Proof.
  change PAGE_PS with (Z.shiftl 1 7). rewrite !has_flag_bit, Z.lor_spec by lia. intros [[H0 _] Ha] ->.
  rewrite orb_false_r. replace f with (f / 4096 * 2 ^ 12) by (change (2 ^ 12) with 4096; divlia).
  by apply Z.mul_pow2_bits_low.
Qed.
