(* ===== verification/PagingProofs.v ===== *)
(** * Virtual memory: proofs

    The invariant of the kernel's page tables, the effect of each access made
    through the window and the scratch page, and the correctness of the walks,
    of [paging_map_page] and of [paging_unmap_page] with respect to the walk
    of the MMU ([PageTable.walk]). *)
From S2P Require Import Prelude Effects PmmInterface PagingInterface Paging PageTable.

(** The static tables are page aligned, distinct and inside the window, below
    the scratch page. *)
Definition tables (L : layout) : list Z :=
  [pml4_new L; pdpt_id L; pdpt_hi L; pd_id L; pd_hi L; pt_hi_kernel L; pt_id_0 L; pt_id_1 L].
Definition in_window (va : Z) : Prop :=
  HIGHER_HALF_BASE < va < HIGHER_HALF_BASE + 0x1FF000 /\ va mod 4096 = 0.
Definition layout_ok (L : layout) : Prop := NoDup (tables L) /\ Forall in_window (tables L).

(** The path of the window's page table: PML4[511], PDPT[510], PD[0]. *)
Definition window_path : list Z := [511; 510; 0].
(** The page the scratch entry maps. *)
Definition on_scratch_page (va : Z) : Prop := va_path va = window_path /\ pt_idx va = 511.

Lemma phys_in_window va :
  in_window va -> phys va = va - HIGHER_HALF_BASE /\ 0 < phys va < 0x1FF000 /\ aligned (phys va).
Proof.
  intros [Hb Ha]. assert (phys va = va - HIGHER_HALF_BASE) as Heq.
  { unfold phys. apply wrap_small. unfold fits, HIGHER_HALF_BASE in *. lia. }
  unfold aligned, fits. rewrite Heq. unfold HIGHER_HALF_BASE in *.
  split_and!; try lia. divlia.
Qed.

Section space.
Context (L : layout).
Local Abbreviation pth := (phys (pt_hi_kernel L)).

(** An address space whose kernel half holds the window: the tables form a
    tree, the window maps the first 2 MiB less the scratch page, and no table
    lies in the frame that only the scratch page could reach. *)
Record space (m : gmap Z Z) (root : Z) : Prop := {
  sp_tree : tree m root;
  sp_window : table_at m root window_path = Some pth;
  sp_pages : forall i, 0 <= i < 511 ->
    present (entry m pth i) = true /\ page_base (entry m pth i) = 4096 * i;
  sp_scratch : fresh m root 0x1FF000;
}.

(** Pointer [p] denotes the table in frame [t]. *)
Definition denotes (m : gmap Z Z) (p t : Z) : Prop :=
  aligned t /\
  ((p = t + HIGHER_HALF_BASE /\ t < 0x1FF000) \/
   (p = SCRATCH_VA /\ present (entry m pth 511) = true /\ page_base (entry m pth 511) = t)).

(** The accesses through the scratch page change one entry only. *)
Definition rescratched (m m' : gmap Z Z) : Prop :=
  m' = m \/ exists v, present v = true /\ m' = <[pth + 8 * 511 := v]> m.

#[export] Instance rescratched_preorder : PreOrder rescratched.
Proof.
  split; [by left|]. intros m1 m2 m3 [->|(v & Hv & ->)] [->|(w & Hw & ->)].
  - by left.
  - right. eauto.
  - right. eauto.
  - right. exists w. split; [done|]. by rewrite insert_insert_eq.
Qed.

Lemma valid_window : valid_path window_path.
Proof. split; [|done]. unfold window_path, valid_idx. repeat constructor; lia. Qed.

Lemma valid_511 : valid_idx 511.
Proof. unfold valid_idx. lia. Qed.

Lemma low_denotes m t : aligned t -> t < 0x1FF000 -> denotes m (t + HIGHER_HALF_BASE) t.
Proof. intros ? ?. split; [done|]. left. done. Qed.

Section access.
Context (m : gmap Z Z) (root : Z) (Hsp : space m root).

Lemma window_aligned : aligned pth.
Proof.
  destruct Hsp as [[Hr _] Hw _ _]. eapply table_aligned; [exact Hr|exact Hw].
Qed.

Lemma kva_low a : 0 <= a < 0x1FF000 -> kva L m (a + HIGHER_HALF_BASE) = Some a.
Proof.
  intros Ha. unfold kva.
  rewrite (proj2 (Z.leb_le _ _)), (proj2 (Z.ltb_lt _ _)) by lia. simpl andb.
  replace (a + HIGHER_HALF_BASE - HIGHER_HALF_BASE) with a by lia.
  destruct (sp_pages _ _ Hsp (a / 4096)) as [Hp Hb]; [divlia|].
  cbv zeta. rewrite Hp, Hb. f_equal. unfold HIGHER_HALF_BASE. divlia.
Qed.

Lemma kva_scratch off :
  present (entry m pth 511) = true -> 0 <= off < 4096 ->
  kva L m (SCRATCH_VA + off) = Some (page_base (entry m pth 511) + off).
Proof.
  intros Hp Hoff. unfold kva, SCRATCH_VA, HIGHER_HALF_BASE.
  rewrite (proj2 (Z.leb_le _ _)), (proj2 (Z.ltb_lt _ _)) by lia. simpl andb.
  replace ((0xFFFFFFFF801FF000 + off - 0xFFFFFFFF80000000) / 4096) with 511 by divlia.
  cbv zeta. rewrite Hp. f_equal. f_equal. divlia.
Qed.

Lemma kva_denotes p t off :
  denotes m p t -> 0 <= off < 4096 -> kva L m (p + off) = Some (t + off).
Proof.
  intros [[[Ht0 _] Hta] [[-> Ht]|(-> & Hp & <-)]] Hoff; [|by apply kva_scratch].
  replace (t + HIGHER_HALF_BASE + off) with (t + off + HIGHER_HALF_BASE) by lia.
  apply kva_low. divlia.
Qed.

Lemma rescratched_same_tables m' : rescratched m m' -> same_tables m m' root.
Proof.
  intros [->|(v & _ & ->)] q Hq; [done|].
  apply (leaf_same_tables m root window_path); auto using valid_window, valid_511; apply Hsp.
Qed.

Lemma rescratched_entry m' t i :
  rescratched m m' -> aligned t -> valid_idx i -> ~ (t = pth /\ i = 511) ->
  entry m' t i = entry m t i.
Proof.
  intros [->|(v & _ & ->)] Ht Hi Hne; [done|].
  rewrite entry_insert by (done || apply window_aligned || apply valid_511).
  by rewrite decide_False.
Qed.

Lemma rescratched_space m' : rescratched m m' -> space m' root.
Proof.
  intros Hm. pose proof (rescratched_same_tables _ Hm) as Hs. split.
  - eapply same_tables_tree; [done|apply Hsp].
  - rewrite Hs by apply valid_window. apply Hsp.
  - intros i Hi. rewrite (rescratched_entry m') by
      (done || apply window_aligned || (unfold valid_idx; lia)). by apply Hsp.
  - eapply fresh_same_tables; [done|apply Hsp].
Qed.

(** All translations but the scratch page's are untouched. *)
Lemma rescratched_walk m' va :
  rescratched m m' -> ~ on_scratch_page va -> walk m' root va = walk m root va.
Proof.
  intros [->|(v & _ & ->)] Hva; [done|].
  rewrite (leaf_walk m root window_path).
  - rewrite decide_False; [done|]. exact Hva.
  - apply Hsp.
  - apply valid_window.
  - done.
  - apply valid_511.
  - apply Hsp.
Qed.

(** The three updates of paging.c preserve the address space: clearing a frame
    that is not a table, ... *)
Lemma zero_space f : aligned f -> fresh m root f -> space (zero_frame f m) root.
Proof.
  intros Hf Hfresh. pose proof (zero_same_tables m root f (sp_tree _ _ Hsp) Hf Hfresh) as Hs.
  split.
  - eapply same_tables_tree; [done|apply Hsp].
  - rewrite Hs by apply valid_window. apply Hsp.
  - intros i Hi. rewrite entry_zero_frame by
      (done || apply window_aligned || (unfold valid_idx; lia)).
    rewrite decide_False; [by apply Hsp|]. intros Heq.
    eapply Hfresh; [apply valid_window|]. rewrite (sp_window _ _ Hsp). by rewrite Heq.
  - eapply fresh_same_tables; [done|apply Hsp].
Qed.

(** ... writing a leaf entry outside the window, ... *)
Lemma leaf_space p t i v :
  valid_path p -> length p = 3%nat -> valid_idx i -> table_at m root p = Some t ->
  p <> window_path -> space (<[t + 8 * i := v]> m) root.
Proof.
  intros Hp Hlen Hi Ht Hne.
  pose proof (leaf_same_tables m root p t i v (sp_tree _ _ Hsp) Hp Hlen Hi Ht) as Hs. split.
  - eapply same_tables_tree; [done|apply Hsp].
  - rewrite Hs by apply valid_window. apply Hsp.
  - intros j Hj. pose proof window_aligned. destruct (sp_tree _ _ Hsp) as [Hr Hinj].
    assert (valid_idx j) by (unfold valid_idx; lia).
    rewrite entry_insert by table_side.
    rewrite decide_False; [by apply Hsp|]. intros [Heq _]. apply Hne.
    eapply Hinj; [done|apply valid_window|done|]. rewrite (sp_window _ _ Hsp). by rewrite Heq.
  - eapply fresh_same_tables; [done|apply Hsp].
Qed.

(** ... and linking a cleared frame. *)
Lemma link_space p t i f v :
  valid_path (p ++ [i]) -> table_at m root p = Some t -> present (entry m t i) = false ->
  aligned f -> fresh m root f -> f <> 0x1FF000 ->
  (forall j, valid_idx j -> entry m f j = 0) -> present v = true -> page_base v = f ->
  space (<[t + 8 * i := v]> m) root.
Proof.
  intros Hp Ht Habs Hf Hfresh Hne Hz Hv Hb. pose proof (sp_tree _ _ Hsp) as Htree.
  pose proof (link_tables m root p t i f v Htree Hp Ht Hf Hfresh Hz Hv Hb) as Hlt. split.
  - by apply (link_tree m root p t i f v).
  - apply (link_grows m root p t i f v); try done; [apply valid_window|apply Hsp].
  - intros j Hj. pose proof window_aligned. destruct Htree as [Hr Hinj].
    pose proof (valid_path_snoc _ _ Hp) as (Hp' & Hi & Hlen).
    assert (valid_idx j) by (unfold valid_idx; lia).
    rewrite entry_insert by table_side.
    rewrite decide_False; [by apply Hsp|]. intros [Heq _].
    assert (p = window_path) as ->; [|simpl in Hlen; lia].
    eapply Hinj; [done|apply valid_window|done|]. rewrite (sp_window _ _ Hsp). by rewrite Heq.
  - intros q Hq Hbad. apply Hlt in Hbad; [|done].
    destruct Hbad as [[_ Hbad]|Hbad]; [congruence|]. by apply (sp_scratch _ _ Hsp q).
Qed.

(** A write to a frame that is no table of the address space. *)
Lemma outside_agree f i v t j :
  aligned f -> valid_idx i -> aligned t -> valid_idx j -> t <> f ->
  entry (<[f + 8 * i := v]> m) t j = entry m t j.
Proof.
  intros Hf Hi Ht Hj Hne. rewrite entry_insert by done. rewrite decide_False; [done|].
  by intros [? _].
Qed.

Lemma outside_same_tables f i v :
  aligned f -> valid_idx i -> fresh m root f -> same_tables m (<[f + 8 * i := v]> m) root.
Proof.
  intros Hf Hi Hfresh q Hq. apply table_at_agree. intros q' j r t' -> Ht'.
  apply valid_path_split in Hq as [Hq' Hj]. destruct (sp_tree _ _ Hsp) as [Hr _].
  apply outside_agree; [done|done|table_side|done|]. intros ->. by apply (Hfresh q').
Qed.

Lemma outside_space f i v :
  aligned f -> valid_idx i -> fresh m root f -> space (<[f + 8 * i := v]> m) root.
Proof.
  intros Hf Hi Hfresh. pose proof (outside_same_tables f i v Hf Hi Hfresh) as Hs. split.
  - eapply same_tables_tree; [done|apply Hsp].
  - rewrite Hs by apply valid_window. apply Hsp.
  - intros j Hj. rewrite outside_agree by
      (done || apply window_aligned || (unfold valid_idx; lia) ||
       (intros Heq; eapply Hfresh; [apply valid_window|]; by rewrite (sp_window _ _ Hsp), Heq)).
    by apply Hsp.
  - eapply fresh_same_tables; [done|apply Hsp].
Qed.

Lemma outside_walk f i v va :
  aligned f -> valid_idx i -> fresh m root f ->
  walk (<[f + 8 * i := v]> m) root va = walk m root va.
Proof.
  intros Hf Hi Hfresh. unfold walk. rewrite outside_same_tables by done.
  destruct (table_at m root (va_path va)) as [t|] eqn:Ht; [|done]. simpl.
  destruct (sp_tree _ _ Hsp) as [Hr _]. rewrite outside_agree; auto.
  - table_side.
  - intros ->. by eapply Hfresh.
Qed.
End access.
End space.

(** ** Accesses of the kernel routines *)
Section routines.
Context {FA : Type} `{HFA : FrameAlloc FA} `{!FrameAllocOk FA}.
Context (L : layout).
Local Abbreviation pth := (phys (pt_hi_kernel L)).
Implicit Types (st : pg_state FA).

Lemma translate_ok st p t off root :
  space L (pmem st) root -> denotes L (pmem st) p t -> 0 <= off < 4096 ->
  translate L (p + off) st = Done (t + off) st [].
Proof. intros Hs Hd Hoff. unfold translate. by rewrite (kva_denotes L _ root Hs p t). Qed.

Lemma load_ok st p t i root :
  space L (pmem st) root -> denotes L (pmem st) p t -> valid_idx i ->
  load L p i st = Done (entry (pmem st) t i) st [].
Proof.
  intros Hs Hd Hi. unfold load, valid_idx in *.
  erewrite bind_done by (eapply translate_ok; [done..|lia]). done.
Qed.

Lemma store_ok st p t i v root :
  space L (pmem st) root -> denotes L (pmem st) p t -> valid_idx i ->
  store L p i v st = Done tt (set_pmem (<[t + 8 * i := v]> (pmem st)) st) [].
Proof.
  intros Hs Hd Hi. unfold store, valid_idx in *.
  erewrite bind_done by (eapply translate_ok; [done..|lia]). done.
Qed.

Lemma memset_ok st p t root :
  space L (pmem st) root -> denotes L (pmem st) p t ->
  memset_page L p st = Done tt (set_pmem (zero_frame t (pmem st)) st) [].
Proof.
  intros Hs Hd. pose proof (translate_ok st p t 0 root Hs Hd ltac:(lia)) as Ht.
  rewrite !Z.add_0_r in Ht. unfold memset_page. by erewrite bind_done by exact Ht.
Qed.

Lemma set_pmem_id st : set_pmem (pmem st) st = st.
Proof. by destruct st. Qed.

Section with_layout.
Context (Hpth : in_window (pt_hi_kernel L)).

Lemma scratch_map_ok st root pa :
  space L (pmem st) root -> aligned pa -> exists v,
  present v = true /\ page_base v = pa /\
  scratch_map L pa st =
    Done SCRATCH_VA (set_pmem (<[pth + 8 * 511 := v]> (pmem st)) st) [] /\
  denotes L (<[pth + 8 * 511 := v]> (pmem st)) SCRATCH_VA pa.
Proof.
  intros Hs Hpa. set (v := Z.lor (Z.lor (page_base pa) PAGE_PRESENT) PAGE_WRITABLE).
  assert (present v = true) as Hv.
  { unfold v. rewrite !present_lor, (orb_comm (present (page_base pa))). done. }
  assert (page_base pa = pa) as Hb.
  { destruct Hpa as [? ?]. rewrite page_base_eq by done. divlia. }
  assert (page_base v = pa) as Hbv.
  { unfold v. rewrite <-Z.lor_assoc, Hb. destruct Hpa. by apply page_base_lor. }
  exists v. split_and!; [done..| |].
  - unfold scratch_map. destruct (phys_in_window _ Hpth) as (Heq & Hlt & Hal).
    erewrite bind_done.
    2:{ apply (store_ok st (pt_hi_kernel L) pth 511 v root); [done| |apply valid_511].
        split; [done|]. left. split; [lia|]. lia. }
    done.
  - split; [done|]. right. pose proof (window_aligned L _ root Hs) as Hal.
    rewrite entry_insert by (done || apply valid_511). by rewrite decide_True.
Qed.

Lemma virt_for_phys_ok st root pa :
  space L (pmem st) root -> aligned pa -> pa <> 0x1FF000 ->
  exists p m', virt_for_phys L pa st = Done p (set_pmem m' st) [] /\
    rescratched L (pmem st) m' /\ denotes L m' p pa /\
    (pa < 0x1FF000 -> m' = pmem st /\ p = pa + HIGHER_HALF_BASE).
Proof.
  intros Hs Hpa Hne. unfold virt_for_phys. destruct (Z.ltb_spec pa 0x200000) as [Hlt|Hge].
  - assert (pa < 0x1FF000) by (destruct Hpa; divlia).
    assert (pa ⊞ HIGHER_HALF_BASE = pa + HIGHER_HALF_BASE) as Heq.
    { apply wrap_small. destruct Hpa as [[? _] _]. unfold fits, HIGHER_HALF_BASE. lia. }
    rewrite Heq. exists (pa + HIGHER_HALF_BASE), (pmem st). rewrite set_pmem_id.
    split_and!; [done|reflexivity|by apply low_denotes|done].
  - destruct (scratch_map_ok st root pa Hs Hpa) as (v & Hv & Hbv & Heq & Hd).
    exists SCRATCH_VA, (<[pth + 8 * 511 := v]> (pmem st)).
    split_and!; [done|right; eauto|done|lia].
Qed.

(** One step of a walk down the tables. *)
Lemma follow_ok st root p t q i :
  space L (pmem st) root -> denotes L (pmem st) p t ->
  valid_path (q ++ [i]) -> table_at (pmem st) root q = Some t ->
  exists r m', follow L p i st = Done r (set_pmem m' st) [] /\
    rescratched L (pmem st) m' /\
    match table_at (pmem st) root (q ++ [i]) with
    | Some t' => exists p', r = Some p' /\ denotes L m' p' t'
    | None => r = None
    end.
Proof.
  intros Hs Hd Hq Ht. pose proof (valid_path_snoc _ _ Hq) as (_ & Hi & _).
  unfold follow. erewrite bind_done by (by eapply load_ok).
  pose proof (table_at_snoc (pmem st) root q i) as Hsn. rewrite Ht in Hsn. simpl in Hsn.
  destruct (present (entry (pmem st) t i)) eqn:Hp.
  - erewrite bind_done by (by eapply load_ok).
    destruct (virt_for_phys_ok st root (page_base (entry (pmem st) t i)) Hs)
      as (p' & m' & Hv & Hm' & Hd' & _).
    + apply aligned_page_base.
    + intros Heq. eapply (sp_scratch _ _ _ Hs); [exact Hq|]. by rewrite Hsn, Heq.
    + erewrite bind_done by done. exists (Some p'), m'.
      split_and!; [done|done|]. rewrite Hsn. eauto.
  - exists None, (pmem st). rewrite set_pmem_id. split_and!; [done|reflexivity|].
    by rewrite Hsn.
Qed.

(** The state invariant: the address space at [root] is well formed, and the
    frames the allocator may hand out are not tables of it, nor the frame
    behind the scratch page. *)
Record pg_inv (root : Z) (st : pg_state FA) : Prop := {
  pi_space : space L (pmem st) root;
  pi_alloc : fa_inv (frames st);
  pi_fresh : forall f, f ∈ fa_avail (frames st) ->
    fresh (pmem st) root (f * PMM_FRAME_SIZE) /\ f <> 511;
}.

Lemma pg_inv_tables root st m' :
  pg_inv root st -> space L m' root -> same_tables (pmem st) m' root ->
  pg_inv root (set_pmem m' st).
Proof.
  intros [Hs Ha Hf] Hs' Hsame. split; [done|done|].
  intros f Hin. destruct (Hf f Hin). split; [|done].
  by apply (fresh_same_tables (pmem st)).
Qed.

Lemma pg_inv_rescratched root st m' :
  pg_inv root st -> rescratched L (pmem st) m' -> pg_inv root (set_pmem m' st).
Proof.
  intros Hi Hm. pose proof (pi_space _ _ Hi). apply pg_inv_tables; [done| |].
  - by apply (rescratched_space L (pmem st)).
  - by apply (rescratched_same_tables L (pmem st)).
Qed.

(** [extends n root st st']: at most [n] frames were taken to grow the tables
    of [root], whose translations, scratch page apart, are unchanged. *)
Record extends (n : nat) (root : Z) (st st' : pg_state FA) : Prop := {
  ext_inv : pg_inv root st';
  ext_walk : forall va, ~ on_scratch_page va ->
    walk (pmem st') root va = walk (pmem st) root va;
  ext_tables : forall q t, valid_path q ->
    table_at (pmem st) root q = Some t -> table_at (pmem st') root q = Some t;
  ext_avail : fa_avail (frames st') ⊆ fa_avail (frames st);
  ext_size : (size (fa_avail (frames st)) <= size (fa_avail (frames st')) + n)%nat;
  ext_cr3 : cr3 st' = cr3 st;
  ext_root : new_pml4 st' = new_pml4 st;
  ext_owned : forall g, fa_owned (frames st') g <-> fa_owned (frames st) g;
}.

Lemma extends_trans n1 n2 root st1 st2 st3 :
  extends n1 root st1 st2 -> extends n2 root st2 st3 -> extends (n1 + n2) root st1 st3.
Proof.
  intros [? Hw1 Ht1 Ha1 Hs1 ? ? Ho1] [? Hw2 Ht2 Ha2 Hs2 ? ? Ho2]. split; try done; try congruence.
  - intros va Hva. by rewrite Hw2, Hw1.
  - intros q t Hq Ht. apply Ht2; [done|]. by apply Ht1.
  - set_solver.
  - lia.
  - intros g. by rewrite Ho2, Ho1.
Qed.

Lemma extends_rescratched root st m' :
  pg_inv root st -> rescratched L (pmem st) m' -> extends 0 root st (set_pmem m' st).
Proof.
  intros Hi Hm. pose proof (pi_space _ _ Hi) as Hs.
  pose proof (rescratched_same_tables L _ root Hs m' Hm) as Hsame.
  split; try done; simpl.
  - by apply pg_inv_rescratched.
  - intros va Hva. by apply (rescratched_walk L (pmem st)).
  - intros q t Hq Ht. by rewrite Hsame.
  - lia.
Qed.

(** Taking a frame, and clearing it through the scratch page. *)
Lemma alloc_frame_ok root st a fa :
  pg_inv root st -> fa_alloc (frames st) = (a, fa) -> a <> 0 ->
  extends 1 root st (set_frames fa st) /\
  exists f, a = f * PMM_FRAME_SIZE /\ f ∈ fa_avail (frames st) /\ ~ f ∈ fa_avail fa /\
    aligned a /\ fresh (pmem st) root a /\ a <> 0x1FF000.
Proof.
  intros [Hs Ha Hf] Heq Hne.
  destruct (fa_alloc_some _ _ _ Ha Heq Hne) as (f & -> & Hr & Hin & Ha' & Hav & Ho).
  destruct (Hf f Hin) as [Hfr H511]. split.
  - assert (fa_avail fa ⊆ fa_avail (frames st)) as Hsub by (rewrite Hav; set_solver).
    split; [|done|done|done| |done|done|done].
    + split; [done|done|]. intros g Hg. apply Hf. by apply Hsub.
    + simpl. rewrite Hav, size_difference, size_singleton by set_solver. lia.
  - exists f. rewrite Hav. assert (~ f ∈ fa_avail (frames st) ∖ {[f]}) by set_solver.
    unfold MAX_FRAMES in *.
    assert (aligned (f * PMM_FRAME_SIZE)).
    { unfold aligned, fits, PMM_FRAME_SIZE. split; [lia|divlia]. }
    assert (f * PMM_FRAME_SIZE <> 0x1FF000) by (unfold PMM_FRAME_SIZE; lia).
    auto 10.
Qed.

Lemma clear_ok root st t :
  pg_inv root st -> aligned t -> fresh (pmem st) root t ->
  extends 0 root st (set_pmem (zero_frame t (pmem st)) st).
Proof.
  intros Hi Ht Hf. pose proof (pi_space _ _ Hi) as Hs.
  pose proof (zero_same_tables _ root t (sp_tree _ _ _ Hs) Ht Hf) as Hsame.
  split; try done; simpl.
  - apply pg_inv_tables; [done| |done]. by apply zero_space.
  - intros va _. apply zero_walk; [apply Hs|done..].
  - intros q t' Hq Hq'. by rewrite Hsame.
  - lia.
Qed.

Lemma link_ok root st p t i f v :
  pg_inv root st ->
  valid_path (p ++ [i]) -> table_at (pmem st) root p = Some t ->
  present (entry (pmem st) t i) = false ->
  aligned f -> fresh (pmem st) root f -> f <> 0x1FF000 ->
  (forall g, g ∈ fa_avail (frames st) -> g * PMM_FRAME_SIZE <> f) ->
  (forall j, valid_idx j -> entry (pmem st) f j = 0) ->
  present v = true -> page_base v = f ->
  extends 0 root st (set_pmem (<[t + 8 * i := v]> (pmem st)) st) /\
  table_at (<[t + 8 * i := v]> (pmem st)) root (p ++ [i]) = Some f /\
  (forall q t', valid_path q -> table_at (<[t + 8 * i := v]> (pmem st)) root q = Some t' ->
     t' = f \/ table_at (pmem st) root q = Some t').
Proof.
  intros [Hs Ha Hfr] Hp Ht Habs Hf Hfresh Hne Hout Hz Hv Hb.
  pose proof (sp_tree _ _ _ Hs) as Htree.
  pose proof (link_tables _ root p t i f v Htree Hp Ht Hf Hfresh Hz Hv Hb) as Hlt.
  split.
  - split; try done; simpl.
    + split; [by apply (link_space L (pmem st) root Hs p t i f v)|done|].
      intros g Hg. destruct (Hfr g Hg) as [Hgf Hg511]. split; [|done].
      intros q Hq Hbad. apply Hlt in Hbad; [|done]. destruct Hbad as [[_ Hbad]|Hbad].
      * by apply (Hout g Hg).
      * by apply (Hgf q Hq).
    + intros va _. by apply (link_walk (pmem st) root p t i f v).
    + intros q t' Hq Hq'. by apply (link_grows (pmem st) root p t i f v).
    + lia.
  - split.
    + rewrite (link_table_at (pmem st) root p t i f v) by done. by rewrite decide_True.
    + intros q t' Hq Hq'. destruct (Hlt q t' Hq Hq') as [[_ ?]|?]; auto.
Qed.

(** Every table of [st'] is a table of [st] or a frame [st] could hand out. *)
Definition no_new_tables (root : Z) (st st' : pg_state FA) : Prop :=
  forall q t, valid_path q -> table_at (pmem st') root q = Some t ->
    table_at (pmem st) root q = Some t \/
    exists f, f ∈ fa_avail (frames st) /\ t = f * PMM_FRAME_SIZE.

Lemma no_new_tables_trans n root st1 st2 st3 :
  extends n root st1 st2 -> no_new_tables root st1 st2 -> no_new_tables root st2 st3 ->
  no_new_tables root st1 st3.
Proof.
  intros Hext H1 H2 q t Hq Ht. destruct (H2 q t Hq Ht) as [Ht'|(f & Hf & ->)]; [eauto|].
  right. exists f. split; [by apply (ext_avail _ _ _ _ Hext)|done].
Qed.

(** The pointer is in the direct window, not through the scratch page. *)
Definition direct (p t : Z) : Prop := p = t + HIGHER_HALF_BASE /\ t < 0x1FF000.

Lemma direct_denotes m p t : aligned t -> direct p t -> denotes L m p t.
Proof. intros Ht [-> Hlt]. by apply low_denotes. Qed.

Lemma extends_refl root st : pg_inv root st -> extends 0 root st st.
Proof. intros Hi. split; try done. lia. Qed.

Lemma extends_weaken n m root st st' :
  (n <= m)%nat -> extends n root st st' -> extends m root st st'.
Proof. intros Hle []. split; try done. lia. Qed.

(** [virt_for_phys] on a table of the address space. *)
Lemma reach_ok root st q t :
  pg_inv root st -> valid_path q -> table_at (pmem st) root q = Some t ->
  exists p st', virt_for_phys L t st = Done p st' [] /\
    extends 0 root st st' /\ denotes L (pmem st') p t /\ (t < 0x1FF000 -> direct p t) /\
    table_at (pmem st') root q = Some t /\ same_tables (pmem st) (pmem st') root.
Proof.
  intros Hi Hq Ht. pose proof (pi_space _ _ Hi) as Hs.
  assert (aligned t) as Hal.
  { eapply table_aligned; [|exact Ht]. apply Hs. }
  destruct (virt_for_phys_ok st root t Hs Hal) as (p & m' & Hv & Hm & Hd & Hlow).
  { intros ->. by apply (sp_scratch _ _ _ Hs q). }
  pose proof (extends_rescratched root st m' Hi Hm) as Hext.
  exists p, (set_pmem m' st). split_and!; [done|done|done| | |].
  - intros Hlt. by destruct (Hlow Hlt).
  - by apply (ext_tables _ _ _ _ Hext).
  - by apply (rescratched_same_tables L).
Qed.

(** Clearing a frame through the scratch page: the tables stay, and the frame is
    an empty table that nobody uses. *)
Lemma scratch_clear_ok s1 root fr :
  pg_inv root s1 -> aligned fr -> fresh (pmem s1) root fr ->
  exists p s2 s3, scratch_map L fr s1 = Done p s2 [] /\ memset_page L p s2 = Done tt s3 [] /\
    extends 0 root s1 s3 /\ frames s3 = frames s1 /\ same_tables (pmem s1) (pmem s3) root /\
    (forall j, valid_idx j -> entry (pmem s3) fr j = 0) /\
    forall q i t, valid_path (q ++ [i]) -> table_at (pmem s1) root q = Some t ->
      entry (pmem s3) t i = entry (pmem s1) t i.
Proof.
  intros Hi1 Hfal Hfr. pose proof (pi_space _ _ Hi1) as Hs1.
  destruct (scratch_map_ok s1 root _ Hs1 Hfal) as (v & Hv & Hbv & Hsc & Hd).
  set (m2 := <[_ := v]> (pmem s1)) in *.
  assert (rescratched L (pmem s1) m2) as Hm2 by (right; eauto).
  pose proof (extends_rescratched root s1 m2 Hi1 Hm2) as H2. pose proof (ext_inv _ _ _ _ H2) as Hi2.
  pose proof (rescratched_same_tables L (pmem s1) root Hs1 m2 Hm2) as Hsame2.
  assert (fresh m2 root fr) as Hfr2 by by eapply fresh_same_tables.
  pose proof (clear_ok root _ fr Hi2 Hfal Hfr2) as H3. cbn [pmem set_pmem] in *.
  eexists _, _, (set_pmem (zero_frame fr m2) (set_pmem m2 s1)). split; [exact Hsc|].
  split; [by eapply memset_ok; [apply Hi2|]|]. split; [exact (extends_trans _ _ _ _ _ _ H2 H3)|].
  split; [done|]. split; [|split].
  - intros q Hq. simpl. by rewrite (zero_same_tables m2 root fr) by (apply Hi2 || done); apply Hsame2.
  - intros j Hj. simpl. by rewrite entry_zero_frame, decide_True.
  - intros q i t Hq Ht. pose proof (valid_path_snoc _ _ Hq) as (Hq0 & Hidx & _).
    assert (aligned t) as Hal by (eapply table_aligned; [apply Hi1|exact Ht]).
    pose proof (window_aligned L _ root Hs1). simpl. rewrite entry_zero_frame by done.
    rewrite decide_False by (intros Hbad; apply (Hfr q); [done|by rewrite Ht, Hbad]).
    unfold m2. rewrite entry_insert by (done || apply valid_511).
    rewrite decide_False; [done|]. intros [-> ->].
    assert (q = window_path) as ->; [|destruct Hq as [_ Hlen]; simpl in Hlen; lia].
    eapply (tree_inj _ _ (sp_tree _ _ _ Hs1)); [done|apply valid_window|done|]. apply Hs1.
Qed.

(** Growing the tables by one. *)
Lemma link_new_ok st root p t q i rw :
  pg_inv root st -> direct p t ->
  valid_path (q ++ [i]) -> table_at (pmem st) root q = Some t ->
  present (entry (pmem st) t i) = false -> present rw = true -> 0 <= rw < 4096 ->
  exists b st', link_new L p i rw st = Done b st' [] /\ extends 1 root st st' /\
    if b : bool then
      exists f, f ∈ fa_avail (frames st) /\
        entry (pmem st') t i = Z.lor (f * PMM_FRAME_SIZE) rw /\
        aligned (f * PMM_FRAME_SIZE) /\
        table_at (pmem st') root (q ++ [i]) = Some (f * PMM_FRAME_SIZE) /\
        no_new_tables root st st'
    else st' = st /\ fa_avail (frames st) = ∅.
Proof.
  intros Hi Hdir Hq Ht Habs Hrw Hrange.
  pose proof (valid_path_snoc _ _ Hq) as (Hq0 & Hidx & _).
  assert (aligned t) as Hal by (eapply table_aligned; [apply Hi|exact Ht]).
  unfold link_new.
  destruct (fa_alloc (frames st)) as [a fa] eqn:Hfa.
  assert (alloc_frame st = Done a (set_frames fa st) []) as Heq.
  { unfold alloc_frame. by rewrite Hfa. }
  erewrite bind_done by exact Heq. destruct (Z.eqb_spec a 0) as [->|Hne].
  { destruct (fa_alloc_none _ _ (pi_alloc _ _ Hi) Hfa) as [-> Hemp].
    exists false, st. split_and!; [by destruct st| |done|done].
    eapply extends_weaken, extends_refl; [lia|done]. }
  destruct (alloc_frame_ok root st a fa Hi Hfa Hne)
    as (H1 & f & -> & Hin & Hout & Hfal & Hfr & Hfne).
  set (s1 := set_frames fa st) in *. pose proof (ext_inv _ _ _ _ H1) as Hi1.
  set (fr := f * PMM_FRAME_SIZE) in *.
  destruct (scratch_clear_ok s1 root fr Hi1 Hfal Hfr) as (ps & s2 & s3 & E2 & E3 & H13 & Hfs & Hsame & Hz & He).
  rewrite (bind_step _ _ _ _ _ E2), (bind_step _ _ _ _ _ E3). pose proof (ext_inv _ _ _ _ H13) as Hi3.
  specialize (He q i t Hq Ht). change (pmem s1) with (pmem st) in He, Hsame.
  rewrite (bind_step _ _ _ _ _ (store_ok s3 p t i _ root (pi_space _ _ Hi3) (direct_denotes _ p t Hal Hdir) Hidx)).
  destruct (link_ok root s3 q t i fr (Z.lor fr rw)) as (H4 & Htab & Hnew); try assumption.
  - by rewrite Hsame.
  - by rewrite He.
  - by eapply fresh_same_tables.
  - rewrite Hfs. intros g Hg Hgf. apply Hout. replace f with g; [done|].
    unfold fr, PMM_FRAME_SIZE in Hgf. lia.
  - by rewrite present_lor, Hrw, orb_true_r.
  - destruct Hfal. by apply page_base_lor.
  - eexists true, _. split; [done|]. split.
    { apply (extends_trans 1 0 root st s1); [done|]. by apply (extends_trans 0 0 root s1 s3). }
    exists f. split_and!; [done| |done|done|].
    { simpl. rewrite entry_insert by done. by rewrite decide_True. }
    intros q' t' Hq' Ht'. destruct (Hnew q' t' Hq' Ht') as [->|Ht3]; [by eauto|].
    left. by rewrite <-Hsame.
Qed.

(** One level of [paging_map_page]. *)
Lemma descend_ok st root p t q i rw :
  pg_inv root st -> denotes L (pmem st) p t ->
  valid_path (q ++ [i]) -> table_at (pmem st) root q = Some t ->
  (table_at (pmem st) root (q ++ [i]) = None -> direct p t) ->
  present rw = true -> 0 <= rw < 4096 ->
  exists r st', descend L p i rw st = Done r st' [] /\ extends 1 root st st' /\
    match r with
    | Some p' => exists t',
        table_at (pmem st') root (q ++ [i]) = Some t' /\
        denotes L (pmem st') p' t' /\ (t' < 0x1FF000 -> direct p' t') /\
        no_new_tables root st st'
    | None => st' = st /\ fa_avail (frames st) = ∅
    end.
Proof.
  intros Hi Hd Hq Ht Hdir Hrw Hrange.
  pose proof (valid_path_snoc _ _ Hq) as (Hq0 & Hidx & _).
  assert (aligned t) as Hal by (eapply table_aligned; [apply Hi|exact Ht]).
  pose proof (pi_space _ _ Hi) as Hs. unfold descend.
  erewrite bind_done by (by eapply load_ok).
  pose proof (table_at_snoc (pmem st) root q i) as Hsn. rewrite Ht in Hsn. simpl in Hsn.
  destruct (present (entry (pmem st) t i)) eqn:Hp.
  - rewrite bind_ret_l. erewrite bind_done by (by eapply load_ok).
    destruct (reach_ok root st _ _ Hi Hq Hsn) as (p' & st' & Hv & Hext & Hd' & Hlow & Ht' & Hsame).
    erewrite bind_done by exact Hv. exists (Some p'), st'.
    split; [done|]. split; [by eapply extends_weaken; [|done]; lia|].
    eexists. split_and!; [done..|]. intros q' t' Hq' Ht''. left. by rewrite <-Hsame.
  - specialize (Hdir Hsn).
    destruct (link_new_ok st root p t q i rw) as (b & st1 & Hl & Hext & Hb); [done..|].
    erewrite bind_done by exact Hl. destruct b; [|exists None, st1; by destruct Hb as [-> ?]].
    destruct Hb as (f & Hin & He & Hfal & Htab & Hnew). pose proof (ext_inv _ _ _ _ Hext) as Hi1.
    erewrite bind_done.
    2:{ eapply (load_ok _ p t); [apply Hi1|by apply direct_denotes|done]. }
    rewrite He, page_base_lor by (done || apply Hfal).
    destruct (reach_ok root st1 _ _ Hi1 Hq Htab) as (p' & st' & Hv & Hext' & Hd' & Hlow & Ht' & Hsame).
    erewrite bind_done by exact Hv. exists (Some p'), st'.
    split; [done|]. split; [by eapply (extends_trans 1 0)|].
    eexists. split_and!; [done..|]. intros q' t' Hq' Ht''.
    apply Hnew; [done|]. by rewrite <-Hsame.
Qed.

(** The kernel's own address space. *)
Local Abbreviation kroot := (phys (pml4_new L)).
Context (Hpml4 : in_window (pml4_new L)).

Record kernel_inv (st : pg_state FA) : Prop := {
  ki_inv : pg_inv kroot st;
  ki_pml4 : new_pml4 st = pml4_new L;
}.

(** What the code silently relies on to reach two tables at a time: a table
    without the child the walk needs lies in the window, and when two levels
    are missing so do the frames that will be the tables. *)
Definition room (root : Z) (st : pg_state FA) (va : Z) : Prop :=
  (forall p i r t, va_path va = p ++ i :: r -> table_at (pmem st) root p = Some t ->
     table_at (pmem st) root (p ++ [i]) = None -> t < 0x1FF000) /\
  (table_at (pmem st) root [pml4_idx va; pdpt_idx va] = None ->
     forall f, f ∈ fa_avail (frames st) -> f < 511).

Definition same_page (va va' : Z) : Prop := va_path va' = va_path va /\ pt_idx va' = pt_idx va.

Lemma pml4_direct : direct (pml4_new L) kroot /\ pml4_new L <> 0.
Proof.
  destruct (phys_in_window _ Hpml4) as (Heq & ? & ?). split; [split; lia|].
  destruct Hpml4. unfold HIGHER_HALF_BASE in *. lia.
Qed.

(** The next table's pointer is direct when its child is missing. *)
Lemma room_direct n root st st' va p i j r t :
  room root st va -> extends n root st st' -> no_new_tables root st st' ->
  va_path va = p ++ i :: j :: r -> table_at (pmem st') root (p ++ [i]) = Some t ->
  table_at (pmem st') root (p ++ [i] ++ [j]) = None -> t < 0x1FF000.
Proof.
  intros [Hroom Hlow] Hext Hnew Hva Ht Hnone.
  assert (valid_path (p ++ [i] ++ [j])) as Hv.
  { pose proof (valid_va_path va) as Hv. rewrite Hva in Hv.
    apply (valid_path_prefix _ r). by rewrite <-!app_assoc. }
  assert (valid_path (p ++ [i])) as Hv1.
  { apply (valid_path_prefix _ [j]). by rewrite <-app_assoc. }
  destruct (table_at (pmem st) root (p ++ [i])) as [t0|] eqn:Ht0.
  - pose proof (ext_tables _ _ _ _ Hext _ _ Hv1 Ht0) as Heq. simplify_eq.
    destruct (table_at (pmem st) root (p ++ [i] ++ [j])) as [t1|] eqn:Ht1.
    + by rewrite (ext_tables _ _ _ _ Hext _ _ Hv Ht1) in Hnone.
    + apply (Hroom (p ++ [i]) j r); [by rewrite <-app_assoc|done|by rewrite <-app_assoc].
  - destruct (Hnew _ _ Hv1 Ht) as [?|(f & Hf & ->)]; [congruence|].
    assert (f < 511); [|unfold PMM_FRAME_SIZE; lia]. apply Hlow; [|done].
    pose proof (f_equal length Hva) as Hlen. rewrite length_app in Hlen.
    unfold va_path in Hva. destruct p as [|i' [|? p]]; [| |simpl in Hlen; lia]; simplify_eq/=.
    + by destruct (present (entry (pmem st) root (pml4_idx va))).
    + done.
Qed.

(** How far the tables and the allocator may move: tables are only added, and
    only from frames that were available. *)
Record grown (root : Z) (st st' : pg_state FA) : Prop := {
  gr_tables : forall q t, valid_path q ->
    table_at (pmem st) root q = Some t -> table_at (pmem st') root q = Some t;
  gr_new : no_new_tables root st st';
  gr_avail : fa_avail (frames st') ⊆ fa_avail (frames st);
  gr_owned : forall g, fa_owned (frames st') g <-> fa_owned (frames st) g;
}.

Lemma extends_grown n root st st' :
  extends n root st st' -> no_new_tables root st st' -> grown root st st'.
Proof. intros [] ?. by split. Qed.

(** What [paging_map_page] does to the address space. *)
Definition maps (va pa flags : Z) (st st' : pg_state FA) (r : Z) : Prop :=
  (r = 0 /\
   (let e := Z.lor (page_base pa) flags in
    walk (pmem st') kroot va = if present e then Some e else None) /\
   (forall va', ~ same_page va va' -> ~ on_scratch_page va' ->
      walk (pmem st') kroot va' = walk (pmem st) kroot va')) \/
  (r = -1 /\ (size (fa_avail (frames st)) < 3)%nat /\ fa_avail (frames st') = ∅ /\
   (forall va', ~ on_scratch_page va' ->
      walk (pmem st') kroot va' = walk (pmem st) kroot va')).

Lemma exhausted n va pa flags st st' :
  extends n kroot st st' -> (n <= 2)%nat -> fa_avail (frames st') = ∅ ->
  maps va pa flags st st' (-1).
Proof.
  intros Hext Hn Hemp. right. pose proof (ext_size _ _ _ _ Hext) as Hsz.
  rewrite Hemp, size_empty in Hsz. split_and!; [done|lia|done|].
  intros va' Hva'. by apply (ext_walk _ _ _ _ Hext).
Qed.

(** The final store of the leaf entry. *)
Lemma leaf_ok n st st' va pa flags t :
  extends n kroot st st' -> no_new_tables kroot st st' -> va_path va <> window_path ->
  table_at (pmem st') kroot (va_path va) = Some t ->
  let st'' := set_pmem (<[t + 8 * pt_idx va := Z.lor (page_base pa) flags]> (pmem st')) st' in
  pg_inv kroot st'' /\ maps va pa flags st st'' 0 /\ grown kroot st st''.
Proof.
  intros Hext Hnew Hw Ht st''. pose proof (ext_inv _ _ _ _ Hext) as Hi.
  pose proof (sp_tree _ _ _ (pi_space _ _ Hi)) as Htree.
  assert (same_tables (pmem st') (pmem st'') kroot) as Hsame
    by (apply (leaf_same_tables (pmem st') kroot (va_path va)); auto).
  split_and!.
  - apply pg_inv_tables; [done| |done].
    apply (leaf_space L (pmem st') kroot (pi_space _ _ Hi) (va_path va)); auto.
  - left. split; [done|]. simpl. split.
    + rewrite (leaf_walk _ kroot (va_path va)) by auto. by rewrite decide_True.
    + intros va' Hne Hs. rewrite (leaf_walk _ kroot (va_path va)) by auto.
      rewrite decide_False by done. by apply (ext_walk _ _ _ _ Hext).
  - destruct (extends_grown _ _ _ _ Hext Hnew) as [G1 G2 G3 G4]. split; try done.
    + intros q t' Hq Hq'. rewrite Hsame by done. by apply G1.
    + intros q t' Hq Hq'. rewrite Hsame in Hq' by done. by apply G2.
Qed.

(** A walk that ran out of frames. *)
Lemma gives_up n st st' va pa flags :
  new_pml4 st = pml4_new L -> (n <= 2)%nat -> extends n kroot st st' -> no_new_tables kroot st st' ->
  fa_avail (frames st') = ∅ ->
  kernel_inv st' /\ cr3 st' = cr3 st /\ maps va pa flags st st' (-1) /\ grown kroot st st'.
Proof.
  intros Hnp Hn Hext Hnew Hemp. split; [split; [apply Hext|by rewrite (ext_root _ _ _ _ Hext)]|].
  split; [apply Hext|]. split; [by apply (exhausted n)|by apply (extends_grown n)].
Qed.

Lemma map_page_spec st va pa flags :
  kernel_inv st -> va_path va <> window_path -> room kroot st va ->
  exists r st', paging_map_page L va pa flags st = Done r st' [] /\
    kernel_inv st' /\ cr3 st' = cr3 st /\ maps va pa flags st st' r /\ grown kroot st st'.
Proof.
  intros [Hi Hnp] Hw Hroom. destruct pml4_direct as [Hdir Hne].
  unfold paging_map_page. erewrite bind_done by reflexivity. rewrite Hnp.
  rewrite (proj2 (Z.eqb_neq _ _) Hne).
  set (rw := if pml4_idx va =? 511 then _ else _).
  assert (present rw = true /\ 0 <= rw < 4096) as [Hrw Hrange].
  { unfold rw. by destruct (pml4_idx va =? 511). }
  clearbody rw. pose proof (valid_va_path va) as Hv.
  assert (valid_path [pml4_idx va; pdpt_idx va]) as Hv2.
  { by apply (valid_path_prefix _ [pd_idx va]). }
  assert (valid_path [pml4_idx va]) as Hv1.
  { by apply (valid_path_prefix _ [pdpt_idx va]). }
  assert (aligned kroot) as Hal by apply Hi.
  (* PML4 *)
  destruct (descend_ok st kroot (pml4_new L) kroot [] (pml4_idx va) rw)
    as (r1 & st1 & Hd1 & H1 & Hr1); try done.
  { by apply direct_denotes. }
  erewrite bind_done by exact Hd1. destruct r1 as [p1|].
  2:{ destruct Hr1 as [-> Hemp]. exists (-1), st. split; [done|].
      apply (gives_up 0); [done|lia|by apply extends_refl| |done]. intros q t Hq Ht. by left. }
  destruct Hr1 as (t1 & Ht1 & Hp1 & Hlow1 & Hn1).
  (* PDPT *)
  destruct (descend_ok st1 kroot p1 t1 [pml4_idx va] (pdpt_idx va) rw)
    as (r2 & st2 & Hd2 & H2 & Hr2); try done; [apply H1| |].
  { intros Hnone. apply Hlow1.
    by apply (room_direct 1 kroot st st1 va [] (pml4_idx va) (pdpt_idx va) [pd_idx va]). }
  erewrite bind_done by exact Hd2. destruct r2 as [p2|].
  2:{ destruct Hr2 as [-> Hemp]. exists (-1), st1. split; [done|]. by apply (gives_up 1); [|lia|..]. }
  destruct Hr2 as (t2 & Ht2 & Hp2 & Hlow2 & Hn2).
  pose proof (extends_trans _ _ _ _ _ _ H1 H2) as H12.
  pose proof (no_new_tables_trans _ _ _ _ _ H1 Hn1 Hn2) as Hn12.
  (* PD *)
  destruct (descend_ok st2 kroot p2 t2 [pml4_idx va; pdpt_idx va] (pd_idx va) rw)
    as (r3 & st3 & Hd3 & H3 & Hr3); try done; [apply H2| |].
  { intros Hnone. apply Hlow2.
    apply (room_direct _ kroot st st2 va [pml4_idx va] (pdpt_idx va) (pd_idx va) []
      t2 Hroom H12); done. }
  erewrite bind_done by exact Hd3. destruct r3 as [p3|].
  2:{ destruct Hr3 as [-> Hemp]. exists (-1), st2. split; [done|]. by apply (gives_up 2); [|lia|..]. }
  destruct Hr3 as (t3 & Ht3 & Hp3 & _ & Hn3).
  pose proof (extends_trans _ _ _ _ _ _ H12 H3) as H123.
  pose proof (no_new_tables_trans _ _ _ _ _ H12 Hn12 Hn3) as Hn123.
  (* PT *)
  erewrite bind_done.
  2:{ apply (store_ok _ p3 t3 _ _ kroot); [apply H3|done|auto]. }
  destruct (leaf_ok _ st st3 va pa flags t3 H123 Hn123 Hw Ht3) as (Hi' & Hmaps & Hgrown).
  eexists 0, _. split_and!; [done| |by apply H123|exact Hmaps|exact Hgrown]. split; [exact Hi'|].
  simpl. by rewrite (ext_root _ _ _ _ H123).
Qed.
End with_layout.
End routines.
