(* ===== verification/WalkProofs.v ===== *)
(** * Virtual memory: walks by the kernel

    The software walks of paging.c ([paging_unmap_page],
    [paging_virt_to_phys], [user_mem_check]) against the walk of the MMU. *)
From S2P Require Import Prelude Effects PmmInterface PagingInterface Paging PageTable.
From S2P Require Import PagingProofs.

(** A loop whose body answers [f i] and keeps [I]. *)
Lemma mfor_search {S R} (I : S -> Prop) (f : Z -> option R) (body : Z -> M S (option R)) n i s :
  I s ->
  (forall j s, i <= j < i + Z.of_nat n -> I s ->
     exists s', body j s = Done (f j) s' [] /\ I s') ->
  exists s', I s' /\
    ((mfor n i body s = Done None s' [] /\
      forall j, i <= j < i + Z.of_nat n -> f j = None) \/
     (exists j r, i <= j < i + Z.of_nat n /\ f j = Some r /\
        mfor n i body s = Done (Some r) s' [])).
Proof.
  revert i s. induction n as [|n IH]; intros i s Hs Hbody; simpl.
  - exists s. split; [done|]. left. split; [done|]. lia.
  - destruct (Hbody i s) as (s' & Hb & Hs'); [lia|done|].
    destruct (f i) as [r|] eqn:Hf.
    + exists s'. split; [done|]. right. exists i, r. split_and!; [lia..|done|].
      by erewrite bind_done by exact Hb.
    + destruct (IH (i + 1) s' Hs') as (s2 & Hs2 & Hres).
      { intros j s2 Hj. apply Hbody. lia. }
      exists s2. split; [done|]. destruct Hres as [[Hm Hall]|(j & r & Hj & Hfj & Hm)].
      * left. erewrite bind_done by exact Hb. simpl. rewrite Hm. split; [done|].
        intros j Hj. destruct (decide (j = i)) as [->|]; [done|]. apply Hall. lia.
      * right. exists j, r. split_and!; [lia..|done|]. erewrite bind_done by exact Hb. simpl.
        by rewrite Hm.
Qed.

(** A page number from its four digits. *)
Lemma page_digits n :
  n mod 2 ^ 36 = n mod 512 + 512 * (n / 512 mod 512 +
    512 * (n / 512 / 512 mod 512 + 512 * (n / 512 / 512 / 512 mod 512))).
Proof.
  change (2 ^ 36) with (512 * (512 * (512 * 512))).
  by rewrite !Z.rem_mul_r by lia.
Qed.

Lemma page_indices va :
  let n := va / 4096 in
  va_path va = [n / 512 / 512 / 512 mod 512; n / 512 / 512 mod 512; n / 512 mod 512] /\
  pt_idx va = n mod 512.
Proof.
  unfold va_path. destruct (idx_digits va) as (-> & -> & -> & ->).
  by rewrite !Z.div_div by lia.
Qed.

Lemma same_page_iff va va' : same_page va va' <-> va' / 4096 mod 2 ^ 36 = va / 4096 mod 2 ^ 36.
Proof.
  unfold same_page. destruct (page_indices va) as [-> ->], (page_indices va') as [-> ->].
  rewrite !page_digits. split; [by intros [[= -> -> ->] ->]|].
  generalize (Z.mod_pos_bound (va / 4096) 512 ltac:(lia)),
    (Z.mod_pos_bound (va / 4096 / 512) 512 ltac:(lia)),
    (Z.mod_pos_bound (va / 4096 / 512 / 512) 512 ltac:(lia)),
    (Z.mod_pos_bound (va' / 4096) 512 ltac:(lia)),
    (Z.mod_pos_bound (va' / 4096 / 512) 512 ltac:(lia)),
    (Z.mod_pos_bound (va' / 4096 / 512 / 512) 512 ltac:(lia)).
  intros. assert (forall a b c a' b' c' : Z, a = a' -> b = b' -> c = c' ->
    [a; b; c] = [a'; b'; c']) as Hl by congruence.
  split; [apply Hl|]; lia.
Qed.

Lemma same_page_walk m root va va' : same_page va va' -> walk m root va' = walk m root va.
Proof. intros [Hp Hi]. unfold walk. by rewrite Hp, Hi. Qed.

Section walks.
Context {FA : Type}.
Context (L : layout) (Hpth : in_window (pt_hi_kernel L)).
Implicit Types (st : pg_state FA).

(** The states a walk leaves behind. *)
Definition walked (st st' : pg_state FA) : Prop :=
  exists m', st' = set_pmem m' st /\ rescratched L (pmem st) m'.

#[export] Instance walked_preorder : PreOrder walked.
Proof.
  split.
  - intros st. exists (pmem st). split; [by destruct st|reflexivity].
  - intros st1 st2 st3 (m1 & -> & H1) (m2 & -> & H2). exists m2.
    split; [done|]. by etrans.
Qed.

Lemma walked_space st st' root :
  walked st st' -> space L (pmem st) root -> space L (pmem st') root.
Proof. intros (m' & -> & Hm) Hs. by apply (rescratched_space L (pmem st)). Qed.

Lemma walked_walk st st' root va :
  walked st st' -> space L (pmem st) root -> ~ on_scratch_page va ->
  walk (pmem st') root va = walk (pmem st) root va.
Proof. intros (m' & -> & Hm) Hs. by apply (rescratched_walk L (pmem st)). Qed.

Lemma walked_regs st st' :
  walked st st' -> cr3 st' = cr3 st /\ new_pml4 st' = new_pml4 st /\ frames st' = frames st.
Proof. by intros (m' & -> & _). Qed.

Lemma root_ok m root : space L m root -> aligned root /\ root <> 0x1FF000.
Proof.
  intros Hs. split; [apply Hs|]. intros ->.
  apply (sp_scratch _ _ _ Hs []); [|done]. split; [constructor|simpl; lia].
Qed.

Lemma walked_tables st st' root :
  walked st st' -> space L (pmem st) root -> same_tables (pmem st) (pmem st') root.
Proof. intros (m' & -> & Hm) Hs. by apply (rescratched_same_tables L (pmem st)). Qed.

(** Reading the leaf entry after the walk. *)
Lemma walk_leaf m root va t :
  table_at m root (va_path va) = Some t ->
  walk m root va = let e := entry m t (pt_idx va) in if present e then Some e else None.
Proof. intros Ht. unfold walk. by rewrite Ht. Qed.

Lemma walk_to_pt_ok st root p va :
  space L (pmem st) root -> denotes L (pmem st) p root ->
  exists r st', walk_to_pt L p va st = Done r st' [] /\ walked st st' /\
    match table_at (pmem st) root (va_path va) with
    | Some t => exists p', r = Some p' /\ denotes L (pmem st') p' t
    | None => r = None
    end.
Proof.
  intros Hs Hd. unfold walk_to_pt. pose proof (valid_va_path va) as Hv.
  assert (forall st1 p1 t1 q i, walked st st1 -> denotes L (pmem st1) p1 t1 ->
    valid_path (q ++ [i]) -> table_at (pmem st) root q = Some t1 ->
    exists r st', follow L p1 i st1 = Done r st' [] /\ walked st st' /\
      match table_at (pmem st) root (q ++ [i]) with
      | Some t' => exists p', r = Some p' /\ denotes L (pmem st') p' t'
      | None => r = None
      end) as Hstep.
  { intros st1 p1 t1 q i H1 Hd1 Hq Ht1.
    pose proof (walked_tables st st1 root H1 Hs) as Hsame.
    destruct (follow_ok L Hpth st1 root p1 t1 q i) as (r & m' & Hf & Hm & Hr); try done.
    - by apply (walked_space st).
    - rewrite Hsame; [done|]. by apply (valid_path_prefix q [i]).
    - exists r, (set_pmem m' st1). split_and!; [done| |by rewrite <-Hsame].
      etrans; [exact H1|]. by exists m'. }
  assert (valid_path ([pml4_idx va; pdpt_idx va] ++ [pd_idx va])) as Hv3 by exact Hv.
  assert (valid_path ([pml4_idx va] ++ [pdpt_idx va])) as Hv2 by (by eapply valid_path_prefix).
  assert (valid_path ([] ++ [pml4_idx va])) as Hv1 by (by eapply (valid_path_prefix [_])).
  destruct (Hstep st p root [] (pml4_idx va)) as (r1 & st1 & Hf1 & H1 & Hr1); [reflexivity|done..|].
  assert (forall q q', table_at (pmem st) root q = None -> table_at (pmem st) root (q ++ q') = None)
    as Hnone by (intros q q' Hq; by rewrite table_at_app, Hq).
  erewrite bind_done by exact Hf1.
  destruct (table_at (pmem st) root ([] ++ [pml4_idx va])) as [t1|] eqn:Ht1.
  2:{ subst r1.
    assert (table_at (pmem st) root (va_path va) = None) as -> by exact (Hnone _ [pdpt_idx va; pd_idx va] Ht1). by exists None, st1. }
  destruct Hr1 as (p1 & -> & Hd1).
  destruct (Hstep st1 p1 t1 [pml4_idx va] (pdpt_idx va)) as (r2 & st2 & Hf2 & H2 & Hr2); [done..|].
  erewrite bind_done by exact Hf2.
  destruct (table_at (pmem st) root ([pml4_idx va] ++ [pdpt_idx va])) as [t2|] eqn:Ht2.
  2:{ subst r2.
    assert (table_at (pmem st) root (va_path va) = None) as -> by exact (Hnone _ [pd_idx va] Ht2). by exists None, st2. }
  destruct Hr2 as (p2 & -> & Hd2).
  destruct (Hstep st2 p2 t2 ([pml4_idx va] ++ [pdpt_idx va]) (pd_idx va))
    as (r3 & st3 & Hf3 & H3 & Hr3); [done..|].
  rewrite Hf3. by exists r3, st3.
Qed.

(** ** Address translation *)

Lemma virt_to_phys_cr3_ok st root va :
  space L (pmem st) root -> ~ on_scratch_page va ->
  exists st', walked st st' /\
    paging_virt_to_phys_cr3 L root va st =
      Done (match walk (pmem st) root va with Some e => xlate e va | None => 0 end) st' [].
Proof.
  intros Hs Hva. destruct (root_ok _ _ Hs) as [Hal Hne].
  destruct (virt_for_phys_ok L Hpth st root root Hs Hal Hne) as (p & m' & Hv & Hm & Hd & _).
  assert (walked st (set_pmem m' st)) as H1 by by exists m'.
  pose proof (walked_space _ _ _ H1 Hs) as Hs1.
  unfold paging_virt_to_phys_cr3. erewrite bind_done by exact Hv.
  destruct (walk_to_pt_ok (set_pmem m' st) root p va Hs1 Hd) as (r & st2 & Hw & H2 & Hr).
  assert (walked st st2) as H12 by by etrans.
  pose proof (walked_space _ _ _ H12 Hs) as Hs2.
  pose proof (walked_tables _ _ _ H1 Hs (va_path va) (valid_va_path va)) as Hsame.
  pose proof (walked_tables _ _ _ H2 Hs1 (va_path va) (valid_va_path va)) as Hsame2.
  erewrite bind_done by exact Hw. exists st2.
  rewrite <-(walked_walk _ _ root va H12 Hs Hva).
  destruct (table_at (pmem (set_pmem m' st)) root (va_path va)) as [t|] eqn:Ht.
  - destruct Hr as (p' & -> & Hd'). split; [done|].
    erewrite bind_done by (eapply load_ok; [exact Hs2|exact Hd'|auto]).
    rewrite (walk_leaf _ root va t) by done. simpl.
    by destruct (present _).
  - subst r. split; [done|]. unfold walk. by rewrite Hsame2.
Qed.

Lemma virt_to_phys_ok st va :
  space L (pmem st) (page_base (cr3 st)) -> new_pml4 st <> 0 -> ~ on_scratch_page va ->
  exists st', walked st st' /\
    paging_virt_to_phys L va st =
      Done (match walk (pmem st) (page_base (cr3 st)) va with
            | Some e => xlate e va | None => 0 end) st' [].
Proof.
  intros Hs Hnp Hva. destruct (virt_to_phys_cr3_ok st _ va Hs Hva) as (st' & Hw & Heq).
  exists st'. split; [done|]. unfold paging_virt_to_phys.
  erewrite bind_done by reflexivity. rewrite (proj2 (Z.eqb_neq _ _) Hnp).
  erewrite bind_done by reflexivity. by rewrite Heq.
Qed.

(** ** Checks of user memory *)

(** What the second loop of [user_mem_check] requires of a page's entry. *)
Definition entry_allows (writable : bool) (e : Z) : bool :=
  (negb writable || has_flag e PAGE_WRITABLE) && has_flag e PAGE_USER.

Lemma check_page_ok st va writable :
  space L (pmem st) (page_base (cr3 st)) -> ~ on_scratch_page va ->
  exists st', walked st st' /\
    check_page L writable va st =
      Done (match walk (pmem st) (page_base (cr3 st)) va with
            | Some e => if entry_allows writable e then None else Some 0
            | None => Some 0 end) st' [].
Proof.
  intros Hs Hva. set (root := page_base (cr3 st)) in *.
  destruct (root_ok _ _ Hs) as [Hal Hne].
  destruct (virt_for_phys_ok L Hpth st root root Hs Hal Hne) as (p & m' & Hv & Hm & Hd & _).
  assert (walked st (set_pmem m' st)) as H1 by by exists m'.
  pose proof (walked_space _ _ _ H1 Hs) as Hs1. unfold check_page.
  erewrite bind_done by reflexivity. fold root.
  erewrite bind_done by exact Hv.
  destruct (walk_to_pt_ok (set_pmem m' st) root p va Hs1 Hd) as (r & st2 & Hw & H2 & Hr).
  assert (walked st st2) as H12 by by etrans.
  pose proof (walked_space _ _ _ H12 Hs) as Hs2.
  pose proof (walked_tables _ _ _ H2 Hs1 (va_path va) (valid_va_path va)) as Hsame2.
  erewrite bind_done by exact Hw. exists st2.
  rewrite <-(walked_walk _ _ root va H12 Hs Hva).
  destruct (table_at (pmem (set_pmem m' st)) root (va_path va)) as [t|] eqn:Ht.
  - destruct Hr as (p' & -> & Hd'). split; [done|].
    erewrite bind_done by (eapply load_ok; [exact Hs2|exact Hd'|auto]).
    rewrite (walk_leaf _ root va t) by done. simpl. unfold entry_allows.
    destruct (present _); [|done]. simpl.
    destruct writable; simpl; [|by destruct (has_flag _ PAGE_USER)].
    destruct (has_flag _ PAGE_WRITABLE); simpl; [|done]. by destruct (has_flag _ PAGE_USER).
  - subst r. split; [done|]. unfold walk. by rewrite Hsame2.
Qed.

Lemma user_not_scratch va : 0 <= va < USER_ADDR_LIMIT -> ~ on_scratch_page va.
Proof.
  unfold on_scratch_page, va_path, window_path, USER_ADDR_LIMIT. intros Hva [Hp _].
  destruct (idx_digits va) as (Heq & _). injection Hp as Hp _ _. rewrite Heq in Hp. divlia.
Qed.

(** [for_pages] over the pages of a user range. *)
Lemma for_pages_search {R} (f : Z -> option R) (body : Z -> M (pg_state FA) (option R))
    first limit st :
  (forall va st', first <= va < limit -> walked st st' ->
     exists st'', body va st' = Done (f va) st'' [] /\ walked st' st'') ->
  exists st', walked st st' /\
    ((for_pages first limit body st = Done None st' [] /\
      forall k, 0 <= k -> first + k * 4096 < limit -> f (first + k * 4096) = None) \/
     (exists k r, 0 <= k /\ first + k * 4096 < limit /\ f (first + k * 4096) = Some r /\
        for_pages first limit body st = Done (Some r) st' [])).
Proof.
  intros Hbody. unfold for_pages, PMM_FRAME_SIZE.
  assert (forall k, 0 <= k < 0 + Z.of_nat (Z.to_nat ((limit - first + 4096 - 1) / 4096)) <->
    0 <= k /\ first + k * 4096 < limit) as Hk by (intros k; divlia).
  destruct (mfor_search (walked st) (fun k => f (first + k * 4096))
    (fun k => body (first + k * 4096))
    (Z.to_nat ((limit - first + 4096 - 1) / 4096)) 0 st) as (st' & Hw & Hres).
  - reflexivity.
  - intros j s Hj Hws. apply Hk in Hj.
    destruct (Hbody (first + j * 4096) s) as (s' & Hb & Hw'); [lia|done|].
    exists s'. split; [done|]. by etrans.
  - exists st'. split; [done|]. destruct Hres as [[Hm Hall]|(j & r & Hj & Hf & Hm)].
    + left. split; [done|]. intros k H0 H1. apply Hall. by apply Hk.
    + right. exists j, r. apply Hk in Hj as [? ?]. done.
Qed.
End walks.
