(* ===== verification/FreeSpace.v ===== *)
(** * Freeing a user address space (paging_free_user_space, src/mm/paging.c)

    Which frames an address space owns, read off the walk of the MMU, and that
    the four nested loops of [paging_free_user_space] give back exactly these,
    as long as no access goes through the scratch page. *)
From S2P Require Import Prelude Effects PmmInterface PagingInterface Paging PageTable PagingProofs WalkProofs.

(** The frames of an address space: its root, the tables below it and the
    pages they map, the kernel's half (entry 511 of the root) apart. *)
Inductive space_frame (m : gmap Z Z) (root : Z) : Z -> Prop :=
  | sf_root : space_frame m root root
  | sf_table i q t : i <> 511 -> valid_path (i :: q) -> table_at m root (i :: q) = Some t ->
      space_frame m root t
  | sf_page va e : pml4_idx va <> 511 -> walk m root va = Some e -> space_frame m root (page_base e).

(** ** Indices and addresses *)

Lemma address_of_indices i j k l :
  valid_idx i -> valid_idx j -> valid_idx k -> valid_idx l ->
  exists va, va_path va = [i; j; k] /\ pt_idx va = l.
Proof.
  unfold valid_idx. intros Hi Hj Hk Hl. exists (i * 2 ^ 39 + j * 2 ^ 30 + k * 2 ^ 21 + l * 2 ^ 12).
  unfold va_path. destruct (idx_digits (i * 2 ^ 39 + j * 2 ^ 30 + k * 2 ^ 21 + l * 2 ^ 12)) as (-> & -> & -> & ->).
  change (2 ^ 39) with 549755813888. change (2 ^ 30) with 1073741824. change (2 ^ 21) with 2097152.
  change (2 ^ 12) with 4096. split; [|divlia]. f_equal; [divlia|]. f_equal; [divlia|]. f_equal. divlia.
Qed.

Section free.
Context {FA : Type} `{HFA : FrameAlloc FA} `{!FrameAllocOk FA}.
Context (L : layout) (m : gmap Z Z) (owned : Z -> Prop).
Context (kroot : Z) (Hsp : space L m kroot).
Implicit Types (st : pg_state FA) (P Q : Z -> Prop) (body : M (pg_state FA) unit).

(** The memory of the address spaces and the frames the allocator manages. *)
Definition settled st : Prop :=
  pmem st = m /\ fa_inv (frames st) /\ forall f, fa_owned (frames st) f <-> owned f.

(** The frames at the addresses [P] became free, and nothing else happened. *)
Definition freed P st st' : Prop :=
  settled st' /\ cr3 st' = cr3 st /\ new_pml4 st' = new_pml4 st /\
  forall f, f ∈ fa_avail (frames st') <-> f ∈ fa_avail (frames st) \/ P (f * PMM_FRAME_SIZE).

(** A routine that does that. *)
Definition frees P body : Prop :=
  forall st, settled st -> exists st', body st = Done tt st' [] /\ freed P st st'.

(** A frame the allocator takes back. *)
Definition returnable (a : Z) : Prop := aligned a /\ 0 < a /\ owned (a / 4096).

Lemma freed_refl st : settled st -> freed (fun _ => False) st st.
Proof. intros Hs. split_and!; try done. intros f. tauto. Qed.

Lemma freed_trans P Q st1 st2 st3 :
  freed P st1 st2 -> freed Q st2 st3 -> freed (fun a => P a \/ Q a) st1 st3.
Proof.
  intros (_ & C1 & N1 & F1) (S2 & C2 & N2 & F2). split_and!; [done|congruence|congruence|].
  intros f. rewrite F2, F1. tauto.
Qed.

Lemma freed_ext P Q st st' : (forall a, P a <-> Q a) -> freed P st st' -> freed Q st st'.
Proof. intros Hpq (S & C & N & F). split_and!; try done. intros f. by rewrite F, Hpq. Qed.

Lemma frees_ext P Q body : (forall a, P a <-> Q a) -> frees P body -> frees Q body.
Proof.
  intros Hpq Hb st Hs. destruct (Hb st Hs) as (st' & E & Hf). exists st'. split; [done|].
  by apply (freed_ext P).
Qed.

Lemma frees_seq P Q body1 body2 :
  frees P body1 -> frees Q body2 -> frees (fun a => P a \/ Q a) (body1;; body2).
Proof.
  intros H1 H2 st Hs. destruct (H1 st Hs) as (s1 & E1 & F1). destruct (H2 s1 (proj1 F1)) as (s2 & E2 & F2).
  exists s2. rewrite (bind_step _ _ _ _ _ E1). split; [done|]. by eapply freed_trans.
Qed.

(** A step that reads. *)
Lemma frees_read {A} P (r : M (pg_state FA) A) (f : A -> M (pg_state FA) unit) a :
  (forall st, settled st -> r st = Done a st []) -> frees P (f a) -> frees P (r ≫= f).
Proof. intros Hr Hf st Hs. rewrite (bind_step _ _ _ _ _ (Hr st Hs)). by apply Hf. Qed.

Lemma free_frame_frees a : returnable a -> frees (eq a) (free_frame a).
Proof.
  intros ([_ Ha] & H0 & Ho) st (Hm & Hi & Hown). apply Hown in Ho.
  assert (a = a / 4096 * PMM_FRAME_SIZE) as Hd by (unfold PMM_FRAME_SIZE; divlia).
  destruct (fa_free_ok (frames st) (a / 4096) Hi Ho ltac:(divlia)) as (Hi' & Hav & Hown').
  rewrite <-Hd in *. eexists. split; [reflexivity|]. split; [|split_and!; try done].
  - split_and!; [done..|]. intros f. by rewrite <-Hown, <-Hown'.
  - intros f. simpl. rewrite Hav, elem_of_union, elem_of_singleton. unfold PMM_FRAME_SIZE. split.
    + intros [->|?]; [right; divlia|by left].
    + intros [?|Heq]; [by right|left; divlia].
Qed.

(** ** Tables in the window *)

Definition low_table (t : Z) : Prop := aligned t /\ t < 0x1FF000.

Lemma load_settled t i st :
  low_table t -> valid_idx i -> settled st ->
  load L (t + HIGHER_HALF_BASE) i st = Done (entry m t i) st [].
Proof.
  intros [Ha Hl] Hi (<- & _). apply (load_ok L st _ t i kroot); [done|by apply low_denotes|done].
Qed.

Lemma pointer_settled t st :
  low_table t -> settled st -> virt_for_phys L t st = Done (t + HIGHER_HALF_BASE) st [].
Proof.
  intros [[[H0 _] _] Hl] _. unfold virt_for_phys. rewrite (proj2 (Z.ltb_lt _ _)) by lia.
  unfold mret, M_ret. f_equal. apply wrap_small. unfold fits, HIGHER_HALF_BASE. lia.
Qed.

(** The loop over a table's entries. *)
Lemma for_present_frees t n (P : Z -> Z -> Prop) (body : Z -> M (pg_state FA) unit) :
  low_table t -> 0 <= n <= 512 ->
  (forall i, 0 <= i < n -> present (entry m t i) = true -> frees (P i) (body i)) ->
  frees (fun a => exists i, 0 <= i < n /\ present (entry m t i) = true /\ P i a)
    (for_present L (t + HIGHER_HALF_BASE) n body).
Proof.
  intros Ht Hn Hbody st Hs. unfold for_present.
  destruct (mfor_rule (R := unit) (fun k s =>
      freed (fun a => exists i, 0 <= i < k /\ present (entry m t i) = true /\ P i a) st s)
    (fun i => e ← load L (t + HIGHER_HALF_BASE) i;
       (if present e then body i else mret tt);; mret None) (Z.to_nat n) 0 st) as (st' & E & Hf).
  - eapply freed_ext; [|by apply freed_refl]. intros a. split; [done|]. intros (i & ? & _). lia.
  - intros i s Hi Hf. rewrite Z2Nat.id in Hi by lia. pose proof (proj1 Hf) as Hs1.
    assert (valid_idx i) as Hv by (unfold valid_idx; lia).
    rewrite (bind_step _ _ _ _ _ (load_settled t i s Ht Hv Hs1)).
    assert (frees (fun a => present (entry m t i) = true /\ P i a)
      (if present (entry m t i) then body i else mret tt)) as Hone.
    { destruct (present (entry m t i)) eqn:Hp.
      - eapply frees_ext; [|by apply Hbody]. intros a. tauto.
      - intros s' Hs'. exists s'. split; [done|]. eapply freed_ext; [|by apply freed_refl]. intros a. naive_solver. }
    destruct (Hone s Hs1) as (s2 & E2 & F2). exists s2. rewrite (bind_step _ _ _ _ _ E2). split; [done|].
    eapply freed_ext; [|by eapply freed_trans]. intros a. split.
    + intros [(j & Hj & H)|[Hp HP]]; [exists j; split; [lia|done]|exists i; split_and!; lia || done].
    + intros (j & Hj & Hp & HP). destruct (decide (j = i)) as [->|?]; [by right|left; exists j].
      split; [lia|done].
  - exists st'. rewrite (bind_step _ _ _ _ _ E). split; [done|]. rewrite Z2Nat.id in Hf by lia. done.
Qed.

(** One level of the nest: the children of a table, and the table itself. *)
Definition free_level (p i : Z) (body : Z -> Z -> M (pg_state FA) unit) : M (pg_state FA) unit :=
  e ← load L p i;
  child ← virt_for_phys L (page_base e);
  for_present L child 512 (body child);;
  e ← load L p i;
  free_frame (page_base e).

Lemma free_level_frees t i c (P : Z -> Z -> Prop) (body : Z -> Z -> M (pg_state FA) unit) :
  low_table t -> valid_idx i -> page_base (entry m t i) = c -> low_table c -> returnable c ->
  (forall j, valid_idx j -> present (entry m c j) = true -> frees (P j) (body (c + HIGHER_HALF_BASE) j)) ->
  frees (fun a => (exists j, valid_idx j /\ present (entry m c j) = true /\ P j a) \/ c = a)
    (free_level (t + HIGHER_HALF_BASE) i body).
Proof.
  intros Ht Hi <- Hc Hr Hb. unfold free_level.
  eapply frees_read; [intros st Hs; by apply (load_settled t i)|].
  eapply frees_read; [intros st Hs; by apply pointer_settled|].
  apply frees_seq; [by apply for_present_frees|].
  eapply frees_read; [intros st Hs; by apply (load_settled t i)|]. by apply free_frame_frees.
Qed.

(** The frames [n] levels of tables below a table map or are. *)
Fixpoint below (n : nat) (t a : Z) : Prop :=
  exists i, valid_idx i /\ present (entry m t i) = true /\
    match n with
    | O => page_base (entry m t i) = a
    | S n => below n (page_base (entry m t i)) a \/ page_base (entry m t i) = a
    end.

(** All tables that are [n] levels above the last are in the window, and all
    frames below go back to the allocator. *)
Fixpoint tidy (n : nat) (t : Z) : Prop :=
  low_table t /\ forall i, valid_idx i -> present (entry m t i) = true ->
    returnable (page_base (entry m t i)) /\
    match n with
    | O => True
    | S n => tidy n (page_base (entry m t i)) /\ (n = 0%nat -> has_flag (entry m t i) PAGE_PS = false)
    end.

Lemma tidy_low n t : tidy n t -> low_table t.
Proof. by destruct n; intros [? _]. Qed.

(** A page table: its frames, when the entry that leads to it is no 2 MiB page. *)
Lemma free_pt_frees t i c :
  low_table t -> valid_idx i -> page_base (entry m t i) = c ->
  tidy 0 c -> returnable c -> has_flag (entry m t i) PAGE_PS = false ->
  frees (fun a => below 0 c a \/ c = a) (free_pt L (t + HIGHER_HALF_BASE) i).
Proof.
  intros Ht Hi Ec Hc Hr Hps. unfold free_pt.
  eapply frees_read; [intros st Hs; by apply (load_settled t i)|]. cbv beta. rewrite Hps.
  change (frees (fun a => below 0 c a \/ c = a) (free_level (t + HIGHER_HALF_BASE) i
    (fun pt pti => e ← load L pt pti; free_frame (page_base e)))).
  apply (free_level_frees t i c (fun j => eq (page_base (entry m c j)))); [done..|apply Hc|done|].
  intros j Hj Hp. eapply frees_read; [intros st Hs; apply (load_settled c j); [apply Hc|done..]|].
  apply free_frame_frees. by apply Hc.
Qed.

(** A page directory, and the table above it. *)
Lemma free_pd_frees t i c :
  low_table t -> valid_idx i -> page_base (entry m t i) = c ->
  tidy 1 c -> returnable c ->
  frees (fun a => below 1 c a \/ c = a) (free_pd L (t + HIGHER_HALF_BASE) i).
Proof.
  intros Ht Hi Ec [Hc Hsub] Hr.
  change (free_pd L (t + HIGHER_HALF_BASE) i) with (free_level (t + HIGHER_HALF_BASE) i (free_pt L)).
  apply (free_level_frees t i c (fun j a => below 0 (page_base (entry m c j)) a \/ page_base (entry m c j) = a));
    [done..|].
  intros j Hj Hp. destruct (Hsub j Hj Hp) as (Hrj & Htj & Hps). apply free_pt_frees; auto.
Qed.

Lemma free_pdpt_frees t i c :
  low_table t -> valid_idx i -> page_base (entry m t i) = c ->
  tidy 2 c -> returnable c ->
  frees (fun a => below 2 c a \/ c = a) (free_pdpt L (t + HIGHER_HALF_BASE) i).
Proof.
  intros Ht Hi Ec [Hc Hsub] Hr.
  change (free_pdpt L (t + HIGHER_HALF_BASE) i) with (free_level (t + HIGHER_HALF_BASE) i (free_pd L)).
  apply (free_level_frees t i c (fun j a => below 1 (page_base (entry m c j)) a \/ page_base (entry m c j) = a));
    [done..|].
  intros j Hj Hp. destruct (Hsub j Hj Hp) as (Hrj & Htj & _). by apply free_pd_frees.
Qed.

(** The whole space. *)
Lemma free_space_frees root :
  low_table root -> returnable root ->
  (forall i, 0 <= i < 511 -> present (entry m root i) = true ->
     tidy 2 (page_base (entry m root i)) /\ returnable (page_base (entry m root i))) ->
  frees (fun a => (exists i, 0 <= i < 511 /\ present (entry m root i) = true /\
      (below 2 (page_base (entry m root i)) a \/ page_base (entry m root i) = a)) \/ root = a)
    (paging_free_user_space L root).
Proof.
  intros Hl Hr Hsub. unfold paging_free_user_space.
  eapply frees_read; [intros st Hs; by apply pointer_settled|]. cbv beta.
  rewrite (proj2 (Z.eqb_neq _ _)) by (destruct Hr as (_ & ? & _); unfold HIGHER_HALF_BASE; lia).
  apply frees_seq; [|by apply free_frame_frees].
  apply for_present_frees; [done|lia|]. intros i Hi Hp. destruct (Hsub i Hi Hp) as [Ht Hri].
  apply free_pdpt_frees; [done|unfold valid_idx; lia|done..].
Qed.
End free.

(** ** The frames by the walk *)

Section frames.
Context (m : gmap Z Z) (root : Z).

Lemma space_frame_below n i q t a :
  i <> 511 -> valid_path (i :: q) -> (length q + n = 2)%nat -> table_at m root (i :: q) = Some t ->
  below m n t a -> space_frame m root a.
Proof.
  revert q t. induction n as [|n IH]; intros q t Hi Hq Hlen Ht Hb; simpl in Hb.
  - destruct Hb as (l & Hl & Hp & <-). destruct q as [|j [|k [|? ?]]]; simpl in Hlen; try lia.
    destruct Hq as [Hq _]. rewrite !Forall_cons in Hq. destruct Hq as (Hvi & Hvj & Hvk & _).
    destruct (address_of_indices i j k l) as (va & Hpath & Hidx); [done..|].
    apply (sf_page m root va).
    + unfold va_path in Hpath. injection Hpath as Hpi _ _. by rewrite Hpi.
    + unfold walk. rewrite Hpath, Ht, Hidx. simpl. by rewrite Hp.
  - destruct Hb as (l & Hl & Hp & Hb).
    assert (valid_path ((i :: q) ++ [l])) as Hv by (apply valid_path_snoc_intro; simpl; done || lia).
    assert (table_at m root (i :: (q ++ [l])) = Some (page_base (entry m t l))) as Ht'.
    { change (i :: q ++ [l]) with ((i :: q) ++ [l]). rewrite table_at_snoc, Ht. simpl. by rewrite Hp. }
    destruct Hb as [Hb|<-]; [|by apply (sf_table m root i (q ++ [l]))].
    apply (IH (q ++ [l]) (page_base (entry m t l))); try done. rewrite length_app. simpl. lia.
Qed.

(** The sets the loops compute are the frames of the space. *)
Lemma space_frame_loops a :
  (exists i, 0 <= i < 511 /\ present (entry m root i) = true /\
     (below m 2 (page_base (entry m root i)) a \/ page_base (entry m root i) = a)) \/ root = a <->
  space_frame m root a.
Proof.
  split.
  - intros [(i & Hi & Hp & Hb)|<-]; [|by constructor].
    assert (valid_path [i]) as Hv by (split; [repeat constructor; lia|simpl; lia]).
    assert (table_at m root [i] = Some (page_base (entry m root i))) as Ht by (simpl; by rewrite Hp).
    destruct Hb as [Hb|<-]; [|by apply (sf_table m root i []); [lia|..]].
    by apply (space_frame_below 2 i [] (page_base (entry m root i))); [lia|..].
  - intros Hs. inversion Hs as [|i q t Hi Hv Ht|va e Hi Hw]; subst; [by right|left..].
    + destruct Hv as [Hv Hlen]. apply Forall_cons in Hv as [Hvi Hv]. simpl in Ht.
      destruct (present (entry m root i)) eqn:Hp; [|done].
      exists i. split; [unfold valid_idx in Hvi; lia|]. split; [done|].
      destruct q as [|j q]; [by right; injection Ht|left]. apply Forall_cons in Hv as [Hvj Hv]. simpl in Ht.
      destruct (present (entry m _ j)) eqn:Hpj in Ht; [|done]. exists j. split_and!; [done..|].
      destruct q as [|k q]; [by right; injection Ht|left]. apply Forall_cons in Hv as [Hvk _]. simpl in Ht.
      destruct (present (entry m _ k)) eqn:Hpk in Ht; [|done]. exists k. split_and!; [done..|].
      destruct q as [|? ?]; [by right; injection Ht|simpl in Hlen; lia].
    + unfold walk, va_path in Hw. pose proof (valid_va_path va) as [Hv _]. unfold va_path in Hv.
      rewrite !Forall_cons in Hv. destruct Hv as (Hv4 & Hv3 & Hv2 & _). simpl in Hw.
      destruct (present (entry m root _)) eqn:Hp4 in Hw; [|done]. simpl in Hw.
      exists (pml4_idx va). split; [unfold valid_idx in Hv4; lia|]. split; [done|left].
      destruct (present (entry m _ (pdpt_idx va))) eqn:Hp3 in Hw; [|done]. simpl in Hw.
      exists (pdpt_idx va). split_and!; [done..|left].
      destruct (present (entry m _ (pd_idx va))) eqn:Hp2 in Hw; [|done]. simpl in Hw.
      exists (pd_idx va). split_and!; [done..|left].
      destruct (present (entry m _ (pt_idx va))) eqn:Hp1 in Hw; [|done]. injection Hw as <-.
      exists (pt_idx va). split_and!; [apply valid_pt_idx|done..].
Qed.

Context (owned : Z -> Prop).
Context (Hlow : forall i q t, i <> 511 -> valid_path (i :: q) -> table_at m root (i :: q) = Some t -> t < 0x1FF000).
Context (Hret : forall a, space_frame m root a -> 0 < a /\ owned (a / 4096)).
Context (Hsmall : no_huge_pages m root).

Lemma space_tidy n i q t :
  aligned root -> i <> 511 -> valid_path (i :: q) -> (length q + n = 2)%nat -> table_at m root (i :: q) = Some t ->
  tidy m owned n t.
Proof.
  intros Hr. revert q t. induction n as [|n IH]; intros q t Hi Hq Hlen Ht; split.
  1, 3: split; [by eapply table_aligned|by apply (Hlow i q)].
  - intros l Hl Hp. split; [|done]. split; [done|]. apply Hret.
    apply (space_frame_below 0 i q t); try done. by exists l.
  - intros l Hl Hp.
    assert (valid_path ((i :: q) ++ [l])) as Hv by (apply valid_path_snoc_intro; simpl; done || lia).
    assert (table_at m root (i :: (q ++ [l])) = Some (page_base (entry m t l))) as Ht'.
    { change (i :: q ++ [l]) with ((i :: q) ++ [l]). rewrite table_at_snoc, Ht. simpl. by rewrite Hp. }
    split; [split; [done|]; by apply Hret, (sf_table m root i (q ++ [l]))|].
    split; [apply (IH (q ++ [l])); try done; rewrite length_app; simpl; lia|].
    intros ->. destruct q as [|j [|? ?]]; simpl in Hlen; try lia. by apply (Hsmall i j l t).
Qed.
End frames.

Section theorem.
Context {FA : Type} `{HFA : FrameAlloc FA} `{!FrameAllocOk FA}.
Context (L : layout).
Implicit Types (st : pg_state FA).

(** What [paging_free_user_space] relies on: a well-formed address space whose
    user half has its tables in the window and no 2 MiB pages, and whose
    frames the allocator manages. *)
Record freeable st root : Prop := {
  fb_space : space L (pmem st) root;
  fb_alloc : fa_inv (frames st);
  fb_root : root < 0x1FF000;
  fb_low : forall i q t, i <> 511 -> valid_path (i :: q) -> table_at (pmem st) root (i :: q) = Some t -> t < 0x1FF000;
  fb_small : no_huge_pages (pmem st) root;
  fb_owned : forall a, space_frame (pmem st) root a -> 0 < a /\ fa_owned (frames st) (a / 4096);
}.

Lemma free_user_space_aux st root :
  freeable st root ->
  exists st', paging_free_user_space L root st = Done tt st' [] /\
    pmem st' = pmem st /\ cr3 st' = cr3 st /\ new_pml4 st' = new_pml4 st /\ fa_inv (frames st') /\
    (forall f, fa_owned (frames st') f <-> fa_owned (frames st) f) /\
    forall f, f ∈ fa_avail (frames st') <->
      f ∈ fa_avail (frames st) \/ space_frame (pmem st) root (f * PMM_FRAME_SIZE).
Proof.
  intros [Hs Ha Hr Hl Hsm Ho]. pose proof (tree_root _ _ (sp_tree _ _ _ Hs)) as Hal.
  destruct (free_space_frees L (pmem st) (fa_owned (frames st)) root Hs root) with (st := st)
    as (st' & E & (Hm & Hi & Hown) & Hc & Hn & Hf).
  - by split.
  - split; [done|]. apply Ho. constructor.
  - intros i Hi Hp. assert (valid_path [i]) as Hv by (split; [repeat constructor; lia|simpl; lia]).
    assert (table_at (pmem st) root [i] = Some (page_base (entry (pmem st) root i))) as Ht by (simpl; by rewrite Hp).
    split.
    + apply (space_tidy (pmem st) root _ Hl Ho Hsm 2 i []); done || lia.
    + split; [done|]. apply Ho, (sf_table _ root i []); [lia|done..].
  - by split.
  - exists st'. split; [done|]. split_and!; try done. intros f. by rewrite Hf, space_frame_loops.
Qed.

(** C27: [paging_free_user_space] gives a whole address space back.  It
    returns, and the frames that are free afterwards are exactly those that
    were free before, the root, the tables of the user half and every frame
    that some user address is mapped to; nothing of the half shared with the
    kernel is freed, and memory and CR3 are as before. *)
Theorem paging_free_user_space_correct st root :
  freeable st root ->
  exists st', paging_free_user_space L root st = Done tt st' [] /\
    pmem st' = pmem st /\ cr3 st' = cr3 st /\ fa_inv (frames st') /\
    forall f, f ∈ fa_avail (frames st') <->
      f ∈ fa_avail (frames st) \/ space_frame (pmem st) root (f * PMM_FRAME_SIZE).
Proof.
  intros Hf. destruct (free_user_space_aux st root Hf) as (st' & E & Hm & Hc & _ & Hi & _ & Hav).
  exists st'. split_and!; done.
Qed.
End theorem.
