(* ===== verification/PagingInit.v ===== *)
(** * Virtual memory: the address space [paging_init] builds

    The exact translation of the tables written by [paging_init], and the
    invariant of [PagingProofs.v] for them. *)
From S2P Require Import Prelude Effects PmmInterface PagingInterface Paging PageTable.
From S2P Require Import PagingProofs.

Definition id_flags : Z := Z.lor PAGE_PRESENT PAGE_WRITABLE.
Definition hi_flags : Z := Z.lor (Z.lor PAGE_PRESENT PAGE_WRITABLE) PAGE_USER.

(** The leaf entry of a virtual address after [paging_init]: 4 MiB of identity
    mapping, and the 2 MiB window at the higher half. *)
Definition init_leaf (va : Z) : option Z :=
  if decide (va_path va = [0; 0; 0]) then Some (Z.lor (pt_idx va * 4096) id_flags)
  else if decide (va_path va = [0; 0; 1]) then Some (Z.lor ((pt_idx va + 512) * 4096) id_flags)
  else if decide (va_path va = window_path) then Some (Z.lor (pt_idx va * 4096) hi_flags)
  else None.

(** The tables, in the order of [tables]. *)
Definition init_paths : list (list Z) :=
  [[]; [0]; [511]; [0; 0]; [511; 510]; window_path; [0; 0; 0]; [0; 0; 1]].

(** ** Loops that fill a table *)
Lemma entry_fill t (g : Z -> Z) m t' j :
  aligned t -> aligned t' -> valid_idx j ->
  entry (after_break (for_range 0 512 (fun i m => Next (<[t + 8 * i := g i]> m)) m)) t' j =
    if decide (t' = t) then g j else entry m t' j.
Proof.
  intros Ht Ht' Hj.
  set (I := fun n m' => forall j, valid_idx j ->
    entry m' t' j = if decide (t' = t /\ j < n) then g j else entry m t' j).
  assert (I 512 (after_break (for_range 0 512 (fun i m => Next (<[t + 8 * i := g i]> m)) m))) as H.
  - apply (for_next_rule I); [done| |].
    + intros k Hk. unfold valid_idx in Hk. by rewrite decide_False by lia.
    + intros i m' Hi IH k Hk. unfold valid_idx in *.
      rewrite entry_insert, IH by done. destruct (decide (t' = t /\ k = i)) as [[-> ->]|Hne].
      * by rewrite decide_True by lia.
      * destruct (decide (t' = t /\ k < i)).
        -- by rewrite decide_True by lia.
        -- by rewrite decide_False by lia.
  - rewrite H by done. unfold valid_idx in Hj.
    destruct (decide (t' = t)) as [->|].
    + by rewrite decide_True by lia.
    + by rewrite decide_False by (intros [? ?]; done).
Qed.

Lemma entry_fill2 t0 t1 (g0 g1 : Z -> Z) m t' j :
  aligned t0 -> aligned t1 -> aligned t' -> valid_idx j -> t0 <> t1 ->
  entry (after_break (for_range 0 512 (fun i m =>
    Next (<[t1 + 8 * i := g1 i]> (<[t0 + 8 * i := g0 i]> m))) m)) t' j =
    if decide (t' = t1) then g1 j else if decide (t' = t0) then g0 j else entry m t' j.
Proof.
  intros H0 H1 Ht' Hj Hne.
  set (I := fun n m' => forall j, valid_idx j ->
    entry m' t' j = if decide (t' = t1 /\ j < n) then g1 j
                    else if decide (t' = t0 /\ j < n) then g0 j else entry m t' j).
  assert (I 512 (after_break (for_range 0 512 (fun i m =>
    Next (<[t1 + 8 * i := g1 i]> (<[t0 + 8 * i := g0 i]> m))) m))) as H.
  - apply (for_next_rule I); [done| |].
    + intros k Hk. unfold valid_idx in Hk. by rewrite !decide_False by lia.
    + intros i m' Hi IH k Hk. unfold valid_idx in *. rewrite !entry_insert, IH by done.
      repeat case_decide; try done; (f_equal; lia) || lia.
  - rewrite H by done. unfold valid_idx in Hj. repeat case_decide; try done; (f_equal; lia) || lia.
Qed.

Section init.
Context (L : layout) (HL : layout_ok L).

Local Abbreviation ph f := (phys (f L)).

Lemma tables_phys : Forall (fun t => aligned t /\ 0 < t < 0x1FF000) (phys <$> tables L).
Proof.
  destruct HL as [_ Hall]. apply Forall_fmap. eapply Forall_impl; [exact Hall|].
  intros va Hva. simpl. destruct (phys_in_window va Hva) as (_ & ? & ?). done.
Qed.

Lemma phys_tables_NoDup : NoDup (phys <$> tables L).
Proof.
  destruct HL as [Hnd Hall]. apply NoDup_fmap_2_strong; [|done].
  intros x y Hx Hy Heq. rewrite Forall_forall in Hall.
  destruct (phys_in_window x (Hall x Hx)) as [Hpx _].
  destruct (phys_in_window y (Hall y Hy)) as [Hpy _]. lia.
Qed.

(** The entries of the static tables, as [paging_init] leaves them. *)
Record init_entries (m : gmap Z Z) : Prop := {
  ie_pml4 : forall j, valid_idx j -> entry m (phys (pml4_new L)) j =
    if decide (j = 0) then Z.lor (phys (pdpt_id L)) id_flags
    else if decide (j = 511) then Z.lor (phys (pdpt_hi L)) hi_flags else 0;
  ie_pdpt_id : forall j, valid_idx j -> entry m (phys (pdpt_id L)) j =
    if decide (j = 0) then Z.lor (phys (pd_id L)) id_flags else 0;
  ie_pdpt_hi : forall j, valid_idx j -> entry m (phys (pdpt_hi L)) j =
    if decide (j = 510) then Z.lor (phys (pd_hi L)) hi_flags else 0;
  ie_pd_id : forall j, valid_idx j -> entry m (phys (pd_id L)) j =
    if decide (j = 0) then Z.lor (phys (pt_id_0 L)) id_flags
    else if decide (j = 1) then Z.lor (phys (pt_id_1 L)) id_flags else 0;
  ie_pd_hi : forall j, valid_idx j -> entry m (phys (pd_hi L)) j =
    if decide (j = 0) then Z.lor (phys (pt_hi_kernel L)) hi_flags else 0;
  ie_pt_hi : forall j, valid_idx j ->
    entry m (phys (pt_hi_kernel L)) j = Z.lor (j * 4096) hi_flags;
  ie_pt_id_0 : forall j, valid_idx j ->
    entry m (phys (pt_id_0 L)) j = Z.lor (j * 4096) id_flags;
  ie_pt_id_1 : forall j, valid_idx j ->
    entry m (phys (pt_id_1 L)) j = Z.lor ((j + 512) * 4096) id_flags;
}.

Lemma entry_flags t flags :
  aligned t -> 0 <= flags < 4096 -> present flags = true ->
  present (Z.lor t flags) = true /\ page_base (Z.lor t flags) = t.
Proof.
  intros [? ?] Hf Hp. rewrite present_lor, Hp, orb_true_r. split; [done|].
  by apply page_base_lor.
Qed.

Lemma window_entry_flags j :
  valid_idx j -> present (Z.lor (j * 4096) hi_flags) = true /\
  page_base (Z.lor (j * 4096) hi_flags) = 4096 * j.
Proof.
  intros Hj. rewrite (Z.mul_comm 4096). apply entry_flags; [|done..].
  unfold valid_idx, aligned, fits in *. split; [lia|divlia].
Qed.

(** The tables reached in such a memory. *)
Definition init_table (p : list Z) : option Z :=
  if decide (p = []) then Some (phys (pml4_new L))
  else if decide (p = [0]) then Some (phys (pdpt_id L))
  else if decide (p = [511]) then Some (phys (pdpt_hi L))
  else if decide (p = [0; 0]) then Some (phys (pd_id L))
  else if decide (p = [511; 510]) then Some (phys (pd_hi L))
  else if decide (p = window_path) then Some (phys (pt_hi_kernel L))
  else if decide (p = [0; 0; 0]) then Some (phys (pt_id_0 L))
  else if decide (p = [0; 0; 1]) then Some (phys (pt_id_1 L)) else None.

Section built.
Context (m : gmap Z Z) (Hm : init_entries m).

Lemma table_flags t : t ∈ phys <$> tables L -> forall flags, 0 <= flags < 4096 ->
  present flags = true -> present (Z.lor t flags) = true /\ page_base (Z.lor t flags) = t.
Proof.
  intros Ht flags. pose proof tables_phys as Hall. rewrite Forall_forall in Hall.
  destruct (Hall t Ht). by apply entry_flags.
Qed.

(** Following index [i] from a table. *)
Lemma init_step p i :
  valid_path (p ++ [i]) ->
  (t ← init_table p; if present (entry m t i) then Some (page_base (entry m t i)) else None)
    = init_table (p ++ [i]).
Proof.
  intros Hv. pose proof (valid_path_snoc _ _ Hv) as (Hp & Hi & Hlen).
  destruct Hm as [E4 Ei Eh Edi Edh _ _ _].
  assert (forall t flags, t ∈ tables L -> 0 <= flags < 4096 -> present flags = true ->
    present (Z.lor (phys t) flags) = true /\ page_base (Z.lor (phys t) flags) = phys t) as Hin.
  { intros t flags Ht. by apply table_flags, list_elem_of_fmap_2. }
  assert (0 <= id_flags < 4096 /\ present id_flags = true /\
          0 <= hi_flags < 4096 /\ present hi_flags = true) as (Fi & Fi' & Fh & Fh') by done.
  destruct (Hin (pdpt_id L) id_flags) as [P1 B1]; [set_solver|done..|].
  destruct (Hin (pdpt_hi L) hi_flags) as [P2 B2]; [set_solver|done..|].
  destruct (Hin (pd_id L) id_flags) as [P3 B3]; [set_solver|done..|].
  destruct (Hin (pd_hi L) hi_flags) as [P4 B4]; [set_solver|done..|].
  destruct (Hin (pt_hi_kernel L) hi_flags) as [P5 B5]; [set_solver|done..|].
  destruct (Hin (pt_id_0 L) id_flags) as [P6 B6]; [set_solver|done..|].
  destruct (Hin (pt_id_1 L) id_flags) as [P7 B7]; [set_solver|done..|].
  destruct p as [|a [|b [|c p]]]; [| | |simpl in Hlen; lia];
    unfold init_table, window_path; simpl;
    repeat (case_decide; simplify_eq/=; try done);
    rewrite ?E4, ?Ei, ?Eh, ?Edi, ?Edh in * by done;
    repeat (case_decide; simplify_eq/=; try done);
    rewrite ?P1, ?P2, ?P3, ?P4, ?P5, ?P6, ?P7 in *;
    congruence.
Qed.

Lemma init_table_at p : valid_path p -> table_at m (phys (pml4_new L)) p = init_table p.
Proof.
  induction p as [|i p IH] using rev_ind; intros Hv; [done|].
  rewrite table_at_snoc, IH by (by eapply valid_path_prefix). by apply init_step.
Qed.

Lemma init_table_lookup p t : init_table p = Some t ->
  exists k, init_paths !! k = Some p /\ (phys <$> tables L) !! k = Some t.
Proof.
  unfold init_table. intros H.
  repeat (case_decide; [simplify_eq|]); try done;
    [exists 0%nat|exists 1%nat|exists 2%nat|exists 3%nat|exists 4%nat|exists 5%nat|
     exists 6%nat|exists 7%nat]; done.
Qed.

Lemma init_table_in p t : init_table p = Some t -> t ∈ phys <$> tables L.
Proof.
  intros Ht. destruct (init_table_lookup p t Ht) as (k & _ & Hk).
  by eapply list_elem_of_lookup_2.
Qed.

Lemma init_space : space L m (phys (pml4_new L)).
Proof.
  pose proof tables_phys as Hall. rewrite Forall_forall in Hall. split.
  - split; [apply Hall; apply list_elem_of_fmap_2; set_solver|].
    intros p q t Hp Hq Htp Htq. rewrite init_table_at in Htp, Htq by done.
    destruct (init_table_lookup p t Htp) as (k1 & Hk1 & Hl1).
    destruct (init_table_lookup q t Htq) as (k2 & Hk2 & Hl2).
    pose proof (NoDup_lookup _ _ _ _ phys_tables_NoDup Hl1 Hl2). simplify_eq. done.
  - by rewrite init_table_at by apply valid_window.
  - intros i Hi. assert (valid_idx i) as Hv by (unfold valid_idx; lia).
    rewrite (ie_pt_hi _ Hm) by done. by apply window_entry_flags.
  - intros q Hq Hbad. rewrite init_table_at in Hbad by done.
    apply init_table_in, Hall in Hbad. lia.
Qed.

Lemma init_no_huge_pages : no_huge_pages m (phys (pml4_new L)).
Proof.
  intros i j k t Hi Hv Ht _. pose proof Hv as [Hvs _]. rewrite !Forall_cons in Hvs. destruct Hvs as (_ & _ & Hk & _).
  pose proof tables_phys as Hall. rewrite Forall_forall in Hall.
  rewrite init_table_at in Ht by (by apply (valid_path_prefix [i; j] [k])). unfold init_table in Ht.
  repeat (case_decide; [simplify_eq; try discriminate|]); try discriminate.
  rewrite (ie_pd_id _ Hm) by done.
  assert (forall x, x ∈ tables L -> has_flag (Z.lor (phys x) id_flags) PAGE_PS = false) as Hno.
  { intros x Hx. apply linked_small; [|done]. by apply Hall, list_elem_of_fmap_2. }
  repeat case_decide; [by apply Hno; set_solver..|done].
Qed.

Lemma init_fresh f : ~ f ∈ phys <$> tables L -> fresh m (phys (pml4_new L)) f.
Proof.
  intros Hf q Hq Hbad. rewrite init_table_at in Hbad by done. by apply init_table_in in Hbad.
Qed.

Lemma init_walk va : walk m (phys (pml4_new L)) va = init_leaf va.
Proof.
  unfold walk. rewrite init_table_at by done. unfold init_leaf.
  pose proof (valid_pt_idx va) as Hi. destruct Hm as [_ _ _ _ _ Eh E0 E1].
  assert (forall n flags, present flags = true -> present (Z.lor n flags) = true) as Hf.
  { intros n flags Hf. by rewrite present_lor, Hf, orb_true_r. }
  destruct (decide (va_path va = [0; 0; 0])) as [->|N0].
  { change (init_table [0; 0; 0]) with (Some (phys (pt_id_0 L))). simpl.
    rewrite E0 by assumption. by rewrite Hf. }
  destruct (decide (va_path va = [0; 0; 1])) as [->|N1].
  { change (init_table [0; 0; 1]) with (Some (phys (pt_id_1 L))). simpl.
    rewrite E1 by assumption. by rewrite Hf. }
  destruct (decide (va_path va = window_path)) as [->|Nw].
  { change (init_table window_path) with (Some (phys (pt_hi_kernel L))). simpl.
    rewrite Eh by assumption. by rewrite Hf. }
  unfold init_table. by rewrite !decide_False by first [assumption|discriminate].
Qed.
End built.

Ltac table_in :=
  first [ apply (list_elem_of_lookup_2 _ 0%nat); reflexivity
        | apply (list_elem_of_lookup_2 _ 1%nat); reflexivity
        | apply (list_elem_of_lookup_2 _ 2%nat); reflexivity
        | apply (list_elem_of_lookup_2 _ 3%nat); reflexivity
        | apply (list_elem_of_lookup_2 _ 4%nat); reflexivity
        | apply (list_elem_of_lookup_2 _ 5%nat); reflexivity
        | apply (list_elem_of_lookup_2 _ 6%nat); reflexivity
        | apply (list_elem_of_lookup_2 _ 7%nat); reflexivity ].

(** A condition that two distinct tables, or two distinct indices, refute. *)
Ltac table_off :=
  let refute H :=
    lazymatch type of H with
    | Z0 = Zpos _ => discriminate H
    | Zpos _ = Z0 => discriminate H
    | Zpos _ = Zpos _ => discriminate H
    | ?a = ?b =>
        match goal with
        | N : a <> b |- _ => exact (N H)
        | N : b <> a |- _ => exact (N (eq_sym H))
        end
    end in
  let H := fresh in
  first [ intros H; refute H | intros [H _]; refute H | intros [_ H]; refute H ].

(** [paging_init] writes those entries. *)
Context {FA : Type} `{HFA : FrameAlloc FA}.
Implicit Types (st : pg_state FA).

Lemma paging_init_entries st : exists m,
  paging_init L st = Done tt (Pg m (phys (pml4_new L)) (pml4_new L) (frames st)) [] /\
  init_entries m.
Proof.
  eexists. split; [reflexivity|]. change (Z.lor (Z.lor PAGE_PRESENT PAGE_WRITABLE) PAGE_USER)
    with hi_flags. fold id_flags. unfold PMM_FRAME_SIZE. cbv beta zeta.
  pose proof phys_tables_NoDup as Hnd. pose proof tables_phys as Hall.
  simpl in Hnd, Hall. rewrite !Forall_cons in Hall.
  destruct Hall as ([A1 _] & [A2 _] & [A3 _] & [A4 _] & [A5 _] & [A6 _] & [A7 _] & [A8 _] & _).
  rewrite !NoDup_cons, !not_elem_of_cons in Hnd. destruct_and!.
  match goal with |- init_entries ?m => set (M := m) end.
  assert (forall t j, t ∈ phys <$> tables L -> valid_idx j -> entry M t j =
    if decide (t = ph pt_hi_kernel) then Z.lor (j * 4096) hi_flags else
    if decide (t = ph pd_hi /\ j = 0) then Z.lor (ph pt_hi_kernel) hi_flags else
    if decide (t = ph pdpt_hi /\ j = 510) then Z.lor (ph pd_hi) hi_flags else
    if decide (t = ph pml4_new /\ j = 511) then Z.lor (ph pdpt_hi) hi_flags else
    if decide (t = ph pt_id_1) then Z.lor ((j + 512) * 4096) id_flags else
    if decide (t = ph pt_id_0) then Z.lor (j * 4096) id_flags else
    if decide (t = ph pd_id /\ j = 1) then Z.lor (ph pt_id_1) id_flags else
    if decide (t = ph pd_id /\ j = 0) then Z.lor (ph pt_id_0) id_flags else
    if decide (t = ph pdpt_id /\ j = 0) then Z.lor (ph pd_id) id_flags else
    if decide (t = ph pml4_new /\ j = 0) then Z.lor (ph pdpt_id) id_flags else
    0) as HM.
  { intros t j Hin Hj. unfold M.
    assert (aligned t) as Ht.
    { pose proof tables_phys as Hall. rewrite Forall_forall in Hall. by apply Hall. }
    assert (valid_idx 0 /\ valid_idx 1 /\ valid_idx 510 /\ valid_idx 511) as (? & ? & ? & ?)
      by (unfold valid_idx; lia).
    rewrite entry_fill, !entry_insert, entry_fill2, !entry_insert by assumption.
    repeat (case_decide; [reflexivity|]).
    rewrite !entry_zero_frame by assumption.
    simpl in Hin. rewrite !elem_of_cons in Hin. repeat (case_decide; [reflexivity|]).
    exfalso. repeat (destruct Hin as [Hin|Hin]; [contradiction|]).
    by apply not_elem_of_nil in Hin. }
  clearbody M.
  split; intros j Hj; rewrite HM by first [assumption | table_in].
  all: repeat match goal with
    | |- _ = (if decide (?x = ?k) then _ else _) => destruct (decide (x = k)) as [->|]
    end.
  all: repeat (rewrite decide_False by table_off).
  all: first [reflexivity | by rewrite decide_True].
Qed.
End init.
