(* ===== verification/PagingSpec.v ===== *)
(** * Virtual memory: what paging.c promises

    The theorems about the operations of paging.c, for any frame allocator
    that keeps the contract of pmm.h, and their instances on the address
    space that [paging_init] builds. *)
From S2P Require Import Prelude Effects PmmInterface PagingInterface Paging PageTable.
From S2P Require Import PagingProofs WalkProofs PagingInit.

Section spec.
Context {FA : Type} `{HFA : FrameAlloc FA} `{!FrameAllocOk FA}.
Context (L : layout) (HL : layout_ok L).
Local Abbreviation kroot := (phys (pml4_new L)).
Implicit Types (st : pg_state FA).

Lemma layout_pml4 : in_window (pml4_new L).
Proof. destruct HL as [_ Hall]. rewrite Forall_forall in Hall. apply Hall. set_solver. Qed.

Lemma layout_pt_hi : in_window (pt_hi_kernel L).
Proof. destruct HL as [_ Hall]. rewrite Forall_forall in Hall. apply Hall. set_solver. Qed.

Lemma kernel_inv_walked st st' : kernel_inv L st -> walked L st st' -> kernel_inv L st'.
Proof.
  intros [Hi Hn] (m' & -> & Hm). split; [|done]. by apply pg_inv_rescratched.
Qed.

(** ** [paging_init] *)

(** The frames an allocator may hand out are none of the static tables, nor
    the frame behind the scratch page. *)
Definition frames_apart st : Prop :=
  fa_inv (frames st) /\
  forall f, f ∈ fa_avail (frames st) ->
    ~ f * PMM_FRAME_SIZE ∈ phys <$> tables L /\ f <> 511.

Lemma paging_init_aux st :
  frames_apart st ->
  exists st', paging_init L st = Done tt st' [] /\ kernel_inv L st' /\
    cr3 st' = kroot /\ frames st' = frames st /\
    forall va, walk (pmem st') kroot va = init_leaf va.
Proof.
  intros [Ha Hf]. destruct (paging_init_entries L HL st) as (m & Heq & Hm).
  eexists. split; [exact Heq|]. split_and!; [|done|done|by apply init_walk].
  split; [|done]. split; [by apply init_space|done|].
  intros f Hin. destruct (Hf f Hin). split; [by apply init_fresh|done].
Qed.

(** ** [paging_unmap_page] *)
Lemma unmap_page_aux st va :
  kernel_inv L st -> va_path va <> window_path ->
  exists st', paging_unmap_page L va st = Done tt st' [] /\ kernel_inv L st' /\
    frames st' = frames st /\
    walk (pmem st') kroot va = None /\
    forall va', ~ same_page va va' -> ~ on_scratch_page va' ->
      walk (pmem st') kroot va' = walk (pmem st) kroot va'.
Proof.
  intros Hk Hw. destruct (pml4_direct L layout_pml4) as [Hdir Hne].
  pose proof Hk as [Hi Hn]. pose proof (pi_space _ _ _ Hi) as Hs.
  unfold paging_unmap_page. erewrite bind_done by reflexivity. rewrite Hn.
  rewrite (proj2 (Z.eqb_neq _ _) Hne).
  destruct (walk_to_pt_ok L layout_pt_hi st kroot (pml4_new L) va Hs) as (r & st1 & Hwk & H1 & Hr).
  { apply direct_denotes; [apply Hs|done]. }
  erewrite bind_done by exact Hwk.
  pose proof (kernel_inv_walked _ _ Hk H1) as Hk1. pose proof Hk1 as [Hi1 Hn1].
  pose proof (pi_space _ _ _ Hi1) as Hs1.
  pose proof (walked_tables L _ _ _ H1 Hs (va_path va) (valid_va_path va)) as Hsame.
  assert (forall va', ~ on_scratch_page va' ->
    walk (pmem st1) kroot va' = walk (pmem st) kroot va') as Hwalk
    by (intros; by apply (walked_walk L)).
  destruct (walked_regs L _ _ H1) as (_ & _ & Hfr).
  destruct (table_at (pmem st) kroot (va_path va)) as [t|] eqn:Ht.
  - destruct Hr as (p & -> & Hd). rewrite (store_ok L st1 p t (pt_idx va) 0 kroot) by auto.
    eexists. split; [reflexivity|]. simpl.
    split_and!; [|done| |].
    + split; [|done]. apply pg_inv_tables; [done| |].
      * apply (leaf_space L (pmem st1) kroot Hs1 (va_path va)); auto.
      * apply (leaf_same_tables (pmem st1) kroot (va_path va)); auto. apply Hs1.
    + rewrite (leaf_walk _ kroot (va_path va)); auto; [by rewrite decide_True|apply Hs1].
    + intros va' Hva' Hsc. rewrite (leaf_walk _ kroot (va_path va)); auto; [|apply Hs1].
      rewrite decide_False by exact Hva'. by apply Hwalk.
  - subst r. exists st1. split_and!; try done.
    + unfold walk. by rewrite Hsame.
    + intros va' _ Hsc. by apply Hwalk.
Qed.

(** ** [paging_create_user_space] *)

(** A root whose only entry is the kernel's PML4[511]. *)
Section user_root.
Context (m : gmap Z Z) (root r : Z) (Hs : space L m root).
Context (Hal : aligned r) (Hfresh : fresh m root r) (Hne : r <> 0x1FF000).
Context (Hentries : forall i, valid_idx i ->
  entry m r i = if decide (i = 511) then entry m root 511 else 0).

Lemma user_table_at i q :
  valid_idx i ->
  table_at m r (i :: q) = if decide (i = 511) then table_at m root (511 :: q) else None.
Proof.
  intros Hi. simpl. rewrite Hentries by done. by destruct (decide (i = 511)).
Qed.

Lemma user_tables q t :
  valid_path q -> table_at m r q = Some t -> (q = [] /\ t = r) \/ (head q = Some 511 /\ table_at m root q = Some t).
Proof.
  intros [Hq _] Ht. destruct q as [|i q]; [left; by simplify_eq/=|]. right.
  inversion Hq; subst. rewrite user_table_at in Ht by done.
  destruct (decide (i = 511)) as [->|]; [done|discriminate].
Qed.

Lemma user_fresh f : fresh m root f -> f <> r -> fresh m r f.
Proof.
  intros Hf Hne' q Hq Hbad. apply user_tables in Hbad as [[_ Hbad]|[_ Hbad]]; [congruence| |done].
  by apply (Hf q).
Qed.

Lemma user_space : space L m r.
Proof.
  pose proof (sp_tree _ _ _ Hs) as [Hr Hinj]. pose proof user_tables as Hcase. split.
  - split; [done|]. intros p q t Hp Hq Htp Htq.
    apply Hcase in Htp as [[-> ->]|[_ Htp]]; [| |done].
    + apply Hcase in Htq as [[-> _]|[_ Htq]]; [done| |done]. by destruct (Hfresh q).
    + apply Hcase in Htq as [[-> ->]|[_ Htq]]; [| |done]; [by destruct (Hfresh p)|].
      by eapply Hinj.
  - unfold window_path. rewrite user_table_at by apply valid_511.
    apply (sp_window _ _ _ Hs).
  - apply Hs.
  - apply user_fresh; [apply Hs|congruence].
Qed.

Lemma user_walk va :
  walk m r va = if decide (pml4_idx va = 511) then walk m root va else None.
Proof.
  unfold walk, va_path. pose proof (idx_range (Z.shiftr va 39)) as Hi.
  rewrite user_table_at by exact Hi.
  by destruct (decide (pml4_idx va = 511)) as [->|].
Qed.
End user_root.

(** Copying the kernel's PML4[511] into a cleared frame. *)
Lemma share_ok m a :
  space L m kroot -> aligned a -> fresh m kroot a -> a <> 0x1FF000 ->
  (forall i, valid_idx i -> entry m a i = 0) ->
  let m' := <[a + 8 * 511 := entry m kroot 511]> m in
  space L m' kroot /\ same_tables m m' kroot /\
  (forall va, walk m' kroot va = walk m kroot va) /\
  space L m' a /\ (forall f, fresh m kroot f -> f <> a -> fresh m' a f) /\
  (forall va, walk m' a va = if decide (pml4_idx va = 511) then walk m kroot va else None) /\
  (forall q t, valid_path q -> table_at m' a q = Some t ->
     (q = [] /\ t = a) \/ (head q = Some 511 /\ table_at m' kroot q = Some t)).
Proof.
  intros Hs Hal Hfr Hne Hz m'. pose proof valid_511 as H511.
  pose proof (outside_space L m kroot Hs a 511 (entry m kroot 511) Hal H511 Hfr) as Hs'.
  pose proof (outside_same_tables L m kroot Hs a 511 (entry m kroot 511) Hal H511 Hfr) as Hsame.
  assert (forall va, walk m' kroot va = walk m kroot va) as Hwk
    by (intros va; by apply (outside_walk L m kroot Hs)).
  fold m' in Hs', Hsame.
  pose proof (fresh_same_tables _ _ _ _ Hsame Hfr) as Hfr'.
  assert (kroot <> a) as Hka.
  { intros Hbad. apply (Hfr []); [split; [constructor|simpl; lia]|by rewrite <-Hbad]. }
  assert (forall i, valid_idx i ->
    entry m' a i = if decide (i = 511) then entry m' kroot 511 else 0) as Hentries.
  { intros i Hi. destruct (root_ok L m kroot Hs) as [Hk _].
    unfold m'. rewrite !entry_insert by assumption.
    rewrite (decide_False (P := kroot = a /\ _)) by (intros [? _]; done).
    destruct (decide (i = 511)) as [->|Hi511]; [by rewrite decide_True|].
    rewrite decide_False by (intros [_ ?]; done). by apply Hz. }
  split_and!; [done..|by apply (user_space m' kroot a)| | |].
  - intros f Hf Hfa. apply (user_fresh m' kroot a); try assumption.
    by apply (fresh_same_tables m).
  - intros va. rewrite (user_walk m' kroot a) by assumption. by rewrite Hwk.
  - intros q t Hq Ht. by apply (user_tables m' kroot a) in Ht.
Qed.

(** The entries of the kernel's tables, the scratch entry apart. *)
Definition entries_kept (m m' : gmap Z Z) : Prop :=
  forall q t i, valid_path q -> table_at m kroot q = Some t -> valid_idx i ->
    ~ (t = phys (pt_hi_kernel L) /\ i = 511) -> entry m' t i = entry m t i.

Lemma shared_entries_kept m m1 a e :
  space L m kroot -> rescratched L m m1 -> aligned a -> fresh m kroot a ->
  entries_kept m (<[a + 8 * 511 := e]> (zero_frame a m1)).
Proof.
  intros Hs Hm Hal Hfr q t i Hq Ht Hi Hne.
  pose proof (table_aligned m kroot q t (tree_root _ _ (sp_tree _ _ _ Hs)) Ht) as Hta.
  assert (t <> a) as Hta' by (intros ->; by apply (Hfr q)).
  assert (valid_idx 511) as H511 by (unfold valid_idx; lia).
  rewrite entry_insert, decide_False, entry_zero_frame, decide_False by (done || by intros [? _]).
  destruct Hm as [->|(v & _ & ->)]; [done|].
  rewrite entry_insert, decide_False by (done || apply (window_aligned L m kroot Hs)). done.
Qed.

(** Clearing a fresh frame wherever it lies: [virt_for_phys] and [memset]. *)
Lemma clear_frame_ok s1 a :
  pg_inv L kroot s1 -> aligned a -> fresh (pmem s1) kroot a -> a <> 0x1FF000 ->
  exists p m1, let m2 := zero_frame a m1 in
    virt_for_phys L a s1 = Done p (set_pmem m1 s1) [] /\
    memset_page L p (set_pmem m1 s1) = Done tt (set_pmem m2 s1) [] /\
    rescratched L (pmem s1) m1 /\ same_tables (pmem s1) m2 kroot /\ fresh m2 kroot a /\ denotes L m2 p a /\
    extends L 0 kroot s1 (set_pmem m2 s1).
Proof.
  intros Hi1 Hfal Hfr Hfne. pose proof (pi_space _ _ _ Hi1) as Hs1.
  destruct (virt_for_phys_ok L layout_pt_hi s1 kroot a Hs1 Hfal Hfne) as (p & m1 & Hv & Hm1 & Hd & _).
  pose proof (extends_rescratched L kroot s1 m1 Hi1 Hm1) as H2.
  pose proof (ext_inv _ _ _ _ _ H2) as Hi2. pose proof (pi_space _ _ _ Hi2) as Hs2.
  pose proof (rescratched_same_tables L (pmem s1) kroot Hs1 m1 Hm1) as Hsame1.
  assert (fresh m1 kroot a) as Hfr1 by by eapply fresh_same_tables.
  pose proof (clear_ok L kroot (set_pmem m1 s1) a Hi2 Hfal Hfr1) as H3.
  pose proof (zero_same_tables m1 kroot a (sp_tree _ _ _ Hs2) Hfal Hfr1) as Hsame2.
  exists p, m1. cbv zeta. split; [done|]. split; [exact (memset_ok L (set_pmem m1 s1) p a kroot Hs2 Hd)|]. split; [done|].
  split; [intros q Hq; by rewrite Hsame2 by done; apply Hsame1|].
  split; [by eapply fresh_same_tables|]. split; [|exact (extends_trans L layout_pt_hi _ _ _ _ _ _ H2 H3)].
  destruct Hd as [_ [Hd|(Hp & Hpr & Hb)]]; split; auto. right.
  assert (entry (zero_frame a m1) (phys (pt_hi_kernel L)) 511 = entry m1 (phys (pt_hi_kernel L)) 511) as ->; [|done].
  rewrite entry_zero_frame by (exact Hfal || exact (window_aligned L m1 kroot Hs2) || apply valid_511).
  rewrite decide_False; [done|]. intros Hbad. apply (Hfr1 window_path valid_window).
  rewrite <-Hbad. apply Hs2.
Qed.

Lemma create_user_space_tables st :
  kernel_inv L st -> page_base (cr3 st) = kroot ->
  exists r st', paging_create_user_space L st = Done r st' [] /\ kernel_inv L st' /\ cr3 st' = cr3 st /\
    (forall va, ~ on_scratch_page va -> walk (pmem st') kroot va = walk (pmem st) kroot va) /\
    if decide (r = 0) then fa_avail (frames st) = ∅
    else pg_inv L r st' /\
      (exists f, f ∈ fa_avail (frames st) /\ r = f * PMM_FRAME_SIZE /\ fa_avail (frames st') = fa_avail (frames st) ∖ {[f]} /\
         forall g, fa_owned (frames st') g <-> fa_owned (frames st) g) /\
      (forall va, ~ on_scratch_page va ->
        walk (pmem st') r va = if decide (pml4_idx va = 511) then walk (pmem st) kroot va else None) /\
      (forall q t, valid_path q -> table_at (pmem st') r q = Some t ->
         (q = [] /\ t = r) \/ (head q = Some 511 /\ table_at (pmem st) kroot q = Some t)) /\
      entries_kept (pmem st) (pmem st') /\ entry (pmem st') r 511 = entry (pmem st') kroot 511.
Proof.
  intros Hk Hcr3. pose proof Hk as [Hi Hn]. unfold paging_create_user_space.
  destruct (fa_alloc (frames st)) as [a fa] eqn:Hfa.
  assert (alloc_frame st = Done a (set_frames fa st) []) as Heq.
  { unfold alloc_frame. by rewrite Hfa. }
  erewrite bind_done by exact Heq. destruct (Z.eqb_spec a 0) as [->|Hne].
  { destruct (fa_alloc_none _ _ (pi_alloc _ _ _ Hi) Hfa) as [-> Hemp].
    exists 0, st. split_and!; [by destruct st|done|done|done|by rewrite decide_True]. }
  destruct (alloc_frame_ok L layout_pt_hi kroot st a fa Hi Hfa Hne)
    as (H1 & f & Haf & Hin & Hout & Hfal & Hfr & Hfne).
  destruct (fa_alloc_some _ _ _ (pi_alloc _ _ _ Hi) Hfa Hne) as (g & Hag & _ & _ & _ & Hav & Hown).
  assert (g = f) as -> by (unfold PMM_FRAME_SIZE in *; lia). clear Hag.
  set (s1 := set_frames fa st) in *. pose proof (ext_inv _ _ _ _ _ H1) as Hi1.
  destruct (clear_frame_ok s1 a Hi1 Hfal Hfr Hfne) as (p & m1 & Hv & Hms & Hm1 & Hz & Hfr2 & Hd2 & H2).
  set (m2 := zero_frame a m1) in *. rewrite (bind_step _ _ _ _ _ Hv), (bind_step _ _ _ _ _ Hms).
  erewrite bind_done by reflexivity.
  pose proof (ext_inv _ _ _ _ _ H2) as Hi3. pose proof (pi_space _ _ _ Hi3) as Hs3.
  pose proof (extends_trans L layout_pt_hi _ _ _ _ _ _ H1 H2) as H123. cbn [pmem set_pmem cr3] in *.
  change (cr3 s1) with (cr3 st). rewrite Hcr3.
  destruct (pml4_direct L layout_pml4) as [[Hpd Hlt] _].
  destruct (root_ok L m2 kroot Hs3) as [Hkal Hkne].
  destruct (virt_for_phys_ok L layout_pt_hi (set_pmem m2 s1) kroot kroot Hs3 Hkal Hkne)
    as (pk & mk & Hvk & _ & Hdk & Hlow). destruct (Hlow Hlt) as [-> ->].
  change (set_pmem (pmem (set_pmem m2 s1)) (set_pmem m2 s1)) with (set_pmem m2 s1) in Hvk.
  rewrite (bind_step _ _ _ _ _ Hvk).
  rewrite (bind_step _ _ _ _ _ (load_ok L (set_pmem m2 s1) _ kroot 511 kroot Hs3 Hdk valid_511)).
  rewrite (bind_step _ _ _ _ _ (store_ok L (set_pmem m2 s1) p a 511 _ kroot Hs3 Hd2 valid_511)).
  set (e := entry m2 kroot 511). cbn [pmem set_pmem] in *.
  set (m3 := <[a + 8 * 511 := e]> m2).
  eexists a, (set_pmem m3 s1). split; [reflexivity|].
  destruct (share_ok m2 a Hs3 Hfal Hfr2 Hfne) as (Hs4 & Hsame & Hwk & Hus & Hufr & Huwk & Huser).
  { intros i Hi'. unfold m2. by rewrite entry_zero_frame, decide_True. }
  fold e m3 in Hs4, Hsame, Hwk, Hus, Hufr, Huwk.
  pose proof (ext_walk _ _ _ _ _ H123) as Hext.
  pose proof (pg_inv_tables L kroot (set_pmem m2 s1) m3 Hi3 Hs4 Hsame) as Hi4.
  cbn [pmem set_pmem]. split_and!.
  - by split.
  - done.
  - intros va Hva. rewrite Hwk. by apply Hext.
  - rewrite decide_False by done. split_and!; [split; [done|apply Hi4|]|by exists f| | | |].
    + intros g Hg. destruct (pi_fresh _ _ _ Hi3 g Hg) as [Hgf ?]. split; [|done].
      apply Hufr; [done|]. intros Hbad. apply Hout. replace f with g; [done|].
      unfold PMM_FRAME_SIZE in *. lia.
    + intros va Hva. rewrite Huwk. destruct (decide (pml4_idx va = 511)); [by apply Hext|done].
    + intros q t Hq Ht. destruct (Huser q t Hq Ht) as [?|[Hhd Ht']]; [by left|right; split; [done|]]. fold e m3 in Ht'.
            by rewrite Hsame, Hz in Ht' by done.
    + by apply (shared_entries_kept (pmem s1)); [apply Hi1| | |].
    + assert (kroot <> a) as Hka.
      { intros Hbad. apply (Hfr2 []); [split; [constructor|simpl; lia]|by rewrite <-Hbad]. }
      unfold m3. rewrite !entry_insert, decide_True, decide_False by (done || apply valid_511 || by intros [? _]).
      done.
Qed.

Lemma create_user_space_aux st :
  kernel_inv L st -> page_base (cr3 st) = kroot ->
  exists r st', paging_create_user_space L st = Done r st' [] /\ kernel_inv L st' /\
    (forall va, ~ on_scratch_page va -> walk (pmem st') kroot va = walk (pmem st) kroot va) /\
    if decide (r = 0) then fa_avail (frames st) = ∅
    else pg_inv L r st' /\
      (exists f, r = f * PMM_FRAME_SIZE /\ fa_avail (frames st') = fa_avail (frames st) ∖ {[f]}) /\
      forall va, ~ on_scratch_page va ->
        walk (pmem st') r va = if decide (pml4_idx va = 511) then walk (pmem st) kroot va else None.
Proof.
  intros Hk Hc. destruct (create_user_space_tables st Hk Hc) as (r & st' & E & H1 & _ & H2 & H3).
  exists r, st'. split_and!; [done..|]. destruct (decide (r = 0)); [done|].
  destruct H3 as (Hi & (f & _ & Hr & Hf & _) & Hw & _). split_and!; [done|by exists f|done].
Qed.

(** ** [user_mem_check] *)

(** A byte of user memory the current address space lets the user touch. *)
Definition accessible st (writable : bool) (a : Z) : Prop :=
  exists e, walk (pmem st) (page_base (cr3 st)) a = Some e /\
    has_flag e PAGE_USER = true /\ (writable = true -> has_flag e PAGE_WRITABLE = true) /\
    page_base e <> 0.

(** The first loop checks one half of this, the second the other. *)
Lemma accessible_split st writable a :
  accessible st writable a <->
    (exists e, walk (pmem st) (page_base (cr3 st)) a = Some e /\ page_base e <> 0) /\
    (exists e, walk (pmem st) (page_base (cr3 st)) a = Some e /\ entry_allows writable e = true).
Proof.
  unfold accessible, entry_allows. split.
  - intros (e & He & Hu & Hw & Hb). split; exists e; [done|]. split; [done|].
    rewrite Hu, andb_true_r. destruct writable; [by rewrite Hw|done].
  - intros [(e & He & Hb) (e' & He' & Hal)]. simplify_eq. exists e.
    apply andb_true_iff in Hal as [Hal Hu]. split_and!; try done. by intros ->.
Qed.

Lemma accessible_page st writable va a :
  same_page va a -> accessible st writable va <-> accessible st writable a.
Proof. intros Hp. unfold accessible. by rewrite (same_page_walk _ _ _ _ Hp). Qed.

Lemma xlate_page e va : va mod 4096 = 0 -> xlate e va = page_base e.
Proof.
  intros Hva. unfold xlate. change 0xFFF with (2 ^ 12 - 1). rewrite land_low by lia.
  change (2 ^ 12) with 4096. by rewrite Hva, Z.lor_0_r.
Qed.

(** The bytes of a range are covered by the pages the loops visit. *)
Lemma pages_of_range addr limit first (P : Z -> Prop) :
  0 <= addr < limit -> first = addr / 4096 * 4096 ->
  (forall va a, va <= a < va + 4096 -> va mod 4096 = 0 -> P va <-> P a) ->
  (forall k, 0 <= k -> first + k * 4096 < limit -> P (first + k * 4096)) <->
  (forall a, addr <= a < limit -> P a).
Proof.
  intros Hr -> HP. split.
  - intros Hk a Ha. apply (HP (a / 4096 * 4096) a); [divlia..|].
    specialize (Hk (a / 4096 - addr / 4096)).
    replace (addr / 4096 * 4096 + (a / 4096 - addr / 4096) * 4096) with (a / 4096 * 4096)
      in Hk by lia. apply Hk; divlia.
  - intros Ha k Hk Hlt. set (va := addr / 4096 * 4096 + k * 4096) in *.
    assert (va mod 4096 = 0) by (unfold va; divlia).
    apply (HP va (Z.max addr va)); [unfold va in *; divlia|done|]. apply Ha. lia.
Qed.

Lemma same_page_offset va a : va <= a < va + 4096 -> va mod 4096 = 0 -> same_page va a.
Proof. intros Ha Hv. apply same_page_iff. by replace (a / 4096) with (va / 4096) by divlia. Qed.

Section check_loops.
Context (st : pg_state FA) (writable : bool) (first limit : Z).
Context (Hs : space L (pmem st) (page_base (cr3 st))) (Hn : new_pml4 st <> 0).
Context (Hfirst : 0 <= first) (Hlimit : limit <= USER_ADDR_LIMIT) (Hal : first mod 4096 = 0).

Lemma walked_state st' : walked L st st' ->
  space L (pmem st') (page_base (cr3 st')) /\ new_pml4 st' <> 0 /\
  forall va, 0 <= va < USER_ADDR_LIMIT ->
    walk (pmem st') (page_base (cr3 st')) va = walk (pmem st) (page_base (cr3 st)) va.
Proof.
  intros Hw. destruct (walked_regs L _ _ Hw) as (-> & -> & _).
  split_and!; [by apply (walked_space L st)|done|].
  intros va Hva. apply (walked_walk L); auto using user_not_scratch.
Qed.

(** The translation loop finds a page without translation, or none. *)
Lemma first_loop : exists st' r, walked L st st' /\
  for_pages first limit (fun va =>
    pa ← paging_virt_to_phys L va;
    if pa =? 0 then mret (Some 0) else mret None) st = Done r st' [] /\
  (r = None \/ r = Some 0) /\
  (r = None <-> forall k, 0 <= k -> first + k * 4096 < limit ->
     exists e, walk (pmem st) (page_base (cr3 st)) (first + k * 4096) = Some e /\ page_base e <> 0).
Proof.
  set (f := fun va => match walk (pmem st) (page_base (cr3 st)) va with
            | Some e => if xlate e va =? 0 then Some 0 else None | None => Some 0 end).
  match goal with |- context [for_pages first limit ?b st] =>
    destruct (for_pages_search L f b first limit st) as (st' & Hw & Hres) end.
  - intros va st1 Hva Hw. destruct (walked_state st1 Hw) as (Hs1 & Hn1 & Heq).
    destruct (virt_to_phys_ok L layout_pt_hi st1 va Hs1 Hn1) as (st2 & Hw2 & Hv).
    { apply user_not_scratch. lia. }
    exists st2. split; [|done]. erewrite bind_done by exact Hv. rewrite Heq by lia.
    unfold f. destruct (walk (pmem st) (page_base (cr3 st)) va) as [e|]; [|done]. by destruct (xlate e va =? 0).
  - assert (forall k, 0 <= k -> f (first + k * 4096) = None <->
      exists e, walk (pmem st) (page_base (cr3 st)) (first + k * 4096) = Some e /\ page_base e <> 0)
      as Hf.
    { intros k Hk. unfold f. destruct (walk (pmem st) (page_base (cr3 st)) (first + k * 4096)) as [e|].
      - rewrite xlate_page by divlia. destruct (Z.eqb_spec (page_base e) 0).
        + split; [done|]. by intros (? & [= <-] & ?).
        + split; [eauto|done].
      - split; [done|]. by intros (? & ? & _). }
    destruct Hres as [[Hm Hall]|(k & r & Hk & Hlt & Hr & Hm)].
    + exists st', None. split_and!; [done|done|by left|]. split; [|done].
      intros _ k Hk Hlt. apply Hf; auto.
    + assert (r = 0) as ->.
      { unfold f in Hr. destruct (walk (pmem st) (page_base (cr3 st)) (first + k * 4096)) as [e|]; [|congruence].
        destruct (xlate e _ =? 0); congruence. }
      exists st', (Some 0). split_and!; [done|done|by right|]. split; [done|].
      intros Hall. pose proof (proj2 (Hf k Hk) (Hall k Hk Hlt)). congruence.
Qed.

Lemma second_loop st0 : walked L st st0 -> exists st' r, walked L st st' /\
  for_pages first limit (check_page L writable) st0 = Done r st' [] /\
  (r = None \/ r = Some 0) /\
  (r = None <-> forall k, 0 <= k -> first + k * 4096 < limit ->
     exists e, walk (pmem st) (page_base (cr3 st)) (first + k * 4096) = Some e /\
       entry_allows writable e = true).
Proof.
  intros Hw0.
  set (f := fun va => match walk (pmem st) (page_base (cr3 st)) va with
            | Some e => if entry_allows writable e then None else Some 0 | None => Some 0 end).
  destruct (for_pages_search L f (check_page L writable) first limit st0) as (st' & Hw & Hres).
  - intros va st1 Hva Hw. assert (walked L st st1) as Hw1 by by etrans.
    destruct (walked_state st1 Hw1) as (Hs1 & Hn1 & Heq).
    destruct (check_page_ok L layout_pt_hi st1 va writable Hs1) as (st2 & Hw2 & Hv).
    { apply user_not_scratch. lia. }
    exists st2. split; [|done]. rewrite Hv, Heq by lia. done.
  - assert (walked L st st') by by etrans.
    assert (forall k, 0 <= k -> f (first + k * 4096) = None <->
      exists e, walk (pmem st) (page_base (cr3 st)) (first + k * 4096) = Some e /\
        entry_allows writable e = true) as Hf.
    { intros k Hk. unfold f. destruct (walk (pmem st) (page_base (cr3 st)) (first + k * 4096)) as [e|].
      - destruct (entry_allows writable e) eqn:He; [split; eauto|].
        split; [done|]. intros (? & [= <-] & ?). congruence.
      - split; [done|]. by intros (? & ? & _). }
    destruct Hres as [[Hm Hall]|(k & r & Hk & Hlt & Hr & Hm)].
    + exists st', None. split_and!; [done|done|by left|]. split; [|done].
      intros _ k Hk Hlt. apply Hf; auto.
    + assert (r = 0) as ->.
      { unfold f in Hr. destruct (walk (pmem st) (page_base (cr3 st)) (first + k * 4096)) as [e|]; [|congruence].
        destruct (entry_allows writable e); congruence. }
      exists st', (Some 0). split_and!; [done|done|by right|]. split; [done|].
      intros Hall. pose proof (proj2 (Hf k Hk) (Hall k Hk Hlt)). congruence.
Qed.
End check_loops.

Lemma user_mem_check_aux st addr len writable :
  space L (pmem st) (page_base (cr3 st)) -> new_pml4 st <> 0 -> fits 64 addr -> fits 64 len ->
  exists r st', user_mem_check L addr len writable st = Done r st' [] /\ walked L st st' /\
    (r = 0 \/ r = 1) /\
    (r = 1 <-> addr < USER_ADDR_LIMIT /\
       (len <> 0 -> addr + len <= USER_ADDR_LIMIT /\
          forall a, addr <= a < addr + len -> accessible st writable a)).
Proof.
  intros Hs Hn [Ha0 Ha] [Hl0 Hl]. unfold user_mem_check.
  destruct (Z.leb_spec USER_ADDR_LIMIT addr) as [Hge|Hlt].
  { exists 0, st. split_and!; [done|reflexivity|by left|]. split; [done|lia]. }
  destruct (Z.eqb_spec len 0) as [->|Hne].
  { exists 1, st. split_and!; [done|reflexivity|by right|]. split; [|done]. lia. }
  assert (addr ⊞ len = if decide (addr + len < 2 ^ 64) then addr + len else addr + len - 2 ^ 64)
    as Hsum. { unfold wrap. case_decide; divlia. }
  unfold USER_ADDR_LIMIT in Hlt.
  destruct (Z.ltb_spec (addr ⊞ len) addr) as [Hw|Hw].
  { exists 0, st. split_and!; [done|reflexivity|by left|]. split; [done|].
    intros [_ H]. destruct (H Hne) as [H' _]. unfold USER_ADDR_LIMIT in H'.
    case_decide; lia. }
  rewrite decide_True in Hsum by (case_decide; lia). rewrite Hsum in *. clear Hw.
  destruct (Z.ltb_spec USER_ADDR_LIMIT (addr + len)) as [Hov|Hle].
  { exists 0, st. split_and!; [done|reflexivity|by left|]. split; [done|].
    intros [_ H]. destruct (H Hne) as [H' _]. lia. }
  set (first := page_base addr).
  assert (first = addr / 4096 * 4096) as Hfirst by (apply page_base_eq; split; lia).
  assert (0 <= first /\ first mod 4096 = 0) as [Hf0 Hfa] by (rewrite Hfirst; divlia).
  destruct (first_loop st first (addr + len) Hs Hn Hf0 Hle Hfa)
    as (st1 & r1 & Hw1 & Heq1 & Hr1 & H1).
  destruct (second_loop st writable first (addr + len) Hs Hn Hf0 Hle st1 Hw1)
    as (st2 & r2 & Hw2 & Heq2 & Hr2 & H2).
  pose proof (pages_of_range addr (addr + len) first (accessible st writable)
    ltac:(lia) Hfirst) as Hpages.
  assert (forall va a, va <= a < va + 4096 -> va mod 4096 = 0 ->
    accessible st writable va <-> accessible st writable a) as Hinv.
  { intros va a Hva Hal. by apply accessible_page, same_page_offset. }
  specialize (Hpages Hinv).
  assert ((forall k, 0 <= k -> first + k * 4096 < addr + len ->
    accessible st writable (first + k * 4096)) <-> r1 = None /\ r2 = None) as Hboth.
  { rewrite H1, H2. setoid_rewrite accessible_split. split.
    - intros Hk. split; intros k ? ?; by apply Hk.
    - intros [Hk1 Hk2] k ? ?. auto. }
  erewrite bind_done by exact Heq1. destruct Hr1 as [->| ->].
  - erewrite bind_done by exact Heq2. exists (default 1 r2), st2.
    split_and!; [done|done|destruct Hr2 as [->| ->]; auto|].
    rewrite <-Hpages, Hboth. destruct Hr2 as [->| ->]; simpl.
    + split; [|done]. intros _. split; [done|]. done.
    + split; [done|]. intros [_ H]. by destruct (H Hne) as (_ & _ & ?).
  - exists 0, st1. split_and!; [done|done|by left|]. rewrite <-Hpages, Hboth.
    split; [done|]. intros [_ H]. by destruct (H Hne) as (_ & ? & _).
Qed.
End spec.
