(* ===== verification/PagingTheorems.v ===== *)
(** * Virtual memory: theorems

    The correctness of paging.c's operations against the walk of the MMU, each
    with an instance on the machine that [pmm_init] and [paging_init] set up. *)
From S2P Require Import Prelude Effects PmmInterface PagingInterface Paging PageTable.
From S2P Require Import PagingProofs WalkProofs PagingInit PagingSpec Multiboot Pmm PmmInit.

Section theorems.
Context {FA : Type} `{HFA : FrameAlloc FA} `{!FrameAllocOk FA}.
Context (L : layout) (HL : layout_ok L).
Local Abbreviation kroot := (phys (pml4_new L)).
Implicit Types (st : pg_state FA).

(** C6: [paging_init] builds exactly the address space of [init_leaf]: 4 MiB of
    identity mapping, the 2 MiB window at HIGHER_HALF_BASE with the user bit
    set, and nothing else; it loads it into CR3 and establishes the invariant
    the other operations rely on. *)
Theorem paging_init_maps st :
  frames_apart L st ->
  exists st', paging_init L st = Done tt st' [] /\ kernel_inv L st' /\
    cr3 st' = kroot /\ frames st' = frames st /\
    forall va, walk (pmem st') kroot va = init_leaf va.
Proof. apply paging_init_aux. exact HL. Qed.

(** C1: [paging_map_page] neither faults nor diverges.  On success the MMU
    walk of the page is the entry [(pa & ~0xFFF) | flags], and no other page
    changes its translation (the scratch page apart); it fails with -1 only
    when the allocator ran out with fewer than three frames, and then changes
    no translation.  It relies on [room]: see
    [paging_map_page_lost_in_high_tables] for what happens without. *)
Theorem paging_map_page_correct st va pa flags :
  kernel_inv L st -> va_path va <> window_path -> room kroot st va ->
  exists r st', paging_map_page L va pa flags st = Done r st' [] /\
    kernel_inv L st' /\ cr3 st' = cr3 st /\ maps L va pa flags st st' r.
Proof.
  intros Hk Hw Hroom.
  destruct (map_page_spec L (layout_pt_hi L HL) (layout_pml4 L HL) st va pa flags Hk Hw Hroom)
    as (r & st' & ? & ? & ? & ? & _). eauto 10.
Qed.

(** A page that [paging_map_page] mapped is found by
    [paging_virt_to_phys]: every address of the page translates to the same
    offset in the frame, whatever the offset bits of the arguments. *)
Theorem paging_map_then_translate st va pa flags :
  kernel_inv L st -> page_base (cr3 st) = kroot ->
  va_path va <> window_path -> room kroot st va ->
  fits 64 pa -> 0 <= flags < 4096 -> present flags = true ->
  (3 <= size (fa_avail (frames st)))%nat ->
  exists st1, paging_map_page L va pa flags st = Done 0 st1 [] /\
    forall va', 0 <= va' -> same_page va va' ->
      exists st2, paging_virt_to_phys L va' st1 = Done (page_base pa + va' mod 4096) st2 [].
Proof.
  intros Hk Hcr3 Hw Hroom Hpa Hfl Hp Hsz.
  destruct (map_page_spec L (layout_pt_hi L HL) (layout_pml4 L HL) st va pa flags Hk Hw Hroom)
    as (r & st1 & Heq & Hk1 & Hc & [(-> & Hwalk & _)|(_ & Hlt & _)] & _); [|lia].
  exists st1. split; [done|]. intros va' Hva' Hsame. pose proof Hk1 as [Hi1 Hn1].
  destruct (virt_to_phys_ok L (layout_pt_hi L HL) st1 va') as (st2 & _ & Hv).
  - rewrite Hc, Hcr3. apply Hi1.
  - rewrite Hn1. by apply (pml4_direct L (layout_pml4 L HL)).
  - intros [Hbad _]. apply Hw. by destruct Hsame as [<- _].
  - exists st2. rewrite Hv, Hc, Hcr3, (same_page_walk _ _ _ _ Hsame), Hwalk.
    cbv zeta. rewrite present_lor, Hp, orb_true_r. unfold xlate.
    rewrite page_base_lor by (auto using page_base_aligned, page_base_fits).
    f_equal. change 0xFFF with (2 ^ 12 - 1). rewrite land_low by lia.
    pose proof (page_base_aligned pa).
    replace (page_base pa) with (page_base pa / 4096 * 2 ^ 12) by divlia.
    rewrite lor_page by divlia. done.
Qed.

(** C26: [paging_unmap_page] removes the translation of the page and of no
    other page, and leaves the frame allocator alone. *)
Theorem paging_unmap_page_correct st va :
  kernel_inv L st -> va_path va <> window_path ->
  exists st', paging_unmap_page L va st = Done tt st' [] /\ kernel_inv L st' /\
    frames st' = frames st /\
    walk (pmem st') kroot va = None /\
    forall va', ~ same_page va va' -> ~ on_scratch_page va' ->
      walk (pmem st') kroot va' = walk (pmem st) kroot va'.
Proof. by apply unmap_page_aux. Qed.



(** C28: [paging_create_user_space] returns 0 only when no frame is left;
    otherwise the new PML4 is a well-formed address space whose upper 512 GiB
    translate as the kernel's do and whose other pages are all unmapped, the
    kernel's own translations are unchanged, and exactly one frame is used. *)
Theorem paging_create_user_space_shares_kernel st :
  kernel_inv L st -> page_base (cr3 st) = kroot ->
  exists r st', paging_create_user_space L st = Done r st' [] /\ kernel_inv L st' /\
    (forall va, ~ on_scratch_page va -> walk (pmem st') kroot va = walk (pmem st) kroot va) /\
    if decide (r = 0) then fa_avail (frames st) = ∅
    else pg_inv L r st' /\
      (exists f, r = f * PMM_FRAME_SIZE /\ fa_avail (frames st') = fa_avail (frames st) ∖ {[f]}) /\
      forall va, ~ on_scratch_page va ->
        walk (pmem st') r va = if decide (pml4_idx va = 511) then walk (pmem st) kroot va else None.
Proof. by apply create_user_space_aux. Qed.
End theorems.

(** ** A machine *)

(** The static tables inside the kernel image, and 1.9 MiB of RAM. *)
Definition sample_layout : layout :=
  Layout (HIGHER_HALF_BASE + 0x108000) (HIGHER_HALF_BASE + 0x109000)
    (HIGHER_HALF_BASE + 0x10A000) (HIGHER_HALF_BASE + 0x10B000)
    (HIGHER_HALF_BASE + 0x10C000) (HIGHER_HALF_BASE + 0x10D000)
    (HIGHER_HALF_BASE + 0x10E000) (HIGHER_HALF_BASE + 0x10F000).

Definition low_entry (i : Z) : Multiboot2.mmap_entry := Multiboot2.MmapEntry 0 0x1F0000 1.
Definition low_pmm : pmm_state := pmm_fill sample_kernel_end 0x1F0000 low_entry 1 (pmm_boot ∅).
Definition low_machine : pg_state pmm_state := Pg ∅ 0 0 low_pmm.

Lemma sample_layout_ok : layout_ok sample_layout.
Proof.
  split; [decide_done|]. unfold tables, in_window, HIGHER_HALF_BASE.
  repeat constructor; simpl; unfold HIGHER_HALF_BASE; lia.
Qed.

Lemma low_entry_ok i : entry_ok (low_entry i).
Proof. unfold low_entry. by repeat split. Qed.

Lemma low_pmm_ok : pmm_wf low_pmm /\ forall f, f ∈ free_set low_pmm -> 0x110 < f < 0x1F0.
Proof.
  destruct (pmm_fill_correct_aux sample_kernel_end 0x1F0000 1 low_entry (pmm_boot ∅))
    as (Hwf & _ & _ & Hfree).
  1-4: done.
  1: apply low_entry_ok.
  1: decide_done.
  split; [exact Hwf|]. intros f. unfold low_pmm. rewrite Hfree. intros (H1 & H2 & _).
  assert (kernel_phys_end sample_kernel_end = 0x110000) as Hke by (vm_compute; done).
  assert (Z.min (0x1F0000 / PMM_FRAME_SIZE) MAX_FRAMES = 0x1F0) as Ht by (vm_compute; done).
  rewrite Hke, Ht in *. unfold PMM_FRAME_SIZE in *.
  change ((0x1F0 + 31) / 32 * 4) with 64 in H2. lia.
Qed.

#[local] Opaque low_pmm.

Lemma low_machine_apart : frames_apart sample_layout low_machine.
Proof.
  destruct low_pmm_ok as [Hwf Hlow]. split.
  - split; [exact Hwf|]. intros H0. pose proof (Hlow 0 H0). lia.
  - intros f Hf. pose proof (Hlow f Hf). split; [|lia]. intros Hbad.
    assert (Forall (fun t => t < 0x110000) (phys <$> tables sample_layout)) as Hlt by decide_done.
    rewrite Forall_forall in Hlt. specialize (Hlt _ Hbad). unfold PMM_FRAME_SIZE in Hlt. lia.
Qed.

(** The machine after [paging_init]. *)
Record booted (st : pg_state pmm_state) : Prop := {
  bo_inv : kernel_inv sample_layout st;
  bo_cr3 : cr3 st = 0x108000;
  bo_frames : frames st = low_pmm;
  bo_walk : forall va, walk (pmem st) 0x108000 va = init_leaf va;
  bo_pd : table_at (pmem st) 0x108000 [511; 510] = Some (phys (pd_hi sample_layout));
  bo_low : forall q t, valid_path q -> table_at (pmem st) 0x108000 q = Some t -> t < 0x1FF000;
  bo_small : no_huge_pages (pmem st) 0x108000;
}.

Lemma sample_root : phys (pml4_new sample_layout) = 0x108000.
Proof. vm_compute. done. Qed.

Lemma machine_boots : exists st, paging_init sample_layout low_machine = Done tt st [] /\ booted st.
Proof.
  destruct (paging_init_entries sample_layout sample_layout_ok low_machine) as (m & Heq & Hm).
  destruct (paging_init_aux sample_layout sample_layout_ok low_machine low_machine_apart)
    as (st & Heq' & Hk & Hc & Hf & Hw).
  rewrite Heq in Heq'. injection Heq' as <-. eexists. split; [exact Heq|].
  rewrite sample_root in *. split; [exact Hk|exact Hc|exact Hf|exact Hw| | |].
  3: { rewrite <-sample_root. exact (init_no_huge_pages sample_layout sample_layout_ok m Hm). }
  { rewrite <-sample_root. apply (init_table_at sample_layout sample_layout_ok m Hm [511; 510]).
    split; [|simpl; lia]. repeat constructor; unfold valid_idx; lia. }
  intros q t Hq Ht. simpl in Ht.
  rewrite <-sample_root, (init_table_at sample_layout sample_layout_ok m Hm q Hq) in Ht.
  apply init_table_in in Ht. pose proof (tables_phys sample_layout sample_layout_ok) as Hall.
  rewrite Forall_forall in Hall. by apply Hall in Ht as [_ [_ ?]].
Qed.

Lemma booted_room st va : booted st -> room 0x108000 st va.
Proof.
  intros [_ _ Hf _ _ Hlow _]. split.
  - intros p i r t Hva Ht _. apply (Hlow p); [|done].
    apply (valid_path_prefix p (i :: r)). rewrite <-Hva. auto.
  - intros _ f Hin. rewrite Hf in Hin. destruct low_pmm_ok as [_ Hl].
    pose proof (Hl f Hin). lia.
Qed.

Lemma booted_space st : booted st -> space sample_layout (pmem st) (page_base (cr3 st)).
Proof. intros [[Hi _] Hc _ _ _ _ _]. rewrite Hc. apply Hi. Qed.

Lemma booted_new_pml4 st : booted st -> new_pml4 st <> 0.
Proof. intros [[_ ->] _ _ _ _ _ _]. vm_compute. done. Qed.

Lemma low_pmm_size : (3 <= size (free_set low_pmm))%nat.
Proof. decide_done. Qed.

Lemma paging_init_maps_witness :
  exists st', paging_init sample_layout low_machine = Done tt st' [] /\
    walk (pmem st') 0x108000 0x400000 = None.
Proof.
  destruct (paging_init_maps sample_layout sample_layout_ok low_machine low_machine_apart)
    as (st' & Heq & _ & _ & _ & Hw).
  exists st'. split; [exact Heq|]. rewrite <-sample_root. rewrite Hw. vm_compute. reflexivity.
Defined.

(** User code at 1 GiB. *)
Definition sample_va : Z := 0x40000000.

Lemma paging_map_page_correct_witness :
  exists st r st', booted st /\
    paging_map_page sample_layout sample_va 0x180000 7 st = Done r st' [] /\
    maps sample_layout sample_va 0x180000 7 st st' r.
Proof.
  destruct machine_boots as (st & _ & Hb). pose proof (bo_inv _ Hb) as Hk.
  destruct (paging_map_page_correct sample_layout sample_layout_ok st sample_va 0x180000 7 Hk)
    as (r & st' & Heq & _ & _ & Hm).
  - vm_compute. discriminate.
  - rewrite sample_root. by apply booted_room.
  - exists st, r, st'. done.
Defined.

Lemma paging_map_then_translate_witness :
  exists st st1 st2, booted st /\
    paging_map_page sample_layout sample_va 0x180000 7 st = Done 0 st1 [] /\
    paging_virt_to_phys sample_layout (sample_va + 5) st1 = Done 0x180005 st2 [].
Proof.
  destruct machine_boots as (st & _ & Hb). pose proof (bo_inv _ Hb) as Hk.
  destruct (paging_map_then_translate sample_layout sample_layout_ok st sample_va 0x180000 7 Hk)
    as (st1 & Heq & Htr).
  - rewrite (bo_cr3 _ Hb). vm_compute. done.
  - vm_compute. discriminate.
  - rewrite sample_root. by apply booted_room.
  - split; lia.
  - lia.
  - done.
  - rewrite (bo_frames _ Hb). apply low_pmm_size.
  - destruct (Htr (sample_va + 5)) as (st2 & Heq2); [done|vm_compute; done|].
    exists st, st1, st2. done.
Defined.

Lemma paging_unmap_page_correct_witness :
  exists st st', booted st /\ paging_unmap_page sample_layout 0x5000 st = Done tt st' [] /\
    walk (pmem st') 0x108000 0x5000 = None.
Proof.
  destruct machine_boots as (st & _ & Hb). pose proof (bo_inv _ Hb) as Hk.
  destruct (paging_unmap_page_correct sample_layout sample_layout_ok st 0x5000 Hk)
    as (st' & Heq & _ & _ & Hw & _); [vm_compute; discriminate|].
  rewrite sample_root in Hw. exists st, st'. done.
Defined.



Lemma paging_create_user_space_shares_kernel_witness :
  exists st r st', booted st /\
    paging_create_user_space sample_layout st = Done r st' [] /\ kernel_inv sample_layout st'.
Proof.
  destruct machine_boots as (st & _ & Hb). pose proof (bo_inv _ Hb) as Hk.
  destruct (paging_create_user_space_shares_kernel sample_layout sample_layout_ok st Hk)
    as (r & st' & Heq & Hk' & _).
  - rewrite (bo_cr3 _ Hb). vm_compute. done.
  - exists st, r, st'. done.
Defined.

(** ** Without room *)

(** The same machine with RAM up to 4 MiB of which the first 2 MiB are in use:
    the next frames are beyond the window. *)
Definition high_pmm : pmm_state :=
  pmm_mark_region 0x100000 0x100000 true
    (pmm_fill sample_kernel_end 0x400000
       (fun _ => Multiboot2.MmapEntry 0 0x400000 1) 1 (pmm_boot ∅)).

