(* ===== verification/KernelWindow.v ===== *)
(** * The kernel window in user address spaces

    paging.c maps the window at HIGHER_HALF_BASE with the user bit and shares
    its PML4 entry with every user address space: what ring 3 may do there,
    decided by the flags at all four levels of the walk, as the CPU decides
    it. *)
From S2P Require Import Prelude Effects PmmInterface PagingInterface Paging PageTable.
From S2P Require Import PagingProofs WalkProofs PagingInit PagingSpec PagingTheorems Pmm.

(** Ring 3 may write through a page when every entry of its walk is present,
    writable and for users. *)
Definition user_writable (e : Z) : bool :=
  present e && has_flag e PAGE_WRITABLE && has_flag e PAGE_USER.
Definition ring3_may_write (m : gmap Z Z) (root va : Z) : bool :=
  let e4 := entry m root (pml4_idx va) in
  let e3 := entry m (page_base e4) (pdpt_idx va) in
  let e2 := entry m (page_base e3) (pd_idx va) in
  let e1 := entry m (page_base e2) (pt_idx va) in
  user_writable e4 && user_writable e3 && user_writable e2 && user_writable e1.

(** The addresses of the window, the scratch page apart. *)
Definition in_kernel_window (va : Z) : Prop :=
  HIGHER_HALF_BASE <= va < HIGHER_HALF_BASE + 0x1FF000.

Lemma window_indices va :
  in_kernel_window va ->
  pml4_idx va = 511 /\ pdpt_idx va = 510 /\ pd_idx va = 0 /\ pt_idx va = (va - HIGHER_HALF_BASE) / 4096 /\
  0 <= pt_idx va < 511.
Proof.
  unfold in_kernel_window, HIGHER_HALF_BASE, pml4_idx, pdpt_idx, pd_idx, pt_idx. intros Hva.
  change 0x1FF with (2 ^ 9 - 1). rewrite !land_low, !Z.shiftr_div_pow2 by lia. split_and!; divlia.
Qed.

Section window.
Context {FA : Type} `{HFA : FrameAlloc FA} `{!FrameAllocOk FA}.
Context (L : layout) (HL : layout_ok L).
Local Abbreviation kroot := (phys (pml4_new L)).
Implicit Types (st : pg_state FA).

Lemma hi_flags_user_writable t :
  0 <= t -> user_writable (Z.lor t hi_flags) = true.
Proof.
  intros Ht. unfold user_writable, present, PAGE_PRESENT, PAGE_WRITABLE, PAGE_USER, hi_flags.
  rewrite !has_flag_bit by lia. rewrite !Z.lor_spec. by rewrite !orb_true_r.
Qed.

(** A static table of the window: its address and its flagged entry. *)
Lemma window_table t :
  t ∈ tables L ->
  user_writable (Z.lor (phys t) hi_flags) = true /\ page_base (Z.lor (phys t) hi_flags) = phys t.
Proof.
  intros Ht. apply (list_elem_of_fmap_2 phys) in Ht.
  destruct (table_flags L HL _ Ht hi_flags ltac:(done) ltac:(done)) as [_ Hb]. split; [|done].
  apply hi_flags_user_writable. pose proof (tables_phys L HL) as Hall. rewrite Forall_forall in Hall.
  destruct (Hall _ Ht) as [[[? _] _] _]. lia.
Qed.

(** In an address space whose root has the kernel's entry 511, over tables
    that [paging_init] wrote, ring 3 may write all of the window. *)
Lemma shared_window_writable m m' root va :
  init_entries L m -> entries_kept L m m' -> entry m' root 511 = entry m' kroot 511 ->
  in_kernel_window va -> ring3_may_write m' root va = true.
Proof.
  intros Hm Hkept Hroot Hva. destruct (window_indices va Hva) as (E4 & E3 & E2 & _ & E1).
  pose proof (phys_tables_NoDup L HL) as Hnd. simpl in Hnd. apply NoDup_cons in Hnd as [Hnd _].
  rewrite !not_elem_of_cons in Hnd.
  assert (forall q t i, valid_path q -> init_table L q = Some t -> valid_idx i -> i <> 511 \/ t <> phys (pt_hi_kernel L) ->
    entry m' t i = entry m t i) as Hent.
  { intros q t i Hq Ht Hi Hne. apply (Hkept q); [done|by rewrite (init_table_at L HL m Hm)|done|tauto]. }
  unfold ring3_may_write. rewrite E4, E3, E2, Hroot. cbv zeta.
  destruct (window_table (pdpt_hi L)) as [F4 B4]; [set_solver|].
  destruct (window_table (pd_hi L)) as [F3 B3]; [set_solver|].
  destruct (window_table (pt_hi_kernel L)) as [F2 B2]; [set_solver|].
  assert (forall a b c, valid_idx a -> valid_idx b -> valid_idx c ->
    valid_path [] /\ valid_path [a] /\ valid_path [a; b] /\ valid_path [a; b; c]) as Hpaths.
  { intros a b c Ha Hb Hc. unfold valid_path. rewrite !Forall_cons, Forall_nil. simpl.
    split_and!; done || lia. }
  destruct (Hpaths 511 510 0) as (P0 & P1 & P2 & P3); [unfold valid_idx; lia..|].
  assert (valid_idx (pt_idx va) /\ valid_idx 511 /\ valid_idx 510 /\ valid_idx 0) as (V & V511 & V510 & V0)
    by (unfold valid_idx; lia).
  assert (kroot <> phys (pt_hi_kernel L)) as Hne by tauto.
  assert (entry m' kroot 511 = Z.lor (phys (pdpt_hi L)) hi_flags) as ->.
  { rewrite (Hent [] _ _ P0 eq_refl V511 (or_intror Hne)). by rewrite (ie_pml4 _ _ Hm). }
  rewrite B4. assert (entry m' (phys (pdpt_hi L)) 510 = Z.lor (phys (pd_hi L)) hi_flags) as ->.
  { rewrite (Hent [511] _ _ P1 eq_refl V510) by (left; discriminate). by rewrite (ie_pdpt_hi _ _ Hm). }
  rewrite B3. assert (entry m' (phys (pd_hi L)) 0 = Z.lor (phys (pt_hi_kernel L)) hi_flags) as ->.
  { rewrite (Hent [511; 510] _ _ P2 eq_refl V0) by (left; discriminate). by rewrite (ie_pd_hi _ _ Hm). }
  rewrite B2. assert (entry m' (phys (pt_hi_kernel L)) (pt_idx va) = Z.lor (pt_idx va * 4096) hi_flags) as ->.
  { rewrite (Hent window_path _ _ P3 eq_refl V) by (left; lia). by apply (ie_pt_hi _ _ Hm). }
  rewrite F4, F3, F2. apply hi_flags_user_writable. lia.
Qed.

(** The window maps the first 2 MiB of RAM. *)
Lemma window_translates m va :
  in_kernel_window va -> walk m kroot va = init_leaf va ->
  ~ on_scratch_page va /\ pml4_idx va = 511 /\
  exists e, walk m kroot va = Some e /\ xlate e va = va - HIGHER_HALF_BASE.
Proof.
  intros Hva Hw. destruct (window_indices va Hva) as (E4 & E3 & E2 & E1 & Hpt).
  split; [intros [_ ?]; lia|]. split; [done|]. rewrite Hw.
  assert (va_path va = window_path) as Hp by (unfold va_path; by rewrite E4, E3, E2).
  unfold init_leaf. rewrite Hp, !decide_False, decide_True by (done || discriminate).
  eexists. split; [reflexivity|]. unfold xlate.
  destruct (window_entry_flags (pt_idx va)) as [_ ->]; [unfold valid_idx; lia|].
  change 0xFFF with (2 ^ 12 - 1). rewrite land_low by lia. rewrite E1.
  unfold in_kernel_window, HIGHER_HALF_BASE in *. rewrite Z.mul_comm.
  change 4096 with (2 ^ 12). rewrite lor_page by divlia. divlia.
Qed.

End window.

Lemma frames_left (p : pmm_state) n :
  (S n <= size (free_set p))%nat -> exists f, f ∈ fa_avail (frames (Pg ∅ 0 0 p)).
Proof.
  intros Hs. change (exists f, f ∈ free_set p). apply set_choose_L. intros Hbad.
  rewrite Hbad, size_empty in Hs. lia.
Qed.

