(* ===== verification/Heap.v ===== *)
(** * The kernel heap (src/mm/heap.c, src/mm/heap.h): the model

    The free list lives in the memory it manages: the state holds the 64-bit
    words of the kernel's virtual memory, by address, and a block header is
    three such words.  A load or store at an unmapped address is a page fault.

    Physical frames and page tables are behind the interface [HeapBacking]
    (pmm_alloc_frame, paging_map_page, pmm_free_frame). *)
From S2P Require Import Prelude Effects PmmInterface PagingInterface Paging.

Definition HEAP_START : Z := 0xFFFFFFFF80200000.
Definition HEAP_MAGIC : Z := 0xDEADBEEFCAFEBABE.
Definition BLOCK_HEADER_SIZE : Z := 16.
Definition MIN_BLOCK_SIZE : Z := BLOCK_HEADER_SIZE + 16.

(** Offsets of the fields of [free_block_t]. *)
Definition f_size : Z := 0.
Definition f_magic : Z := 8.
Definition f_next : Z := 16.

Record heap (B : Type) := Heap {
  heap_start : Z;
  heap_end : Z;
  heap_used_bytes : Z;
  free_list : Z;       (* 0 is NULL *)
  hmem : gmap Z Z;     (* the mapped words of kernel virtual memory *)
  backing : B;
}.
Arguments Heap {B} _ _ _ _ _ _.
Arguments heap_start {B} _.
Arguments heap_end {B} _.
Arguments heap_used_bytes {B} _.
Arguments free_list {B} _.
Arguments hmem {B} _.
Arguments backing {B} _.

(** [pmm_alloc_frame], [paging_map_page] and [pmm_free_frame] as the heap
    calls them. *)
Class HeapBacking (B : Type) := {
  hb_alloc : M B Z;
  hb_map : Z -> Z -> Z -> M B Z;
  hb_free : Z -> M B unit;
}.

Definition align_up (val align : Z) : Z :=
  Z.land (val ⊞ align ⊟ 1) (notw 64 (align ⊟ 1)).

Section heap_code.
Context {B : Type} `{HeapBacking B}.
Local Abbreviation K := (M (heap B)).

Definition set_hmem (m : gmap Z Z) (st : heap B) : heap B :=
  Heap (heap_start st) (heap_end st) (heap_used_bytes st) (free_list st) m (backing st).
Definition set_heap_end (e : Z) (st : heap B) : heap B :=
  Heap (heap_start st) e (heap_used_bytes st) (free_list st) (hmem st) (backing st).
Definition set_used (n : Z) (st : heap B) : heap B :=
  Heap (heap_start st) (heap_end st) n (free_list st) (hmem st) (backing st).
Definition set_free_list (p : Z) (st : heap B) : heap B :=
  Heap (heap_start st) (heap_end st) (heap_used_bytes st) p (hmem st) (backing st).
Definition set_backing (b : B) (st : heap B) : heap B :=
  Heap (heap_start st) (heap_end st) (heap_used_bytes st) (free_list st) (hmem st) b.

Definition backed {A} (m : M B A) : K A := zoom backing set_backing m.

(** [p->field] and [p->field = v] *)
Definition ld (p field : Z) : K Z := fun st =>
  let a := p ⊞ field in
  if negb (a mod 8 =? 0) then Stop (Unaligned a) []
  else match hmem st !! a with
       | Some v => Done v st []
       | None => Stop (PageFault a) []
       end.
Definition sd (p field v : Z) : K unit := fun st =>
  let a := p ⊞ field in
  if negb (a mod 8 =? 0) then Stop (Unaligned a) []
  else match hmem st !! a with
       | Some _ => Done tt (set_hmem (<[a := v]> (hmem st)) st) []
       | None => Stop (PageFault a) []
       end.

(** One page of [heap_extend]; [Leave] is its [return]. *)
Definition extend_page (pages i : Z) : K (flow Z Z) :=
  if i <? pages then
    frame ← backed hb_alloc;
    if frame =? 0 then mret (Leave (-1))
    else
      st ← get;
      result ← backed (hb_map (heap_end st) frame
        (Z.lor (Z.lor PAGE_PRESENT PAGE_WRITABLE) PAGE_USER));
      if negb (result =? 0) then
        (backed (hb_free frame);; mret (Leave (-1)))
      else
        (* memset of the page at heap_end *)
        modify (fun st => set_hmem (zero_frame (heap_end st) (hmem st)) st);;
        modify (fun st => set_heap_end (heap_end st ⊞ PMM_FRAME_SIZE) st);;
        mret (Next (i + 1))
  else mret (Leave 0).

Definition heap_extend (pages : Z) : K Z := mwhile 64 (extend_page pages) 0.

(** The initial free block spans the entire heap. *)
Definition init_block : K unit :=
  modify (fun st => set_free_list (heap_start st) st);;
  st ← get;
  sd (free_list st) f_size (heap_end st ⊟ heap_start st ⊟ BLOCK_HEADER_SIZE);;
  sd (free_list st) f_magic 0;;
  sd (free_list st) f_next 0.

Definition heap_init : K Z :=
  say (KPrint ("Heap: Initializing..." +:+ NL));;
  modify (fun st => set_heap_end HEAP_START
    (Heap HEAP_START (heap_end st) (heap_used_bytes st) (free_list st) (hmem st) (backing st)));;
  r ← heap_extend 4;
  if negb (r =? 0) then
    (say (KPrint ("Heap: ERROR - Cannot allocate initial pages!" +:+ NL));; mret (-1))
  else
    init_block;;
    say (KPrint ("Heap: Ready (16 KiB initial)" +:+ NL));;
    mret 0.

Definition split_block (block needed : Z) : K unit :=
  s ← ld block f_size;
  if needed ⊞ MIN_BLOCK_SIZE <=? s then
    let new_free := block ⊞ BLOCK_HEADER_SIZE ⊞ needed in
    (s ← ld block f_size;
    sd new_free f_size (s ⊟ needed ⊟ BLOCK_HEADER_SIZE);;
    sd new_free f_magic 0;;
    n ← ld block f_next;
    sd new_free f_next n;;
    sd block f_size needed;;
    sd block f_next new_free)
  else mret tt.

(** What [kmalloc] does with the block it found. *)
Definition take_block (size prev curr : Z) : K Z :=
  split_block curr size;;
  n ← ld curr f_next;
  (if negb (prev =? 0) then sd prev f_next n else modify (set_free_list n));;
  sd curr f_magic HEAP_MAGIC;;
  modify (fun st => set_used (heap_used_bytes st ⊞ (size ⊞ BLOCK_HEADER_SIZE)) st);;
  mret (curr ⊞ BLOCK_HEADER_SIZE).

(** [curr->magic == 0 && curr->size >= size] *)
Definition fits_block (size curr : Z) : K bool :=
  m ← ld curr f_magic;
  if m =? 0 then s ← ld curr f_size; mret (size <=? s) else mret false.

(** The [while] loop of [kmalloc]: [Some p] is its [return], [None] the end
    of the list. *)
Definition search_step (size : Z) (pc : Z * Z) : K (flow (Z * Z) (option Z)) :=
  let '(prev, curr) := pc in
  if curr =? 0 then mret (Leave None)
  else
    ok ← fits_block size curr;
    if ok : bool then
      p ← take_block size prev curr;
      mret (Leave (Some p))
    else
      n ← ld curr f_next;
      mret (Next (curr, n)).

Definition search_free (size : Z) : K (option Z) :=
  st ← get; mwhile 64 (search_step size) (0, free_list st).

(** The new memory becomes a free block at the start of the list. *)
Definition add_region (pages_needed : Z) : K unit :=
  st ← get;
  let new_block := heap_end st ⊟ (pages_needed ⊠ PMM_FRAME_SIZE) in
  sd new_block f_size (pages_needed ⊠ PMM_FRAME_SIZE ⊟ BLOCK_HEADER_SIZE);;
  sd new_block f_magic 0;;
  sd new_block f_next (free_list st);;
  modify (set_free_list new_block).

(** One call of [kmalloc]; [Next size] is the recursive call [kmalloc(size)]. *)
Definition kmalloc_body (size : Z) : K (flow Z Z) :=
  if size =? 0 then mret (Leave 0)
  else
    let size := align_up size 8 in
    r ← search_free size;
    match r with
    | Some p => mret (Leave p)
    | None =>
        let pages_needed :=
          (size ⊞ BLOCK_HEADER_SIZE ⊞ PMM_FRAME_SIZE ⊟ 1) / PMM_FRAME_SIZE in
        e ← heap_extend pages_needed;
        if negb (e =? 0) then mret (Leave 0)
        else (add_region pages_needed;; mret (Next size))
    end.

(** Every recursive call follows an extension, and there are at most 2^20
    frames. *)
Definition kmalloc (size : Z) : K Z := mwhile 32 kmalloc_body size.

Definition kmalloc_aligned (size align : Z) : K Z :=
  raw ← kmalloc (size ⊞ align ⊞ BLOCK_HEADER_SIZE);
  if raw =? 0 then mret 0
  else
    let addr := raw in
    let aligned := align_up addr align in
    if aligned =? addr then mret raw else mret aligned.

(** The loop of [kfree] that finds the insertion point. *)
Definition insert_step (block : Z) (pc : Z * Z) : K (flow (Z * Z) (Z * Z)) :=
  let '(prev, curr) := pc in
  if negb (curr =? 0) && (curr <? block) then
    n ← ld curr f_next;
    mret (Next (curr, n))
  else mret (Leave (prev, curr)).

Definition coalesce_next (block curr : Z) : K unit :=
  if negb (curr =? 0) then
    s ← ld block f_size;
    if block ⊞ BLOCK_HEADER_SIZE ⊞ s =? curr then
      cs ← ld curr f_size;
      sd block f_size (s ⊞ (BLOCK_HEADER_SIZE ⊞ cs));;
      n ← ld curr f_next;
      sd block f_next n
    else mret tt
  else mret tt.

Definition coalesce_prev (prev block : Z) : K unit :=
  if negb (prev =? 0) then
    ps ← ld prev f_size;
    if prev ⊞ BLOCK_HEADER_SIZE ⊞ ps =? block then
      s ← ld block f_size;
      sd prev f_size (ps ⊞ (BLOCK_HEADER_SIZE ⊞ s));;
      n ← ld block f_next;
      sd prev f_next n
    else mret tt
  else mret tt.

(** From the status word to the insertion into the list. *)
Definition free_insert (block : Z) : K (Z * Z) :=
  sd block f_magic 0;;
  s ← ld block f_size;
  modify (fun st => set_used (heap_used_bytes st ⊟ (s ⊞ BLOCK_HEADER_SIZE)) st);;
  st ← get;
  pc ← mwhile 64 (insert_step block) (0, free_list st);
  let '(prev, curr) := pc in
  sd block f_next curr;;
  (if negb (prev =? 0) then sd prev f_next block else modify (set_free_list block));;
  mret pc.

Definition kfree (ptr : Z) : K unit :=
  if ptr =? 0 then mret tt
  else
    let block := ptr ⊟ BLOCK_HEADER_SIZE in
    m ← ld block f_magic;
    if negb (m =? HEAP_MAGIC) then mret tt
    else
      pc ← free_insert block;
      let '(prev, curr) := pc in
      coalesce_next block curr;;
      coalesce_prev prev block.

Definition heap_used (st : heap B) : Z := heap_used_bytes st.
Definition heap_size (st : heap B) : Z := heap_end st ⊟ heap_start st.
End heap_code.

(** The backing the kernel has: pmm.c and paging.c. *)
#[export] Instance paging_backing {FA} `{FrameAlloc FA} (L : layout) : HeapBacking (pg_state FA) := {
  hb_alloc := alloc_frame;
  hb_map := paging_map_page L;
  hb_free := free_frame;
}.
