(* ===== verification/HeapInv.v ===== *)
(** * The kernel heap: blocks and the free list

    The invariant of the heap, in three parts that are proved separately: the
    geometry of the blocks (a finite map from block addresses to size and
    status), the headers they have in memory, and the chain of [next]
    pointers, a list segment. *)
From S2P Require Import Prelude Effects PmmInterface PagingInterface Paging Heap.

(** ** Geometry *)

(** Address of the header |-> (payload size, in use). *)
Abbreviation blocks := (gmap Z (Z * bool)).

(** Where a block lies; [HEAP_LIMIT] is the end of the gigabyte that shares
    the kernel's page directory. *)
Definition HEAP_LIMIT : Z := 0xFFFFFFFFC0000000.
Definition in_heap (e a s : Z) : Prop :=
  a mod 8 = 0 /\ s mod 8 = 0 /\ 8 <= s /\ HEAP_START <= a /\ a + 16 + s <= e.

Record geom (bs : blocks) (e : Z) : Prop := {
  ge_end : HEAP_START <= e <= HEAP_LIMIT /\ e mod 4096 = 0;
  ge_in : forall a s u, bs !! a = Some (s, u) -> in_heap e a s;
  ge_disj : forall a s u b t v, bs !! a = Some (s, u) -> bs !! b = Some (t, v) ->
    a < b -> a + 16 + s <= b;
}.

Lemma geom_apart bs e a s u b t v :
  geom bs e -> bs !! a = Some (s, u) -> bs !! b = Some (t, v) -> b <> a ->
  (b < a /\ b + 16 + t <= a) \/ (a < b /\ a + 16 + s <= b).
Proof.
  intros Hg Ha Hb Hne. pose proof (ge_disj _ _ Hg _ _ _ _ _ _ Ha Hb).
  pose proof (ge_disj _ _ Hg _ _ _ _ _ _ Hb Ha). lia.
Qed.

(** Case analysis on two blocks of an updated map: the facts about the
    updated block are supplied by [tac]. *)
Ltac two_blocks :=
  intros ? ? ? ? ? ?; rewrite ?lookup_insert, ?lookup_delete;
  repeat case_decide; intros; simplify_eq; try lia.

(** Changing the status, splitting, merging and adding blocks. *)
Lemma geom_flag bs e a s u u' :
  geom bs e -> bs !! a = Some (s, u) -> geom (<[a := (s, u')]> bs) e.
Proof.
  intros [He Hin Hd] Ha. split; [done| |].
  - intros b t v. rewrite lookup_insert. case_decide; [|apply Hin].
    intros [= <- <-]. subst. by eapply Hin.
  - two_blocks; eapply Hd; eauto.
Qed.

Lemma geom_split bs e a s u n u1 u2 :
  geom bs e -> bs !! a = Some (s, u) -> n mod 8 = 0 -> 8 <= n -> n + 32 <= s ->
  geom (<[a := (n, u1)]> (<[a + 16 + n := (s - n - 16, u2)]> bs)) e.
Proof.
  intros Hg Ha Hn8 Hn Hs. pose proof (ge_in _ _ Hg _ _ _ Ha) as Hia.
  split; [apply Hg| |].
  - intros b t v. rewrite !lookup_insert. unfold in_heap in *.
    repeat case_decide; intros; simplify_eq; [lia|divlia|by eapply (ge_in _ _ Hg)].
  - assert (forall b t v, bs !! b = Some (t, v) -> b <> a ->
      (b < a /\ b + 16 + t <= a) \/ (a < b /\ a + 16 + s <= b)) as Hother
      by (intros; by eapply geom_apart).
    two_blocks;
      try match goal with
      | H : bs !! ?b = Some (?t, ?v) |- _ => destruct (Hother b t v H); [congruence|lia..]
      end.
    by eapply (ge_disj _ _ Hg).
Qed.

Lemma geom_merge bs e a s u b t v u' :
  geom bs e -> bs !! a = Some (s, u) -> bs !! b = Some (t, v) -> a + 16 + s = b ->
  geom (<[a := (s + 16 + t, u')]> (delete b bs)) e.
Proof.
  intros Hg Ha Hb Hadj. pose proof (ge_in _ _ Hg _ _ _ Ha) as Hia.
  pose proof (ge_in _ _ Hg _ _ _ Hb) as Hib. split; [apply Hg| |].
  - intros c w x. rewrite lookup_insert, lookup_delete. unfold in_heap in *.
    repeat case_decide; intros; simplify_eq; [divlia|by eapply (ge_in _ _ Hg)].
  - assert (forall c w x, bs !! c = Some (w, x) -> c <> a -> c <> b ->
      (c < a /\ c + 16 + w <= a) \/ (a < c /\ b + 16 + t <= c)) as Hother.
    { intros c w x Hc Hca Hcb. pose proof (geom_apart _ _ _ _ _ _ _ _ Hg Ha Hc Hca).
      pose proof (geom_apart _ _ _ _ _ _ _ _ Hg Hb Hc Hcb). unfold in_heap in *. lia. }
    two_blocks;
      try match goal with
      | H : bs !! ?c = Some (?w, ?x) |- _ =>
          destruct (Hother c w x H); [congruence|congruence|lia..]
      end.
    by eapply (ge_disj _ _ Hg).
Qed.

Lemma geom_extend bs e k u :
  geom bs e -> 0 < k -> e + k * 4096 <= HEAP_LIMIT ->
  geom (<[e := (k * 4096 - 16, u)]> bs) (e + k * 4096).
Proof.
  intros Hg Hk Hlim. destruct (ge_end _ _ Hg) as [? ?]. split.
  - split; [lia|divlia].
  - intros b t v. rewrite lookup_insert. unfold in_heap.
    case_decide; intros; simplify_eq; [divlia|].
    pose proof (ge_in _ _ Hg b t v) as Hi. unfold in_heap in Hi. naive_solver lia.
  - two_blocks;
      try match goal with
      | H : bs !! ?c = Some (?w, ?x) |- _ =>
          pose proof (ge_in _ _ Hg c w x H); unfold in_heap in *; lia
      end.
    by eapply (ge_disj _ _ Hg).
Qed.

(** ** Headers *)

Definition status_word (u : bool) : Z := if u then HEAP_MAGIC else 0.
Definition headers (m : gmap Z Z) (bs : blocks) : Prop :=
  forall a s u, bs !! a = Some (s, u) -> m !! a = Some s /\ m !! (a + 8) = Some (status_word u).

(** The words of the heap are mapped. *)
Definition mapped (m : gmap Z Z) (e : Z) : Prop :=
  forall x, HEAP_START <= x < e -> x mod 8 = 0 -> is_Some (m !! x).

Lemma mapped_insert m e x v : mapped m e -> mapped (<[x := v]> m) e.
Proof. intros Hm y Hy Hy8. rewrite lookup_insert. case_decide; [eauto|by apply Hm]. Qed.

(** A write to a word that is no header. *)
Definition off_headers (bs : blocks) (x : Z) : Prop :=
  forall a s u, bs !! a = Some (s, u) -> x <> a /\ x <> a + 8.

Lemma headers_write m bs x v : headers m bs -> off_headers bs x -> headers (<[x := v]> m) bs.
Proof.
  intros Hh Hx a s u Ha. destruct (Hh _ _ _ Ha), (Hx _ _ _ Ha).
  by rewrite !lookup_insert_ne by done.
Qed.

(** The words of a block, its header included. *)
Definition in_block (a s x : Z) : Prop := a <= x < a + 16 + s.

Lemma payload_off_headers bs e a s u x :
  geom bs e -> bs !! a = Some (s, u) -> a + 16 <= x < a + 16 + s -> off_headers bs x.
Proof.
  intros Hg Ha Hx b t v Hb. destruct (decide (b = a)) as [->|Hne]; [lia|].
  pose proof (geom_apart _ _ _ _ _ _ _ _ Hg Ha Hb Hne).
  pose proof (ge_in _ _ Hg _ _ _ Hb). unfold in_heap in *. lia.
Qed.

(** ** The free list *)

(** The [next] pointers lead from [p] through [l] to [q]. *)
Fixpoint seg (m : gmap Z Z) (p : Z) (l : list Z) (q : Z) : Prop :=
  match l with
  | [] => p = q
  | a :: l => p = a /\ exists r, m !! (a + 16) = Some r /\ seg m r l q
  end.

Lemma seg_app m p l1 l2 q :
  seg m p (l1 ++ l2) q <-> exists r, seg m p l1 r /\ seg m r l2 q.
Proof.
  revert p. induction l1 as [|a l1 IH]; intros p; simpl.
  - split; [eauto|]. by intros (r & -> & ?).
  - split.
    + intros (-> & r & Hr & Hs). apply IH in Hs as (r' & ? & ?). eauto 10.
    + intros (r & (-> & r' & Hr & Hs) & Hl2). split; [done|]. exists r'. split; [done|].
      apply IH. eauto.
Qed.

Lemma seg_agree m m' p l q :
  (forall a, a ∈ l -> m' !! (a + 16) = m !! (a + 16)) -> seg m p l q -> seg m' p l q.
Proof.
  revert p. induction l as [|a l IH]; intros p Hm; simpl; [done|].
  intros (-> & r & Hr & Hs). split; [done|]. exists r. rewrite Hm by set_solver.
  split; [done|]. apply IH; [|done]. intros b Hb. apply Hm. set_solver.
Qed.

Lemma seg_write m p l q x v :
  (forall a, a ∈ l -> x <> a + 16) -> seg m p l q -> seg (<[x := v]> m) p l q.
Proof. intros Hx. apply seg_agree. intros a Ha. by rewrite lookup_insert_ne by auto. Qed.

(** The predecessor the code tracks: the last block visited, 0 before the
    first. *)
Definition pred (l : list Z) : Z := default 0 (last l).

Lemma pred_snoc l a : pred (l ++ [a]) = a.
Proof. unfold pred. by rewrite last_snoc. Qed.

(** Redirecting what follows [l]: the predecessor's [next] field, or the head
    of the list. *)
Definition redirect (m : gmap Z Z) (p : Z) (l : list Z) (v : Z) : gmap Z Z * Z :=
  if pred l =? 0 then (m, v) else (<[pred l + 16 := v]> m, p).

Lemma redirect_seg m p l q v :
  NoDup l -> 0 ∉ l -> seg m p l q ->
  seg (redirect m p l v).1 (redirect m p l v).2 l v.
Proof.
  intros Hnd H0 Hs. unfold redirect.
  destruct l as [|b l _] using rev_ind; [done|]. rewrite pred_snoc.
  assert (b <> 0) as Hb by (intros ->; apply H0; set_solver).
  rewrite (proj2 (Z.eqb_neq _ _) Hb). simpl.
  apply seg_app in Hs as (r & Hl & -> & r' & Hr' & _). apply seg_app. exists b. split.
  - apply seg_write; [|done]. intros a Ha Heq. assert (a = b) as -> by lia.
    apply NoDup_app in Hnd as (_ & Hd & _). apply (Hd b Ha). set_solver.
  - simpl. split; [done|]. exists v. rewrite lookup_insert_eq. done.
Qed.

(** ** The invariant *)
Record heap_wf {B} (st : heap B) (bs : blocks) (fl : list Z) : Prop := {
  hw_start : heap_start st = HEAP_START;
  hw_geom : geom bs (heap_end st);
  hw_headers : headers (hmem st) bs;
  hw_mapped : mapped (hmem st) (heap_end st);
  hw_seg : seg (hmem st) (free_list st) fl 0;
  hw_nodup : NoDup fl;
  hw_free : forall a, a ∈ fl <-> exists s, bs !! a = Some (s, false);
}.

(** The abstract view: the blocks in use. *)
Definition live (bs : blocks) : gmap Z Z :=
  omap (fun x : Z * bool => if x.2 then Some x.1 else None) bs.

Lemma live_spec bs a s : live bs !! a = Some s <-> bs !! a = Some (s, true).
Proof.
  unfold live. rewrite lookup_omap. destruct (bs !! a) as [[t [|]]|]; simpl; naive_solver.
Qed.

(** The payload words of the blocks in use. *)
Definition payload (bs : blocks) (x : Z) : Prop :=
  exists a s, live bs !! a = Some s /\ a + 16 <= x < a + 16 + s.

(** The memory that is not the heap's: the kernel image, the boot stack. *)
Definition outside (x : Z) : Prop := ~ HEAP_START <= x < HEAP_LIMIT.
Definition held (bs : blocks) (x : Z) : Prop := outside x \/ payload bs x.

(** Nothing the blocks in use hold has changed, nor anything outside the heap. *)
Definition preserved (bs : blocks) (m m' : gmap Z Z) : Prop :=
  forall x, held bs x -> m' !! x = m !! x.

Lemma preserved_trans bs1 bs2 m1 m2 m3 :
  (forall x, payload bs1 x -> payload bs2 x) ->
  preserved bs1 m1 m2 -> preserved bs2 m2 m3 -> preserved bs1 m1 m3.
Proof.
  intros Hsub H12 H23 x Hx. rewrite H23; [by apply H12|].
  destruct Hx as [?|?]; [by left|right; auto].
Qed.

Lemma preserved_live bs bs' m m' : live bs' = live bs -> preserved bs m m' -> preserved bs' m m'.
Proof.
  intros Hl Hp x [?|(a & s & Ha & Hx)]; apply Hp; [by left|right]. exists a, s. by rewrite <-Hl.
Qed.

(** A write inside a free block. *)
Lemma preserved_write bs e m a s x v :
  geom bs e -> bs !! a = Some (s, false) -> in_block a s x -> preserved bs m (<[x := v]> m).
Proof.
  intros Hg Ha Hx y Hy. rewrite lookup_insert_ne; [done|]. intros ->. unfold in_block in Hx.
  destruct Hy as [Hy|(b & t & Hb & Hy)].
  { apply Hy. destruct (ge_end _ _ Hg), (ge_in _ _ Hg _ _ _ Ha) as (? & ? & ? & ? & ?). lia. }
  apply live_spec in Hb.
  assert (b <> a) as Hne by congruence.
  pose proof (geom_apart _ _ _ _ _ _ _ _ Hg Ha Hb Hne). lia.
Qed.
