(* ===== verification/HeapProofs.v ===== *)
(** * The kernel heap: proofs about the operations

    Loads and stores of headers, the search of the free list, splitting,
    unlinking and growing: what each does to the invariant of HeapInv.v. *)
From S2P Require Import Prelude Effects PmmInterface PagingInterface Paging Heap HeapInv.

Section heap_proofs.
Context {B : Type} `{HB : HeapBacking B}.
Implicit Types (st : heap B) (bs : blocks) (fl : list Z).

(** ** Loads and stores *)
Lemma field_addr a f : 0 <= a -> 0 <= f -> a + f < 2 ^ 64 -> a ⊞ f = a + f.
Proof. intros. apply wrap_small. unfold fits. lia. Qed.

Lemma ld_ok st p f v :
  0 <= p -> 0 <= f -> p + f < 2 ^ 64 -> (p + f) mod 8 = 0 ->
  hmem st !! (p + f) = Some v -> ld p f st = Done v st [].
Proof.
  intros Hp Hf Hlt H8 Hv. unfold ld. rewrite field_addr by done.
  rewrite (proj2 (Z.eqb_eq _ _) H8). simpl. by rewrite Hv.
Qed.

Lemma sd_ok st p f v :
  0 <= p -> 0 <= f -> p + f < 2 ^ 64 -> (p + f) mod 8 = 0 ->
  is_Some (hmem st !! (p + f)) ->
  sd p f v st = Done tt (set_hmem (<[p + f := v]> (hmem st)) st) [].
Proof.
  intros Hp Hf Hlt H8 [w Hw]. unfold sd. rewrite field_addr by done.
  rewrite (proj2 (Z.eqb_eq _ _) H8). simpl. by rewrite Hw.
Qed.

(** The bounds that make the pointer arithmetic of a block exact. *)
Lemma block_bounds bs e a s u :
  geom bs e -> bs !! a = Some (s, u) ->
  0 < a /\ a mod 8 = 0 /\ s mod 8 = 0 /\ 8 <= s /\ HEAP_START <= a /\ a + 16 + s <= e /\
  a + 16 + s < 2 ^ 64.
Proof.
  intros Hg Ha. destruct (ge_end _ _ Hg) as [[_ He] _].
  destruct (ge_in _ _ Hg _ _ _ Ha) as (? & ? & ? & ? & ?).
  unfold HEAP_START, HEAP_LIMIT in *. split_and!; lia.
Qed.

Lemma sd_block st bs a s u f v :
  geom bs (heap_end st) -> mapped (hmem st) (heap_end st) -> bs !! a = Some (s, u) ->
  0 <= f < 16 + s -> f mod 8 = 0 ->
  sd a f v st = Done tt (set_hmem (<[a + f := v]> (hmem st)) st) [].
Proof.
  intros Hg Hm Ha Hf Hf8. pose proof (block_bounds _ _ _ _ _ Hg Ha) as Hb.
  apply sd_ok; [lia..|divlia|]. apply Hm; [lia|divlia].
Qed.

Lemma ld_header st bs a s u :
  geom bs (heap_end st) -> headers (hmem st) bs -> bs !! a = Some (s, u) ->
  ld a f_size st = Done s st [] /\ ld a f_magic st = Done (status_word u) st [].
Proof.
  intros Hg Hh Ha. pose proof (block_bounds _ _ _ _ _ Hg Ha) as Hb.
  destruct (Hh _ _ _ Ha) as [Hs Hm]. unfold f_size, f_magic.
  split; apply ld_ok; try lia; try divlia; [by rewrite Z.add_0_r|done].
Qed.

Lemma ld_next st bs a s u r :
  geom bs (heap_end st) -> bs !! a = Some (s, u) -> hmem st !! (a + 16) = Some r ->
  ld a f_next st = Done r st [].
Proof.
  intros Hg Ha Hr. pose proof (block_bounds _ _ _ _ _ Hg Ha) as Hb.
  apply ld_ok; unfold f_next; try lia; [divlia|done].
Qed.

Lemma fl_block st bs fl a :
  heap_wf st bs fl -> a ∈ fl -> exists s, bs !! a = Some (s, false) /\ a <> 0.
Proof.
  intros Hw Ha. apply (hw_free _ _ _ Hw) in Ha as [s Hs]. exists s. split; [done|].
  pose proof (block_bounds _ _ _ _ _ (hw_geom _ _ _ Hw) Hs). lia.
Qed.

(** The words of two different blocks are different. *)
Lemma words_apart bs e a s u b t v f g :
  geom bs e -> bs !! a = Some (s, u) -> bs !! b = Some (t, v) -> b <> a ->
  0 <= f < 16 + s -> 0 <= g < 16 + t -> a + f <> b + g.
Proof.
  intros Hg Ha Hb Hne Hf Hgg. pose proof (geom_apart _ _ _ _ _ _ _ _ Hg Ha Hb Hne). lia.
Qed.

(** ** [split_block] *)

Definition split_blocks (a s n : Z) (bs : blocks) : blocks :=
  <[a := (n, false)]> (<[a + 16 + n := (s - n - 16, false)]> bs).

Lemma split_live bs e a s n :
  geom bs e -> bs !! a = Some (s, false) -> 8 <= n -> n + 32 <= s ->
  live (split_blocks a s n bs) = live bs.
Proof.
  intros Hg Ha Hn Hs. apply map_eq. intros b. apply option_eq. intros t.
  rewrite !live_spec. unfold split_blocks. rewrite !lookup_insert.
  repeat case_decide; subst; [naive_solver| |done].
  split; [done|]. intros Hb.
  pose proof (geom_apart _ _ _ _ _ _ _ _ Hg Ha Hb ltac:(lia)). lia.
Qed.

Lemma split_wf st bs fl1 fl2 a s n r :
  heap_wf st bs (fl1 ++ a :: fl2) -> bs !! a = Some (s, false) ->
  n mod 8 = 0 -> 8 <= n -> n + 32 <= s -> hmem st !! (a + 16) = Some r ->
  let nf := a + 16 + n in
  let m := <[a + 16 := nf]> (<[a := n]> (<[nf + 16 := r]> (<[nf + 8 := 0]>
             (<[nf := s - n - 16]> (hmem st))))) in
  heap_wf (set_hmem m st) (split_blocks a s n bs) (fl1 ++ a :: nf :: fl2).
Proof.
  intros Hw Ha Hn8 Hn Hs Hr nf m. pose proof (hw_geom _ _ _ Hw) as Hg.
  assert (forall b t v, bs !! b = Some (t, v) -> b <> a ->
    8 <= t /\ ((b < a /\ b + 16 + t <= a) \/ (a < b /\ a + 16 + s <= b))) as Hother.
  { intros b t v Hb Hne. pose proof (block_bounds _ _ _ _ _ Hg Hb).
    pose proof (geom_apart _ _ _ _ _ _ _ _ Hg Ha Hb Hne). lia. }
  pose proof (hw_nodup _ _ _ Hw) as Hnd.
  assert (forall b, b ∈ fl1 ++ fl2 -> b <> a /\ m !! (b + 16) = hmem st !! (b + 16)) as Hfl.
  { intros b Hb. assert (b <> a) as Hne.
    { intros ->. apply NoDup_app in Hnd as (_ & Hd & Hnd2). apply NoDup_cons in Hnd2 as [? _].
      apply elem_of_app in Hb as [Hb|Hb]; [|done]. apply (Hd a Hb). set_solver. }
    split; [done|]. destruct (fl_block _ _ _ b Hw) as (t & Hbt & _); [set_solver|].
    destruct (Hother b t false Hbt Hne) as [? ?]. unfold m, nf.
    rewrite !lookup_insert_ne by lia. done. }
  split; simpl.
  - apply Hw.
  - by apply (geom_split bs _ a s false).
  - intros b t v. unfold split_blocks. rewrite !lookup_insert.
    destruct (hw_headers _ _ _ Hw _ _ _ Ha) as [_ Hma]. unfold m, nf.
    destruct (decide (a = b)) as [<-|Hne]; [|destruct (decide (a + 16 + n = b)) as [<-|Hne2]].
    + intros [= <- <-]. split.
      * by rewrite lookup_insert_ne, lookup_insert_eq by lia.
      * by rewrite !lookup_insert_ne by lia.
    + intros [= <- <-]. split.
      * rewrite !(lookup_insert_ne _ _ (a + 16 + n)) by lia. by rewrite lookup_insert_eq.
      * rewrite !(lookup_insert_ne _ _ (a + 16 + n + 8)) by lia. by rewrite lookup_insert_eq.
    + intros Hb. destruct (Hother b t v Hb ltac:(congruence)) as [? ?].
      rewrite !lookup_insert_ne by lia. by apply (hw_headers _ _ _ Hw).
  - repeat apply mapped_insert. apply Hw.
  - pose proof (hw_seg _ _ _ Hw) as Hseg. apply seg_app in Hseg as (p & H1 & -> & r' & Hr' & H2).
    simplify_eq. apply seg_app. exists a. split.
    + eapply seg_agree; [|exact H1]. intros b Hb. apply Hfl. set_solver.
    + simpl. split; [done|]. exists nf. unfold m at 1. rewrite lookup_insert_eq. split; [done|].
      split; [done|]. exists r. split.
      * unfold m, nf. rewrite !lookup_insert_ne by lia. by rewrite lookup_insert_eq.
      * eapply seg_agree; [|exact H2]. intros b Hb. apply Hfl. set_solver.
  - assert (~ nf ∈ fl1 ++ a :: fl2) as Hnf.
    { intros Hin. destruct (fl_block _ _ _ _ Hw Hin) as (t & Hbt & _).
      destruct (Hother nf t false Hbt); unfold nf in *; lia. }
    replace (fl1 ++ a :: nf :: fl2) with ((fl1 ++ [a]) ++ nf :: fl2) by (by rewrite <-app_assoc).
    rewrite <-Permutation_middle, <-app_assoc. simpl. by apply NoDup_cons.
  - intros b. unfold split_blocks. rewrite !lookup_insert.
    pose proof (hw_free _ _ _ Hw b) as Hfree. rewrite elem_of_app, !elem_of_cons in *.
    destruct (decide (a = b)) as [<-|Hne]; [|destruct (decide (a + 16 + n = b)) as [<-|Hne2]].
    + split; eauto.
    + split; eauto.
    + rewrite <-Hfree. unfold nf. intuition congruence.
Qed.

(** What stays of the rest of the state. *)
Definition same_heap st st' : Prop :=
  heap_start st' = heap_start st /\ heap_end st' = heap_end st /\ backing st' = backing st.

Lemma split_preserved bs e a s n m v1 v2 v3 v4 v5 :
  geom bs e -> bs !! a = Some (s, false) -> 8 <= n -> n + 32 <= s ->
  preserved bs m (<[a + 16 := v1]> (<[a := v2]> (<[a + 16 + n + 16 := v3]>
    (<[a + 16 + n + 8 := v4]> (<[a + 16 + n := v5]> m))))).
Proof.
  intros Hg Ha Hn Hs.
  do 4 (eapply preserved_trans; [done| |eapply (preserved_write _ _ _ a); [done..|unfold in_block; lia]]).
  eapply preserved_write; [done..|unfold in_block; lia].
Qed.

Lemma split_block_ok st bs fl1 a fl2 s n :
  heap_wf st bs (fl1 ++ a :: fl2) -> bs !! a = Some (s, false) ->
  n mod 8 = 0 -> 8 <= n <= s ->
  exists st' bs' fl2' s',
    split_block a n st = Done tt st' [] /\
    heap_wf st' bs' (fl1 ++ a :: fl2') /\ bs' !! a = Some (s', false) /\
    (n <= s' < n + 32) /\
    live bs' = live bs /\ preserved bs (hmem st) (hmem st') /\
    same_heap st st' /\ free_list st' = free_list st /\
    heap_used_bytes st' = heap_used_bytes st.
Proof.
  intros Hw Ha Hn8 Hn. pose proof (hw_geom _ _ _ Hw) as Hg.
  pose proof (block_bounds _ _ _ _ _ Hg Ha) as Hb. unfold split_block.
  destruct (ld_header _ _ _ _ _ Hg (hw_headers _ _ _ Hw) Ha) as [Hls _].
  erewrite bind_step by exact Hls.
  assert (n ⊞ MIN_BLOCK_SIZE = n + 32) as ->.
  { apply wrap_small. unfold fits, MIN_BLOCK_SIZE, BLOCK_HEADER_SIZE, HEAP_START in *. lia. }
  destruct (Z.leb_spec (n + 32) s) as [Hle|Hgt].
  2:{ exists st, bs, fl2, s. split_and!; try done; lia. }
  assert (a ⊞ BLOCK_HEADER_SIZE ⊞ n = a + 16 + n) as Hnf.
  { unfold BLOCK_HEADER_SIZE. rewrite (field_addr a 16), field_addr by lia. done. }
  assert (s ⊟ n ⊟ BLOCK_HEADER_SIZE = s - n - 16) as Hsz.
  { unfold BLOCK_HEADER_SIZE. rewrite (wrap_small 64 (s - n)) by (unfold fits; lia).
    apply wrap_small. unfold fits. lia. }
  cbv zeta. rewrite Hnf. erewrite bind_step by exact Hls. rewrite Hsz.
  pose proof (hw_seg _ _ _ Hw) as Hseg. apply seg_app in Hseg as (p & _ & -> & r & Hr & _).
  set (nf := a + 16 + n) in *.
  assert (forall m x f v, (x = a \/ x = nf) -> 0 <= f < 24 -> f mod 8 = 0 ->
    mapped m (heap_end st) ->
    sd x f v (set_hmem m st) =
      Done tt (set_hmem (<[x + f := v]> m) st) [] /\ mapped (<[x + f := v]> m) (heap_end st)) as Hsd.
  { intros m x f v Hx Hf Hf8 Hm. split; [|by apply mapped_insert].
    rewrite sd_ok; [done|destruct Hx; unfold nf in *; lia..|unfold nf in *; divlia|].
    apply Hm; [destruct Hx; unfold nf in *; lia|unfold nf in *; divlia]. }
  pose proof (hw_mapped _ _ _ Hw) as Hm0.
  assert (st = set_hmem (hmem st) st) as Hst by by destruct st.
  destruct (Hsd (hmem st) nf f_size (s - n - 16)) as [E1 Hm1]; [auto|done|done|done|].
  rewrite <-Hst in E1. erewrite bind_step by exact E1.
  destruct (Hsd _ nf f_magic 0 ltac:(auto) ltac:(done) ltac:(done) Hm1) as [E2 Hm2].
  erewrite bind_step by exact E2.
  clear Hst. match type of E2 with _ = Done _ ?s' _ => set (st2 := s') in * end.
  assert (hmem st2 !! (a + 16) = Some r) as Hr2.
  { unfold st2. cbn [hmem set_hmem]. unfold f_magic, f_size, nf. by rewrite !lookup_insert_ne by lia. }
  erewrite bind_step by exact (ld_next st2 bs a s false r Hg Ha Hr2).
  destruct (Hsd _ nf f_next r ltac:(auto) ltac:(done) ltac:(done) Hm2) as [E3 Hm3].
  erewrite bind_step by exact E3.
  destruct (Hsd _ a f_size n ltac:(auto) ltac:(done) ltac:(done) Hm3) as [E4 Hm4].
  erewrite bind_step by exact E4.
  destruct (Hsd _ a f_next nf ltac:(auto) ltac:(done) ltac:(done) Hm4) as [E5 _].
  rewrite E5. unfold f_size, f_magic, f_next. rewrite !Z.add_0_r.
  eexists _, _, (nf :: fl2), n. split; [done|].
  split; [apply (split_wf st bs fl1 fl2 a s n r); done || lia|].
  split; [unfold split_blocks; by rewrite lookup_insert_eq|].
  split_and!; try done; try lia.
  - eapply split_live; done || lia.
  - eapply split_preserved; done || lia.
Qed.

(** ** Unlinking a block *)

(** The code's [if (prev) prev->next = v; else free_list = v;]. *)
Definition redirected l v st : heap B :=
  let '(m, p) := redirect (hmem st) (free_list st) l v in set_free_list p (set_hmem m st).

Lemma redirected_fields l v st :
  heap_start (redirected l v st) = heap_start st /\
  heap_end (redirected l v st) = heap_end st /\
  backing (redirected l v st) = backing st /\
  heap_used_bytes (redirected l v st) = heap_used_bytes st.
Proof. unfold redirected, redirect. by destruct (pred l =? 0). Qed.

Lemma pred_in l : pred l <> 0 -> pred l ∈ l.
Proof.
  destruct l as [|b l _] using rev_ind; [done|]. rewrite pred_snoc. set_solver.
Qed.

Lemma redirected_other l v st x :
  x <> pred l + 16 -> hmem (redirected l v st) !! x = hmem st !! x.
Proof.
  intros Hx. unfold redirected, redirect. destruct (pred l =? 0); [done|].
  simpl. by rewrite lookup_insert_ne by done.
Qed.

Lemma redirect_run l v st bs fl :
  geom bs (heap_end st) -> mapped (hmem st) (heap_end st) ->
  (forall a, a ∈ l -> exists s u, bs !! a = Some (s, u)) ->
  (if negb (pred l =? 0) then sd (pred l) f_next v else modify (set_free_list v)) st =
    Done tt (redirected l v st) [].
Proof.
  intros Hg Hm Hl. unfold redirected, redirect. destruct (Z.eqb_spec (pred l) 0) as [H0|H0]; simpl.
  - by destruct st.
  - destruct (Hl _ (pred_in _ H0)) as (s & u & Hs).
    pose proof (block_bounds _ _ _ _ _ Hg Hs).
    rewrite (sd_block st bs (pred l) s u) by (done || unfold f_next; lia). by destruct st.
Qed.

(** The free list may be cut open at any point without touching a header. *)
Section redirecting.
Context (st : heap B) (bs : blocks) (l r : list Z) (q v : Z).
Context (Hg : geom bs (heap_end st)).
Context (Hfree : forall a, a ∈ l ++ r -> exists s, bs !! a = Some (s, false)).
Context (Hnd : NoDup (l ++ r)) (Hl : seg (hmem st) (free_list st) l q).

Lemma redirect_zero : 0 ∉ l ++ r.
Proof.
  intros H0. destruct (Hfree 0 H0) as [s Hs].
  pose proof (block_bounds _ _ _ _ _ Hg Hs). lia.
Qed.

Lemma redirected_seg : seg (hmem (redirected l v st)) (free_list (redirected l v st)) l v.
Proof.
  pose proof redirect_zero as H0. rewrite not_elem_of_app in H0. destruct H0 as [H0 _].
  apply NoDup_app in Hnd as (Hndl & _ & _).
  pose proof (redirect_seg _ _ _ _ v Hndl H0 Hl) as Hs.
  unfold redirected. by destruct (redirect _ _ _ _).
Qed.

Lemma redirected_rest p z : seg (hmem st) p r z -> seg (hmem (redirected l v st)) p r z.
Proof.
  apply seg_agree. intros a Ha. apply redirected_other. intros Heq.
  assert (pred l = a) as Hp by lia. apply NoDup_app in Hnd as (_ & Hd & _).
  destruct (decide (pred l = 0)) as [H0|H0].
  - apply redirect_zero. rewrite Hp in H0. rewrite H0 in Ha. apply elem_of_app. by right.
  - apply (Hd a); [|done]. rewrite <-Hp. by apply pred_in.
Qed.

Lemma redirected_headers : headers (hmem st) bs -> headers (hmem (redirected l v st)) bs.
Proof.
  intros Hh. unfold redirected, redirect. destruct (Z.eqb_spec (pred l) 0) as [H0|H0]; [done|].
  simpl. apply headers_write; [done|].
  destruct (Hfree (pred l)) as [s Hs]; [apply elem_of_app; left; by apply pred_in|].
  pose proof (block_bounds _ _ _ _ _ Hg Hs).
  eapply payload_off_headers; [done..|]. lia.
Qed.

Lemma redirected_mapped : mapped (hmem st) (heap_end st) ->
  mapped (hmem (redirected l v st)) (heap_end st).
Proof.
  intros Hm. unfold redirected, redirect. destruct (pred l =? 0); [done|].
  by apply mapped_insert.
Qed.

Lemma redirected_preserved : preserved bs (hmem st) (hmem (redirected l v st)).
Proof.
  unfold redirected, redirect. destruct (Z.eqb_spec (pred l) 0) as [H0|H0]; [done|].
  destruct (Hfree (pred l)) as [s Hs]; [apply elem_of_app; left; by apply pred_in|].
  pose proof (block_bounds _ _ _ _ _ Hg Hs).
  eapply preserved_write; [done..|unfold in_block; lia].
Qed.
End redirecting.

Lemma wf_free_blocks st bs fl a :
  heap_wf st bs fl -> a ∈ fl -> exists s, bs !! a = Some (s, false).
Proof. intros Hw. apply (hw_free _ _ _ Hw). Qed.

Lemma live_flag bs a s : live (<[a := (s, true)]> bs) = <[a := s]> (live bs).
Proof.
  apply map_eq. intros b. apply option_eq. intros t.
  rewrite live_spec, !lookup_insert. case_decide; [naive_solver|]. by rewrite live_spec.
Qed.

Lemma unlink_wf st bs fl1 a fl2 s q :
  heap_wf st bs (fl1 ++ a :: fl2) -> bs !! a = Some (s, false) ->
  hmem st !! (a + 16) = Some q ->
  let st1 := redirected fl1 q st in
  let st2 := set_hmem (<[a + 8 := HEAP_MAGIC]> (hmem st1)) st1 in
  heap_wf st2 (<[a := (s, true)]> bs) (fl1 ++ fl2) /\
  preserved bs (hmem st) (hmem st2).
Proof.
  intros Hw Ha Hq st1 st2. pose proof (hw_geom _ _ _ Hw) as Hg.
  destruct (redirected_fields fl1 q st) as (F1 & F2 & F3 & F4). fold st1 in F1, F2, F3, F4.
  pose proof (hw_nodup _ _ _ Hw) as Hnd.
  assert (forall b, b ∈ fl1 ++ (a :: fl2) -> exists t, bs !! b = Some (t, false)) as Hfree
    by (intros b; apply (hw_free _ _ _ Hw)).
  pose proof (hw_seg _ _ _ Hw) as Hseg. apply seg_app in Hseg as (r & H1 & -> & q' & Hq' & H2).
  simplify_eq. pose proof (block_bounds _ _ _ _ _ Hg Ha) as Hb.
  assert (NoDup (fl1 ++ fl2) /\ ~ a ∈ fl1 ++ fl2) as [Hnd' Hna].
  { rewrite <-Permutation_middle in Hnd. by apply NoDup_cons in Hnd as [? ?]. }
  assert (forall b, b ∈ fl1 ++ fl2 -> a + 8 <> b + 16) as Hnext.
  { intros b Hbin. destruct (Hfree b) as [t Ht]; [set_solver|].
    pose proof (block_bounds _ _ _ _ _ Hg Ht).
    apply (words_apart bs (heap_end st) a s false b t false); try done; try lia. by intros ->. }
  pose proof (redirected_headers st bs fl1 (a :: fl2) q Hg Hfree (hw_headers _ _ _ Hw)) as Hh1.
  fold st1 in Hh1. split; [split; simpl|].
  - rewrite F1. apply Hw.
  - rewrite F2. by apply (geom_flag bs _ a s false).
  - intros b t v. rewrite lookup_insert. case_decide as Hba.
    + intros [= <- <-]. subst b. rewrite lookup_insert_ne, lookup_insert_eq by lia.
      split; [apply (Hh1 a s false Ha)|done].
    + intros Hbt. destruct (Hh1 b t v Hbt) as [E1 E2].
      pose proof (block_bounds _ _ _ _ _ Hg Hbt).
      pose proof (words_apart bs (heap_end st) a s false b t v 8 0 Hg Ha Hbt).
      pose proof (words_apart bs (heap_end st) a s false b t v 8 8 Hg Ha Hbt).
      rewrite !lookup_insert_ne by (rewrite ?Z.add_0_r in *; intuition lia). done.
  - rewrite F2. apply mapped_insert. apply (redirected_mapped st fl1 q), Hw.
  - apply seg_app. exists q. split.
    + apply seg_write; [intros b Hbin; apply Hnext; set_solver|].
      apply (redirected_seg st bs fl1 (a :: fl2) a q Hg Hfree Hnd H1).
    + apply seg_write; [intros b Hbin; apply Hnext; set_solver|].
      apply (redirected_rest st bs fl1 fl2 q Hg); [intros b Hbin; apply Hfree; set_solver|done|done].
  - done.
  - intros b. rewrite lookup_insert. case_decide as Hba; [subst b; split; [done|by intros [? ?]]|].
    rewrite <-(hw_free _ _ _ Hw b). set_solver.
  - apply (preserved_trans bs bs _ (hmem st1)); [done| |].
    + by apply (redirected_preserved st bs fl1 (a :: fl2) q Hg Hfree).
    + eapply preserved_write; [done..|unfold in_block; lia].
Qed.

(** What [kmalloc] does to the heap when it takes block [a]. *)
Definition allocated (n a s : Z) st bs st' bs' fl' : Prop :=
  heap_wf st' bs' fl' /\ n <= s < n + 32 /\ ~ a ∈ dom (live bs) /\
  live bs' = <[a := s]> (live bs) /\ preserved bs (hmem st) (hmem st') /\ same_heap st st' /\
  heap_used_bytes st' = heap_used_bytes st ⊞ (n + 16).

Lemma take_block_ok st bs fl1 a fl2 s n :
  heap_wf st bs (fl1 ++ a :: fl2) -> bs !! a = Some (s, false) ->
  n mod 8 = 0 -> 8 <= n <= s ->
  exists st' bs' fl' s',
    take_block n (pred fl1) a st = Done (a + 16) st' [] /\ allocated n a s' st bs st' bs' fl'.
Proof.
  intros Hw Ha Hn8 Hn. unfold take_block.
  pose proof (block_bounds _ _ _ _ _ (hw_geom _ _ _ Hw) Ha) as Hb.
  assert (~ a ∈ dom (live bs)) as Hdead.
  { rewrite elem_of_dom. intros [t Ht]. apply live_spec in Ht. congruence. }
  destruct (split_block_ok st bs fl1 a fl2 s n Hw Ha Hn8 Hn)
    as (st1 & bs1 & fl2' & s' & E1 & Hw1 & Ha1 & Hs' & Hl1 & Hp1 & Hsame & Hfl & Hu).
  erewrite bind_step by exact E1. pose proof (hw_geom _ _ _ Hw1) as Hg1.
  pose proof (hw_seg _ _ _ Hw1) as Hseg. apply seg_app in Hseg as (r & _ & -> & q & Hq & _).
  erewrite bind_step by (by apply (ld_next st1 bs1 a s' false q)).
  erewrite bind_step.
  2:{ apply (redirect_run fl1 q st1 bs1 fl1 Hg1 (hw_mapped _ _ _ Hw1)).
      intros b Hbin. destruct (wf_free_blocks _ _ _ b Hw1) as [t ?]; [set_solver|eauto]. }
  destruct (unlink_wf st1 bs1 fl1 a fl2' s' q Hw1 Ha1 Hq) as [Hw2 Hp2].
  destruct (redirected_fields fl1 q st1) as (F1 & F2 & F3 & F4).
  set (st2 := redirected fl1 q st1) in *.
  assert (sd a f_magic HEAP_MAGIC st2 =
    Done tt (set_hmem (<[a + 8 := HEAP_MAGIC]> (hmem st2)) st2) []) as E2.
  { apply (sd_block st2 bs1 a s' false).
    - by rewrite F2.
    - rewrite F2. apply (redirected_mapped st1 fl1 q), Hw1.
    - done.
    - unfold f_magic. lia.
    - done. }
  erewrite bind_step by exact E2.
  assert (n ⊞ BLOCK_HEADER_SIZE = n + 16) as Hn16.
  { unfold BLOCK_HEADER_SIZE. apply field_addr; lia. }
  assert (a ⊞ BLOCK_HEADER_SIZE = a + 16) as Ha16.
  { unfold BLOCK_HEADER_SIZE. apply field_addr; lia. }
  rewrite Hn16, Ha16. eexists _, (<[a := (s', true)]> bs1), (fl1 ++ fl2'), s'. split; [reflexivity|].
  destruct Hsame as (S1 & S2 & S3). unfold allocated, same_heap. simpl.
  split_and!; try done; try congruence; try lia.
  - destruct Hw2. by split.
  - by rewrite live_flag, Hl1.
  - apply (preserved_trans bs bs1 _ (hmem st1)); [|done|done].
    intros x (b & t & Hbt & Hx). exists b, t. by rewrite Hl1.
Qed.

(** ** The search *)

(** Distinct addresses below [n] are at most [n]. *)
Lemma NoDup_bounded (l : list Z) n :
  NoDup l -> (forall a, a ∈ l -> 0 <= a < n) -> Z.of_nat (length l) <= Z.max 0 n.
Proof.
  intros Hnd Hb. assert (l ⊆+ seqZ 0 n) as Hsub.
  { apply NoDup_submseteq; [done|]. intros a Ha. apply elem_of_seqZ. specialize (Hb a Ha). lia. }
  apply submseteq_length in Hsub. rewrite length_seqZ in Hsub. lia.
Qed.

Lemma fl_length st bs fl : heap_wf st bs fl -> Z.of_nat (length fl) < 2 ^ 64.
Proof.
  intros Hw. pose proof (NoDup_bounded fl (2 ^ 64 - 24) (hw_nodup _ _ _ Hw)) as Hl.
  assert (Z.of_nat (length fl) <= Z.max 0 (2 ^ 64 - 24)); [|lia].
  apply Hl. intros a Ha. destruct (wf_free_blocks _ _ _ a Hw Ha) as [s Hs].
  pose proof (block_bounds _ _ _ _ _ (hw_geom _ _ _ Hw) Hs). lia.
Qed.

Lemma fits_block_ok st bs a s n :
  geom bs (heap_end st) -> headers (hmem st) bs -> bs !! a = Some (s, false) ->
  fits_block n a st = Done (n <=? s) st [].
Proof.
  intros Hg Hh Ha. destruct (ld_header st bs a s false Hg Hh Ha) as [Hs Hm].
  unfold fits_block. erewrite bind_step by exact Hm.
  change (status_word false =? 0) with true. cbv iota. by erewrite bind_step by exact Hs.
Qed.

(** No block of the list is large enough. *)
Definition none_fits (bs : blocks) (n : Z) (l : list Z) : Prop :=
  forall b t, b ∈ l -> bs !! b = Some (t, false) -> t < n.

Lemma search_loop st bs fl n l2 : heap_wf st bs fl -> forall l1 curr,
  fl = l1 ++ l2 -> seg (hmem st) curr l2 0 ->
  (exists la a lb s, l2 = la ++ a :: lb /\ bs !! a = Some (s, false) /\ n <= s /\
     none_fits bs n la /\
     forall p st', take_block n (pred (l1 ++ la)) a st = Done p st' [] ->
       mloop (search_step n) (S (length la)) (pred l1, curr) st = Done (Leave (Some p)) st' []) \/
  (none_fits bs n l2 /\
   mloop (search_step n) (S (length l2)) (pred l1, curr) st = Done (Leave None) st []).
Proof.
  intros Hw. induction l2 as [|a l2 IH]; intros l1 curr Hfl Hseg; simpl in Hseg.
  - right. subst curr. split; [by intros b t Hb; apply not_elem_of_nil in Hb|].
    by apply mloop_done.
  - destruct Hseg as (-> & q & Hq & Hseg).
    destruct (wf_free_blocks _ _ _ a Hw) as [s Ha]; [rewrite Hfl; set_solver|].
    pose proof (hw_geom _ _ _ Hw) as Hg. pose proof (block_bounds _ _ _ _ _ Hg Ha) as Hb.
    pose proof (fits_block_ok st bs a s n Hg (hw_headers _ _ _ Hw) Ha) as Hfit.
    destruct (Z.leb_spec n s) as [Hle|Hgt].
    + left. exists [], a, l2, s. split_and!; [done..|by intros b t Hbn; apply not_elem_of_nil in Hbn|].
      intros p st' Ht. rewrite app_nil_r in Ht. apply mloop_done.
      unfold search_step. rewrite (proj2 (Z.eqb_neq a 0)) by lia.
      cbv iota. erewrite bind_step by exact Hfit. cbv iota. by erewrite bind_step by exact Ht.
    + assert (search_step n (pred l1, a) st = Done (Next (a, q)) st []) as Hstep.
      { unfold search_step. rewrite (proj2 (Z.eqb_neq a 0)) by lia.
        cbv iota. erewrite bind_step by exact Hfit. cbv iota.
        by erewrite bind_step by (by apply (ld_next st bs a s false q)). }
      destruct (IH (l1 ++ [a]) q) as [(la & b & lb & t & -> & Hbt & Hnt & Hnone & Hrun)|[Hnone Hrun]];
        [by rewrite <-app_assoc|done| |]; rewrite pred_snoc in Hrun.
      * left. exists (a :: la), b, lb, t. split_and!; [done..| |].
        { intros c w Hc Hcw. apply elem_of_cons in Hc as [->|Hc]; [|by eapply Hnone].
          simplify_eq. lia. }
        intros p st' Ht. simpl length. erewrite mloop_next by exact Hstep.
        rewrite (Hrun p st'); [done|]. by rewrite <-app_assoc.
      * right. split.
        { intros c w Hc Hcw. apply elem_of_cons in Hc as [->|Hc]; [|by eapply Hnone].
          simplify_eq. lia. }
        simpl length. erewrite mloop_next by exact Hstep. by rewrite Hrun.
Qed.

(** First fit. *)
Lemma search_free_ok st bs fl n :
  heap_wf st bs fl -> n mod 8 = 0 -> 8 <= n ->
  (exists l1 a l2 s st' bs' fl' s', fl = l1 ++ a :: l2 /\ bs !! a = Some (s, false) /\ n <= s /\
     none_fits bs n l1 /\ search_free n st = Done (Some (a + 16)) st' [] /\
     allocated n a s' st bs st' bs' fl') \/
  (none_fits bs n fl /\ search_free n st = Done None st []).
Proof.
  intros Hw Hn8 Hn. pose proof (fl_length _ _ _ Hw) as Hlen. unfold search_free.
  erewrite bind_step by reflexivity.
  destruct (search_loop st bs fl n fl Hw [] (free_list st) eq_refl (hw_seg _ _ _ Hw))
    as [(la & a & lb & s & -> & Ha & Hns & Hnone & Hrun)|[Hnone Hrun]].
  - destruct (take_block_ok st bs la a lb s n Hw Ha Hn8 (conj Hn Hns))
      as (st' & bs' & fl' & s' & Ht & Hal).
    left. exists la, a, lb, s, st', bs', fl', s'. split_and!; try done.
    eapply mwhile_leave; [by apply Hrun|]. rewrite length_app in Hlen. simpl in Hlen. lia.
  - right. split; [done|]. eapply mwhile_leave; [exact Hrun|]. lia.
Qed.
End heap_proofs.
