(* ===== verification/HeapAlloc.v ===== *)
(** * The kernel heap: growing, [kmalloc] and [kfree]

    The contract the heap needs of the frame allocator and of paging
    ([HeapBackingOk]), and the specifications of the operations against it. *)
From S2P Require Import Prelude Effects PmmInterface PagingInterface Paging PageTable.
From S2P Require Import Heap HeapInv HeapProofs.

(** What the heap relies on: the three calls return, a frame that was handed
    out and not mapped may be given back, and a page of the heap's gigabyte
    may be mapped to it. *)
Class HeapBackingOk (B : Type) `{HeapBacking B} := {
  hb_inv : B -> Prop;
  hb_taken : B -> Z -> Prop;
  hb_alloc_ok : forall b, hb_inv b ->
    exists f b', hb_alloc b = Done f b' [] /\ hb_inv b' /\ (f <> 0 -> hb_taken b' f);
  hb_map_ok : forall b va f flags, hb_inv b -> hb_taken b f ->
    HEAP_START <= va < HEAP_LIMIT -> va mod 4096 = 0 ->
    exists r b', hb_map va f flags b = Done r b' [] /\ hb_inv b' /\ (r <> 0 -> hb_taken b' f);
  hb_free_ok : forall b f, hb_inv b -> hb_taken b f ->
    exists b', hb_free f b = Done tt b' [] /\ hb_inv b';
}.

Section alloc.
Context {B : Type} `{HB : HeapBacking B} `{!HeapBackingOk B}.
Implicit Types (st : heap B) (bs : blocks) (fl : list Z).

Lemma backed_ok {A} (m : M B A) st a b :
  m (backing st) = Done a b [] -> backed m st = Done a (set_backing b st) [].
Proof. intros Hm. unfold backed, zoom. by rewrite Hm. Qed.

(** [st'] is [st] with [j] more pages. *)
Record extended (j : Z) st st' : Prop := {
  ex_end : heap_end st' = heap_end st + j * 4096;
  ex_start : heap_start st' = heap_start st;
  ex_list : free_list st' = free_list st;
  ex_used : heap_used_bytes st' = heap_used_bytes st;
  ex_old : forall x, ~ heap_end st <= x < heap_end st' -> hmem st' !! x = hmem st !! x;
  ex_new : forall x, heap_end st <= x < heap_end st' -> x mod 8 = 0 -> hmem st' !! x = Some 0;
  ex_inv : hb_inv (backing st');
}.

(** One iteration of the loop. *)
Lemma extend_page_ok st pages i :
  hb_inv (backing st) -> HEAP_START <= heap_end st -> heap_end st mod 4096 = 0 ->
  i < pages -> heap_end st + 4096 <= HEAP_LIMIT ->
  exists st', (extend_page pages i st = Done (Leave (-1)) st' [] /\ extended 0 st st') \/
    (extend_page pages i st = Done (Next (i + 1)) st' [] /\ extended 1 st st').
Proof.
  intros Hi Hlo Hal Hlt Hlim. unfold extend_page. rewrite (proj2 (Z.ltb_lt _ _)) by done.
  destruct (hb_alloc_ok _ Hi) as (f & b1 & Ea & Hi1 & Ht).
  erewrite bind_step by (by apply backed_ok).
  set (st1 := set_backing b1 st).
  assert (forall b, hb_inv b -> extended 0 st (set_backing b st)) as Hsame.
  { intros b Hb. split; simpl; try done; try lia. }
  destruct (Z.eqb_spec f 0) as [->|Hne]; [exists st1; left; split; [done|by apply Hsame]|].
  erewrite bind_step by reflexivity.
  destruct (hb_map_ok b1 (heap_end st1) f
    (Z.lor (Z.lor PAGE_PRESENT PAGE_WRITABLE) PAGE_USER) Hi1 (Ht Hne)) as (r & b2 & Em & Hi2 & Ht2);
    [simpl; lia|done|].
  erewrite bind_step by (by apply backed_ok).
  set (st2 := set_backing b2 st1).
  destruct (Z.eqb_spec r 0) as [->|Hr]; cbn [negb]; cbv iota.
  - erewrite bind_step by reflexivity. erewrite bind_step by reflexivity.
    eexists. right. split; [reflexivity|].
    assert (heap_end st ⊞ PMM_FRAME_SIZE = heap_end st + 4096) as He.
    { unfold PMM_FRAME_SIZE. apply field_addr; unfold HEAP_START, HEAP_LIMIT in *; lia. }
    split; simpl; try done.
    + intros x Hx. rewrite He in Hx. rewrite lookup_zero_frame, decide_False by lia. done.
    + intros x Hx Hx8. rewrite He in Hx. rewrite lookup_zero_frame, decide_True; [done|divlia].
  - destruct (hb_free_ok b2 f Hi2 (Ht2 Hr)) as (b3 & Ef & Hi3).
    erewrite bind_step by (by apply backed_ok).
    eexists. left. split; [reflexivity|]. by apply Hsame.
Qed.

Lemma extended_trans j1 j2 st1 st2 st3 :
  0 <= j1 -> 0 <= j2 -> extended j1 st1 st2 -> extended j2 st2 st3 -> extended (j1 + j2) st1 st3.
Proof.
  intros Hj1 Hj2 [E1 ? ? ? O1 N1 ?] [E2 ? ? ? O2 N2 ?]. split; try congruence.
  - lia.
  - intros x Hx. rewrite O2, O1 by lia. done.
  - intros x Hx Hx8. destruct (decide (x < heap_end st2)).
    + rewrite O2 by lia. apply N1; [lia|done].
    + apply N2; [lia|done].
Qed.

Lemma heap_extend_ok st pages :
  hb_inv (backing st) -> HEAP_START <= heap_end st -> heap_end st mod 4096 = 0 ->
  0 <= pages -> heap_end st + pages * 4096 <= HEAP_LIMIT ->
  exists r st' j, heap_extend pages st = Done r st' [] /\ extended j st st' /\
    0 <= j <= pages /\ (r = 0 /\ j = pages \/ r = -1 /\ j < pages).
Proof.
  intros Hi Hlo Hal Hp Hlim.
  assert (forall k i st0, k = Z.to_nat (pages - i) -> 0 <= i <= pages ->
    hb_inv (backing st0) -> HEAP_START <= heap_end st0 -> heap_end st0 mod 4096 = 0 ->
    heap_end st0 + (pages - i) * 4096 <= HEAP_LIMIT ->
    exists r st' j, mloop (extend_page pages) (S k) i st0 = Done (Leave r) st' [] /\
      extended j st0 st' /\ 0 <= j <= pages - i /\
      (r = 0 /\ j = pages - i \/ r = -1 /\ j < pages - i)) as Hloop.
  2:{ destruct (Hloop (Z.to_nat (pages - 0)) 0 st) as (r & st' & j & Hrun & Hex & Hj & Hr);
        [done|lia|done..|lia|].
      rewrite Z.sub_0_r in *. exists r, st', j. split; [|done].
      eapply mwhile_leave; [exact Hrun|]. unfold HEAP_START, HEAP_LIMIT in *. lia. }
  induction k as [|k IH]; intros i st0 Hk Hip Hi0 Hlo0 Hal0 Hlim0.
  - assert (i = pages) as -> by lia. exists 0, st0, 0. split_and!; try lia.
    + apply mloop_done. unfold extend_page. by rewrite Z.ltb_irrefl.
    + split; try done; lia.
  - destruct (extend_page_ok st0 pages i) as (st1 & [[E Hex]|[E Hex]]); try done; try lia.
    + exists (-1), st1, 0. split_and!; try lia; [by apply mloop_done|done].
    + pose proof (ex_end _ _ _ Hex) as He.
      destruct (IH (i + 1) st1) as (r & st' & j & Hrun & Hex' & Hj & Hr); try lia.
      { apply (ex_inv _ _ _ Hex). }
      { rewrite He. divlia. }
      exists r, st', (1 + j). split_and!; try lia.
      * erewrite mloop_next by exact E. by rewrite Hrun.
      * apply (extended_trans 1 j st0 st1); done || lia.
Qed.

(** ** [kmalloc] *)

Lemma align_up_8 n : 0 < n -> n + 16 < 2 ^ 64 ->
  align_up n 8 mod 8 = 0 /\ n <= align_up n 8 < n + 8 /\ align_up (align_up n 8) 8 = align_up n 8.
Proof.
  assert (forall n, 0 <= n -> n + 8 < 2 ^ 64 -> align_up n 8 = (n + 7) / 8 * 8) as Heq.
  { intros k Hk Hlt. unfold align_up. rewrite (wrap_small 64 (k + 8)) by (unfold fits; lia).
    rewrite (wrap_small 64 (k + 8 - 1)) by (unfold fits; lia).
    change (8 ⊟ 1) with (2 ^ 3 - 1). rewrite land_mask_down by (unfold fits; lia).
    change (2 ^ 3) with 8. by replace (k + 8 - 1) with (k + 7) by lia. }
  intros Hn Hlt. rewrite (Heq n) by lia. split_and!; [divlia..|].
  rewrite Heq by divlia. divlia.
Qed.

(** A larger heap, before the new pages become a block. *)
Lemma extended_wf j st bs fl st' :
  heap_wf st bs fl -> extended j st st' -> 0 <= j -> heap_end st + j * 4096 <= HEAP_LIMIT ->
  heap_wf st' bs fl /\ preserved bs (hmem st) (hmem st').
Proof.
  intros Hw Hex Hj Hlim. pose proof (hw_geom _ _ _ Hw) as Hg.
  destruct (ge_end _ _ Hg) as [Hr Hal]. pose proof (ex_end _ _ _ Hex) as He.
  assert (forall x, x < heap_end st -> hmem st' !! x = hmem st !! x) as Hold.
  { intros x Hx. apply (ex_old _ _ _ Hex). lia. }
  assert (forall a s u x, bs !! a = Some (s, u) -> in_block a s x -> x < heap_end st) as Hin.
  { intros a s u x Ha Hx. pose proof (block_bounds _ _ _ _ _ Hg Ha). unfold in_block in Hx. lia. }
  split; [split|].
  - rewrite (ex_start _ _ _ Hex). apply Hw.
  - split.
    + rewrite He. split; [lia|divlia].
    + intros a s u Ha. destruct (ge_in _ _ Hg _ _ _ Ha) as (? & ? & ? & ? & ?).
      unfold in_heap. lia.
    + apply (ge_disj _ _ Hg).
  - intros a s u Ha. pose proof (block_bounds _ _ _ _ _ Hg Ha).
    rewrite !Hold by (eapply Hin; [done|unfold in_block; lia]). by apply (hw_headers _ _ _ Hw).
  - intros x Hx Hx8. destruct (decide (x < heap_end st)).
    + rewrite Hold by done. apply (hw_mapped _ _ _ Hw); [lia|done].
    + rewrite (ex_new _ _ _ Hex) by (done || lia). eauto.
  - rewrite (ex_list _ _ _ Hex). eapply seg_agree; [|apply (hw_seg _ _ _ Hw)].
    intros a Ha. destruct (wf_free_blocks _ _ _ a Hw Ha) as [s Hs].
    pose proof (block_bounds _ _ _ _ _ Hg Hs). apply Hold. lia.
  - apply Hw.
  - apply Hw.
  - intros x [Hx|(a & s & Ha & Hx)].
    + apply (ex_old _ _ _ Hex). rewrite He. unfold outside in Hx. lia.
    + apply live_spec in Ha. apply Hold. eapply Hin; [done|unfold in_block; lia].
Qed.

(** The header of a new first block at [e]. *)
Definition region_mem (e size head : Z) (m : gmap Z Z) : gmap Z Z :=
  <[e + 16 := head]> (<[e + 8 := 0]> (<[e := size]> m)).

Lemma region_mem_below e size head m x : x < e -> region_mem e size head m !! x = m !! x.
Proof. intros Hx. unfold region_mem. by rewrite !lookup_insert_ne by lia. Qed.

Lemma add_region_run j e st1 :
  0 < j -> HEAP_START <= e -> e mod 4096 = 0 -> e + j * 4096 <= HEAP_LIMIT ->
  heap_end st1 = e + j * 4096 -> mapped (hmem st1) (heap_end st1) ->
  let m := region_mem e (j * 4096 - 16) (free_list st1) (hmem st1) in
  add_region j st1 = Done tt (set_free_list e (set_hmem m st1)) [] /\ mapped m (heap_end st1).
Proof.
  intros Hj Hr Hal Hlim He Hm0 m. unfold add_region. erewrite bind_step by reflexivity.
  assert (j ⊠ PMM_FRAME_SIZE = j * 4096) as ->.
  { apply wrap_small. unfold fits, PMM_FRAME_SIZE, HEAP_START, HEAP_LIMIT in *. lia. }
  assert (heap_end st1 ⊟ (j * 4096) = e) as ->.
  { rewrite He. replace (e + j * 4096 - j * 4096) with e by lia.
    apply wrap_small. unfold fits, HEAP_START, HEAP_LIMIT in *. lia. }
  assert (j * 4096 ⊟ BLOCK_HEADER_SIZE = j * 4096 - 16) as ->.
  { apply wrap_small. unfold fits, BLOCK_HEADER_SIZE, HEAP_START, HEAP_LIMIT in *. lia. }
  assert (forall m f v, 0 <= f < 24 -> f mod 8 = 0 -> mapped m (heap_end st1) ->
    sd e f v (set_hmem m st1) = Done tt (set_hmem (<[e + f := v]> m) st1) [] /\
    mapped (<[e + f := v]> m) (heap_end st1)) as Hsd.
  { intros m' f v Hf Hf8 Hm. split; [|by apply mapped_insert].
    rewrite sd_ok; [done|unfold HEAP_START, HEAP_LIMIT in *; lia..|divlia|].
    apply Hm; [lia|divlia]. }
  cbv zeta. destruct (Hsd (hmem st1) f_size (j * 4096 - 16) ltac:(done) ltac:(done) Hm0) as [E1 Hm1].
  replace (set_hmem (hmem st1) st1) with st1 in E1 by (by destruct st1).
  erewrite bind_step by exact E1.
  destruct (Hsd _ f_magic 0 ltac:(done) ltac:(done) Hm1) as [E2 Hm2]. erewrite bind_step by exact E2.
  destruct (Hsd _ f_next (free_list st1) ltac:(done) ltac:(done) Hm2) as [E3 Hm3]. erewrite bind_step by exact E3.
  unfold f_size, f_magic, f_next in *. rewrite Z.add_0_r in *. by split.
Qed.

(** The new pages become the first free block. *)
Lemma add_region_ok j st bs fl st1 :
  heap_wf st bs fl -> extended j st st1 -> 0 < j -> heap_end st + j * 4096 <= HEAP_LIMIT ->
  exists st', add_region j st1 = Done tt st' [] /\
    heap_wf st' (<[heap_end st := (j * 4096 - 16, false)]> bs) (heap_end st :: fl) /\
    preserved bs (hmem st) (hmem st') /\
    heap_end st' = heap_end st1 /\ backing st' = backing st1 /\
    heap_used_bytes st' = heap_used_bytes st.
Proof.
  intros Hw Hex Hj Hlim. destruct (extended_wf j st bs fl st1 Hw Hex) as [Hw1 Hp1]; [lia|done|].
  pose proof (ex_end _ _ _ Hex) as He. set (e := heap_end st) in *.
  pose proof (hw_geom _ _ _ Hw) as Hg. destruct (ge_end _ _ Hg) as [Hr Hal]. fold e in Hr, Hal.
  destruct (add_region_run j e st1 Hj ltac:(lia) Hal Hlim He (hw_mapped _ _ _ Hw1)) as [E Hm3].
  set (m := region_mem e _ _ _) in *. eexists. split; [exact E|].
  pose proof (region_mem_below e (j * 4096 - 16) (free_list st1) (hmem st1)) as Hm. fold m in Hm.
  assert (forall a s u x, bs !! a = Some (s, u) -> in_block a s x -> x < e) as Hin.
  { intros a s u x Ha Hx. pose proof (block_bounds _ _ _ _ _ Hg Ha). unfold in_block, e in *. lia. }
  assert (~ e ∈ fl) as Hefl.
  { intros Hbad. destruct (wf_free_blocks _ _ _ _ Hw Hbad) as [s Hs].
    pose proof (Hin _ _ _ e Hs). unfold in_block in *.
    pose proof (block_bounds _ _ _ _ _ Hg Hs). lia. }
  split; [split|]; simpl.
  - apply Hw1.
  - rewrite He. by apply geom_extend.
  - intros a s u. rewrite lookup_insert. case_decide as Ha.
    + intros [= <- <-]. subst a. unfold m, region_mem. split.
      * by rewrite !lookup_insert_ne, lookup_insert_eq by lia.
      * by rewrite lookup_insert_ne, lookup_insert_eq by lia.
    + intros Hbs. pose proof (block_bounds _ _ _ _ _ Hg Hbs).
      rewrite !Hm by (eapply Hin; [done|unfold in_block; lia]). by apply (hw_headers _ _ _ Hw1).
  - exact Hm3.
  - split; [done|]. exists (free_list st1). unfold m at 1, region_mem. rewrite lookup_insert_eq. split; [done|].
    eapply seg_agree; [|apply (hw_seg _ _ _ Hw1)].
    intros a Ha. destruct (wf_free_blocks _ _ _ a Hw Ha) as [s Hs].
    pose proof (block_bounds _ _ _ _ _ Hg Hs). apply Hm. eapply Hin; [done|unfold in_block; lia].
  - apply NoDup_cons. split; [done|apply Hw].
  - intros a. rewrite elem_of_cons, lookup_insert, (hw_free _ _ _ Hw a).
    case_decide as Ha; [subst; split; eauto|]. split; [intros [?|?]; [congruence|done]|auto].
  - split_and!; try done; [|by apply (ex_used _ _ _ Hex)].
    apply (preserved_trans bs bs _ (hmem st1)); [done|done|].
    intros x [Hx|(a & s & Ha & Hx)].
    + unfold m, region_mem, outside, HEAP_LIMIT, HEAP_START in *. by rewrite !lookup_insert_ne by lia.
    + apply live_spec in Ha. apply Hm. eapply Hin; [done|unfold in_block; lia].
Qed.

(** What a call of [kmalloc(size)] that returns [p] promises: the heap stays
    well formed, the payloads of all blocks in use are untouched, and either
    nothing was allocated or [p] is the payload of a new block of at least
    [size] bytes. *)
Definition kmalloc_post size st bs (p : Z) st' : Prop :=
  exists bs' fl', heap_wf st' bs' fl' /\ hb_inv (backing st') /\
    preserved bs (hmem st) (hmem st') /\
    ((p = 0 /\ live bs' = live bs /\ heap_used_bytes st' = heap_used_bytes st) \/
     (exists a s, p = a + 16 /\ ~ a ∈ dom (live bs) /\ live bs' = <[a := s]> (live bs) /\
        size <= align_up size 8 /\ align_up size 8 <= s < align_up size 8 + 32 /\
        heap_used_bytes st' = heap_used_bytes st ⊞ (align_up size 8 + 16))).

(** The call whose search succeeds. *)
Lemma kmalloc_found st bs fl size :
  heap_wf st bs fl -> hb_inv (backing st) -> 0 < size -> size + 16 < 2 ^ 64 ->
  ~ none_fits bs (align_up size 8) fl ->
  exists p st', kmalloc_body size st = Done (Leave p) st' [] /\ kmalloc_post size st bs p st' /\
    p <> 0 /\ heap_end st' = heap_end st.
Proof.
  intros Hw Hi Hs Hlt Hsome. destruct (align_up_8 size Hs ltac:(lia)) as (H8 & Hn & _).
  unfold kmalloc_body. rewrite (proj2 (Z.eqb_neq size 0)) by lia. cbv zeta.
  destruct (search_free_ok st bs fl (align_up size 8) Hw H8) as
    [(l1 & a & l2 & s & st' & bs' & fl' & s' & -> & Ha & Hle & _ & Hrun & Hal)|[Hnone _]];
    [divlia| |done].
  erewrite bind_step by exact Hrun. exists (a + 16), st'. split; [done|].
  destruct Hal as (Hw' & Hs' & Hdead & Hl & Hp & (_ & He & Hb) & Hu).
  pose proof (block_bounds _ _ _ _ _ (hw_geom _ _ _ Hw) Ha).
  split_and!; [|lia|done]. exists bs', fl'. split_and!; [done|by rewrite Hb|done|].
  right. exists a, s'. split_and!; try done; lia.
Qed.

(** The retry after an extension promises what the first call did. *)
Lemma kmalloc_post_retry st st2 bs bs2 size p st' :
  0 < size -> size + 16 < 2 ^ 64 ->
  preserved bs (hmem st) (hmem st2) -> live bs2 = live bs ->
  heap_used_bytes st2 = heap_used_bytes st ->
  kmalloc_post (align_up size 8) st2 bs2 p st' -> kmalloc_post size st bs p st'.
Proof.
  intros Hs Hlt Hp Hlive Hu (bs' & fl' & Hw' & Hi' & Hp' & Hcase).
  destruct (align_up_8 size Hs Hlt) as (_ & Hn & Hidem).
  rewrite Hlive, Hu, Hidem in Hcase. exists bs', fl'. split_and!; try done.
  - apply (preserved_trans bs bs2 _ (hmem st2)); [|done|done].
    intros x (a & s & Ha & Hx). exists a, s. by rewrite Hlive.
  - destruct Hcase as [?|(a & s & ? & ? & ? & ? & ? & ?)]; [by left|right].
    exists a, s. split_and!; try done; lia.
Qed.

Lemma kmalloc_ok st bs fl size :
  heap_wf st bs fl -> hb_inv (backing st) -> 0 < size ->
  heap_end st + size + 8192 <= HEAP_LIMIT ->
  exists p st', kmalloc size st = Done p st' [] /\ kmalloc_post size st bs p st' /\
    (p = 0 -> none_fits bs (align_up size 8) fl).
Proof.
  intros Hw Hi Hs Hlim. pose proof (hw_geom _ _ _ Hw) as Hg.
  destruct (ge_end _ _ Hg) as [[He0 He1] Hal].
  assert (size + 8192 < 2 ^ 32) as Hlt by (unfold HEAP_START, HEAP_LIMIT in *; lia).
  destruct (align_up_8 size Hs ltac:(lia)) as (H8 & Hn & Hidem). set (n := align_up size 8) in *.
  destruct (search_free_ok st bs fl n Hw H8) as
    [(l1 & a & l2 & s & _ & _ & _ & _ & Hfl & Ha & Hle & _)|[Hnone Hrun]]; [divlia| |].
  - destruct (kmalloc_found st bs fl size) as (p & st' & Hb & Hp & Hp0 & _); try done; try lia.
    { intros Hnone. assert (s < n); [|lia]. apply (Hnone a s); [rewrite Hfl; set_solver|done]. }
    exists p, st'. split_and!; try done.
    apply (mwhile_leave _ 32 1); [by apply mloop_done|lia].
  - set (pages := (n + 16 + 4095) / 4096).
    assert ((n ⊞ BLOCK_HEADER_SIZE ⊞ PMM_FRAME_SIZE ⊟ 1) / PMM_FRAME_SIZE = pages) as Hpages.
    { unfold BLOCK_HEADER_SIZE, PMM_FRAME_SIZE, pages. rewrite (wrap_small 64 (n + 16)) by (unfold fits; lia).
      rewrite (wrap_small 64 (n + 16 + 4096)) by (unfold fits; lia).
      rewrite wrap_small by (unfold fits; lia). f_equal. lia. }
    assert (n + 16 <= pages * 4096 < n + 16 + 4096) as Hpg by (unfold pages; divlia).
    destruct (heap_extend_ok st pages Hi) as (r & st1 & j & Hext & Hex & Hj & Hr); try lia.
    destruct (extended_wf j st bs fl st1 Hw Hex) as [Hw1 Hp1]; try lia.
    assert (kmalloc_body size st =
      (e ← heap_extend pages;
       if negb (e =? 0) then mret (Leave 0) else (add_region pages;; mret (Next n))) st) as Hbody.
    { unfold kmalloc_body. rewrite (proj2 (Z.eqb_neq size 0)) by lia. cbv zeta.
      fold n. erewrite bind_step by exact Hrun. by rewrite Hpages. }
    destruct Hr as [[-> ->]|[-> Hlt']].
    + destruct (add_region_ok pages st bs fl st1 Hw Hex) as (st2 & Hadd & Hw2 & Hp2 & He2 & Hb2 & Hu2);
        try lia.
      assert (kmalloc_body size st = Done (Next n) st2 []) as Hstep.
      { rewrite Hbody. erewrite bind_step by exact Hext. cbn [negb Z.eqb]. cbv iota.
        by erewrite bind_step by exact Hadd. }
      set (e := heap_end st) in *.
      assert (live (<[e := (pages * 4096 - 16, false)]> bs) = live bs) as Hlive.
      { apply map_eq. intros b. apply option_eq. intros t. rewrite !live_spec, lookup_insert.
        case_decide as Hb; [|done]. subst b. split; [done|]. intros Hbad.
        pose proof (block_bounds _ _ _ _ _ Hg Hbad). unfold e in *. lia. }
      destruct (kmalloc_found st2 _ _ n Hw2) as (p & st' & Hb & Hp & Hp0 & _).
      { rewrite Hb2. apply (ex_inv _ _ _ Hex). }
      { lia. }
      { lia. }
      { rewrite Hidem. intros Hbad. assert (pages * 4096 - 16 < n); [|lia].
        apply (Hbad e); [set_solver|by rewrite lookup_insert_eq]. }
      exists p, st'. split_and!; [|eapply (kmalloc_post_retry st st2 bs _ size p st'); done || lia|done].
      apply (mwhile_leave _ 32 2); [|lia]. erewrite mloop_next by exact Hstep.
      by rewrite (mloop_done _ 0 _ _ _ _ _ Hb).
    + exists 0, st1. split_and!; [| |done].
      * apply (mwhile_leave _ 32 1); [|lia]. apply mloop_done.
        rewrite Hbody. by erewrite bind_step by exact Hext.
      * exists bs, fl. split_and!; [done|apply (ex_inv _ _ _ Hex)|done|].
        left. by rewrite (ex_used _ _ _ Hex).
Qed.
End alloc.
