(* ===== verification/HeapFree.v ===== *)
(** * The kernel heap: [kfree]

    The insertion of a block into the free list and the two merges with its
    neighbours, and the invariant after them. *)
From S2P Require Import Prelude Effects PmmInterface PagingInterface Paging.
From S2P Require Import Heap HeapInv HeapProofs.

Section free.
Context {B : Type} `{HB : HeapBacking B}.
Implicit Types (st : heap B) (bs : blocks) (fl : list Z).

(** The head of the rest of the list, 0 at its end. *)
Definition next_of (l : list Z) : Z := default 0 (head l).

Lemma seg_next m p l : seg m p l 0 -> p = next_of l.
Proof. destruct l as [|a l]; simpl; [done|]. by intros [-> _]. Qed.

(** ** The insertion point *)
Lemma insert_loop st bs block l2 : geom bs (heap_end st) ->
  (forall b, b ∈ l2 -> exists t, bs !! b = Some (t, false)) -> forall l1,
  seg (hmem st) (next_of l2) l2 0 ->
  exists la lb n, l2 = la ++ lb /\ Z.of_nat n <= Z.of_nat (length l2) + 1 /\
    mloop (insert_step block) n (pred l1, next_of l2) st =
      Done (Leave (pred (l1 ++ la), next_of lb)) st [].
Proof.
  intros Hg. induction l2 as [|b l2 IH]; intros Hfree l1 Hseg.
  - exists [], [], 1%nat. split_and!; [done|simpl; lia|]. rewrite app_nil_r.
    by apply mloop_done.
  - destruct (Hfree b) as [t Hb]; [set_solver|]. pose proof (block_bounds _ _ _ _ _ Hg Hb).
    simpl in Hseg. destruct Hseg as (_ & q & Hq & Hseg).
    pose proof (seg_next _ _ _ Hseg) as ->.
    destruct (decide (b < block)) as [Hlt|Hge].
    + assert (insert_step block (pred l1, b) st = Done (Next (b, next_of l2)) st []) as Hstep.
      { unfold insert_step. rewrite (proj2 (Z.eqb_neq b 0)), (proj2 (Z.ltb_lt _ _)) by lia.
        cbn [negb andb]. cbv iota. by erewrite bind_step by (by apply (ld_next st bs b t false)). }
      destruct (IH ltac:(set_solver) (l1 ++ [b]) Hseg) as (la & lb & n & -> & Hn & Hrun).
      rewrite pred_snoc in Hrun. exists (b :: la), lb, (S n).
      split_and!; [done|simpl in *; rewrite length_app in *; lia|].
      change (next_of (b :: la ++ lb)) with b. erewrite mloop_next by exact Hstep.
      rewrite Hrun. by rewrite <-app_assoc.
    + exists [], (b :: l2), 1%nat. split_and!; [done|simpl; lia|]. rewrite app_nil_r.
      apply mloop_done. unfold insert_step. change (next_of (b :: l2)) with b.
      rewrite (proj2 (Z.ltb_ge _ _)) by lia. by rewrite andb_false_r.
Qed.

(** ** Linking the freed block *)
Lemma live_free bs a s : bs !! a = Some (s, true) -> live (<[a := (s, false)]> bs) = delete a (live bs).
Proof.
  intros Ha. apply map_eq. intros b. apply option_eq. intros t.
  rewrite live_spec, lookup_insert, lookup_delete. case_decide; [done|]. by rewrite live_spec.
Qed.

Definition link_mem (a curr : Z) (m : gmap Z Z) : gmap Z Z :=
  <[a + 16 := curr]> (<[a + 8 := 0]> m).

Lemma link_headers bs e a s curr m :
  geom bs e -> headers m bs -> bs !! a = Some (s, true) ->
  headers (link_mem a curr m) (<[a := (s, false)]> bs).
Proof.
  intros Hg Hh Ha b t v. rewrite lookup_insert. unfold link_mem.
  destruct (Hh _ _ _ Ha) as [Hsz _]. case_decide as Hba.
  - intros [= <- <-]. subst b. rewrite (lookup_insert_ne _ _ (a + 8)) by lia.
    rewrite lookup_insert_eq. by rewrite !lookup_insert_ne by lia.
  - intros Hbt. pose proof (block_bounds _ _ _ _ _ Hg Hbt). pose proof (block_bounds _ _ _ _ _ Hg Ha).
    destruct (Hh _ _ _ Hbt) as [E1 E2].
    assert (forall f g, 0 <= f < 24 -> 0 <= g < 24 -> a + f <> b + g) as Hap.
    { intros f g Hf Hgg. apply (words_apart bs e a s true b t v); try done; lia. }
    pose proof (Hap 16 0). pose proof (Hap 8 0). pose proof (Hap 16 8). pose proof (Hap 8 8).
    rewrite !lookup_insert_ne by lia. done.
Qed.

Lemma link_wf st bs l1 l2 a s :
  heap_wf st bs (l1 ++ l2) -> bs !! a = Some (s, true) ->
  let st1 := set_hmem (link_mem a (next_of l2) (hmem st)) st in
  let st2 := redirected l1 a st1 in
  let bs' := <[a := (s, false)]> bs in
  heap_wf st2 bs' (l1 ++ a :: l2) /\ preserved bs' (hmem st) (hmem st2).
Proof.
  intros Hw Ha st1 st2 bs'. pose proof (hw_geom _ _ _ Hw) as Hg.
  pose proof (block_bounds _ _ _ _ _ Hg Ha) as Hb.
  pose proof (geom_flag bs _ a s true false Hg Ha) as Hg'. fold bs' in Hg'.
  assert (bs' !! a = Some (s, false)) as Ha' by (unfold bs'; by rewrite lookup_insert_eq).
  pose proof (hw_nodup _ _ _ Hw) as Hnd.
  assert (forall b, b ∈ l1 ++ l2 -> b <> a /\ exists t, bs' !! b = Some (t, false)) as Hfree.
  { intros b Hbin. destruct (wf_free_blocks _ _ _ b Hw Hbin) as [t Ht].
    assert (b <> a) by congruence. split; [done|]. exists t. unfold bs'.
    by rewrite lookup_insert_ne by done. }
  assert (forall b f, b ∈ l1 ++ l2 -> 0 <= f < 24 ->
    hmem st1 !! (b + f) = hmem st !! (b + f)) as Hother.
  { intros b f Hbin Hf. destruct (Hfree b Hbin) as (Hne & t & Ht).
    pose proof (block_bounds _ _ _ _ _ Hg' Ht). unfold st1, link_mem. simpl.
    rewrite !lookup_insert_ne; [done| |];
      apply (words_apart bs' (heap_end st) a s false b t false); done || lia. }
  pose proof (link_headers bs (heap_end st) a s (next_of l2) (hmem st) Hg (hw_headers _ _ _ Hw) Ha) as Hh1.
  assert (seg (hmem st1) (free_list st) (l1 ++ l2) 0) as Hseg1.
  { eapply seg_agree; [|apply Hw]. intros b Hbin. by apply Hother. }
  apply seg_app in Hseg1 as (r & H1 & H2). pose proof (seg_next _ _ _ H2) as ->.
  assert (NoDup (l1 ++ a :: l2)) as Hnd'.
  { rewrite <-Permutation_middle. apply NoDup_cons. split; [|done].
    intros Hin. by destruct (Hfree a Hin). }
  assert (forall b, b ∈ l1 ++ a :: l2 -> exists t, bs' !! b = Some (t, false)) as Hall.
  { intros b Hbin. destruct (decide (b = a)) as [->|]; [eauto|].
    apply Hfree. set_solver. }
  destruct (redirected_fields l1 a st1) as (F1 & F2 & F3 & F4). fold st2 in F1, F2, F3, F4.
  split; [split|].
  - rewrite F1. apply Hw.
  - by rewrite F2.
  - apply (redirected_headers st1 bs' l1 (a :: l2)); done.
  - rewrite F2. apply (redirected_mapped st1 l1 a). do 2 apply mapped_insert. apply Hw.
  - apply seg_app. exists a. split.
    + by apply (redirected_seg st1 bs' l1 (a :: l2) (next_of l2) a Hg').
    + apply (redirected_rest st1 bs' l1 (a :: l2) a Hg' Hall Hnd').
      simpl. split; [done|]. exists (next_of l2). split; [|done].
      unfold st1, link_mem. simpl. by rewrite lookup_insert_eq.
  - done.
  - intros b. unfold bs'. rewrite lookup_insert. case_decide as Hba.
    + subst b. split; [eauto|set_solver].
    + rewrite <-(hw_free _ _ _ Hw b). set_solver.
  - apply (preserved_trans bs' bs' _ (hmem st1)); [done| |].
    + unfold st1, link_mem. simpl.
      eapply preserved_trans; [done| |]; eapply preserved_write; done || (unfold in_block; lia).
    + by apply (redirected_preserved st1 bs' l1 (a :: l2) a Hg').
Qed.

(** ** Coalescing *)
Definition merged (a s b t : Z) bs : blocks := <[a := (s + 16 + t, false)]> (delete b bs).

Lemma merged_live bs a s b t :
  bs !! a = Some (s, false) -> bs !! b = Some (t, false) ->
  live (merged a s b t bs) = live bs.
Proof.
  intros Ha Hb. apply map_eq. intros c. apply option_eq. intros w.
  rewrite !live_spec. unfold merged. rewrite lookup_insert, lookup_delete.
  repeat case_decide; subst; naive_solver.
Qed.

Lemma merge_wf st bs l1 a b l2 s t q :
  heap_wf st bs (l1 ++ a :: b :: l2) -> bs !! a = Some (s, false) -> bs !! b = Some (t, false) ->
  a + 16 + s = b -> hmem st !! (b + 16) = Some q ->
  let m := <[a + 16 := q]> (<[a := s + 16 + t]> (hmem st)) in
  heap_wf (set_hmem m st) (merged a s b t bs) (l1 ++ a :: l2) /\ preserved bs (hmem st) m.
Proof.
  intros Hw Ha Hb Hadj Hq m. pose proof (hw_geom _ _ _ Hw) as Hg.
  pose proof (block_bounds _ _ _ _ _ Hg Ha) as Hba. pose proof (block_bounds _ _ _ _ _ Hg Hb) as Hbb.
  pose proof (hw_nodup _ _ _ Hw) as Hnd.
  assert (NoDup (l1 ++ a :: l2) /\ ~ b ∈ l1 ++ a :: l2) as [Hnd' Hnb].
  { replace (l1 ++ a :: b :: l2) with ((l1 ++ [a]) ++ b :: l2) in Hnd by (by rewrite <-app_assoc).
    rewrite <-Permutation_middle, <-app_assoc in Hnd. by apply NoDup_cons in Hnd as [? ?]. }
  assert (forall c w v f g, bs !! c = Some (w, v) -> c <> a -> 0 <= f < 24 -> 0 <= g < 24 ->
    a + f <> c + g) as Hap.
  { intros c w v f g Hc Hne Hf Hgg. pose proof (block_bounds _ _ _ _ _ Hg Hc).
    apply (words_apart bs (heap_end st) a s false c w v); done || lia. }
  assert (forall c, c ∈ l1 ++ l2 -> m !! (c + 16) = hmem st !! (c + 16)) as Hother.
  { intros c Hc. assert (c <> a).
    { intros ->. rewrite <-Permutation_middle in Hnd'. by apply NoDup_cons in Hnd' as [? _]. }
    destruct (wf_free_blocks _ _ _ c Hw) as [w Hcw]; [set_solver|].
    pose proof (Hap c w false 16 16 Hcw). pose proof (Hap c w false 0 16 Hcw).
    unfold m. rewrite !lookup_insert_ne by lia. done. }
  split; [split; simpl|].
  - apply Hw.
  - by apply (geom_merge bs _ a s false b t false).
  - intros c w v. unfold merged. rewrite lookup_insert, lookup_delete.
    destruct (hw_headers _ _ _ Hw _ _ _ Ha) as [_ Hma]. unfold m.
    case_decide as Hca; [|case_decide as Hcb; [done|]].
    + intros [= <- <-]. subst c. rewrite (lookup_insert_ne _ _ a) by lia.
      rewrite lookup_insert_eq. by rewrite !lookup_insert_ne by lia.
    + intros Hc. pose proof (Hap c w v 16 0 Hc). pose proof (Hap c w v 0 0 Hc).
      pose proof (Hap c w v 16 8 Hc). pose proof (Hap c w v 0 8 Hc).
      rewrite !lookup_insert_ne by lia. by apply (hw_headers _ _ _ Hw).
  - do 2 apply mapped_insert. apply Hw.
  - pose proof (hw_seg _ _ _ Hw) as Hseg. apply seg_app in Hseg as (p & H1 & -> & b' & _ & -> & q' & Hq' & H2).
    simplify_eq. apply seg_app. exists a. split.
    + eapply seg_agree; [|exact H1]. intros c Hc. apply Hother. set_solver.
    + simpl. split; [done|]. exists q. unfold m at 1. rewrite lookup_insert_eq. split; [done|].
      eapply seg_agree; [|exact H2]. intros c Hc. apply Hother. set_solver.
  - done.
  - intros c. unfold merged. rewrite lookup_insert, lookup_delete.
    pose proof (hw_free _ _ _ Hw c) as Hfree.
    repeat case_decide; subst.
    + split; [eauto|set_solver].
    + split; [done|]. by intros [? ?].
    + rewrite <-Hfree. set_solver.
  - eapply preserved_trans; [done| |]; apply (preserved_write bs (heap_end st) _ a s); try done; unfold in_block; lia.
Qed.

(** Merging [b] into its left neighbour [a], if they touch. *)
Lemma coalesce_ok st bs l1 a b l2 :
  heap_wf st bs (l1 ++ a :: b :: l2) ->
  exists st' bs' l2', coalesce_next a b st = Done tt st' [] /\
    heap_wf st' bs' (l1 ++ a :: l2') /\ live bs' = live bs /\ preserved bs (hmem st) (hmem st') /\
    same_heap st st' /\ heap_used_bytes st' = heap_used_bytes st.
Proof.
  intros Hw. pose proof (hw_geom _ _ _ Hw) as Hg.
  destruct (wf_free_blocks _ _ _ a Hw) as [s Ha]; [set_solver|].
  destruct (wf_free_blocks _ _ _ b Hw) as [t Hb]; [set_solver|].
  pose proof (block_bounds _ _ _ _ _ Hg Ha) as Hba. pose proof (block_bounds _ _ _ _ _ Hg Hb) as Hbb.
  destruct (ld_header st bs a s false Hg (hw_headers _ _ _ Hw) Ha) as [Hla _].
  destruct (ld_header st bs b t false Hg (hw_headers _ _ _ Hw) Hb) as [Hlb _].
  unfold coalesce_next. rewrite (proj2 (Z.eqb_neq b 0)) by lia. cbn [negb]. cbv iota.
  erewrite bind_step by exact Hla.
  assert (a ⊞ BLOCK_HEADER_SIZE ⊞ s = a + 16 + s) as ->.
  { unfold BLOCK_HEADER_SIZE. rewrite (field_addr a 16), field_addr by lia. done. }
  destruct (Z.eqb_spec (a + 16 + s) b) as [Hadj|Hne].
  2:{ exists st, bs, (b :: l2). split_and!; done. }
  erewrite bind_step by exact Hlb.
  assert (s ⊞ (BLOCK_HEADER_SIZE ⊞ t) = s + 16 + t) as ->.
  { unfold BLOCK_HEADER_SIZE. rewrite (field_addr 16 t), field_addr by lia. lia. }
  erewrite bind_step by (apply (sd_block st bs a s false); [done|apply Hw|done|unfold f_size; lia|done]).
  pose proof (hw_seg _ _ _ Hw) as Hseg.
  apply seg_app in Hseg as (p & _ & _ & b' & _ & _ & q & Hq & _).
  unfold f_size. rewrite Z.add_0_r. set (m1 := <[a := _]> (hmem st)).
  erewrite bind_step by (apply (ld_next (set_hmem m1 st) bs b t false q Hg Hb);
    simpl; unfold m1; by rewrite lookup_insert_ne by lia).
  destruct (merge_wf st bs l1 a b l2 s t q Hw Ha Hb Hadj Hq) as [Hw' Hp'].
  rewrite (sd_block (set_hmem m1 st) bs a s false);
    [|done|apply mapped_insert, Hw|done|unfold f_next; lia|done].
  eexists _, (merged a s b t bs), l2. split; [reflexivity|].
  split_and!; [exact Hw'|by apply merged_live|exact Hp'|done|done].
Qed.

Lemma coalesce_next_ok st bs l1 a l2 :
  heap_wf st bs (l1 ++ a :: l2) ->
  exists st' bs' l2', coalesce_next a (next_of l2) st = Done tt st' [] /\
    heap_wf st' bs' (l1 ++ a :: l2') /\ live bs' = live bs /\ preserved bs (hmem st) (hmem st') /\
    same_heap st st' /\ heap_used_bytes st' = heap_used_bytes st.
Proof.
  intros Hw. destruct l2 as [|b l2]; [|by apply (coalesce_ok st bs l1 a b l2)].
  exists st, bs, []. split_and!; done.
Qed.

Lemma coalesce_prev_ok st bs l1 a l2 :
  heap_wf st bs (l1 ++ a :: l2) ->
  exists st' bs' fl', coalesce_prev (pred l1) a st = Done tt st' [] /\
    heap_wf st' bs' fl' /\ live bs' = live bs /\ preserved bs (hmem st) (hmem st') /\
    same_heap st st' /\ heap_used_bytes st' = heap_used_bytes st.
Proof.
  intros Hw. destruct l1 as [|c l1 _] using rev_ind.
  { exists st, bs, (a :: l2). split_and!; done. }
  rewrite pred_snoc. rewrite <-app_assoc in Hw. simpl in Hw.
  destruct (fl_block _ _ _ c Hw) as (? & _ & Hc); [set_solver|].
  destruct (fl_block _ _ _ a Hw) as (? & _ & Ha); [set_solver|].
  destruct (coalesce_ok st bs l1 c a l2 Hw) as (st' & bs' & l2' & Hrun & H).
  exists st', bs', (l1 ++ c :: l2'). split; [|done]. rewrite <-Hrun.
  unfold coalesce_prev, coalesce_next.
  by rewrite (proj2 (Z.eqb_neq c 0)), (proj2 (Z.eqb_neq a 0)).
Qed.

(** ** [kfree] *)
Lemma heap_wf_used n st bs fl : heap_wf st bs fl -> heap_wf (set_used n st) bs fl.
Proof. intros []. by split. Qed.

(** What [kfree] of a block in use does. *)
Definition kfree_post a s st bs st' : Prop :=
  exists bs' fl', heap_wf st' bs' fl' /\ live bs' = delete a (live bs) /\
    preserved bs' (hmem st) (hmem st') /\ same_heap st st' /\
    heap_used_bytes st' = heap_used_bytes st ⊟ (s + 16).

Lemma free_insert_ok st bs fl a s :
  heap_wf st bs fl -> bs !! a = Some (s, true) ->
  exists st' l1 l2, free_insert a st = Done (pred l1, next_of l2) st' [] /\
    heap_wf st' (<[a := (s, false)]> bs) (l1 ++ a :: l2) /\
    preserved (<[a := (s, false)]> bs) (hmem st) (hmem st') /\ same_heap st st' /\
    heap_used_bytes st' = heap_used_bytes st ⊟ (s + 16).
Proof.
  intros Hw Ha. pose proof (hw_geom _ _ _ Hw) as Hg.
  pose proof (block_bounds _ _ _ _ _ Hg Ha) as Hb. unfold free_insert.
  erewrite bind_step by (apply (sd_block st bs a s true); [done|apply Hw|done|unfold f_magic; lia|done]).
  destruct (hw_headers _ _ _ Hw _ _ _ Ha) as [Hsz _].
  erewrite bind_step.
  2:{ apply ld_ok; unfold f_size, f_magic; try lia; [divlia|]. simpl.
      rewrite Z.add_0_r, lookup_insert_ne by lia. exact Hsz. }
  assert (s ⊞ BLOCK_HEADER_SIZE = s + 16) as ->.
  { unfold BLOCK_HEADER_SIZE. apply field_addr; lia. }
  erewrite bind_step by reflexivity. erewrite bind_step by reflexivity.
  set (u := heap_used_bytes st ⊟ (s + 16)). simpl heap_used_bytes. fold u.
  set (st1 := set_used u (set_hmem (<[a + f_magic := 0]> (hmem st)) st)).
  assert (forall b, b ∈ fl -> exists t, bs !! b = Some (t, false)) as Hfree
    by (intros b; apply (hw_free _ _ _ Hw)).
  assert (seg (hmem st1) (free_list st1) fl 0) as Hseg.
  { apply seg_write; [|apply Hw]. intros b Hbin. destruct (Hfree b Hbin) as [t Ht].
    pose proof (block_bounds _ _ _ _ _ Hg Ht). unfold f_magic.
    apply (words_apart bs (heap_end st) a s true b t false); try done; try lia. congruence. }
  rewrite (seg_next _ _ _ Hseg) in Hseg.
  destruct (insert_loop st1 bs a fl Hg Hfree [] Hseg) as (l1 & l2 & n & -> & Hn & Hrun).
  pose proof (fl_length _ _ _ Hw) as Hlen.
  change (free_list st1) with (free_list st). rewrite (seg_next _ _ _ (hw_seg _ _ _ Hw)).
  erewrite bind_step by (eapply mwhile_leave; [exact Hrun|simpl Z.of_nat; lia]).
  cbv beta iota.
  erewrite bind_step by (apply (sd_block st1 bs a s true);
    [done|apply mapped_insert, Hw|done|unfold f_next; lia|done]).
  change (set_hmem _ st1) with (set_hmem (link_mem a (next_of l2) (hmem st)) (set_used u st)).
  destruct (link_wf (set_used u st) bs l1 l2 a s (heap_wf_used u _ _ _ Hw) Ha) as [Hw' Hp'].
  erewrite bind_step.
  2:{ apply (redirect_run l1 a _ bs (l1 ++ l2)); [done|do 2 apply mapped_insert; apply Hw|].
      intros b Hbin. destruct (Hfree b) as [t ?]; [set_solver|eauto]. }
  eexists _, l1, l2. split; [reflexivity|].
  destruct (redirected_fields l1 a (set_hmem (link_mem a (next_of l2) (hmem st)) (set_used u st)))
    as (F1 & F2 & F3 & F4).
  split; [exact Hw'|]. split; [exact Hp'|]. unfold same_heap. by rewrite F1, F2, F3, F4.
Qed.

Lemma kfree_ok st bs fl a s :
  heap_wf st bs fl -> live bs !! a = Some s ->
  exists st', kfree (a + 16) st = Done tt st' [] /\ kfree_post a s st bs st'.
Proof.
  intros Hw Ha. apply live_spec in Ha. pose proof (hw_geom _ _ _ Hw) as Hg.
  pose proof (block_bounds _ _ _ _ _ Hg Ha) as Hb.
  destruct (ld_header st bs a s true Hg (hw_headers _ _ _ Hw) Ha) as [_ Hm].
  destruct (free_insert_ok st bs fl a s Hw Ha) as (st1 & l1 & l2 & Hins & Hw1 & Hp1 & Hs1 & Hu1).
  unfold kfree. rewrite (proj2 (Z.eqb_neq (a + 16) 0)) by lia. cbv zeta.
  assert (a + 16 ⊟ BLOCK_HEADER_SIZE = a) as ->.
  { unfold BLOCK_HEADER_SIZE. replace (a + 16 - 16) with a by lia.
    apply wrap_small. unfold fits. lia. }
  erewrite bind_step by exact Hm. cbn [status_word]. rewrite Z.eqb_refl. cbn [negb]. cbv iota.
  erewrite bind_step by exact Hins. cbv beta iota.
  destruct (coalesce_next_ok st1 _ l1 a l2 Hw1)
    as (st2 & bs2 & l2' & Hrun2 & Hw2 & Hl2 & Hp2 & Hs2 & Hu2).
  erewrite bind_step by exact Hrun2.
  destruct (coalesce_prev_ok st2 bs2 l1 a l2' Hw2)
    as (st3 & bs3 & fl3 & Hrun3 & Hw3 & Hl3 & Hp3 & Hs3 & Hu3).
  exists st3. split; [exact Hrun3|]. exists bs3, fl3.
  pose proof (live_free bs a s Ha) as Hl1.
  split_and!; [done|by rewrite Hl3, Hl2, Hl1| |unfold same_heap in *; intuition congruence|congruence].
  apply (preserved_trans bs3 bs3 _ (hmem st1)); [done|by apply (preserved_live _ bs3) in Hp1; [|congruence]|].
  apply (preserved_trans bs3 bs3 _ (hmem st2)); [done|by apply (preserved_live _ bs3) in Hp2; [|congruence]|].
  by apply (preserved_live bs2).
Qed.
End free.
