(* ===== verification/HeapBacking.v ===== *)
(** * The kernel heap over paging and the frame allocator

    paging.c and any frame allocator keep the contract the heap is verified
    against, for the gigabyte of kernel addresses the heap grows into. *)
From S2P Require Import Prelude Effects PmmInterface PagingInterface Paging PageTable.
From S2P Require Import PagingProofs WalkProofs PagingInit PagingSpec.
From S2P Require Import Heap HeapInv HeapAlloc.

Section backing.
Context {FA : Type} `{HFA : FrameAlloc FA} `{!FrameAllocOk FA}.
Context (L : layout) (HL : layout_ok L).
Local Abbreviation kroot := (phys (pml4_new L)).
Implicit Types (b : pg_state FA).

(** The page directory of the heap's gigabyte is the static one. *)
Record heap_paging b : Prop := {
  hp_inv : kernel_inv L b;
  hp_pd : table_at (pmem b) kroot [511; 510] = Some (phys (pd_hi L));
}.

Definition frame_taken b (f : Z) : Prop :=
  exists k, f = k * PMM_FRAME_SIZE /\ 0 < k /\ k <> 511 /\ fa_owned (frames b) k /\
    ~ k ∈ fa_avail (frames b) /\ fresh (pmem b) kroot f.

Lemma heap_va_path va :
  HEAP_START <= va < HEAP_LIMIT ->
  exists k, va_path va = [511; 510; k] /\ 0 < k.
Proof.
  unfold HEAP_START, HEAP_LIMIT. intros Hva. exists (pd_idx va).
  destruct (idx_digits va) as (E1 & E2 & E3 & _). unfold va_path. rewrite E1, E2, E3.
  change (2 ^ 39) with 0x8000000000. change (2 ^ 30) with 0x40000000. change (2 ^ 21) with 0x200000.
  replace (va / 0x8000000000 mod 512) with 511 by divlia.
  replace (va / 0x40000000 mod 512) with 510 by divlia.
  split; [done|divlia].
Qed.

Lemma valid_pd_path : valid_path [511; 510].
Proof. split; [|simpl; lia]. repeat constructor; unfold valid_idx; lia. Qed.

Lemma pd_hi_low : phys (pd_hi L) < 0x1FF000.
Proof.
  destruct HL as [_ Hall]. rewrite Forall_forall in Hall.
  apply (phys_in_window (pd_hi L)), Hall. set_solver.
Qed.

Lemma heap_room b va :
  heap_paging b -> HEAP_START <= va < HEAP_LIMIT -> room kroot b va.
Proof.
  intros [Hi Hpd] Hva. destruct (heap_va_path va Hva) as (k & Hpath & _). split.
  - intros p i r t Hp Ht Hnone. rewrite Hpath in Hp.
    assert (forall q q', [511; 510] = q ++ q' -> table_at (pmem b) kroot q <> None) as Hpre.
    { intros q q' Hq Hbad. rewrite Hq, table_at_app, Hbad in Hpd. discriminate. }
    destruct p as [|x [|y [|z p]]]; simplify_eq/=.
    + exfalso. exact (Hpre [511] [510] eq_refl Hnone).
    + apply pd_hi_low.
    + by destruct p.
  - intros Hnone. exfalso. unfold va_path in Hpath. injection Hpath as E1 E2 _.
    rewrite E1, E2, Hpd in Hnone. discriminate.
Qed.

Lemma alloc_taken b a fa :
  heap_paging b -> fa_alloc (frames b) = (a, fa) ->
  heap_paging (set_frames fa b) /\ (a <> 0 -> frame_taken (set_frames fa b) a).
Proof.
  intros [[Hi Hn] Hpd] Hfa. destruct (decide (a = 0)) as [->|Hne].
  { destruct (fa_alloc_none _ _ (pi_alloc _ _ _ Hi) Hfa) as [-> _].
    split; [|done]. by destruct b. }
  destruct (alloc_frame_ok L (layout_pt_hi L HL) kroot b a fa Hi Hfa Hne)
    as (Hext & f & -> & Hin & Hout & _ & Hfr & _).
  split; [split; [split; [by apply Hext|done]|done]|]. intros _.
  destruct (fa_alloc_some _ _ _ (pi_alloc _ _ _ Hi) Hfa Hne) as (g & Hg & Hgr & Hgin & _ & _ & Ho).
  assert (g = f) as -> by (unfold PMM_FRAME_SIZE in *; lia).
  exists f. split_and!; try done; try lia.
  - by apply (pi_fresh _ _ _ Hi).
  - apply Ho. by apply (fa_avail_owned _ _ (pi_alloc _ _ _ Hi)).
Qed.

Lemma map_taken b va f flags :
  heap_paging b -> frame_taken b f -> HEAP_START <= va < HEAP_LIMIT ->
  exists r b', paging_map_page L va f flags b = Done r b' [] /\ heap_paging b' /\ frame_taken b' f.
Proof.
  intros Hhp Ht Hva. pose proof Hhp as [Hk Hpd].
  destruct (heap_va_path va Hva) as (k & Hpath & Hk0).
  destruct (map_page_spec L (layout_pt_hi L HL) (layout_pml4 L HL) b va f flags Hk)
    as (r & b' & Heq & Hk' & _ & _ & [G1 G2 G3 G4]).
  { rewrite Hpath. unfold window_path. intros [= ->]. lia. }
  { by apply heap_room. }
  exists r, b'. split; [done|]. split; [split; [done|by apply (G1 _ _ valid_pd_path)]|].
  destruct Ht as (i & -> & Hi0 & Hi1 & Ho & Hout & Hfr). exists i.
  split_and!; [done..|by apply G4|by intros Hin; apply Hout, G3|].
  intros q Hq Hbad. destruct (G2 q _ Hq Hbad) as [Hold|(g & Hg & Heq')]; [by apply (Hfr q)|].
  apply Hout. replace i with g; [done|]. unfold PMM_FRAME_SIZE in *. lia.
Qed.

Lemma free_taken b f :
  heap_paging b -> frame_taken b f -> heap_paging (set_frames (fa_free f (frames b)) b).
Proof.
  intros [[Hi Hn] Hpd] (k & -> & Hk0 & Hk1 & Ho & _ & Hfr).
  destruct (fa_free_ok _ k (pi_alloc _ _ _ Hi) Ho Hk0) as (Hinv & Hav & _).
  split; [|done]. split; [|done]. split; [apply Hi|done|].
  intros g Hg. simpl in Hg. rewrite Hav in Hg. apply elem_of_union in Hg as [Hg|Hg].
  - apply elem_of_singleton in Hg as ->. done.
  - by apply (pi_fresh _ _ _ Hi).
Qed.

(** The heap's contract. *)
#[export] Instance paging_backing_ok : HeapBackingOk (H := paging_backing L) (pg_state FA).
Proof.
  refine {| hb_inv := heap_paging; hb_taken := frame_taken |}.
  - intros b Hb. destruct (fa_alloc (frames b)) as [a fa] eqn:Hfa.
    destruct (alloc_taken b a fa Hb Hfa) as [Hb' Ht].
    exists a, (set_frames fa b). split; [|done].
    simpl. unfold alloc_frame. by rewrite Hfa.
  - intros b va f flags Hb Ht Hva _.
    destruct (map_taken b va f flags Hb Ht Hva) as (r & b' & Heq & Hb' & Ht').
    by exists r, b'.
  - intros b f Hb Ht. exists (set_frames (fa_free f (frames b)) b).
    split; [done|by apply free_taken].
Defined.
End backing.
