(* ===== verification/HeapSpec.v ===== *)
(** * The kernel heap: abstract allocator and refinement

    What a client of kmalloc and kfree may rely on, as a transition system on
    the blocks in use ([spec_step]), and the simulation that heap.c implements
    it over any backing that keeps its contract.  The instance at the end is
    the kernel's own: heap.c over paging.c over pmm.c. *)
From S2P Require Import Prelude Effects PmmInterface PagingInterface Paging PageTable.
From S2P Require Import PagingProofs WalkProofs PagingInit PagingSpec PagingTheorems Pmm PmmInit.
From S2P Require Import Heap HeapInv HeapProofs HeapAlloc HeapFree HeapBacking.

(** The client's calls, and its writes to its own blocks. *)
Inductive heap_op :=
  | Malloc (size : Z)
  | Free (ptr : Z)
  | Write (x v : Z).

(** Pointer |-> size of the blocks in use. *)
Abbreviation view := (gmap Z Z).

Definition apart (l : view) (p s : Z) : Prop :=
  forall q t, l !! q = Some t -> q + t <= p \/ p + s <= q.
Definition owns (l : view) (x : Z) : Prop :=
  exists p s, l !! p = Some s /\ p <= x < p + s.

(** The abstract allocator. *)
Inductive spec_step (l : view) : heap_op -> Z -> view -> Prop :=
  | spec_malloc size p s :
      p <> 0 -> p mod 8 = 0 -> size <= s -> l !! p = None -> apart l p s ->
      spec_step l (Malloc size) p (<[p := s]> l)
  | spec_malloc_fail size : spec_step l (Malloc size) 0 l
  | spec_free p s : l !! p = Some s -> spec_step l (Free p) 0 (delete p l)
  | spec_free_null : spec_step l (Free 0) 0 l
  | spec_write x v : owns l x -> spec_step l (Write x v) 0 l.

Section spec.
Context {B : Type} `{HB : HeapBacking B} `{!HeapBackingOk B}.
Implicit Types (st : heap B) (bs : blocks) (fl : list Z) (l : view).

Definition run_op (o : heap_op) : M (heap B) Z :=
  match o with
  | Malloc size => kmalloc size
  | Free p => kfree p;; mret 0
  | Write x v => modify (fun st => set_hmem (<[x := v]> (hmem st)) st);; mret 0
  end.

(** The calls of a client that follows the rules: sizes the heap's gigabyte can
    hold, pointers from kmalloc, and words of its own. *)
Definition legal st l (o : heap_op) : Prop :=
  match o with
  | Malloc size => 0 < size /\ heap_end st + size + 8192 <= HEAP_LIMIT
  | Free p => p = 0 \/ is_Some (l !! p)
  | Write x _ => owns l x /\ x mod 8 = 0
  end.

(** The concrete state behind a view. *)
Definition shows bs l : Prop := forall p s, l !! p = Some s <-> bs !! (p - 16) = Some (s, true).
Definition heap_ok st l : Prop :=
  exists bs fl, heap_wf st bs fl /\ shows bs l /\ hb_inv (backing st).

(** The words the client may rely on: its own, and those outside the heap. *)
Definition kept l l' st st' (o : heap_op) : Prop :=
  forall x, outside x \/ (owns l x /\ owns l' x) ->
    hmem st' !! x = match o with
                    | Write y v => if decide (x = y) then Some v else hmem st !! x
                    | _ => hmem st !! x
                    end.

Lemma shows_payload bs l x : shows bs l -> owns l x -> payload bs x.
Proof.
  intros Hs (p & s & Hp & Hx). apply Hs in Hp. exists (p - 16), s.
  split; [by apply live_spec|lia].
Qed.

Lemma kept_preserved bs l l' st st' o :
  (match o with Write _ _ => False | _ => True end) ->
  shows bs l \/ shows bs l' -> preserved bs (hmem st) (hmem st') -> kept l l' st st' o.
Proof.
  intros Ho Hs Hp x Hx. assert (hmem st' !! x = hmem st !! x) as Heq.
  { apply Hp. destruct Hx as [?|[? ?]]; [by left|right].
    destruct Hs; [by apply (shows_payload bs l)|by apply (shows_payload bs l')]. }
  by destruct o.
Qed.

Lemma shows_live bs bs' l : live bs' = live bs -> shows bs l -> shows bs' l.
Proof. intros Hl Hs p s. by rewrite <-live_spec, Hl, live_spec. Qed.

Lemma shows_insert bs bs' l a s :
  live bs' = <[a := s]> (live bs) -> shows bs l -> shows bs' (<[a + 16 := s]> l).
Proof.
  intros Hl Hs p t. rewrite <-live_spec, Hl, !lookup_insert.
  repeat case_decide; try lia; [done|]. by rewrite live_spec.
Qed.

Lemma shows_delete bs bs' l a :
  live bs' = delete a (live bs) -> shows bs l -> shows bs' (delete (a + 16) l).
Proof.
  intros Hl Hs p t. rewrite <-live_spec, Hl, !lookup_delete.
  repeat case_decide; try lia; [done|]. by rewrite live_spec.
Qed.

Lemma malloc_refines st l size :
  heap_ok st l -> legal st l (Malloc size) ->
  exists r st' l', run_op (Malloc size) st = Done r st' [] /\
    spec_step l (Malloc size) r l' /\ heap_ok st' l' /\ kept l l' st st' (Malloc size).
Proof.
  intros (bs & fl & Hw & Hs & Hi) [Hsz Hlim].
  destruct (kmalloc_ok st bs fl size Hw Hi Hsz Hlim) as (p & st' & Hrun & Hpost & _).
  destruct Hpost as (bs' & fl' & Hw' & Hi' & Hp & [(-> & Hl & _)|(a & s & -> & Hna & Hl & Hle1 & Hle2 & _)]).
  - exists 0, st', l. split_and!; [done|constructor|exists bs', fl'; split_and!; try done|].
    + by apply (shows_live bs).
    + by apply (kept_preserved bs); [|left|].
  - assert (bs' !! a = Some (s, true)) as Ha by (apply live_spec; rewrite Hl; apply lookup_insert_eq).
    pose proof (hw_geom _ _ _ Hw') as Hg'. pose proof (block_bounds _ _ _ _ _ Hg' Ha) as Hb.
    assert (l !! (a + 16) = None) as Hnone.
    { apply eq_None_not_Some. intros [t Ht]. apply Hs in Ht. apply Hna, elem_of_dom. exists t.
      apply live_spec. by replace (a + 16 - 16) with a in Ht by lia. }
    exists (a + 16), st', (<[a + 16 := s]> l). split_and!; [done| |exists bs', fl'; split_and!; try done|].
    + constructor; try done; [lia|divlia|lia|].
      intros q t Hq. apply Hs in Hq.
      assert (bs' !! (q - 16) = Some (t, true)) as Hq'.
      { apply live_spec. rewrite Hl, lookup_insert_ne; [by apply live_spec|].
        intros ->. apply Hna, elem_of_dom. exists t. by apply live_spec. }
      assert (q - 16 <> a) as Hne.
      { intros <-. apply Hna, elem_of_dom. exists t. by apply live_spec. }
      pose proof (geom_apart _ _ _ _ _ _ _ _ Hg' Ha Hq' Hne). lia.
    + by apply (shows_insert bs).
    + by apply (kept_preserved bs); [|left|].
Qed.

Lemma free_refines st l p :
  heap_ok st l -> legal st l (Free p) ->
  exists r st' l', run_op (Free p) st = Done r st' [] /\
    spec_step l (Free p) r l' /\ heap_ok st' l' /\ kept l l' st st' (Free p).
Proof.
  intros (bs & fl & Hw & Hs & Hi) [->|[s Hp]].
  - exists 0, st, l. split_and!; [done|constructor|by exists bs, fl|by intros x].
  - pose proof Hp as Hp'. apply Hs, live_spec in Hp'.
    destruct (kfree_ok st bs fl (p - 16) s Hw Hp') as (st' & Hrun & bs' & fl' & Hw' & Hl & Hpr & (_ & _ & Hb) & _).
    replace (p - 16 + 16) with p in * by lia.
    exists 0, st', (delete p l). split_and!.
    + simpl. by erewrite bind_step by exact Hrun.
    + by apply (spec_free l p s).
    + exists bs', fl'. split_and!; [done| |by rewrite Hb].
      replace p with (p - 16 + 16) by lia. by apply (shows_delete bs).
    + apply (kept_preserved bs'); [done|right|done].
      replace p with (p - 16 + 16) by lia. by apply (shows_delete bs).
Qed.

Lemma write_wf st bs fl a s x v :
  heap_wf st bs fl -> bs !! a = Some (s, true) -> a + 16 <= x < a + 16 + s ->
  heap_wf (set_hmem (<[x := v]> (hmem st)) st) bs fl.
Proof.
  intros Hw Ha Hx. pose proof (hw_geom _ _ _ Hw) as Hg. split; simpl; try apply Hw.
  - apply headers_write; [apply Hw|]. by eapply payload_off_headers.
  - apply mapped_insert, Hw.
  - apply seg_write; [|apply Hw]. intros b Hb Heq.
    destruct (wf_free_blocks _ _ _ b Hw Hb) as [t Ht].
    pose proof (block_bounds _ _ _ _ _ Hg Ht).
    assert (b <> a) as Hne by congruence.
    pose proof (geom_apart _ _ _ _ _ _ _ _ Hg Ha Ht Hne). lia.
Qed.

Lemma heap_refines_aux st l o :
  heap_ok st l -> legal st l o ->
  exists r st' l', run_op o st = Done r st' [] /\
    spec_step l o r l' /\ heap_ok st' l' /\ kept l l' st st' o.
Proof.
  destruct o as [size|p|x v]; [apply malloc_refines|apply free_refines|].
  intros (bs & fl & Hw & Hs & Hi) [(p & s & Hp & Hx) _].
  exists 0, (set_hmem (<[x := v]> (hmem st)) st), l. split_and!.
  - done.
  - constructor. by exists p, s.
  - exists bs, fl. split_and!; [|done|done]. apply Hs in Hp.
    apply (write_wf st bs fl (p - 16) s); [done|done|lia].
  - intros y _. simpl. rewrite lookup_insert. repeat case_decide; congruence.
Qed.
End spec.
