(* ===== verification/HeapTheorems.v ===== *)
(** * The kernel heap: theorems

    Initialisation, refinement of the abstract allocator, and the places where
    heap.c leaves it; the kernel's machine as the common instance. *)
From S2P Require Import Prelude Effects PmmInterface PagingInterface Paging PageTable.
From S2P Require Import PagingProofs WalkProofs PagingInit PagingSpec PagingTheorems Pmm PmmInit.
From S2P Require Import Heap HeapInv HeapProofs HeapAlloc HeapFree HeapBacking HeapSpec.

Section theorems.
Context {B : Type} `{HB : HeapBacking B} `{!HeapBackingOk B}.
Implicit Types (st : heap B) (bs : blocks) (fl : list Z) (l : view).

Definition starting : call := KPrint ("Heap: Initializing..." +:+ NL).
Definition ready : call := KPrint ("Heap: Ready (16 KiB initial)" +:+ NL).
Definition failed : call := KPrint ("Heap: ERROR - Cannot allocate initial pages!" +:+ NL).

(** The header of the initial block. *)
Lemma init_block_ok st0 :
  heap_start st0 = HEAP_START -> heap_end st0 = HEAP_START + 0x4000 ->
  mapped (hmem st0) (heap_end st0) ->
  exists st', init_block st0 = Done tt st' [] /\
    heap_wf st' {[HEAP_START := (0x3FF0, false)]} [HEAP_START] /\
    backing st' = backing st0 /\ heap_used_bytes st' = heap_used_bytes st0 /\
    heap_end st' = heap_end st0.
Proof.
  intros Hst He Hm. unfold init_block.
  erewrite bind_step by reflexivity. erewrite bind_step by reflexivity.
  set (st := set_free_list (heap_start st0) st0).
  change (heap_start st) with (heap_start st0). change (heap_end st) with (heap_end st0).
  change (free_list st) with (heap_start st0). rewrite Hst, He.
  pose proof He as He0. pose proof Hst as Hst0.
  change (hmem st0) with (hmem st) in Hm. change (heap_end st0) with (heap_end st) in Hm, He.
  assert (free_list st = HEAP_START) as Hf by exact Hst.
  change (HEAP_START + 0x4000 ⊟ HEAP_START ⊟ BLOCK_HEADER_SIZE) with 0x3FF0.
  assert (forall m f v, 0 <= f < 24 -> f mod 8 = 0 -> mapped m (heap_end st) ->
    sd HEAP_START f v (set_hmem m st) = Done tt (set_hmem (<[HEAP_START + f := v]> m) st) [] /\
    mapped (<[HEAP_START + f := v]> m) (heap_end st)) as Hsd.
  { intros m f v Hr H8 Hmm. split; [|by apply mapped_insert].
    rewrite sd_ok; [done|unfold HEAP_START in *; lia..|unfold HEAP_START; divlia|].
    apply Hmm; [rewrite He; lia|unfold HEAP_START; divlia]. }
  destruct (Hsd (hmem st) f_size 0x3FF0 ltac:(done) ltac:(done) Hm) as [E1 Hm1].
  replace (set_hmem (hmem st) st) with st in E1 by (by destruct st).
  erewrite bind_step by exact E1.
  destruct (Hsd _ f_magic 0 ltac:(done) ltac:(done) Hm1) as [E2 Hm2].
  erewrite bind_step by exact E2.
  destruct (Hsd _ f_next 0 ltac:(done) ltac:(done) Hm2) as [E3 Hm3]. rewrite E3.
  eexists. split; [reflexivity|]. split; [split; simpl|done].
  - done.
  - rewrite He0. split.
    + split; [unfold HEAP_START, HEAP_LIMIT; lia|done].
    + intros a s u [<- [= <- <-]]%lookup_singleton_Some. unfold in_heap, HEAP_START. split_and!; lia || done.
    + intros a s u b t v [<- _]%lookup_singleton_Some [<- _]%lookup_singleton_Some. lia.
  - intros a s u [<- [= <- <-]]%lookup_singleton_Some. unfold f_size, f_magic, f_next.
    rewrite Z.add_0_r. split.
    + by rewrite !lookup_insert_ne, lookup_insert_eq by lia.
    + by rewrite lookup_insert_ne, lookup_insert_eq by lia.
  - exact Hm3.
  - split; [done|]. exists 0. split; [|done]. unfold f_next. by rewrite lookup_insert_eq.
  - apply NoDup_singleton.
  - intros a. rewrite list_elem_of_singleton. split.
    + intros ->. exists 0x3FF0. by rewrite lookup_singleton_eq.
    + by intros (s & [<- _]%lookup_singleton_Some).
Qed.

Lemma heap_init_aux st :
  hb_inv (backing st) ->
  exists r st' out, heap_init st = Done r st' out /\ heap_used_bytes st' = heap_used_bytes st /\
    ((r = -1 /\ out = [starting; failed]) \/
     (r = 0 /\ out = [starting; ready] /\ heap_end st' = HEAP_START + 0x4000 /\ heap_ok st' ∅ /\
      heap_wf st' {[HEAP_START := (0x3FF0, false)]} [HEAP_START])).
Proof.
  intros Hi. unfold heap_init.
  set (st0 := Heap HEAP_START HEAP_START (heap_used_bytes st) (free_list st) (hmem st) (backing st)).
  erewrite bind_done by reflexivity.
  erewrite (bind_done _ _ st) by reflexivity.
  change (set_heap_end HEAP_START _) with st0.
  destruct (heap_extend_ok st0 4) as (r & st1 & j & Hext & Hex & Hj & Hr); try done.
  erewrite bind_done by exact Hext. destruct Hr as [[-> ->]|[-> Hlt]].
  - cbn [negb Z.eqb]. cbv iota.
    destruct (init_block_ok st1) as (st2 & Hrun & Hw & Hb & Hu & He);
      [apply (ex_start _ _ _ Hex)|apply (ex_end _ _ _ Hex)| |].
    { intros x Hx H8. rewrite (ex_new _ _ _ Hex); [eauto|exact Hx|done]. }
    erewrite bind_done by exact Hrun. erewrite bind_done by reflexivity.
    eexists _, _, _. split; [reflexivity|]. split; [by rewrite Hu, (ex_used _ _ _ Hex)|].
    right. split_and!; [done|done|rewrite He; apply (ex_end _ _ _ Hex)| |exact Hw].
    exists {[HEAP_START := (0x3FF0, false)]}, [HEAP_START]. split_and!; [exact Hw| |].
    + intros p s. split; [done|]. by intros [_ [=]]%lookup_singleton_Some.
    + rewrite Hb. apply (ex_inv _ _ _ Hex).
  - cbn [negb Z.eqb]. cbv iota. erewrite bind_done by reflexivity.
    eexists _, _, _. split; [reflexivity|]. split; [by rewrite (ex_used _ _ _ Hex)|]. by left.
Qed.

(** [heap_init] prints its banner and either fails with -1 after saying so,
    or leaves a heap of 16 KiB that is one free block, with nothing in use. *)
Theorem heap_init_correct st :
  hb_inv (backing st) ->
  exists r st' out, heap_init st = Done r st' out /\ heap_used_bytes st' = heap_used_bytes st /\
    ((r = -1 /\ out = [starting; failed]) \/
     (r = 0 /\ out = [starting; ready] /\ heap_end st' = HEAP_START + 0x4000 /\ heap_ok st' ∅ /\
      heap_wf st' {[HEAP_START := (0x3FF0, false)]} [HEAP_START])).
Proof. apply heap_init_aux. Qed.


(** What the refinement means for clients: in a well-formed heap two blocks
    in use never overlap, and every word of a block is mapped. *)
Theorem heap_blocks_apart st l p s :
  heap_ok st l -> l !! p = Some s ->
  (forall x, p <= x < p + s -> x mod 8 = 0 -> is_Some (hmem st !! x)) /\
  (forall q t, l !! q = Some t -> q <> p -> p + s + 16 <= q \/ q + t + 16 <= p).
Proof.
  intros (bs & fl & Hw & Hs & _) Hp. apply Hs in Hp.
  pose proof (hw_geom _ _ _ Hw) as Hg. pose proof (block_bounds _ _ _ _ _ Hg Hp) as Hb. split.
  - intros x Hx Hx8. apply (hw_mapped _ _ _ Hw); [lia|done].
  - intros q t Hq Hne. apply Hs in Hq.
    pose proof (geom_apart _ _ _ _ _ _ _ _ Hg Hp Hq ltac:(lia)). lia.
Qed.

(** C31: first fit: [kmalloc] succeeds without growing the heap exactly when
    some free block is large enough, and takes the first such block of the
    free list; the pointer it returns lies behind that block's header. *)
Theorem kmalloc_first_fit st bs fl size :
  heap_wf st bs fl -> hb_inv (backing st) -> 0 < size ->
  heap_end st + size + 8192 <= HEAP_LIMIT ->
  ~ none_fits bs (align_up size 8) fl ->
  exists (l1 : list Z) a (l2 : list Z) s st', fl = l1 ++ a :: l2 /\ none_fits bs (align_up size 8) l1 /\
    bs !! a = Some (s, false) /\ align_up size 8 <= s /\
    kmalloc size st = Done (a + 16) st' [] /\ heap_end st' = heap_end st.
Proof.
  intros Hw Hi Hsz Hlim Hsome. destruct (ge_end _ _ (hw_geom _ _ _ Hw)) as [[He _] _].
  assert (size + 16 < 2 ^ 64) as Hlt by (unfold HEAP_START, HEAP_LIMIT in *; lia).
  destruct (align_up_8 size Hsz Hlt) as (H8 & Hn & _).
  destruct (search_free_ok st bs fl (align_up size 8) Hw H8) as
    [(l1 & a & l2 & s & st' & bs' & fl' & s' & Hfl & Ha & Hle & Hnone & Hrun & Hal)|[Hnone _]];
    [divlia| |done].
  exists l1, a, l2, s, st'. split_and!; try done; [|apply Hal].
  apply (mwhile_leave _ 32 1); [|lia]. apply mloop_done. unfold kmalloc_body.
  rewrite (proj2 (Z.eqb_neq size 0)) by lia. cbv zeta. by erewrite bind_step by exact Hrun.
Qed.

(** [kfree] ignores NULL and any pointer whose header does not carry the
    magic word; in particular a second [kfree] of a block that was not merged
    changes nothing. *)
Theorem kfree_ignores st ptr :
  ptr = 0 \/
  (fits 64 ptr /\ (ptr ⊟ 8) mod 8 = 0 /\ exists m, hmem st !! (ptr ⊟ 8) = Some m /\ m <> HEAP_MAGIC) ->
  kfree ptr st = Done tt st [].
Proof.
  intros [->|(Hp & H8 & m & Hm & Hne)]; [done|]. unfold kfree.
  destruct (Z.eqb_spec ptr 0) as [->|H0]; [done|]. cbv zeta.
  assert (ptr ⊟ BLOCK_HEADER_SIZE ⊞ f_magic = ptr ⊟ 8) as Ha.
  { unfold f_magic, BLOCK_HEADER_SIZE. rewrite wrap_add_l. f_equal. lia. }
  assert (ld (ptr ⊟ BLOCK_HEADER_SIZE) f_magic st = Done m st []) as Hld.
  { unfold ld. rewrite Ha, (proj2 (Z.eqb_eq _ _) H8). simpl. by rewrite Hm. }
  erewrite bind_step by exact Hld. by rewrite (proj2 (Z.eqb_neq _ _) Hne).
Qed.

(** [kmalloc_aligned] with a power of two returns NULL or an aligned pointer
    whose [size] bytes lie inside one new block; when the alignment moved the
    pointer, that pointer is not the one [kfree] needs. *)
Theorem kmalloc_aligned_correct st bs fl size k :
  heap_wf st bs fl -> hb_inv (backing st) -> 0 < size -> 3 <= k < 30 ->
  heap_end st + size + 2 ^ k + 16 + 8192 <= HEAP_LIMIT ->
  exists p st', kmalloc_aligned size (2 ^ k) st = Done p st' [] /\
    (p = 0 \/ p mod 2 ^ k = 0 /\
       exists bs' fl' a s, heap_wf st' bs' fl' /\ live bs' = <[a := s]> (live bs) /\
         a + 16 <= p /\ p + size <= a + 16 + s).
Proof.
  intros Hw Hi Hsz Hk Hlim. destruct (ge_end _ _ (hw_geom _ _ _ Hw)) as [[He _] _].
  assert (0 < 2 ^ k) as Hpos by (apply Z.pow_pos_nonneg; lia).
  unfold HEAP_START, HEAP_LIMIT in He, Hlim.
  assert (size ⊞ 2 ^ k ⊞ BLOCK_HEADER_SIZE = size + 2 ^ k + 16) as Hsum.
  { unfold BLOCK_HEADER_SIZE. rewrite (wrap_small 64 (size + 2 ^ k)) by (unfold fits; lia).
    apply wrap_small. unfold fits. lia. }
  unfold kmalloc_aligned. rewrite Hsum.
  destruct (kmalloc_ok st bs fl (size + 2 ^ k + 16) Hw Hi) as (p & st' & Hrun & Hpost & _);
    [lia|unfold HEAP_LIMIT; lia|].
  erewrite bind_step by exact Hrun.
  destruct Hpost as (bs' & fl' & Hw' & _ & _ & [(-> & _)|(a & s & -> & _ & Hl & Hle & Hs & _)]).
  { exists 0, st'. split; [done|by left]. }
  assert (bs' !! a = Some (s, true)) as Ha by (apply live_spec; rewrite Hl; apply lookup_insert_eq).
  pose proof (block_bounds _ _ _ _ _ (hw_geom _ _ _ Hw') Ha) as Hb.
  rewrite (proj2 (Z.eqb_neq (a + 16) 0)) by lia. cbv zeta.
  assert (size + 2 ^ k + 16 <= s) as Hroom by lia.
  assert (align_up (a + 16) (2 ^ k) = (a + 16 + 2 ^ k - 1) / 2 ^ k * 2 ^ k) as Hal.
  { unfold align_up. rewrite (wrap_small 64 (a + 16 + 2 ^ k)) by (unfold fits; lia).
    rewrite (wrap_small 64 (a + 16 + 2 ^ k - 1)) by (unfold fits; lia).
    rewrite (wrap_small 64 (2 ^ k - 1)) by (unfold fits; lia).
    apply land_mask_down; [unfold fits; lia|lia]. }
  set (q := align_up (a + 16) (2 ^ k)) in *.
  assert (q mod 2 ^ k = 0) as Hq by (rewrite Hal; apply Z_mod_mult).
  assert (a + 16 <= q < a + 16 + 2 ^ k) as Hqr.
  { rewrite Hal. pose proof (Z.div_mod (a + 16 + 2 ^ k - 1) (2 ^ k) ltac:(lia)).
    pose proof (Z.mod_pos_bound (a + 16 + 2 ^ k - 1) (2 ^ k) Hpos). lia. }
  destruct (Z.eqb_spec q (a + 16)) as [Heq|Hne].
  - exists (a + 16), st'. split; [done|]. right. rewrite <-Heq at 1. split; [done|].
    exists bs', fl', a, s. split_and!; done || lia.
  - exists q, st'. split; [done|]. right. split; [done|].
    exists bs', fl', a, s. split_and!; done || lia.
Qed.
End theorems.

(** ** The kernel's heap *)

(** heap.c over paging.c over pmm.c, on the machine of [PagingTheorems.v]. *)
#[local] Existing Instance paging_backing.
Local Abbreviation machine := (pg_state pmm_state).
#[local] Instance sample_backing : HeapBacking machine := paging_backing sample_layout.
#[local] Instance sample_backing_ok : HeapBackingOk machine :=
  paging_backing_ok sample_layout sample_layout_ok.

Definition before_heap : heap machine := Heap 0 0 0 0 ∅ low_machine.
Definition on_machine {A} (m : M (heap machine) A) : outcome (heap machine) A :=
  (backed (paging_init sample_layout);; heap_init;; m) before_heap.

Lemma sample_init_succeeds :
  value_of ((backed (paging_init sample_layout);; heap_init) before_heap) = Some 0.
Proof. vm_compute. reflexivity. Qed.

Lemma sample_heap : exists st : heap machine, heap_ok st ∅ /\ hb_inv (backing st) /\
  heap_wf st {[HEAP_START := (0x3FF0, false)]} [HEAP_START] /\
  heap_end st = HEAP_START + 0x4000.
Proof.
  destruct machine_boots as (pg & Hboot & Hb).
  assert (backed (paging_init sample_layout) before_heap = Done tt (set_backing pg before_heap) [])
    as E by (by apply backed_ok).
  pose proof sample_init_succeeds as Hv. rewrite (bind_step _ _ _ _ _ E) in Hv.
  destruct (heap_init_aux (set_backing pg before_heap)) as (r & st & out & Hrun & _ & Hcase).
  { split; [apply (bo_inv _ Hb)|]. rewrite sample_root. apply (bo_pd _ Hb). }
  rewrite Hrun in Hv. injection Hv as ->.
  destruct Hcase as [[? _]|(_ & _ & He & Hok & Hw)]; [done|].
  exists st. split_and!; [done| |done|done]. by destruct Hok as (? & ? & _ & _ & ?).
Qed.

(** The counter behind [heap_used] drifts: kmalloc adds the rounded request,
    kfree subtracts the block, which may be larger.  One allocation that takes
    the initial block whole, freed again, leaves a "used" count of 2^64 - 8. *)
Theorem heap_used_underflows :
  match on_machine (p ← kmalloc 16360; kfree p) with
  | Done _ st _ => heap_used st = 2 ^ 64 - 8
  | Stop _ _ => False
  end.
Proof. vm_compute. reflexivity. Qed.

(** A request within 7 bytes of 2^64 rounds up to 0: [kmalloc] then "succeeds"
    with a pointer to the header of the first free block, so that the caller's
    first write corrupts the free list. *)
Theorem kmalloc_huge_request_overlaps :
  match on_machine (kmalloc (2 ^ 64 - 1)) with
  | Done p st _ => p <> 0 /\ p = free_list st
  | Stop _ _ => False
  end.
Proof. vm_compute. split; [discriminate|reflexivity]. Qed.

(** Pages that a failing extension has already mapped are lost: after a
    request that is too large, the heap has grown over all remaining frames
    but none of them can be allocated, although nothing is in use. *)
Theorem heap_failed_extension_leaks :
  match on_machine (p ← kmalloc 0x100000; q ← kmalloc 0x8000; mret (p, q)) with
  | Done r st _ => r = (0, 0) /\ heap_used st = 0 /\ 0x80000 <= heap_size st
  | Stop _ _ => False
  end.
Proof. vm_compute. split; [reflexivity|]. split; [reflexivity|discriminate]. Qed.

(** ** Witnesses *)

Lemma sample_fits st size :
  heap_end st = HEAP_START + 0x4000 -> size <= 0x100000 -> heap_end (B := machine) st + size + 8192 <= HEAP_LIMIT.
Proof. intros -> Hs. unfold HEAP_START, HEAP_LIMIT. lia. Qed.

Lemma sample_fits_100 : ~ none_fits {[HEAP_START := (0x3FF0, false)]} (align_up 100 8) [HEAP_START].
Proof.
  intros Hn. assert (0x3FF0 < align_up 100 8) as Hbad.
  { apply (Hn HEAP_START); [by apply list_elem_of_singleton|by rewrite lookup_singleton_eq]. }
  vm_compute in Hbad. discriminate.
Qed.

Lemma heap_init_correct_witness :
  exists st r st' out, heap_init (B := machine) st = Done r st' out /\ (r = -1 \/ r = 0).
Proof.
  destruct sample_heap as (st & _ & Hi & _).
  destruct (heap_init_correct st Hi) as (r & st' & out & Hrun & _ & Hcase).
  exists st, r, st', out. split; [exact Hrun|]. destruct Hcase as [[-> _]|[-> _]]; [left|right]; reflexivity.
Defined.


Lemma kmalloc_first_fit_witness :
  exists (st st' : heap machine), kmalloc 100 st = Done (HEAP_START + 16) st' [].
Proof.
  destruct sample_heap as (st & _ & Hi & Hw & He).
  destruct (kmalloc_first_fit st _ _ 100 Hw Hi) as (l1 & a & l2 & s & st' & Hl & _ & _ & _ & Hrun & _).
  - done.
  - apply (sample_fits st 100 He). lia.
  - apply sample_fits_100.
  - destruct l1 as [|b [|c l1]]; simplify_eq/=. by exists st, st'.
Defined.

Lemma sample_block : exists (st : heap machine) (l : view) p s, heap_ok st l /\ l !! p = Some s.
Proof.
  destruct sample_heap as (st & Hok & Hi & Hw & He).
  destruct (kmalloc_found st _ _ 100 Hw Hi ltac:(lia) ltac:(lia) sample_fits_100)
    as (p & st1 & Hrun & (bs1 & fl1 & Hw1 & Hi1 & _ & Hcase) & Hp0 & He1).
  destruct Hcase as [[? _]|(a & s & -> & _ & Hl1 & _)]; [done|].
  exists st1, (<[a + 16 := s]> ∅), (a + 16), s. split; [|by rewrite lookup_insert_eq].
  exists bs1, fl1. split_and!; [done| |done]. eapply (shows_insert _ bs1 ∅); [exact Hl1|].
  intros q t. split; [done|]. by intros [_ [=]]%lookup_singleton_Some.
Qed.

Lemma heap_blocks_apart_witness :
  exists (st : heap machine) (l : view) p s, l !! p = Some s /\
    forall x, p <= x < p + s -> x mod 8 = 0 -> is_Some (hmem st !! x).
Proof.
  destruct sample_block as (st & l & p & s & Hok & Hp).
  destruct (heap_blocks_apart st l p s Hok Hp) as [Hm _]. exists st, l, p, s. done.
Defined.

Lemma kfree_ignores_witness : kfree 0 before_heap = Done tt before_heap [].
Proof. apply (kfree_ignores before_heap 0). left. reflexivity. Defined.

Lemma kmalloc_aligned_correct_witness :
  exists (st : heap machine) p st', kmalloc_aligned 100 (2 ^ 12) st = Done p st' [] /\
    (p = 0 \/ p mod 2 ^ 12 = 0).
Proof.
  destruct sample_heap as (st & _ & Hi & Hw & He).
  destruct (kmalloc_aligned_correct st _ _ 100 12 Hw Hi) as (p & st' & Hrun & Hp).
  - done.
  - lia.
  - rewrite He. unfold HEAP_START, HEAP_LIMIT. lia.
  - exists st, p, st'. split; [exact Hrun|]. destruct Hp as [?|[? _]]; auto.
Defined.
