(* ===== verification/KernelMem.v ===== *)
(** * Kernel memory, as the clients of the heap see it

    The interface between heap.c and the code above it: [kmalloc], and word
    accesses to kernel memory.  The contract ([KernelMemOk]) is stated with
    the abstract allocator of HeapSpec.v: a client owns the blocks it was
    given, its accesses to them and to the memory outside the heap succeed,
    and an allocation leaves all of that memory alone.  heap.c over any
    verified backing is the instance. *)
From S2P Require Import Prelude Effects PmmInterface PagingInterface Paging.
From S2P Require Import Heap HeapInv HeapProofs HeapAlloc HeapFree HeapSpec.

Class KernelMem (B : Type) := {
  km_kmalloc : Z -> M B Z;
  km_ld : Z -> M B Z;
  km_sd : Z -> Z -> M B unit;
}.

(** A word a client may write: mapped, aligned, and its own or outside the
    heap. *)
Definition writable (words : gmap Z Z) (l : view) (x : Z) : Prop :=
  is_Some (words !! x) /\ x mod 8 = 0 /\ fits 64 x /\ (outside x \/ owns l x).

(** What an owned block is. *)
Definition block_ok (words : gmap Z Z) (p s : Z) : Prop :=
  0 < p /\ p mod 8 = 0 /\ p + s < 2 ^ 64 /\
  forall x, p <= x < p + s -> x mod 8 = 0 -> ~ outside x /\ is_Some (words !! x).

Class KernelMemOk (B : Type) `{KernelMem B} := {
  km_inv : B -> view -> Prop;
  km_words : B -> gmap Z Z;
  km_room : B -> Z -> Prop;
  km_kmalloc_ok : forall b l size, km_inv b l -> 0 < size -> km_room b size ->
    exists p b' l', km_kmalloc size b = Done p b' [] /\ spec_step l (Malloc size) p l' /\
      km_inv b' l' /\ forall x, outside x \/ owns l x -> km_words b' !! x = km_words b !! x;
  km_block : forall b l p s, km_inv b l -> l !! p = Some s -> block_ok (km_words b) p s;
  km_apart : forall b l p s q t, km_inv b l -> l !! p = Some s -> l !! q = Some t -> p <> q ->
    p + s <= q \/ q + t <= p;
  km_ld_ok : forall b x v, x mod 8 = 0 -> fits 64 x -> km_words b !! x = Some v ->
    km_ld x b = Done v b [];
  km_ld_fault : forall b x, x mod 8 = 0 -> fits 64 x -> km_words b !! x = None ->
    km_ld x b = Stop (PageFault x) [];
  km_sd_ok : forall b l x v, km_inv b l -> writable (km_words b) l x ->
    exists b', km_sd x v b = Done tt b' [] /\ km_inv b' l /\ km_words b' = <[x := v]> (km_words b);
}.

(** A client only gains blocks by allocating. *)
Lemma malloc_owns l size p l' :
  spec_step l (Malloc size) p l' ->
  (p = 0 /\ l' = l) \/
  (p <> 0 /\ l !! p = None /\ exists s, size <= s /\ apart l p s /\ l' = <[p := s]> l).
Proof. intros Hs. inversion Hs; subst; [right|left]; eauto 10. Qed.

(** heap.c. *)
#[export] Instance heap_kernel_mem {B} `{HeapBacking B} : KernelMem (heap B) := {
  km_kmalloc := kmalloc;
  km_ld x := ld x 0;
  km_sd x v := sd x 0 v;
}.

Section instance.
Context {B : Type} `{HB : HeapBacking B} `{!HeapBackingOk B}.
Implicit Types (st : heap B) (l : view).

Lemma heap_block st l p s :
  heap_ok st l -> l !! p = Some s ->
  exists bs, shows bs l /\ geom bs (heap_end st) /\ mapped (hmem st) (heap_end st) /\
    bs !! (p - 16) = Some (s, true).
Proof.
  intros (bs & fl & Hw & Hs & _) Hp. exists bs.
  split_and!; [done|apply Hw|apply Hw|by apply Hs].
Qed.

Lemma heap_block_ok st l p s : heap_ok st l -> l !! p = Some s -> block_ok (hmem st) p s.
Proof.
  intros Hok Hp. destruct (heap_block _ _ _ _ Hok Hp) as (bs & _ & Hg & Hm & Hb).
  pose proof (block_bounds _ _ _ _ _ Hg Hb) as Hbb. destruct (ge_end _ _ Hg) as [He _].
  split_and!; [lia|divlia|lia|]. intros x Hx Hx8. split; [unfold outside; lia|]. apply Hm; [lia|done].
Qed.

Lemma heap_blocks_apart_aux st l p s q t :
  heap_ok st l -> l !! p = Some s -> l !! q = Some t -> p <> q -> p + s <= q \/ q + t <= p.
Proof.
  intros (bs & fl & Hw & Hs & _) Hp Hq Hne. apply Hs in Hp, Hq.
  pose proof (geom_apart _ _ _ _ _ _ _ _ (hw_geom _ _ _ Hw) Hp Hq ltac:(lia)). lia.
Qed.

Lemma heap_ld_ok st x :
  x mod 8 = 0 -> fits 64 x ->
  ld x 0 st = match hmem st !! x with Some v => Done v st [] | None => Stop (PageFault x) [] end.
Proof.
  intros H8 Hx. unfold ld. rewrite Z.add_0_r, wrap_small by done.
  by rewrite (proj2 (Z.eqb_eq _ _) H8).
Qed.

Lemma outside_wf st bs fl x v :
  heap_wf st bs fl -> outside x -> heap_wf (set_hmem (<[x := v]> (hmem st)) st) bs fl.
Proof.
  intros Hw Hx. pose proof (hw_geom _ _ _ Hw) as Hg. destruct (ge_end _ _ Hg) as [He _].
  unfold outside in Hx.
  split; simpl; try apply Hw.
  - apply headers_write; [apply Hw|]. intros a s u Ha.
    pose proof (block_bounds _ _ _ _ _ Hg Ha). lia.
  - apply mapped_insert, Hw.
  - apply seg_write; [|apply Hw]. intros b Hb.
    destruct (wf_free_blocks _ _ _ b Hw Hb) as [t Ht].
    pose proof (block_bounds _ _ _ _ _ Hg Ht). lia.
Qed.

Lemma heap_sd_ok st l x v :
  heap_ok st l -> writable (hmem st) l x ->
  sd x 0 v st = Done tt (set_hmem (<[x := v]> (hmem st)) st) [] /\
  heap_ok (set_hmem (<[x := v]> (hmem st)) st) l.
Proof.
  intros (bs & fl & Hw & Hs & Hi) ([w Hx] & H8 & Hfit & Hown). split.
  - unfold sd. rewrite Z.add_0_r, wrap_small by done.
    rewrite (proj2 (Z.eqb_eq _ _) H8). simpl. by rewrite Hx.
  - exists bs, fl. split_and!; [|done|done]. destruct Hown as [Ho|(p & s & Hp & Hr)].
    + by apply outside_wf.
    + apply Hs in Hp. apply (write_wf st bs fl (p - 16) s); [done|done|lia].
Qed.

Lemma run_op_malloc size : run_op (B := B) (Malloc size) = kmalloc size.
Proof. unfold run_op. reflexivity. Qed.

Lemma heap_kmalloc_ok st l size :
  heap_ok st l -> 0 < size -> heap_end st + size + 8192 <= HEAP_LIMIT ->
  exists p st' l', kmalloc size st = Done p st' [] /\ spec_step l (Malloc size) p l' /\
    heap_ok st' l' /\ forall x, outside x \/ owns l x -> hmem st' !! x = hmem st !! x.
Proof.
  intros Hok Hs Hroom.
  destruct (malloc_refines st l size Hok (conj Hs Hroom)) as (p & st' & l' & Hrun & Hst & Hok' & Hk).
  rewrite run_op_malloc in Hrun. clear Hs Hroom. exists p, st', l'. split; [exact Hrun|].
  split; [exact Hst|]. split; [exact Hok'|]. intros x Hx. apply (Hk x).
  destruct Hx as [Ho|Ho]; [by left|right]. split; [exact Ho|].
  destruct (malloc_owns _ _ _ _ Hst) as [(_ & ->)|(_ & Hn & s & _ & _ & ->)]; [exact Ho|].
  destruct Ho as (q & t & Hq & Hr). exists q, t. split; [|done].
  rewrite lookup_insert_ne; [done|congruence].
Qed.

Lemma heap_load st x v :
  x mod 8 = 0 -> fits 64 x -> hmem st !! x = Some v -> ld x 0 st = Done v st [].
Proof. intros H8 Hx Hv. rewrite heap_ld_ok by done. by rewrite Hv. Qed.

Lemma heap_load_fault st x :
  x mod 8 = 0 -> fits 64 x -> hmem st !! x = None -> ld x 0 st = Stop (PageFault x) [].
Proof. intros H8 Hx Hv. rewrite heap_ld_ok by done. by rewrite Hv. Qed.

Lemma heap_store st l x v :
  heap_ok st l -> writable (hmem st) l x ->
  exists st', sd x 0 v st = Done tt st' [] /\ heap_ok st' l /\ hmem st' = <[x := v]> (hmem st).
Proof.
  intros Hok Hw. destruct (heap_sd_ok st l x v Hok Hw) as [E Hok'].
  by exists (set_hmem (<[x := v]> (hmem st)) st).
Qed.

#[export] Instance heap_kernel_mem_ok : KernelMemOk (heap B) := {
  km_inv := heap_ok;
  km_words := hmem;
  km_room st size := heap_end st + size + 8192 <= HEAP_LIMIT;
  km_kmalloc_ok := heap_kmalloc_ok;
  km_block := heap_block_ok;
  km_apart := heap_blocks_apart_aux;
  km_ld_ok := heap_load;
  km_ld_fault := heap_load_fault;
  km_sd_ok := heap_store;
}.
End instance.
