(* ===== verification/Gdt.v ===== *)
(** * Segments and the task state segment (src/cpu/gdt.c, gdt.h, tss.h)

    The descriptor table is a list of seven 64-bit words, the TSS a record
    with the fields of [tss64_t]; the instructions that load them ([lgdt],
    [mov] to segment registers, [ltr], the far return) act on the record
    [seg_regs].  The second part reads descriptors back the way the CPU does
    and proves what [kinit_gdt] installs. *)
From S2P Require Import Prelude.

(** ** Data *)

(** [tss64_t]; the widths of the packed fields are in [tss_layout]. *)
Record tss64 := Tss {
  t_reserved0 : Z;
  rsp0 : Z;
  rsp1 : Z;
  rsp2 : Z;
  t_reserved1 : Z;
  ist1 : Z;
  ist2 : Z;
  ist3 : Z;
  t_reserved2_6 : list Z;
  iopb_offset : Z;
  t_reserved7 : Z;
}.

(** Sizes of the fields in bytes, in order; the struct is packed. *)
Definition tss_layout : list Z := [4; 8; 8; 8; 8; 8; 8; 8; 8; 8; 8; 8; 8; 2; 1].
Definition sizeof_tss64 : Z := foldr Z.add 0 tss_layout.
Definition zero_tss : tss64 := Tss 0 0 0 0 0 0 0 0 [0; 0; 0; 0; 0] 0 0.

Definition GDT_ENTRIES : Z := 7.
Definition GDT_NULL : Z := 0.
Definition GDT_KCODE : Z := 1.
Definition GDT_KDATA : Z := 2.
Definition GDT_UCODE : Z := 3.
Definition GDT_UDATA : Z := 4.
Definition GDT_TSS : Z := 5.
Definition GDT_TSS_HI : Z := 6.
Definition GDT_SEL_NULL : Z := 0x00.
Definition GDT_SEL_KCODE : Z := 0x08.
Definition GDT_SEL_KDATA : Z := 0x10.
Definition GDT_SEL_UCODE : Z := 0x18.
Definition GDT_SEL_UDATA : Z := 0x20.
Definition GDT_SEL_TSS : Z := 0x28.

(** [struct gdt_ptr] and [struct idt_ptr]. *)
Record table_ptr := TablePtr { limit : Z; base : Z }.

(** The CPU's segment state. *)
Record seg_regs := SegRegs {
  gdtr : table_ptr;
  cs : Z; ds : Z; es : Z; ss : Z; fs : Z; gs : Z;
  tr : Z;
}.

Record gdt_state := GdtState {
  gdt_entries : list Z;
  tss_value : tss64;
  gdt_register : table_ptr;
  seg : seg_regs;
}.

(** ** Operations *)

Definition set_rsp0 (v : Z) (t : tss64) : tss64 :=
  Tss (t_reserved0 t) v (rsp1 t) (rsp2 t) (t_reserved1 t) (ist1 t) (ist2 t) (ist3 t)
    (t_reserved2_6 t) (iopb_offset t) (t_reserved7 t).
Definition set_ists (v1 v2 v3 : Z) (t : tss64) : tss64 :=
  Tss (t_reserved0 t) (rsp0 t) (rsp1 t) (rsp2 t) (t_reserved1 t) v1 v2 v3
    (t_reserved2_6 t) (iopb_offset t) (t_reserved7 t).

Definition set_tss (t : tss64) (g : gdt_state) : gdt_state :=
  GdtState (gdt_entries g) t (gdt_register g) (seg g).
Definition set_entry (i : nat) (v : Z) (g : gdt_state) : gdt_state :=
  GdtState (<[i := v]> (gdt_entries g)) (tss_value g) (gdt_register g) (seg g).

Definition tss_set_rsp0 (v : Z) (g : gdt_state) : gdt_state :=
  set_tss (set_rsp0 v (tss_value g)) g.
Definition tss_get_rsp0 (g : gdt_state) : Z := rsp0 (tss_value g).

(** [(entry & 0xFFFFFFFFFFFF00FF) | (access << 40)] *)
Definition with_access (entry access : Z) : Z :=
  Z.lor (Z.land entry 0xFFFFFFFFFFFF00FF) (wrap 64 (Z.shiftl access 40)).

Definition tss_low (tss_base tss_limit : Z) : Z :=
  Z.lor (Z.lor (Z.lor (Z.lor
    (Z.land tss_limit 0xFFFF)
    (wrap 64 (Z.shiftl (Z.land tss_base 0xFFFF) 16)))
    (wrap 64 (Z.shiftl (Z.land (Z.shiftr tss_base 16) 0xFF) 32)))
    (wrap 64 (Z.shiftl 0x89 40)))
    (wrap 64 (Z.shiftl (Z.land (Z.shiftr tss_base 24) 0xFF) 56)).

(** [kinit_gdt]; the addresses of the two statics are the linker's. *)
Definition kinit_gdt (gdt_addr tss_addr : Z) (g : gdt_state) : gdt_state :=
  (* memset of the table and of the TSS *)
  let g := GdtState (replicate (Z.to_nat GDT_ENTRIES) 0) zero_tss (gdt_register g) (seg g) in
  let g := set_entry 1 0x00AF9A000000FFFF g in
  let g := set_entry 2 0x00AF92000000FFFF g in
  let g := set_entry 3 0x00AF9A000000FFFF g in
  let g := set_entry 3 (with_access (default 0 (gdt_entries g !! 3%nat)) 0xFA) g in
  let g := set_entry 4 0x00AF92000000FFFF g in
  let g := set_entry 4 (with_access (default 0 (gdt_entries g !! 4%nat)) 0xF2) g in
  let tss_base := tss_addr in
  let tss_limit := wrap 16 (sizeof_tss64 - 1) in
  let g := set_entry 5 (tss_low tss_base tss_limit) g in
  let g := set_entry 6 (Z.land (Z.shiftr tss_base 32) 0xFFFFFFFF) g in
  let reg := TablePtr (wrap 16 (GDT_ENTRIES * 8 - 1)) gdt_addr in
  (* lgdt; mov to the segment registers; ltr; lretq *)
  GdtState (gdt_entries g) (tss_value g) reg
    (SegRegs reg GDT_SEL_KCODE 0x10 0x10 0x10 0 0 GDT_SEL_TSS).

(** ** How the CPU reads a descriptor *)

Definition field (e lo width : Z) : Z := Z.land (Z.shiftr e lo) (2 ^ width - 1).

Definition d_type (e : Z) : Z := field e 40 4.
Definition d_s (e : Z) : bool := Z.testbit e 44.
Definition d_dpl (e : Z) : Z := field e 45 2.
Definition d_present (e : Z) : bool := Z.testbit e 47.
Definition d_long (e : Z) : bool := Z.testbit e 53.
Definition d_big (e : Z) : bool := Z.testbit e 54.
Definition d_executable (e : Z) : bool := Z.testbit e 43.
Definition d_writable (e : Z) : bool := Z.testbit e 41.

(** The 16-byte system descriptor of a TSS. *)
Definition sys_limit (lo : Z) : Z := field lo 0 16 + field lo 48 4 * 2 ^ 16.
Definition sys_base (lo hi : Z) : Z :=
  field lo 16 16 + field lo 32 8 * 2 ^ 16 + field lo 56 8 * 2 ^ 24 + field hi 0 32 * 2 ^ 32.

(** The descriptor a selector names, if the table has it. *)
Definition selected (g : gdt_state) (sel : Z) : option Z :=
  if sel / 8 * 8 + 7 <=? limit (gdtr (seg g)) then gdt_entries g !! Z.to_nat (sel / 8) else None.

(** ** Proofs *)

Lemma field_bit e lo w i :
  0 <= lo -> 0 <= w -> 0 <= i ->
  Z.testbit (field e lo w) i = bool_decide (i < w) && Z.testbit e (i + lo).
Proof.
  intros. unfold field. replace (2 ^ w - 1) with (Z.ones w) by (rewrite Z.ones_equiv; lia).
  rewrite Z.land_spec, Z.testbit_ones_nonneg, Z.shiftr_spec by lia.
  rewrite andb_comm. f_equal. case_bool_decide; [by apply Z.ltb_lt|apply Z.ltb_ge; lia].
Qed.

Lemma field_div e lo w : 0 <= lo -> 0 <= w -> field e lo w = e / 2 ^ lo mod 2 ^ w.
Proof. intros. unfold field. by rewrite land_low, Z.shiftr_div_pow2 by lia. Qed.

(** The descriptor as a sum of its fields. *)
Lemma lor_field y x k w :
  0 <= k -> 0 <= x < 2 ^ w -> 0 <= w -> k + w <= 64 -> 0 <= y < 2 ^ k ->
  Z.lor y (wrap 64 (Z.shiftl x k)) = y + x * 2 ^ k /\ 0 <= y + x * 2 ^ k < 2 ^ (k + w).
Proof.
  intros Hk Hx Hw Hkw Hy. rewrite Z.shiftl_mul_pow2 by lia.
  assert (0 <= x * 2 ^ k /\ x * 2 ^ k + 2 ^ k <= 2 ^ (k + w)) as [H0 H1].
  { rewrite Z.pow_add_r by lia. nia. }
  pose proof (Z.pow_le_mono_r 2 (k + w) 64 ltac:(lia) ltac:(lia)).
  rewrite wrap_small by (unfold fits; lia).
  rewrite Z.lor_comm, lor_page by lia. lia.
Qed.

Lemma tss_low_sum b l :
  0 <= l < 2 ^ 16 ->
  tss_low b l = l + (b mod 2 ^ 16) * 2 ^ 16 + (b / 2 ^ 16 mod 2 ^ 8) * 2 ^ 32 +
    0x89 * 2 ^ 40 + (b / 2 ^ 24 mod 2 ^ 8) * 2 ^ 56.
Proof.
  intros Hl. unfold tss_low.
  change 0xFFFF with (2 ^ 16 - 1). change 0xFF with (2 ^ 8 - 1).
  rewrite !land_low, !Z.shiftr_div_pow2 by lia. rewrite (Z.mod_small l) by lia.
  pose proof (Z.mod_pos_bound b (2 ^ 16) ltac:(lia)).
  pose proof (Z.mod_pos_bound (b / 2 ^ 16) (2 ^ 8) ltac:(lia)).
  pose proof (Z.mod_pos_bound (b / 2 ^ 24) (2 ^ 8) ltac:(lia)).
  destruct (lor_field l (b mod 2 ^ 16) 16 16) as [-> R1]; [lia..|].
  destruct (lor_field (l + b mod 2 ^ 16 * 2 ^ 16) (b / 2 ^ 16 mod 2 ^ 8) 32 8) as [-> R2]; [lia..|].
  match type of R2 with _ <= ?x < _ => destruct (lor_field x 0x89 40 8) as [-> R3] end; [lia..|].
  match type of R3 with _ <= ?x < _ =>
    destruct (lor_field x (b / 2 ^ 24 mod 2 ^ 8) 56 8) as [-> _] end; [lia..|].
  done.
Qed.

(** The TSS descriptor reads back as its base and limit. *)
Lemma tss_descriptor_reads b l :
  fits 64 b -> 0 <= l < 2 ^ 16 ->
  sys_base (tss_low b l) (Z.land (Z.shiftr b 32) 0xFFFFFFFF) = b /\
  sys_limit (tss_low b l) = l /\ d_type (tss_low b l) = 9 /\
  d_s (tss_low b l) = false /\ d_dpl (tss_low b l) = 0 /\ d_present (tss_low b l) = true.
Proof.
  intros Hb Hl. unfold fits in Hb. unfold sys_base, sys_limit, d_type, d_s, d_dpl, d_present.
  assert (forall e i, 0 <= i -> Z.testbit e i = (e / 2 ^ i mod 2 =? 1)) as Htb.
  { intros e i Hi. rewrite Z.testbit_eqb by lia. done. }
  rewrite !Htb by lia. rewrite !field_div by lia. rewrite tss_low_sum by done.
  change 0xFFFFFFFF with (2 ^ 32 - 1). rewrite land_low, Z.shiftr_div_pow2 by lia.
  set (x0 := b mod 2 ^ 16). set (x1 := b / 2 ^ 16 mod 2 ^ 8). set (x2 := b / 2 ^ 24 mod 2 ^ 8).
  set (x3 := b / 2 ^ 32).
  assert (b = x0 + x1 * 2 ^ 16 + x2 * 2 ^ 24 + x3 * 2 ^ 32 /\ 0 <= x0 < 2 ^ 16 /\
    0 <= x1 < 2 ^ 8 /\ 0 <= x2 < 2 ^ 8 /\ 0 <= x3 < 2 ^ 32) as (Heq & H0 & H1 & H2 & H3).
  { unfold x0, x1, x2, x3. clear -Hb. simpl Z.pow in *. divlia. }
  clearbody x0 x1 x2 x3. simpl Z.pow in *. rewrite Heq. clear -Hl H0 H1 H2 H3.
  rewrite !Z.eqb_eq || idtac. split_and!; try (apply Z.eqb_eq || apply Z.eqb_neq); divlia.
Qed.

(** C39: the descriptor table [kinit_gdt] installs.  Wherever the linker puts
    the table and the TSS, the selectors the kernel uses name present
    descriptors of the right kind: 64-bit code and writable data at ring 0 and,
    for the user selectors, at ring 3, and an available 64-bit TSS whose base
    is the address of [tss_value]; the segment registers hold the kernel's
    selectors and RSP0 starts as 0. *)
Theorem kinit_gdt_descriptors gdt_addr tss_addr g :
  fits 64 tss_addr ->
  let g' := kinit_gdt gdt_addr tss_addr g in
  (forall sel dpl, (sel, dpl) ∈ [(GDT_SEL_KCODE, 0); (GDT_SEL_UCODE + 3, 3)] ->
     exists e, selected g' sel = Some e /\ d_present e = true /\ d_s e = true /\
       d_executable e = true /\ d_long e = true /\ d_big e = false /\ d_dpl e = dpl) /\
  (forall sel dpl, (sel, dpl) ∈ [(GDT_SEL_KDATA, 0); (GDT_SEL_UDATA + 3, 3)] ->
     exists e, selected g' sel = Some e /\ d_present e = true /\ d_s e = true /\
       d_executable e = false /\ d_writable e = true /\ d_dpl e = dpl) /\
  (exists lo hi, selected g' GDT_SEL_TSS = Some lo /\ selected g' (GDT_SEL_TSS + 8) = Some hi /\
     d_present lo = true /\ d_s lo = false /\ d_type lo = 9 /\
     sys_base lo hi = tss_addr /\ sys_limit lo = 102) /\
  selected g' GDT_SEL_NULL = Some 0 /\
  cs (seg g') = GDT_SEL_KCODE /\ ss (seg g') = GDT_SEL_KDATA /\ tr (seg g') = GDT_SEL_TSS /\
  base (gdtr (seg g')) = gdt_addr /\ tss_get_rsp0 g' = 0.
Proof.
  intros Hf g'. split_and!; try reflexivity.
  - intros sel dpl [[= -> ->]|[[= -> ->]|[]%not_elem_of_nil]%elem_of_cons]%elem_of_cons;
      eexists; (split; [reflexivity|vm_compute; done]).
  - intros sel dpl [[= -> ->]|[[= -> ->]|[]%not_elem_of_nil]%elem_of_cons]%elem_of_cons;
      eexists; (split; [reflexivity|vm_compute; done]).
  - destruct (tss_descriptor_reads tss_addr 102 Hf ltac:(lia)) as (Hb & Hl & Ht & Hs & _ & Hp).
    exists (tss_low tss_addr 102), (Z.land (Z.shiftr tss_addr 32) 0xFFFFFFFF).
    split; [reflexivity|]. split; [reflexivity|]. done.
Qed.

Lemma kinit_gdt_descriptors_witness :
  fits 64 0xFFFFFFFF8010A000 /\
  exists lo hi, sys_base lo hi = 0xFFFFFFFF8010A000 /\ sys_limit lo = 102.
Proof.
  assert (fits 64 0xFFFFFFFF8010A000) as Hf by (split; [discriminate|reflexivity]).
  split; [exact Hf|].
  destruct (kinit_gdt_descriptors 0 0xFFFFFFFF8010A000
    (GdtState [] zero_tss (TablePtr 0 0) (SegRegs (TablePtr 0 0) 0 0 0 0 0 0 0)) Hf)
    as (_ & _ & (lo & hi & _ & _ & _ & _ & _ & Hb & Hl) & _).
  exists lo, hi. exact (conj Hb Hl).
Defined.
