(* ===== verification/Task.v ===== *)
(** * Tasks and the scheduler (src/task/task.c, task.h, switch.s): the model

    A [task_t*] is an index into the static table, [None] the null pointer.
    Kernel stacks are memory: [context_switch] pushes and pops words through
    the interface [KernelMem], and the CPU's callee-saved registers, stack
    pointer and instruction pointer are part of the state, so that leaving a
    task and resuming it are the loads and stores of switch.s. *)
From S2P Require Import Prelude Effects PmmInterface Gdt KernelMem.

Definition TASK_STACK_SIZE : Z := 8192.
Definition MAX_TASKS : Z := 32.
Definition TIME_SLICE : Z := 10.

Inductive task_state :=
  | TASK_DEAD
  | TASK_READY
  | TASK_RUNNING
  | TASK_BLOCKED.

#[export] Instance task_state_eq_dec : EqDecision task_state.
Proof. solve_decision. Defined.

Record task := Task {
  pid : Z;
  state : task_state;
  stack_pointer : Z;
  kernel_stack : Z;
  time_slice : Z;
  next : option nat;
  ring : Z;
  task_cr3 : Z;
  user_rip : Z;
  user_rsp : Z;
  user_rflags : Z;
}.

(** [(task_t){0}] *)
Definition zero_task : task := Task 0 TASK_DEAD 0 0 0 None 0 0 0 0 0.

(** The registers [context_switch] saves, with RSP and RIP. *)
Record cpu := Cpu {
  rip : Z; rsp : Z; rflags : Z;
  rbp : Z; rbx : Z; r12 : Z; r13 : Z; r14 : Z; r15 : Z;
}.

Definition set_rsp (v : Z) (c : cpu) : cpu :=
  Cpu (rip c) v (rflags c) (rbp c) (rbx c) (r12 c) (r13 c) (r14 c) (r15 c).

Record tasks (B : Type) := Tasks {
  task_table : list task;
  next_pid : Z;
  current_task : option nat;
  ready_head : option nat;
  ready_tail : option nat;
  regs : cpu;
  gdt : gdt_state;
  kmem : B;
}.
Arguments Tasks {B} _ _ _ _ _ _ _ _.
Arguments task_table {B} _.
Arguments next_pid {B} _.
Arguments current_task {B} _.
Arguments ready_head {B} _.
Arguments ready_tail {B} _.
Arguments regs {B} _.
Arguments gdt {B} _.
Arguments kmem {B} _.

(** Updates of the fields of a task. *)
Definition with_state (s : task_state) (t : task) : task :=
  Task (pid t) s (stack_pointer t) (kernel_stack t) (time_slice t) (next t) (ring t)
    (task_cr3 t) (user_rip t) (user_rsp t) (user_rflags t).
Definition with_next (n : option nat) (t : task) : task :=
  Task (pid t) (state t) (stack_pointer t) (kernel_stack t) (time_slice t) n (ring t)
    (task_cr3 t) (user_rip t) (user_rsp t) (user_rflags t).
Definition with_slice (n : Z) (t : task) : task :=
  Task (pid t) (state t) (stack_pointer t) (kernel_stack t) n (next t) (ring t)
    (task_cr3 t) (user_rip t) (user_rsp t) (user_rflags t).
Definition with_sp (sp : Z) (t : task) : task :=
  Task (pid t) (state t) sp (kernel_stack t) (time_slice t) (next t) (ring t)
    (task_cr3 t) (user_rip t) (user_rsp t) (user_rflags t).

Section task_code.
Context {B : Type} `{KernelMem B}.
Implicit Types (st : tasks B) (t : nat).
Local Abbreviation K := (M (tasks B)).

(** Addresses the linker fixes: the two entry points of fresh tasks, and the
    instruction after the call of [context_switch] in [schedule]. *)
Record symbols := Symbols {
  sym_idle_entry : Z;
  sym_enter_user_mode : Z;
  sym_schedule_ret : Z;
}.
Context (sym : symbols).

(** ** State access *)
Definition tcb st t : task := default zero_task (task_table st !! t).
Definition set_table (tt : list task) st : tasks B :=
  Tasks tt (next_pid st) (current_task st) (ready_head st) (ready_tail st) (regs st) (gdt st) (kmem st).
Definition upd t (f : task -> task) st : tasks B := set_table (alter f t (task_table st)) st.
Definition set_next_pid n st : tasks B :=
  Tasks (task_table st) n (current_task st) (ready_head st) (ready_tail st) (regs st) (gdt st) (kmem st).
Definition set_current c st : tasks B :=
  Tasks (task_table st) (next_pid st) c (ready_head st) (ready_tail st) (regs st) (gdt st) (kmem st).
Definition set_ready h l st : tasks B :=
  Tasks (task_table st) (next_pid st) (current_task st) h l (regs st) (gdt st) (kmem st).
Definition set_regs r st : tasks B :=
  Tasks (task_table st) (next_pid st) (current_task st) (ready_head st) (ready_tail st) r (gdt st) (kmem st).
Definition set_gdt g st : tasks B :=
  Tasks (task_table st) (next_pid st) (current_task st) (ready_head st) (ready_tail st) (regs st) g (kmem st).
Definition set_kmem b st : tasks B :=
  Tasks (task_table st) (next_pid st) (current_task st) (ready_head st) (ready_tail st) (regs st) (gdt st) b.
Definition on_kmem {A} (m : M B A) : K A := zoom kmem set_kmem m.

(** ** The ready list *)
Definition ready_list_add t st : tasks B :=
  let st := upd t (with_next None) st in
  match ready_head st, ready_tail st with
  | None, _ => set_ready (Some t) (Some t) st
  | Some h, Some l => set_ready (Some h) (Some t) (upd l (with_next (Some t)) st)
  | Some h, None =>
      (* not reached: the tail is null only with the head (see [queue_ok]); the
         code would store through the null tail *)
      set_ready (Some h) (Some t) st
  end.

Definition ready_list_pop st : option nat * tasks B :=
  match ready_head st with
  | None => (None, st)
  | Some t =>
      let h := next (tcb st t) in
      let l := match h with None => None | Some _ => ready_tail st end in
      (Some t, upd t (with_next None) (set_ready h l st))
  end.

(** ** The initial stack frame: [*(--sp) = v] *)
Definition frame_push (sp v : Z) : K Z :=
  on_kmem (km_sd (sp ⊟ 8) v);; mret (sp ⊟ 8).

Definition init_frame (stack entry : Z) : K Z :=
  sp ← frame_push (stack ⊞ TASK_STACK_SIZE) entry;
  sp ← frame_push sp 0x200;
  sp ← frame_push sp 0;
  sp ← frame_push sp 0;
  sp ← frame_push sp 0;
  sp ← frame_push sp 0;
  sp ← frame_push sp 0;
  frame_push sp 0.

(** [next_pid++] *)
Definition take_pid : K Z :=
  st ← get; modify (set_next_pid (next_pid st ⊞ 1));; mret (next_pid st).

Definition kinit_task : K unit :=
  modify (fun st =>
    set_table (after_break (for_range 0 MAX_TASKS
      (fun i tt => Next (<[Z.to_nat i := zero_task]> tt)) (task_table st))) st);;
  p ← take_pid;
  modify (upd 0 (fun _ => Task p TASK_RUNNING 0 0 TIME_SLICE None 0 0 0 0 0));;
  modify (set_current (Some 0%nat));;
  p ← take_pid;
  modify (upd 1 (fun _ => Task p TASK_READY 0 0 TIME_SLICE None 0 0 0 0 0));;
  stack ← on_kmem (km_kmalloc TASK_STACK_SIZE);
  modify (upd 1 (fun o => Task (pid o) (state o) (stack_pointer o) stack (time_slice o) (next o)
    (ring o) (task_cr3 o) (user_rip o) (user_rsp o) (user_rflags o)));;
  sp ← init_frame stack (sym_idle_entry sym);
  modify (upd 1 (with_sp sp));;
  modify (ready_list_add 1);;
  say (KLog LOG_INFO ("Task: scheduler initialized (boot=1 idle=2)" +:+ NL)).

(** The search for a free slot. *)
Definition find_slot st : option nat :=
  match
    for_range 0 MAX_TASKS
      (fun i (_ : unit) =>
         if decide (state (tcb st (Z.to_nat i)) = TASK_DEAD) then Leave (Z.to_nat i) else Next tt) tt
  with
  | Leave i => Some i
  | Next _ => None
  end.

(** [task_create] and [task_create_user] differ in the entry point on the
    stack, the user fields and the log line. *)
Definition task_create_with (entry : Z) (fill : task -> task) (logged : Z -> call) : K (option nat) :=
  st ← get;
  match find_slot st with
  | None => mret None
  | Some t =>
      stack ← on_kmem (km_kmalloc TASK_STACK_SIZE);
      if stack =? 0 then mret None
      else
        sp ← init_frame stack entry;
        p ← take_pid;
        modify (upd t (fun o =>
          fill (Task p TASK_READY sp stack TIME_SLICE None (ring o) (task_cr3 o)
                  (user_rip o) (user_rsp o) (user_rflags o))));;
        modify (ready_list_add t);;
        say (logged p);;
        mret (Some t)
  end.

Definition task_create (entry : Z) : K (option nat) :=
  task_create_with entry
    (fun o => Task (pid o) (state o) (stack_pointer o) (kernel_stack o) (time_slice o) (next o)
       0 0 (user_rip o) (user_rsp o) (user_rflags o))
    (KLogHex LOG_DEBUG "task_create pid=").

Definition task_create_user (rip rsp rflags cr3 : Z) : K (option nat) :=
  task_create_with (sym_enter_user_mode sym)
    (fun o => Task (pid o) (state o) (stack_pointer o) (kernel_stack o) (time_slice o) (next o)
       3 cr3 rip rsp rflags)
    (KLogHex LOG_INFO "task_create_user pid=").

(** ** switch.s *)

Definition push (v : Z) : K unit :=
  st ← get;
  let sp := rsp (regs st) ⊟ 8 in
  on_kmem (km_sd sp v);;
  modify (fun st => set_regs (set_rsp sp (regs st)) st).

Definition pop : K Z :=
  st ← get;
  v ← on_kmem (km_ld (rsp (regs st)));
  modify (fun st => set_regs (set_rsp (rsp (regs st) ⊞ 8) (regs st)) st);;
  mret v.

(** [call context_switch], with the address of [old]'s [stack_pointer] field
    in RDI and [new_sp] in RSI, up to its [ret]. *)
Definition context_switch (old : nat) (new_sp : Z) : K unit :=
  st ← get;
  let c := regs st in
  push (sym_schedule_ret sym);;
  push (rflags c);;
  push (rbp c);;
  push (rbx c);;
  push (r12 c);;
  push (r13 c);;
  push (r14 c);;
  push (r15 c);;
  modify (fun st => upd old (with_sp (rsp (regs st))) st);;
  modify (fun st => set_regs (set_rsp new_sp (regs st)) st);;
  v15 ← pop;
  v14 ← pop;
  v13 ← pop;
  v12 ← pop;
  vbx ← pop;
  vbp ← pop;
  vfl ← pop;
  ret ← pop;
  modify (fun st => set_regs (Cpu ret (rsp (regs st)) vfl vbp vbx v12 v13 v14 v15) st).

(** ** Scheduling *)

(** Put the old task back in the ready list if it is still alive. *)
Definition put_back (old : nat) : K unit :=
  st ← get;
  if decide (state (tcb st old) = TASK_RUNNING) then
    modify (upd old (with_state TASK_READY));;
    modify (upd old (with_slice TIME_SLICE));;
    modify (ready_list_add old)
  else mret tt.

(** Switch to the new task. *)
Definition switch_to (old next : nat) : K unit :=
  modify (set_current (Some next));;
  modify (upd next (with_state TASK_RUNNING));;
  modify (upd next (with_slice TIME_SLICE));;
  st ← get;
  (if ring (tcb st next) =? 3 then
     modify (fun st =>
       set_gdt (tss_set_rsp0 (kernel_stack (tcb st next) ⊞ TASK_STACK_SIZE) (gdt st)) st)
   else mret tt);;
  st ← get;
  context_switch old (stack_pointer (tcb st next)).

Definition schedule : K unit :=
  st ← get;
  match current_task st with
  | None => mret tt
  | Some old =>
      next ← run ready_list_pop;
      match next with
      | None => mret tt
      | Some next => put_back old;; switch_to old next
      end
  end.

Definition task_yield : K unit :=
  st ← get;
  match current_task st with
  | None => mret tt
  | Some c =>
      if decide (state (tcb st c) = TASK_RUNNING) then
        modify (upd c (with_state TASK_READY));;
        modify (upd c (with_slice TIME_SLICE));;
        modify (ready_list_add c);;
        schedule
      else mret tt
  end.

Definition task_current st : option nat := current_task st.
End task_code.
