(* ===== verification/TaskInv.v ===== *)
(** * Tasks: the ready list, context switches and the scheduler's invariant

    The [next] pointers refine a queue of task indices; the saved contexts of
    the tasks that are not running are frames of eight words on their own
    kernel stacks; [schedule] rotates the queue and exchanges the registers
    for a frame. *)
From S2P Require Import Prelude Effects PmmInterface Gdt Heap HeapInv HeapProofs HeapSpec KernelMem Task.

(** ** Task records *)

(** Everything of a task but the list pointer. *)
Definition strip (o : task) : task := with_next None o.

Lemma strip_fields a b :
  strip a = strip b ->
  state a = state b /\ stack_pointer a = stack_pointer b /\ kernel_stack a = kernel_stack b /\
  pid a = pid b /\ ring a = ring b /\ task_cr3 a = task_cr3 b /\ user_rip a = user_rip b /\
  user_rsp a = user_rsp b.
Proof. unfold strip, with_next. intros [=]. done. Qed.

Section task_proofs.
Context {B : Type} `{HK : KernelMem B}.
Implicit Types (st : tasks B) (t u c : nat) (q : list nat).

Lemma tcb_upd f t st u :
  (t < length (task_table st))%nat ->
  tcb (upd t f st) u = if decide (u = t) then f (tcb st t) else tcb st u.
Proof.
  intros Ht. unfold tcb, upd, set_table. simpl. case_decide as Hu.
  - subst. rewrite list_lookup_alter_eq.
    destruct (lookup_lt_is_Some_2 _ _ Ht) as [o Ho]. by rewrite Ho.
  - by rewrite list_lookup_alter_ne by done.
Qed.

Lemma length_upd f t st : length (task_table (upd t f st)) = length (task_table st).
Proof. apply length_alter. Qed.

Lemma tcb_out st u : (length (task_table st) <= u)%nat -> tcb st u = zero_task.
Proof. intros Hu. unfold tcb. by rewrite lookup_ge_None_2. Qed.

(** ** The ready list refines a queue *)

Fixpoint chain (nx : nat -> option nat) (h : option nat) q : Prop :=
  match q with
  | [] => h = None
  | t :: q => h = Some t /\ chain nx (nx t) q
  end.

Record queue_ok st q : Prop := {
  qk_len : length (task_table st) = 32%nat;
  qk_nodup : NoDup q;
  qk_range : forall t, t ∈ q -> (t < 32)%nat;
  qk_tail : ready_tail st = last q;
  qk_chain : chain (fun t => next (tcb st t)) (ready_head st) q;
}.

Lemma chain_agree nx nx' h q : (forall t, t ∈ q -> nx' t = nx t) -> chain nx h q -> chain nx' h q.
Proof.
  revert h. induction q as [|t q IH]; intros h Heq; simpl; [done|].
  intros [-> Hc]. split; [done|]. rewrite Heq by set_solver. apply IH; [set_solver|done].
Qed.

Lemma chain_snoc nx nx' h q l t :
  chain nx h (q ++ [l]) -> nx' l = Some t -> nx' t = None ->
  (forall u, u ∈ q -> nx' u = nx u) -> chain nx' h (q ++ [l; t]).
Proof.
  revert h. induction q as [|a q IH]; intros h Hc Hl Ht Heq; simpl in *.
  - destruct Hc as [-> _]. by rewrite Hl, Ht.
  - destruct Hc as [-> Hc]. split; [done|]. rewrite Heq by set_solver.
    apply IH; [done..|set_solver].
Qed.

Lemma chain_head nx h q : chain nx h q -> h = head q.
Proof. destruct q; simpl; [done|by intros [-> _]]. Qed.

(** What list operations leave alone. *)
Record relinked st st' : Prop := {
  rl_task : forall u, strip (tcb st' u) = strip (tcb st u);
  rl_pid : next_pid st' = next_pid st;
  rl_current : current_task st' = current_task st;
  rl_regs : regs st' = regs st;
  rl_gdt : gdt st' = gdt st;
  rl_kmem : kmem st' = kmem st;
}.

Lemma relinked_upd t n st st' :
  (t < length (task_table st))%nat -> relinked st st' -> length (task_table st') = length (task_table st) ->
  relinked st (upd t (with_next n) st').
Proof.
  intros Ht [R1 R2 R3 R4 R5 R6] Hlen. split; try done. intros u.
  rewrite tcb_upd by by rewrite Hlen. case_decide as Hu; [subst u|apply R1].
  rewrite <-R1. by destruct (tcb st' t).
Qed.

Lemma ready_list_add_ok st q t :
  queue_ok st q -> (t < 32)%nat -> ~ t ∈ q ->
  queue_ok (ready_list_add t st) (q ++ [t]) /\ relinked st (ready_list_add t st).
Proof.
  intros [Hlen Hnd Hr Htail Hc] Ht Hq. pose proof (chain_head _ _ _ Hc) as Hhead.
  assert (NoDup (q ++ [t])) as Hnd'.
  { apply NoDup_app. split_and!; [done| |apply NoDup_singleton]. set_solver. }
  assert (forall u, u ∈ q ++ [t] -> (u < 32)%nat) as Hr' by (intros u; set_unfold; naive_solver).
  unfold ready_list_add. set (st0 := upd t (with_next None) st).
  assert (length (task_table st0) = 32%nat) as Hlen0 by (unfold st0; by rewrite length_upd).
  assert (relinked st st0) as Hrl by (apply relinked_upd; [lia|by split|done]).
  change (ready_head st0) with (ready_head st). change (ready_tail st0) with (ready_tail st).
  destruct (last q) as [l|] eqn:Hl.
  - apply last_Some in Hl as [q' ->]. rewrite Hhead. rewrite Htail.
    destruct (head (q' ++ [l])) as [h|] eqn:Hh; [|by destruct q'].
    assert (l < 32)%nat by (apply Hr; set_solver).
    assert (t <> l) by set_solver.
    split; [split|].
    + simpl. by rewrite length_alter.
    + done.
    + done.
    + simpl. by rewrite last_snoc.
    + rewrite <-app_assoc. simpl app. cbn [ready_head set_ready].
      apply (chain_snoc (fun u => next (tcb st u))).
      * by rewrite Hhead in Hc.
      * change (next (tcb (upd l (with_next (Some t)) st0) l) = Some t).
        rewrite tcb_upd by lia. by rewrite decide_True.
      * change (next (tcb (upd l (with_next (Some t)) st0) t) = None).
        rewrite tcb_upd, decide_False by (done || lia).
        unfold st0. rewrite tcb_upd, decide_True by (done || lia). done.
      * intros u Hu. change (next (tcb (upd l (with_next (Some t)) st0) u) = next (tcb st u)).
        assert (u <> l /\ u <> t) as [? ?].
        { split; [|set_solver]. intros ->. apply NoDup_app in Hnd as (_ & Hd & _).
          apply (Hd l Hu). set_solver. }
        rewrite tcb_upd, decide_False by (done || lia).
        unfold st0. by rewrite tcb_upd, decide_False by (done || lia).
    + assert (relinked st (upd l (with_next (Some t)) st0)) as Hrl'
        by (apply relinked_upd; [lia|done|lia]).
      destruct Hrl'. by split.
  - apply last_None in Hl as ->. rewrite Hhead. simpl.
    split; [split; try done|].
    + simpl. split; [done|]. change (next (tcb st0 t) = None).
      unfold st0. rewrite tcb_upd, decide_True by (done || lia). done.
    + destruct Hrl. by split.
Qed.

Lemma ready_list_pop_ok st q :
  queue_ok st q ->
  match q with
  | [] => ready_list_pop st = (None, st)
  | t :: q' => exists st', ready_list_pop st = (Some t, st') /\ queue_ok st' q' /\ relinked st st'
  end.
Proof.
  intros [Hlen Hnd Hr Htail Hc]. unfold ready_list_pop. destruct q as [|t q'].
  - simpl in Hc. by rewrite Hc.
  - destruct Hc as [-> Hc]. eexists. split; [reflexivity|].
    apply NoDup_cons in Hnd as [Hnt Hnd]. assert (t < 32)%nat by (apply Hr; set_solver).
    pose proof (chain_head _ _ _ Hc) as Hh. simpl in Hh.
    split; [split|].
    + simpl. by rewrite length_alter.
    + done.
    + intros u Hu. apply Hr. set_solver.
    + simpl. rewrite Hh. destruct q' as [|u q']; simpl in *; [done|]. by rewrite Htail.
    + cbn [ready_head upd set_table set_ready]. eapply chain_agree; [|exact Hc].
      intros u Hu. change (next (tcb (upd t (with_next None) st) u) = next (tcb st u)).
      rewrite tcb_upd, decide_False by (lia || set_solver). done.
    + assert (relinked st (upd t (with_next None) st)) as Hrl by (apply relinked_upd; [lia|by split|done]).
      destruct Hrl. by split.
Qed.
End task_proofs.
