(* ===== verification/TaskSwitch.v ===== *)
(** * Tasks: saved contexts and [context_switch]

    A saved context is a frame of eight words; [context_switch] writes the
    frame of the running context below its stack pointer and loads the
    registers from the frame of the next one. *)
From S2P Require Import Prelude Effects PmmInterface Gdt Heap HeapInv HeapProofs HeapSpec KernelMem Task.

(** The frame of a context, from the lowest address: what [context_switch]
    pops, the return address last. *)
Definition frame_of (c : cpu) (ret : Z) : list Z :=
  [r15 c; r14 c; r13 c; r12 c; rbx c; rbp c; rflags c; ret].

(** The registers loaded from a frame at [sp]. *)
Definition cpu_of (fr : list Z) (sp : Z) : cpu :=
  Cpu (nth 7 fr 0) (sp + 64) (nth 6 fr 0) (nth 5 fr 0) (nth 4 fr 0) (nth 3 fr 0) (nth 2 fr 0)
    (nth 1 fr 0) (nth 0 fr 0).

Fixpoint fill (m : gmap Z Z) (sp : Z) (vs : list Z) : gmap Z Z :=
  match vs with
  | [] => m
  | v :: vs => <[sp := v]> (fill m (sp + 8) vs)
  end.

Definition frame_at (m : gmap Z Z) (sp : Z) (fr : list Z) : Prop :=
  length fr = 8%nat /\ forall i v, fr !! i = Some v -> m !! (sp + 8 * Z.of_nat i) = Some v.

Lemma fill_other m sp vs x :
  (x < sp \/ sp + 8 * Z.of_nat (length vs) <= x) -> fill m sp vs !! x = m !! x.
Proof.
  revert sp. induction vs as [|v vs IH]; intros sp Hx; simpl; [done|]. simpl length in Hx.
  rewrite lookup_insert_ne by lia. apply IH. lia.
Qed.

Lemma fill_lookup m sp vs i v :
  vs !! i = Some v -> fill m sp vs !! (sp + 8 * Z.of_nat i) = Some v.
Proof.
  revert sp i. induction vs as [|w vs IH]; intros sp [|i] Hv; simplify_eq/=.
  - rewrite Z.add_0_r. by rewrite lookup_insert_eq.
  - rewrite lookup_insert_ne by lia. replace (sp + 8 * Z.of_nat (S i)) with (sp + 8 + 8 * Z.of_nat i) by lia.
    by apply IH.
Qed.

Lemma fill_is_Some m sp vs x : is_Some (m !! x) -> is_Some (fill m sp vs !! x).
Proof.
  revert sp. induction vs as [|v vs IH]; intros sp Hx; simpl; [done|].
  rewrite lookup_insert. case_decide; [eauto|]. by apply IH.
Qed.

Lemma fill_frame m sp c ret : frame_at (fill m sp (frame_of c ret)) sp (frame_of c ret).
Proof. split; [done|]. intros i v. apply fill_lookup. Qed.

(** [m'] agrees with [m] on a frame. *)
Lemma frame_agree m m' sp fr :
  (forall i, (i < 8)%nat -> m' !! (sp + 8 * Z.of_nat i) = m !! (sp + 8 * Z.of_nat i)) ->
  frame_at m sp fr -> frame_at m' sp fr.
Proof.
  intros Heq [Hl Hf]. split; [done|]. intros i v Hv. rewrite Heq; [by apply Hf|].
  apply lookup_lt_Some in Hv. lia.
Qed.

(** The frame in a memory whose words there are mapped. *)
Lemma frame_exists m sp :
  (forall i, (i < 8)%nat -> is_Some (m !! (sp + 8 * Z.of_nat i))) -> exists fr, frame_at m sp fr.
Proof.
  intros Hm. destruct (Hm 0%nat), (Hm 1%nat), (Hm 2%nat), (Hm 3%nat), (Hm 4%nat), (Hm 5%nat), (Hm 6%nat),
    (Hm 7%nat); [lia..|].
  eexists [_; _; _; _; _; _; _; _]. split; [done|].
  intros [|[|[|[|[|[|[|[|i]]]]]]]] v Hv; simplify_eq/=; done.
Qed.

Section switch.
Context {B : Type} `{HK : KernelMem B} `{!KernelMemOk B}.
Context (sym : symbols).
Implicit Types (st : tasks B) (b : B) (l : view) (r : cpu).

(** [st] with other registers and other memory. *)
Definition running st r b : tasks B := set_regs r (set_kmem b st).

Lemma running_self st : running st (regs st) (kmem st) = st.
Proof. by destruct st. Qed.

Lemma push_ok st r b l v :
  km_inv b l -> 8 <= rsp r < 2 ^ 64 -> writable (km_words b) l (rsp r - 8) ->
  exists b', push v (running st r b) = Done tt (running st (set_rsp (rsp r - 8) r) b') [] /\
    km_inv b' l /\ km_words b' = <[rsp r - 8 := v]> (km_words b).
Proof.
  intros Hi Hr Hw. destruct (km_sd_ok b l _ v Hi Hw) as (b' & E & Hi' & Hm').
  exists b'. split; [|done]. unfold push. erewrite bind_step by reflexivity.
  cbv zeta. change (regs (running st r b)) with r.
  rewrite wrap_small by (unfold fits; lia).
  rewrite (bind_step _ _ _ tt (running st r b')); [done|]. unfold on_kmem, zoom.
  change (kmem (running st r b)) with b. by rewrite E.
Qed.

Lemma pop_ok st r b v :
  0 <= rsp r < 2 ^ 64 - 8 -> rsp r mod 8 = 0 -> km_words b !! rsp r = Some v ->
  pop (running st r b) = Done v (running st (set_rsp (rsp r + 8) r) b) [].
Proof.
  intros Hr H8 Hv. unfold pop. erewrite bind_step by reflexivity.
  change (regs (running st r b)) with r. erewrite bind_step.
  2:{ unfold on_kmem, zoom. change (kmem (running st r b)) with b.
      rewrite (km_ld_ok b (rsp r) v); [reflexivity|done|unfold fits; lia|done]. }
  erewrite bind_step by reflexivity. simpl.
  unfold mret, M_ret, running, set_regs, set_kmem. simpl. do 2 f_equal. f_equal.
  apply wrap_small. unfold fits. lia.
Qed.

(** Room for a frame below [sp]. *)
Definition room_below (m : gmap Z Z) l (sp : Z) : Prop :=
  64 <= sp < 2 ^ 64 /\ sp mod 8 = 0 /\
  forall i, (i < 8)%nat -> writable m l (sp - 64 + 8 * Z.of_nat i).

Lemma writable_insert m l x y v : writable m l x -> writable (<[y := v]> m) l x.
Proof.
  intros (Hs & H8 & Hf & Ho). split_and!; try done.
  rewrite lookup_insert. case_decide; eauto.
Qed.

Lemma writable_fill m l x sp vs : writable m l x -> writable (fill m sp vs) l x.
Proof. intros (Hs & H8 & Hf & Ho). split_and!; try done. by apply fill_is_Some. Qed.

(** Pushing one more word of the frame. *)
Lemma push_frame_ok st r s b l m vs v :
  km_inv b l -> km_words b = fill m (s - 8 * Z.of_nat (length vs)) vs ->
  (length vs < 8)%nat -> room_below m l s ->
  let k := Z.of_nat (length vs) in
  exists b', push v (running st (set_rsp (s - 8 * k) r) b) =
      Done tt (running st (set_rsp (s - 8 * (k + 1)) r) b') [] /\
    km_inv b' l /\ km_words b' = fill m (s - 8 * (k + 1)) (v :: vs).
Proof.
  intros Hi Hm Hlen (Hs & H8 & Hw) k.
  destruct (push_ok st (set_rsp (s - 8 * k) r) b l v Hi) as (b' & E & Hi' & Hm').
  - simpl. lia.
  - simpl. rewrite Hm. apply writable_fill.
    replace (s - 8 * k - 8) with (s - 64 + 8 * Z.of_nat (7 - length vs)) by lia.
    apply Hw. lia.
  - exists b'. simpl rsp in *. replace (s - 8 * (k + 1)) with (s - 8 * k - 8) by lia.
    split_and!; [exact E|done|]. rewrite Hm', Hm. simpl.
    by replace (s - 8 * k - 8 + 8) with (s - 8 * Z.of_nat (length vs)) by lia.
Qed.

(** The eight pushes: the call and the saves of [context_switch]. *)
Lemma save_ok st l :
  km_inv (kmem st) l -> room_below (km_words (kmem st)) l (rsp (regs st)) ->
  let c := regs st in
  exists b, km_inv b l /\
    km_words b = fill (km_words (kmem st)) (rsp c - 64) (frame_of c (sym_schedule_ret sym)) /\
    forall A (k : M (tasks B) A),
      (push (sym_schedule_ret sym);; push (rflags c);; push (rbp c);; push (rbx c);;
       push (r12 c);; push (r13 c);; push (r14 c);; push (r15 c);; k) st =
      k (running st (set_rsp (rsp c - 64) c) b).
Proof.
  intros Hi Hroom c. set (s := rsp c). set (m := km_words (kmem st)) in *.
  set (ret := sym_schedule_ret sym).
  assert (st = running st (set_rsp (s - 8 * 0) c) (kmem st)) as Hst.
  { unfold s. rewrite Z.sub_0_r. destruct st as [? ? ? ? ? [] ? ?]. done. }
  destruct (push_frame_ok st c s (kmem st) l m [] ret) as (b1 & E1 & Hi1 & Hm1);
    [by simpl|done|simpl; lia|done|].
  change (Z.of_nat (length (@nil Z))) with 0 in E1, Hm1. rewrite <-Hst in E1.
  assert (forall vs b v, km_inv b l /\ km_words b = fill m (s - 8 * Z.of_nat (length vs)) vs ->
    (length vs < 8)%nat ->
    exists b', push v (running st (set_rsp (s - 8 * Z.of_nat (length vs)) c) b) =
      Done tt (running st (set_rsp (s - 8 * (Z.of_nat (length vs) + 1)) c) b') [] /\
      (km_inv b' l /\ km_words b' = fill m (s - 8 * (Z.of_nat (length vs) + 1)) (v :: vs))) as Hpush.
  { intros vs b v [? ?] Hlt. by apply push_frame_ok. }
  destruct (Hpush [ret] b1 (rflags c)) as (b2 & E2 & H2); [done|simpl; lia|].
  destruct (Hpush [rflags c; ret] b2 (rbp c)) as (b3 & E3 & H3); [done|simpl; lia|].
  destruct (Hpush [rbp c; rflags c; ret] b3 (rbx c)) as (b4 & E4 & H4); [done|simpl; lia|].
  destruct (Hpush [rbx c; rbp c; rflags c; ret] b4 (r12 c)) as (b5 & E5 & H5); [done|simpl; lia|].
  destruct (Hpush [r12 c; rbx c; rbp c; rflags c; ret] b5 (r13 c)) as (b6 & E6 & H6);
    [done|simpl; lia|].
  destruct (Hpush [r13 c; r12 c; rbx c; rbp c; rflags c; ret] b6 (r14 c)) as (b7 & E7 & H7);
    [done|simpl; lia|].
  destruct (Hpush [r14 c; r13 c; r12 c; rbx c; rbp c; rflags c; ret] b7 (r15 c))
    as (b8 & E8 & Hi8 & Hm8); [done|simpl; lia|].
  exists b8. split; [done|]. split; [done|]. intros A k.
  erewrite bind_step by exact E1. erewrite bind_step by exact E2. erewrite bind_step by exact E3.
  erewrite bind_step by exact E4. erewrite bind_step by exact E5. erewrite bind_step by exact E6.
  erewrite bind_step by exact E7. erewrite bind_step by exact E8. done.
Qed.

(** The eight pops: the restores and the [ret]. *)
Lemma restore_ok st c b new_sp fr :
  0 <= new_sp < 2 ^ 64 - 64 -> new_sp mod 8 = 0 -> frame_at (km_words b) new_sp fr ->
  (v15 ← pop; v14 ← pop; v13 ← pop; v12 ← pop; vbx ← pop; vbp ← pop; vfl ← pop; ret ← pop;
   modify (fun st => set_regs (Cpu ret (rsp (regs st)) vfl vbp vbx v12 v13 v14 v15) st))
    (running st (set_rsp new_sp c) b) =
  Done tt (running st (cpu_of fr new_sp) b) [].
Proof.
  intros Hn0 Hn8 [Hlen Hfr].
  assert (forall k v, fr !! k = Some v ->
    pop (running st (set_rsp (new_sp + 8 * Z.of_nat k) c) b) =
      Done v (running st (set_rsp (new_sp + 8 * Z.of_nat (S k)) c) b) []) as Hpop.
  { intros k v Hv. rewrite (pop_ok st _ b v).
    - cbn [rsp set_rsp]. replace (new_sp + 8 * Z.of_nat (S k)) with (new_sp + 8 * Z.of_nat k + 8) by lia. done.
    - cbn [rsp set_rsp]. pose proof (lookup_lt_Some _ _ _ Hv). lia.
    - cbn [rsp set_rsp]. divlia.
    - cbn [rsp set_rsp]. by apply Hfr. }
  replace (set_rsp new_sp c) with (set_rsp (new_sp + 8 * Z.of_nat 0) c) by (f_equal; lia).
  destruct fr as [|a0 [|a1 [|a2 [|a3 [|a4 [|a5 [|a6 [|a7 [|]]]]]]]]]; simplify_eq.
  erewrite bind_step by (by apply (Hpop 0%nat)). erewrite bind_step by (by apply (Hpop 1%nat)).
  erewrite bind_step by (by apply (Hpop 2%nat)). erewrite bind_step by (by apply (Hpop 3%nat)).
  erewrite bind_step by (by apply (Hpop 4%nat)). erewrite bind_step by (by apply (Hpop 5%nat)).
  erewrite bind_step by (by apply (Hpop 6%nat)). erewrite bind_step by (by apply (Hpop 7%nat)).
  done.
Qed.

Lemma context_switch_ok st l old new_sp fr :
  km_inv (kmem st) l -> room_below (km_words (kmem st)) l (rsp (regs st)) ->
  0 <= new_sp < 2 ^ 64 - 64 -> new_sp mod 8 = 0 ->
  let s := rsp (regs st) in
  let m := fill (km_words (kmem st)) (s - 64) (frame_of (regs st) (sym_schedule_ret sym)) in
  frame_at m new_sp fr ->
  exists b, km_inv b l /\ km_words b = m /\
    context_switch sym old new_sp st =
      Done tt (running (upd old (with_sp (s - 64)) st) (cpu_of fr new_sp) b) [].
Proof.
  intros Hi Hroom Hn0 Hn8 s m Hfr. destruct (save_ok st l Hi Hroom) as (b & Hib & Hm & Hsave).
  exists b. split; [done|]. split; [done|]. unfold context_switch.
  erewrite bind_step by reflexivity. cbv zeta. rewrite Hsave.
  erewrite bind_step by reflexivity. erewrite bind_step by reflexivity.
  match goal with |- (_ ≫= _) ?x = _ =>
    change x with (running (upd old (with_sp (s - 64)) st) (set_rsp new_sp (regs st)) b) end.
  apply restore_ok; [done|done|]. by rewrite Hm.
Qed.
End switch.
