(* ===== verification/TaskSched.v ===== *)
(** * Tasks: the scheduler

    The invariant of the task table and of the kernel stacks ([sched_wf]), and
    what [schedule] and the creation of tasks do to it. *)
From S2P Require Import Prelude Effects PmmInterface Gdt Heap HeapInv HeapProofs HeapSpec KernelMem.
From S2P Require Import Task TaskInv TaskSwitch.

Section sched.
Context {B : Type} `{HK : KernelMem B} `{!KernelMemOk B}.
Context (sym : symbols).

(** The stack boot.s sets up for the boot task, which is not the heap's. *)
Context (boot_lo boot_hi : Z) (Hboot : 0 <= boot_lo /\ boot_hi <= HEAP_START).
Implicit Types (st : tasks B) (b : B) (l : view) (t u n c : nat) (q : list nat) (o : task).

(** ** Stacks *)
Definition stack_lo o : Z := if kernel_stack o =? 0 then boot_lo else kernel_stack o.
Definition stack_hi o : Z :=
  if kernel_stack o =? 0 then boot_hi else kernel_stack o + TASK_STACK_SIZE.

(** Tasks that have a stack: the running one, dead or alive, and the others
    that are alive. *)
Definition in_use st c t : Prop := t = c \/ state (tcb st t) <> TASK_DEAD.

Definition saved_ok o : Prop :=
  stack_pointer o mod 8 = 0 /\ stack_lo o <= stack_pointer o /\ stack_pointer o + 64 <= stack_hi o.

(** ** The invariant *)
Record sched_wf st q c l : Prop := {
  sw_queue : queue_ok st q;
  sw_current : current_task st = Some c;
  sw_range : (c < 32)%nat;
  sw_ready : forall t, t ∈ q <-> state (tcb st t) = TASK_READY;
  sw_running : forall t, state (tcb st t) = TASK_RUNNING -> t = c;
  sw_blocked : forall t, state (tcb st t) <> TASK_BLOCKED;
  sw_inv : km_inv (kmem st) l;
  sw_boot : forall x, boot_lo <= x < boot_hi -> x mod 8 = 0 -> is_Some (km_words (kmem st) !! x);
  sw_stack : forall t, in_use st c t -> kernel_stack (tcb st t) <> 0 ->
    exists s, l !! kernel_stack (tcb st t) = Some s /\ TASK_STACK_SIZE <= s;
  sw_apart : forall t u, in_use st c t -> in_use st c u -> t <> u ->
    kernel_stack (tcb st t) <> kernel_stack (tcb st u);
  sw_saved : forall t, t ∈ q -> saved_ok (tcb st t);
}.

(** The running task has room for one more context on its stack. *)
Definition room st c : Prop :=
  rsp (regs st) mod 8 = 0 /\ stack_lo (tcb st c) + 64 <= rsp (regs st) <= stack_hi (tcb st c).

Lemma queue_not_current st q c l t : sched_wf st q c l -> state (tcb st c) <> TASK_READY -> t ∈ q -> t <> c.
Proof. intros Hw Hc Ht ->. by apply (sw_ready _ _ _ _ Hw) in Ht. Qed.

Lemma queue_in_use st q c l t : sched_wf st q c l -> t ∈ q -> in_use st c t.
Proof. intros Hw Ht. right. apply (sw_ready _ _ _ _ Hw) in Ht. by rewrite Ht. Qed.

Lemma stack_bounds st q c l t :
  sched_wf st q c l -> in_use st c t -> 0 <= stack_lo (tcb st t) /\ stack_hi (tcb st t) < 2 ^ 64.
Proof.
  intros Hw Ht. unfold stack_lo, stack_hi, HEAP_START in *.
  destruct (Z.eqb_spec (kernel_stack (tcb st t)) 0) as [H0|H0]; [lia|].
  destruct (sw_stack _ _ _ _ Hw t Ht H0) as (s & Hs & Hle).
  destruct (km_block _ _ _ _ (sw_inv _ _ _ _ Hw) Hs) as (? & ? & ? & _). lia.
Qed.

Lemma stack_writable st q c l t x :
  sched_wf st q c l -> in_use st c t -> stack_lo (tcb st t) <= x < stack_hi (tcb st t) ->
  x mod 8 = 0 -> writable (km_words (kmem st)) l x.
Proof.
  intros Hw Ht Hx H8. pose proof (stack_bounds _ _ _ _ _ Hw Ht) as Hb.
  unfold stack_lo, stack_hi in *.
  destruct (Z.eqb_spec (kernel_stack (tcb st t)) 0) as [H0|H0].
  - split_and!; [by apply (sw_boot _ _ _ _ Hw)|done|unfold fits; lia|left; unfold outside; lia].
  - destruct (sw_stack _ _ _ _ Hw t Ht H0) as (s & Hs & Hle).
    destruct (km_block _ _ _ _ (sw_inv _ _ _ _ Hw) Hs) as (? & ? & ? & Hm).
    split_and!; [apply Hm; [lia|done]|done|unfold fits; lia|].
    right. exists (kernel_stack (tcb st t)), s. split; [done|lia].
Qed.

(** Two tasks' stacks share no word. *)
Lemma stacks_apart st q c l t u x y :
  sched_wf st q c l -> in_use st c t -> in_use st c u -> t <> u ->
  stack_lo (tcb st t) <= x < stack_hi (tcb st t) ->
  stack_lo (tcb st u) <= y < stack_hi (tcb st u) -> x mod 8 = 0 -> y mod 8 = 0 -> x <> y.
Proof.
  intros Hw Ht Hu Hne Hx Hy H8 H8' <-. pose proof (sw_apart _ _ _ _ Hw t u Ht Hu Hne) as Hap.
  pose proof (sw_inv _ _ _ _ Hw) as Hi.
  assert (forall v, in_use st c v -> kernel_stack (tcb st v) <> 0 ->
    kernel_stack (tcb st v) <= x < kernel_stack (tcb st v) + TASK_STACK_SIZE -> ~ outside x) as Hin.
  { intros v Hv H0 Hr. destruct (sw_stack _ _ _ _ Hw v Hv H0) as (s & Hs & Hle).
    destruct (km_block _ _ _ _ Hi Hs) as (? & ? & ? & Hm). apply Hm; [lia|done]. }
  unfold stack_lo, stack_hi in *.
  destruct (Z.eqb_spec (kernel_stack (tcb st t)) 0) as [H0|H0],
    (Z.eqb_spec (kernel_stack (tcb st u)) 0) as [H1|H1]; [congruence| | |].
  - apply (Hin u Hu H1 Hy). unfold outside. lia.
  - apply (Hin t Ht H0 Hx). unfold outside. lia.
  - destruct (sw_stack _ _ _ _ Hw t Ht H0) as (s & Hs & Hle).
    destruct (sw_stack _ _ _ _ Hw u Hu H1) as (s' & Hs' & Hle').
    destruct (km_apart _ _ _ _ _ _ Hi Hs Hs' Hap); lia.
Qed.

Lemma room_room_below st q c l :
  sched_wf st q c l -> room st c -> room_below (km_words (kmem st)) l (rsp (regs st)).
Proof.
  intros Hw (H8 & Hlo & Hhi). assert (in_use st c c) as Hc by by left.
  pose proof (stack_bounds _ _ _ _ _ Hw Hc). split; [lia|]. split; [done|].
  intros i Hi. apply (stack_writable st q c l c); [done|done|lia|divlia].
Qed.

(** The saved context of a task in the queue. *)
Lemma saved_frame st q c l t :
  sched_wf st q c l -> t ∈ q ->
  exists fr, frame_at (km_words (kmem st)) (stack_pointer (tcb st t)) fr /\
    0 <= stack_pointer (tcb st t) < 2 ^ 64 - 64.
Proof.
  intros Hw Ht. destruct (sw_saved _ _ _ _ Hw t Ht) as (H8 & Hlo & Hhi).
  pose proof (queue_in_use _ _ _ _ _ Hw Ht) as Hu.
  pose proof (stack_bounds _ _ _ _ _ Hw Hu).
  destruct (frame_exists (km_words (kmem st)) (stack_pointer (tcb st t))) as [fr Hfr].
  { intros i Hi. apply (stack_writable st q c l t); [done|done|lia|divlia]. }
  exists fr. split; [done|lia].
Qed.

(** Another task's context does not move when the running one is saved. *)
Lemma frame_kept st q c l t vs fr :
  sched_wf st q c l -> room st c -> t ∈ q -> t <> c -> length vs = 8%nat ->
  frame_at (km_words (kmem st)) (stack_pointer (tcb st t)) fr ->
  frame_at (fill (km_words (kmem st)) (rsp (regs st) - 64) vs) (stack_pointer (tcb st t)) fr.
Proof.
  intros Hw (H8 & Hlo & Hhi) Ht Hne Hlen. apply frame_agree. intros i Hi.
  destruct (sw_saved _ _ _ _ Hw t Ht) as (H8t & Hlot & Hhit).
  apply fill_other. rewrite Hlen.
  destruct (decide (stack_pointer (tcb st t) + 8 * Z.of_nat i < rsp (regs st) - 64)); [by left|right].
  apply Z.nlt_ge. intros Hlt.
  apply (stacks_apart st q c l c t (stack_pointer (tcb st t) + 8 * Z.of_nat i)
    (stack_pointer (tcb st t) + 8 * Z.of_nat i)); try done; try lia.
  - by left.
  - by apply (queue_in_use st q c l).
  - divlia.
  - divlia.
Qed.

(** ** [schedule] up to the switch *)
Definition requeued o : task := with_slice TIME_SLICE (with_state TASK_READY o).
Definition launched o : task := with_slice TIME_SLICE (with_state TASK_RUNNING o).

Lemma queue_upd st q t f :
  queue_ok st q -> (t < 32)%nat -> (forall o, next (f o) = next o) -> queue_ok (upd t f st) q.
Proof.
  intros [Hlen Hnd Hr Htl Hc] Ht Hf. split; try done.
  - by rewrite length_upd.
  - cbn [ready_head upd set_table]. eapply chain_agree; [|exact Hc]. intros u _. simpl.
    change (next (tcb (upd t f st) u) = next (tcb st u)). rewrite tcb_upd by lia.
    case_decide; [subst; apply Hf|done].
Qed.

Lemma queue_same st st' q :
  task_table st' = task_table st -> ready_head st' = ready_head st -> ready_tail st' = ready_tail st ->
  queue_ok st q -> queue_ok st' q.
Proof.
  intros E1 E2 E3 [Hlen Hnd Hr Htl Hc]. split; rewrite ?E1, ?E2, ?E3; try done.
  unfold tcb in *. by rewrite E1.
Qed.

Lemma requeue_ok st q c :
  queue_ok st q -> (c < 32)%nat -> ~ c ∈ q ->
  let st' := ready_list_add c (upd c (with_slice TIME_SLICE) (upd c (with_state TASK_READY) st)) in
  queue_ok st' (q ++ [c]) /\ relinked (upd c requeued st) st'.
Proof.
  intros Hq Hc Hcq. pose proof (qk_len _ _ Hq) as Hlen.
  set (st0 := upd c (with_slice TIME_SLICE) (upd c (with_state TASK_READY) st)).
  assert (queue_ok st0 q) as Hq0 by (repeat (apply queue_upd; [|done|done]); done).
  destruct (ready_list_add_ok st0 q c Hq0 Hc Hcq) as [Hq' [R1 R2 R3 R4 R5 R6]].
  split; [done|]. split; try done. intros u. rewrite R1. unfold st0.
  rewrite !tcb_upd by (rewrite ?length_upd; lia). by repeat case_decide.
Qed.

(** What [schedule] makes of task [u], the stack pointer aside. *)
Definition rescheduled st c n u : task :=
  if decide (u = c) then
    if decide (state (tcb st c) = TASK_RUNNING) then requeued (tcb st c) else tcb st c
  else if decide (u = n) then launched (tcb st n) else tcb st u.

Definition requeue q c o : list nat :=
  if decide (state o = TASK_RUNNING) then q ++ [c] else q.

Definition entering o (g : gdt_state) : gdt_state :=
  if ring o =? 3 then tss_set_rsp0 (kernel_stack o ⊞ TASK_STACK_SIZE) g else g.

(** The state in which [c] leaves the CPU for [n]: everything is done but the
    exchange of the contexts. *)
Record prepared st c n q st' : Prop := {
  pr_queue : queue_ok st' q;
  pr_current : current_task st' = Some n;
  pr_pid : next_pid st' = next_pid st;
  pr_regs : regs st' = regs st;
  pr_kmem : kmem st' = kmem st;
  pr_gdt : gdt st' = entering (tcb st n) (gdt st);
  pr_tasks : forall u, strip (tcb st' u) = strip (rescheduled st c n u);
}.

Lemma put_back_ok st q c :
  queue_ok st q -> (c < 32)%nat -> ~ c ∈ q ->
  exists st', put_back c st = Done tt st' [] /\ queue_ok st' (requeue q c (tcb st c)) /\
    relinked (if decide (state (tcb st c) = TASK_RUNNING) then upd c requeued st else st) st'.
Proof.
  intros Hq Hc Hcq. unfold put_back, requeue. erewrite bind_step by reflexivity.
  case_decide.
  - destruct (requeue_ok st q c Hq Hc Hcq) as [Hq' Hr]. eexists. split; [reflexivity|done].
  - exists st. split; [done|]. split; [done|by split].
Qed.

(** The rest of [schedule], from a table in which [c] has left the CPU. *)
Lemma switch_to_prepares st st2 q c n :
  queue_ok st2 q -> (n < 32)%nat -> n <> c ->
  next_pid st2 = next_pid st -> regs st2 = regs st -> gdt st2 = gdt st -> kmem st2 = kmem st ->
  (forall u, strip (tcb st2 u) =
     strip (if decide (u = c) then rescheduled st c n c else tcb st u)) ->
  exists st', switch_to sym c n st2 = context_switch sym c (stack_pointer (tcb st n)) st' /\
    prepared st c n q st'.
Proof.
  intros Hq2 Hn Hnc P2 G2 D2 M2 T2. pose proof (qk_len _ _ Hq2) as Hlen2.
  set (st3 := upd n (with_slice TIME_SLICE) (upd n (with_state TASK_RUNNING) (set_current (Some n) st2))).
  assert (forall u, tcb st3 u = if decide (u = n) then launched (tcb st2 n) else tcb st2 u) as T3.
  { intros u. unfold st3. rewrite !tcb_upd by (rewrite ?length_upd; simpl; lia). by repeat case_decide. }
  assert (strip (tcb st3 n) = strip (launched (tcb st n))) as Tn.
  { rewrite T3, decide_True by done. specialize (T2 n). rewrite decide_False in T2 by done.
    unfold launched, strip in *. change (with_slice TIME_SLICE (with_state TASK_RUNNING (strip (tcb st2 n))) =
      with_slice TIME_SLICE (with_state TASK_RUNNING (strip (tcb st n)))). unfold strip. by rewrite T2. }
  destruct (strip_fields _ _ Tn) as (_ & Hsp & Hks & _ & Hring & _).
  set (st4 := set_gdt (entering (tcb st n) (gdt st)) st3).
  exists st4. split.
  - unfold switch_to. erewrite bind_step by reflexivity. erewrite bind_step by reflexivity.
    erewrite bind_step by reflexivity. erewrite bind_step by reflexivity.
    change (upd n (with_slice TIME_SLICE) _) with st3. rewrite Hring.
    change (ring (launched (tcb st n))) with (ring (tcb st n)).
    rewrite (bind_step _ _ _ tt st4).
    + erewrite bind_step by reflexivity. change (tcb st4 n) with (tcb st3 n). by rewrite Hsp.
    + unfold st4, entering. destruct (ring (tcb st n) =? 3); simpl.
      * unfold modify. rewrite Hks. change (gdt st3) with (gdt st2). by rewrite D2.
      * unfold mret, M_ret. rewrite <-D2. change (gdt st2) with (gdt st3). by destruct st3.
  - split; try done.
    + apply (queue_same st3); [done..|]. unfold st3.
      do 2 (apply queue_upd; [|done|done]). by apply (queue_same st2).
    + intros u. change (tcb st4 u) with (tcb st3 u). rewrite T3.
      destruct (decide (u = n)) as [->|Hun].
      * unfold rescheduled. rewrite decide_False, decide_True by done. by rewrite <-Tn, T3, decide_True.
      * rewrite T2. unfold rescheduled. repeat case_decide; subst; done.
Qed.

Lemma schedule_prepares st q c n :
  queue_ok st (n :: q) -> current_task st = Some c -> (c < 32)%nat -> ~ c ∈ n :: q ->
  exists st', schedule sym st = context_switch sym c (stack_pointer (tcb st n)) st' /\
    prepared st c n (requeue q c (tcb st c)) st'.
Proof.
  intros Hq Hcur Hc Hcq. assert (n < 32)%nat as Hn by (apply (qk_range _ _ Hq); set_solver).
  destruct (ready_list_pop_ok st _ Hq) as (st1 & Epop & Hq1 & [R1 R2 R3 R4 R5 R6]).
  destruct (strip_fields _ _ (R1 c)) as [Hs1 _].
  destruct (put_back_ok st1 q c Hq1 Hc ltac:(set_solver)) as (st2 & Eput & Hq2 & [S1 S2 S3 S4 S5 S6]).
  assert (requeue q c (tcb st1 c) = requeue q c (tcb st c)) as Hrq by (unfold requeue; by rewrite Hs1).
  rewrite Hrq in Hq2. rewrite Hs1 in S1, S2, S3, S4, S5, S6.
  destruct (switch_to_prepares st st2 (requeue q c (tcb st c)) c n) as (st' & E & Hp);
    [done|done|set_solver| | | | | |].
  1-4: by case_decide; cbn [next_pid regs gdt kmem upd set_table] in *; congruence.
  - intros u. rewrite S1. unfold rescheduled. rewrite (decide_True (P := c = c)) by done.
    case_decide as Ha; [|case_decide; subst; apply R1].
    rewrite tcb_upd by (rewrite (qk_len _ _ Hq1); lia). case_decide; [subst u|apply R1].
    unfold requeued, strip in *. change (with_slice TIME_SLICE (with_state TASK_READY (strip (tcb st1 c))) =
      with_slice TIME_SLICE (with_state TASK_READY (strip (tcb st c)))). unfold strip. by rewrite R1.
  - exists st'. split; [|done]. unfold schedule. erewrite bind_step by reflexivity. rewrite Hcur.
    rewrite (bind_step _ _ _ (Some n) st1) by (unfold run; by rewrite Epop).
    by erewrite bind_step by exact Eput.
Qed.

(** [task_yield] ends in the same state: the caller joins the queue before
    the head leaves it. *)
Lemma yield_prepares st q c n :
  queue_ok st (n :: q) -> current_task st = Some c -> (c < 32)%nat -> ~ c ∈ n :: q ->
  state (tcb st c) = TASK_RUNNING ->
  exists st', task_yield sym st = context_switch sym c (stack_pointer (tcb st n)) st' /\
    prepared st c n (requeue q c (tcb st c)) st'.
Proof.
  intros Hq Hcur Hc Hcq Ha. assert (n < 32)%nat as Hn by (apply (qk_range _ _ Hq); set_solver).
  pose proof (qk_len _ _ Hq) as Hlen.
  destruct (requeue_ok st (n :: q) c Hq Hc Hcq) as [Hq1 [R1 R2 R3 R4 R5 R6]].
  cbn [next_pid regs gdt kmem current_task upd set_table] in R2, R3, R4, R5, R6.
  set (st1 := ready_list_add c _) in *.
  destruct (ready_list_pop_ok st1 _ Hq1) as (st2 & Epop & Hq2 & [S1 S2 S3 S4 S5 S6]).
  assert (forall u, strip (tcb st2 u) = strip (if decide (u = c) then requeued (tcb st c) else tcb st u)) as T.
  { intros u. rewrite S1, R1, tcb_upd by lia. done. }
  destruct (strip_fields _ _ (T c)) as [Hs2 _]. rewrite decide_True in Hs2 by done.
  assert (put_back c st2 = Done tt st2 []) as Eput.
  { unfold put_back. erewrite bind_step by reflexivity. by rewrite Hs2. }
  destruct (switch_to_prepares st st2 (q ++ [c]) c n) as (st' & E & Hp);
    [done|done|set_solver|congruence..| |].
  - intros u. rewrite T. unfold rescheduled. by rewrite (decide_True (P := c = c)), (decide_True (P := state _ = _)).
  - exists st'. split; [|unfold requeue; by rewrite decide_True].
    unfold task_yield. erewrite bind_step by reflexivity. rewrite Hcur, decide_True by done.
    erewrite bind_step by reflexivity. erewrite bind_step by reflexivity.
    erewrite bind_step by reflexivity. change (ready_list_add c _) with st1.
    unfold schedule. erewrite bind_step by reflexivity.
    assert (current_task st1 = Some c) as -> by by rewrite R3.
    rewrite (bind_step _ _ _ (Some n) st2) by (unfold run; by rewrite Epop).
    by erewrite bind_step by exact Eput.
Qed.

(** ** [schedule] *)

(** What a switch from [c] to [n] leaves behind: [n] runs with the context
    saved on its stack, [c]'s context is the frame below its stack pointer,
    and nothing else of the tasks or of memory has changed. *)
Record switched st c n st' : Prop := {
  sd_regs : forall fr, frame_at (km_words (kmem st)) (stack_pointer (tcb st n)) fr ->
    regs st' = cpu_of fr (stack_pointer (tcb st n));
  sd_words : km_words (kmem st') =
    fill (km_words (kmem st)) (rsp (regs st) - 64) (frame_of (regs st) (sym_schedule_ret sym));
  sd_tasks : forall u, strip (tcb st' u) =
    strip (if decide (u = c) then with_sp (rsp (regs st) - 64) (rescheduled st c n u)
           else rescheduled st c n u);
  sd_pid : next_pid st' = next_pid st;
  sd_gdt : gdt st' = entering (tcb st n) (gdt st);
}.

Lemma prepared_switches st n q c l st4 :
  sched_wf st (n :: q) c l -> state (tcb st c) <> TASK_READY -> room st c ->
  prepared st c n (requeue q c (tcb st c)) st4 ->
  exists st', context_switch sym c (stack_pointer (tcb st n)) st4 = Done tt st' [] /\
    switched st c n st' /\
    queue_ok st' (requeue q c (tcb st c)) /\ current_task st' = Some n /\ km_inv (kmem st') l.
Proof.
  intros Hw Hc Hroom [Hq4 Hcur Hpid Hregs Hmem Hgdt Ht].
  assert (n ∈ n :: q) as Hnin by set_solver.
  pose proof (queue_not_current _ _ _ _ _ Hw Hc Hnin) as Hnc.
  destruct (saved_frame st _ c l n Hw Hnin) as (fr & Hfr & Hsp).
  destruct (sw_saved _ _ _ _ Hw n Hnin) as (H8 & _).
  assert (length (frame_of (regs st) (sym_schedule_ret sym)) = 8%nat) as Hl8 by done.
  pose proof (frame_kept st _ c l n _ fr Hw Hroom Hnin Hnc Hl8 Hfr) as Hfr'.
  destruct (context_switch_ok sym st4 l c (stack_pointer (tcb st n)) fr) as (b & Hib & Hmb & Ec);
    rewrite ?Hregs, ?Hmem; try done.
  { apply (sw_inv _ _ _ _ Hw). }
  { by apply (room_room_below st (n :: q) c l). }
  rewrite Hregs, ?Hmem in *. rewrite Ec. eexists. split; [reflexivity|].
  pose proof (qk_len _ _ Hq4) as Hlen4. pose proof (sw_range _ _ _ _ Hw).
  set (st' := running _ _ _).
  assert (forall u, tcb st' u = if decide (u = c) then with_sp (rsp (regs st) - 64) (tcb st4 c) else tcb st4 u) as Ht'.
  { intros u. change (tcb st' u) with (tcb (upd c (with_sp (rsp (regs st) - 64)) st4) u).
    apply tcb_upd. lia. }
  split; [split; try done|split; [|done]].
  - intros fr2 Hfr2. assert (fr2 = fr) as ->; [|done].
    destruct Hfr as [Hla Ha], Hfr2 as [Hlb Hb]. apply list_eq. intros i.
    destruct (decide (i < 8)%nat) as [Hi|Hi].
    + destruct (lookup_lt_is_Some_2 fr i) as [x Hx]; [lia|].
      destruct (lookup_lt_is_Some_2 fr2 i) as [y Hy]; [lia|].
      pose proof (Ha _ _ Hx). pose proof (Hb _ _ Hy). congruence.
    + rewrite !lookup_ge_None_2 by lia. done.
  - intros u. rewrite Ht'. case_decide as Hu; [subst u|apply Ht].
    unfold strip in *. change (with_sp (rsp (regs st) - 64) (with_next None (tcb st4 c)) =
      with_sp (rsp (regs st) - 64) (with_next None (rescheduled st c n c))). by rewrite Ht.
  - apply (queue_same (upd c (with_sp (rsp (regs st) - 64)) st4)); [done..|].
    by apply queue_upd.
Qed.

(** The fields the invariant reads, after the switch. *)
Lemma switched_fields st c n st' u :
  switched st c n st' -> n <> c ->
  kernel_stack (tcb st' u) = kernel_stack (tcb st u) /\
  stack_pointer (tcb st' u) = (if decide (u = c) then rsp (regs st) - 64 else stack_pointer (tcb st u)) /\
  state (tcb st' u) =
    (if decide (u = n) then TASK_RUNNING
     else if decide (u = c /\ state (tcb st c) = TASK_RUNNING) then TASK_READY
     else state (tcb st u)).
Proof.
  intros Hs Hnc. destruct (strip_fields _ _ (sd_tasks _ _ _ _ Hs u)) as (-> & -> & -> & _).
  unfold rescheduled. repeat case_decide; subst; naive_solver.
Qed.

Lemma stack_range o o' :
  kernel_stack o' = kernel_stack o -> stack_lo o' = stack_lo o /\ stack_hi o' = stack_hi o.
Proof. unfold stack_lo, stack_hi. by intros ->. Qed.

(** The invariant after a switch. *)
Lemma switched_wf st n q c l st' :
  sched_wf st (n :: q) c l -> state (tcb st c) <> TASK_READY -> room st c ->
  switched st c n st' -> queue_ok st' (requeue q c (tcb st c)) -> current_task st' = Some n ->
  km_inv (kmem st') l ->
  sched_wf st' (requeue q c (tcb st c)) n l.
Proof.
  intros Hw Hc Hroom Hs Hq' Hcur' Hi'.
  assert (n ∈ n :: q) as Hnin by set_solver.
  pose proof (queue_not_current _ _ _ _ _ Hw Hc Hnin) as Hnc.
  pose proof (fun u => switched_fields st c n st' u Hs Hnc) as Hf.
  pose proof (qk_nodup _ _ (sw_queue _ _ _ _ Hw)) as Hnd. apply NoDup_cons in Hnd as [Hnq _].
  assert (forall u, in_use st' n u -> in_use st c u) as Huse.
  { intros u Hu. destruct (Hf u) as (_ & _ & Hst). unfold in_use in *. rewrite Hst in Hu.
    destruct (decide (u = c)); [by left|right]. destruct (decide (u = n)) as [->|].
    - apply (sw_ready _ _ _ _ Hw) in Hnin. by rewrite Hnin.
    - rewrite decide_False in Hu by tauto. tauto. }
  split; try done.
  - apply (qk_range _ _ (sw_queue _ _ _ _ Hw)). set_solver.
  - intros u. destruct (Hf u) as (_ & _ & ->).
    pose proof (sw_ready _ _ _ _ Hw u) as Hr. rewrite elem_of_cons in Hr. unfold requeue.
    destruct (decide (u = n)) as [->|Hun].
    { split; [|done]. destruct (decide (state (tcb st c) = TASK_RUNNING)); [|done].
      intros Hin. apply elem_of_app in Hin as [Hin|Hin]; [done|].
      apply list_elem_of_singleton in Hin. done. }
    destruct (decide (state (tcb st c) = TASK_RUNNING)) as [Ha|Ha].
    + rewrite elem_of_app, list_elem_of_singleton.
      destruct (decide (u = c)) as [->|Huc]; [rewrite decide_True by done; tauto|].
      rewrite decide_False by tauto. rewrite <-Hr. tauto.
    + rewrite decide_False by tauto. rewrite <-Hr. tauto.
  - intros u. destruct (Hf u) as (_ & _ & ->). destruct (decide (u = n)) as [|Hun]; [done|].
    destruct (decide (u = c /\ _)) as [|Hno]; [done|].
    intros Hu. pose proof (sw_running _ _ _ _ Hw u Hu). subst u. by destruct Hno.
  - intros u. destruct (Hf u) as (_ & _ & ->). destruct (decide (u = n)); [done|].
    destruct (decide (u = c /\ _)); [done|]. apply (sw_blocked _ _ _ _ Hw).
  - intros x Hx H8. rewrite (sd_words _ _ _ _ Hs). apply fill_is_Some. by apply (sw_boot _ _ _ _ Hw).
  - intros u Hu. destruct (Hf u) as (-> & _). apply (sw_stack _ _ _ _ Hw). auto.
  - intros u v Hu Hv. destruct (Hf u) as (-> & _), (Hf v) as (-> & _). apply (sw_apart _ _ _ _ Hw); auto.
  - intros u Hu. destruct (Hf u) as (Hks & Hsp & _). destruct (stack_range _ _ Hks) as [Hlo Hhi].
    unfold saved_ok. rewrite Hlo, Hhi, Hsp. case_decide as Huc.
    + subst u. destruct Hroom as (H8 & ? & ?). split_and!; [divlia|lia|lia].
    + apply (sw_saved _ _ _ _ Hw). unfold requeue in Hu. case_decide; set_solver.
Qed.

Lemma schedule_ok st n q c l :
  sched_wf st (n :: q) c l -> state (tcb st c) <> TASK_READY -> room st c ->
  exists st', schedule sym st = Done tt st' [] /\ switched st c n st' /\
    sched_wf st' (requeue q c (tcb st c)) n l.
Proof.
  intros Hw Hc Hroom.
  destruct (schedule_prepares st q c n (sw_queue _ _ _ _ Hw) (sw_current _ _ _ _ Hw) (sw_range _ _ _ _ Hw))
    as (st4 & -> & Hp); [by rewrite (sw_ready _ _ _ _ Hw)|].
  destruct (prepared_switches st n q c l st4 Hw Hc Hroom Hp) as (st' & E & Hs & Hq & Hcur & Hi).
  exists st'. split; [done|]. split; [done|]. by eapply switched_wf.
Qed.

Lemma yield_ok st n q c l :
  sched_wf st (n :: q) c l -> state (tcb st c) = TASK_RUNNING -> room st c ->
  exists st', task_yield sym st = Done tt st' [] /\ switched st c n st' /\
    sched_wf st' (requeue q c (tcb st c)) n l.
Proof.
  intros Hw Hc Hroom. assert (state (tcb st c) <> TASK_READY) as Hc' by congruence.
  destruct (yield_prepares st q c n (sw_queue _ _ _ _ Hw) (sw_current _ _ _ _ Hw) (sw_range _ _ _ _ Hw))
    as (st4 & -> & Hp); [by rewrite (sw_ready _ _ _ _ Hw)|done|].
  destruct (prepared_switches st n q c l st4 Hw Hc' Hroom Hp) as (st' & E & Hs & Hq & Hcur & Hi).
  exists st'. split; [done|]. split; [done|]. by eapply switched_wf.
Qed.

(** Nothing else to run. *)
Lemma schedule_alone st c l : sched_wf st [] c l -> schedule sym st = Done tt st [].
Proof.
  intros Hw. unfold schedule. erewrite bind_step by reflexivity. rewrite (sw_current _ _ _ _ Hw).
  rewrite (bind_step _ _ _ None st); [done|]. unfold run.
  by rewrite (ready_list_pop_ok st [] (sw_queue _ _ _ _ Hw)).
Qed.
End sched.
