(* ===== verification/TaskCreate.v ===== *)
(** * Tasks: creating tasks and starting the scheduler

    The initial frame of a fresh task, the search for a free slot, and the
    invariant after [task_create], [task_create_user] and [kinit_task]. *)
From S2P Require Import Prelude Effects PmmInterface Gdt Heap HeapInv HeapProofs HeapSpec KernelMem.
From S2P Require Import Task TaskInv TaskSwitch TaskSched.

(** The context a fresh task starts with: cleared registers, interrupts
    enabled, and the entry point as the return address. *)
Definition fresh_frame (entry : Z) : list Z := [0; 0; 0; 0; 0; 0; 0x200; entry].

Section create.
Context {B : Type} `{HK : KernelMem B} `{!KernelMemOk B}.
Context (sym : symbols).
Context (boot_lo boot_hi : Z) (Hboot : 0 <= boot_lo /\ boot_hi <= HEAP_START).
Implicit Types (st : tasks B) (b : B) (l : view) (t u n c : nat) (q : list nat) (o : task).
Local Abbreviation sched_wf := (sched_wf boot_lo boot_hi).
Local Abbreviation room := (room boot_lo boot_hi).

(** ** The initial frame *)
Lemma frame_push_ok b0 l m vs sp v :
  km_inv b0 l -> km_words b0 = fill m sp vs -> 8 <= sp < 2 ^ 64 -> writable m l (sp - 8) ->
  exists b, (forall st, frame_push sp v (set_kmem b0 st) = Done (sp - 8) (set_kmem b st) []) /\
    km_inv b l /\ km_words b = fill m (sp - 8) (v :: vs).
Proof.
  intros Hi Hm Hsp Hw. destruct (km_sd_ok b0 l (sp - 8) v Hi) as (b & E & Hi' & Hm').
  { rewrite Hm. by apply writable_fill. }
  exists b. split; [|split; [done|]].
  - intros st. unfold frame_push. rewrite wrap_small by (unfold fits; lia).
    rewrite (bind_step _ _ _ tt (set_kmem b st)); [done|]. unfold on_kmem, zoom.
    change (kmem (set_kmem b0 st)) with b0. by rewrite E.
  - rewrite Hm', Hm. simpl. by replace (sp - 8 + 8) with sp by lia.
Qed.

Lemma init_frame_ok b0 l stack entry :
  km_inv b0 l -> 0 <= stack -> stack + TASK_STACK_SIZE < 2 ^ 64 -> stack mod 8 = 0 ->
  (forall x, stack <= x < stack + TASK_STACK_SIZE -> x mod 8 = 0 -> writable (km_words b0) l x) ->
  let sp := stack + TASK_STACK_SIZE - 64 in
  exists b, (forall st, init_frame stack entry (set_kmem b0 st) = Done sp (set_kmem b st) []) /\
    km_inv b l /\ km_words b = fill (km_words b0) sp (fresh_frame entry).
Proof.
  intros Hi H0 Hlt H8 Hw sp. set (m := km_words b0) in *. set (top := stack + TASK_STACK_SIZE) in *.
  assert (forall k vs b v, km_inv b l /\ km_words b = fill m (top - 8 * k) vs -> 0 <= k < 8 ->
    exists b', (forall st, frame_push (top - 8 * k) v (set_kmem b st) =
        Done (top - 8 * (k + 1)) (set_kmem b' st) []) /\
      (km_inv b' l /\ km_words b' = fill m (top - 8 * (k + 1)) (v :: vs))) as Hpush.
  { intros k vs b v [Hib Hmb] Hk.
    destruct (frame_push_ok b l m vs (top - 8 * k) v Hib Hmb) as (b' & E & Hib' & Hmb').
    - unfold top, TASK_STACK_SIZE in *. lia.
    - apply Hw; unfold top, TASK_STACK_SIZE in *; [lia|divlia].
    - replace (top - 8 * (k + 1)) with (top - 8 * k - 8) by lia. by exists b'. }
  destruct (Hpush 0 [] b0 entry) as (b1 & E1 & H1); [done|lia|].
  replace (top - 8 * 0) with top in E1 by lia.
  destruct (Hpush 1 _ b1 0x200 H1) as (b2 & E2 & H2); [lia|].
  destruct (Hpush 2 _ b2 0 H2) as (b3 & E3 & H3); [lia|].
  destruct (Hpush 3 _ b3 0 H3) as (b4 & E4 & H4); [lia|].
  destruct (Hpush 4 _ b4 0 H4) as (b5 & E5 & H5); [lia|].
  destruct (Hpush 5 _ b5 0 H5) as (b6 & E6 & H6); [lia|].
  destruct (Hpush 6 _ b6 0 H6) as (b7 & E7 & H7); [lia|].
  destruct (Hpush 7 _ b7 0 H7) as (b8 & E8 & H8'); [lia|].
  exists b8. split; [|done]. intros st. unfold init_frame.
  rewrite wrap_small by (unfold fits, top, TASK_STACK_SIZE in *; lia). fold top.
  erewrite bind_step by apply E1. erewrite bind_step by apply E2. erewrite bind_step by apply E3.
  erewrite bind_step by apply E4. erewrite bind_step by apply E5. erewrite bind_step by apply E6.
  erewrite bind_step by apply E7. apply E8.
Qed.

(** ** The free slot *)
Lemma find_slot_spec st :
  (exists t, find_slot st = Some t /\ (t < 32)%nat /\ state (tcb st t) = TASK_DEAD /\
     forall u, (u < t)%nat -> state (tcb st u) <> TASK_DEAD) \/
  (find_slot st = None /\ forall u, (u < 32)%nat -> state (tcb st u) <> TASK_DEAD).
Proof.
  unfold find_slot. match goal with |- context [for_range 0 _ ?f tt] => set (body := f) end.
  destruct (for_range_search
    (fun i => if decide (state (tcb st (Z.to_nat i)) = TASK_DEAD) then Some (Z.to_nat i) else None)
    0 MAX_TASKS body tt) as [(i & r & Hi & Hf & Hall & ->)|[Hall ->]]; [done| | |].
  - intros i Hi. unfold body. by case_decide.
  - left. case_decide as Hd; simplify_eq. exists (Z.to_nat i). unfold MAX_TASKS in Hi.
    split_and!; [done|lia|done|]. intros u Hu. specialize (Hall (Z.of_nat u) ltac:(lia)).
    rewrite Nat2Z.id in Hall. by case_decide.
  - right. split; [done|]. intros u Hu. unfold MAX_TASKS in Hall.
    specialize (Hall (Z.of_nat u) ltac:(lia)). rewrite Nat2Z.id in Hall. by case_decide.
Qed.

(** ** The invariant under an allocation *)

(** Memory that grew by a block. *)
Lemma grown_wf st q c l b l' :
  sched_wf st q c l -> km_inv b l' ->
  (forall x, outside x \/ owns l x -> km_words b !! x = km_words (kmem st) !! x) ->
  (forall p s, l !! p = Some s -> l' !! p = Some s) ->
  sched_wf (set_kmem b st) q c l'.
Proof.
  intros [Hq Hcur Hc Hr Hrun Hbl Hi Hbt Hst Hap Hsv] Hib Hw Hl.
  split; try done.
  - by apply (queue_same st).
  - intros x Hx H8. simpl. rewrite Hw; [by apply Hbt|]. left. unfold outside. lia.
  - intros t Ht Hk. destruct (Hst t Ht Hk) as (s & Hs & Hle). exists s. split; [by apply Hl|done].
Qed.

(** A frame of a task in use is not touched by it. *)
Lemma stack_held st q c l t x :
  sched_wf st q c l -> in_use st c t -> stack_lo boot_lo (tcb st t) <= x < stack_hi boot_hi (tcb st t) ->
  x mod 8 = 0 -> outside x \/ owns l x.
Proof. intros Hw Ht Hx H8. by apply (stack_writable boot_lo boot_hi Hboot st q c l t x). Qed.

(** ** A new task joins *)
Lemma joined_wf st q c l t stack s nt :
  sched_wf st q c l -> state (tcb st c) = TASK_RUNNING ->
  (t < 32)%nat -> state (tcb st t) = TASK_DEAD ->
  l !! stack = Some s -> TASK_STACK_SIZE <= s -> stack <> 0 ->
  (forall u, in_use st c u -> kernel_stack (tcb st u) <> stack) ->
  state nt = TASK_READY -> kernel_stack nt = stack -> next nt = None ->
  stack_pointer nt = stack + TASK_STACK_SIZE - 64 ->
  sched_wf (ready_list_add t (upd t (fun _ => nt) st)) (q ++ [t]) c l.
Proof.
  intros Hw Hc Ht Hdead Hs Hle H0 Hfresh Hnt Hks Hnx Hsp. pose proof Hw as [Hq Hcur Hcr Hr Hrun Hbl Hi Hbt Hst Hap Hsv].
  assert (~ t ∈ q) as Htq by (rewrite Hr; congruence).
  assert (t <> c) as Htc by congruence. pose proof (qk_len _ _ Hq) as Hlen.
  set (st1 := upd t (fun _ => nt) st).
  assert (forall u, tcb st1 u = if decide (u = t) then nt else tcb st u) as T1
    by (intros u; apply tcb_upd; lia).
  assert (queue_ok st1 q) as Hq1.
  { destruct Hq as [? Hnd Hrg Htl Hch]. split; try done; [by unfold st1; rewrite length_upd|].
    eapply chain_agree; [|exact Hch]. intros u Hu. simpl. rewrite T1, decide_False by congruence. done. }
  destruct (ready_list_add_ok st1 q t Hq1 Ht Htq) as [Hq2 [R1 R2 R3 R4 R5 R6]].
  set (st2 := ready_list_add t st1) in *.
  assert (forall u, state (tcb st2 u) = (if decide (u = t) then TASK_READY else state (tcb st u)) /\
    kernel_stack (tcb st2 u) = (if decide (u = t) then stack else kernel_stack (tcb st u)) /\
    stack_pointer (tcb st2 u) = (if decide (u = t) then stack_pointer nt else stack_pointer (tcb st u))) as Hf.
  { intros u. destruct (strip_fields _ _ (R1 u)) as (-> & -> & -> & _). rewrite T1.
    case_decide; naive_solver. }
  assert (forall u, u <> t -> in_use st2 c u -> in_use st c u) as Huse.
  { intros u Hu. unfold in_use. destruct (Hf u) as (-> & _). by rewrite decide_False. }
  split; rewrite ?R3, ?R6; try done.
  - intros u. destruct (Hf u) as (-> & _). rewrite elem_of_app, list_elem_of_singleton.
    destruct (decide (u = t)); [tauto|]. rewrite Hr. tauto.
  - intros u. destruct (Hf u) as (-> & _). destruct (decide (u = t)); [done|apply Hrun].
  - intros u. destruct (Hf u) as (-> & _). destruct (decide (u = t)); [done|apply Hbl].
  - intros u Hu. destruct (Hf u) as (_ & -> & _). destruct (decide (u = t)); [by exists s|apply Hst; auto].
  - intros u v Hu Hv Hne. destruct (Hf u) as (_ & -> & _), (Hf v) as (_ & -> & _).
    destruct (decide (u = t)), (decide (v = t)); [congruence| | |apply Hap; auto].
    + intros Heq. apply (Hfresh v); auto.
    + apply Hfresh; auto.
  - intros u Hu. destruct (Hf u) as (_ & Hk & Hp). unfold saved_ok, stack_lo, stack_hi. rewrite Hk, Hp.
    destruct (decide (u = t)) as [->|Hut].
    + rewrite (proj2 (Z.eqb_neq _ _) H0), Hsp. unfold TASK_STACK_SIZE in *.
      destruct (km_block _ _ _ _ Hi Hs) as (? & ? & _). split_and!; [divlia|lia|lia].
    + apply Hsv. apply elem_of_app in Hu as [?|Hu]; [done|]. by apply list_elem_of_singleton in Hu.
Qed.

Lemma upd_const t f st :
  (t < length (task_table st))%nat -> upd t f st = upd t (fun _ => f (tcb st t)) st.
Proof.
  intros Ht. unfold upd. f_equal. apply list_eq. intros u.
  destruct (decide (u = t)) as [->|Hu].
  - rewrite !list_lookup_alter_eq. unfold tcb. by destruct (task_table st !! t).
  - by rewrite !list_lookup_alter_ne by done.
Qed.

Lemma wf_next_pid st q c l p : sched_wf st q c l -> sched_wf (set_next_pid p st) q c l.
Proof. intros [Hq ? ? ? ? ? ? ? ? ? ?]. split; try done. by apply (queue_same st). Qed.

(** ** [kmalloc] and the initial frame *)

(** A new stack with its frame: what the rest of the system sees of it. *)
Lemma new_stack_ok st q c l stack b1 l' entry :
  sched_wf st q c l -> km_inv b1 l' -> stack <> 0 ->
  (forall x, outside x \/ owns l x -> km_words b1 !! x = km_words (kmem st) !! x) ->
  spec_step l (Malloc TASK_STACK_SIZE) stack l' ->
  let sp := stack + TASK_STACK_SIZE - 64 in
  exists b2 s, (forall st0, init_frame stack entry (set_kmem b1 st0) = Done sp (set_kmem b2 st0) []) /\
    l' !! stack = Some s /\ TASK_STACK_SIZE <= s /\
    (forall u, in_use st c u -> kernel_stack (tcb st u) <> stack) /\
    frame_at (km_words b2) sp (fresh_frame entry) /\
    (forall x, outside x \/ owns l x -> km_words b2 !! x = km_words (kmem st) !! x) /\
    sched_wf (set_kmem b2 st) q c l'.
Proof.
  intros Hw Hi1 H0 Hold Hstep sp.
  destruct (malloc_owns _ _ _ _ Hstep) as [[? _]|(_ & Hnone & s & Hle & Hap & ->)]; [done|].
  assert (<[stack := s]> l !! stack = Some s) as Hs by apply lookup_insert_eq.
  destruct (km_block _ _ _ _ Hi1 Hs) as (Hp & Hp8 & Hlt & Hm).
  assert (forall x, stack <= x < stack + TASK_STACK_SIZE -> x mod 8 = 0 ->
    writable (km_words b1) (<[stack := s]> l) x) as Hwr.
  { intros x Hx H8. destruct (Hm x) as [_ ?]; [lia|done|]. split_and!; [done|done|unfold fits; lia|].
    right. exists stack, s. split; [done|lia]. }
  destruct (init_frame_ok b1 (<[stack := s]> l) stack entry Hi1) as (b2 & Hinit & Hi2 & Hm2);
    [lia|lia|done|exact Hwr|].
  assert (forall x, outside x \/ owns l x -> km_words b2 !! x = km_words (kmem st) !! x) as Hkept.
  { intros x Hx. rewrite Hm2. change (stack + TASK_STACK_SIZE - 64) with sp. rewrite <-(Hold x Hx).
    assert (x mod 8 = 0 -> ~ stack <= x < stack + TASK_STACK_SIZE) as Hout.
    { intros H8 Hr. destruct Hx as [Hx|(p & t & Hpt & Hx)].
      - destruct (Hm x) as [Hno _]; [lia|done|]. done.
      - destruct (Hap p t Hpt); lia. }
    set (F := fresh_frame entry). assert (length F = 8%nat) as HF by done. clearbody F.
    destruct (decide (x < sp \/ sp + 64 <= x)) as [Hr|Hr]; [apply fill_other; lia|].
    destruct (decide (x mod 8 = 0)) as [H8|H8].
    + exfalso. apply Hout; [done|]. unfold sp, TASK_STACK_SIZE in *. lia.
    + assert (sp mod 8 = 0) as Hsp8 by (unfold sp, TASK_STACK_SIZE; divlia).
      clear -H8 Hsp8. clearbody sp. revert sp Hsp8. induction F as [|v F IH]; intros sp Hsp8; simpl; [done|].
      rewrite lookup_insert_ne by (intros ->; done). apply IH. divlia. }
  exists b2, s. split; [exact Hinit|]. split; [done|]. split; [done|]. split.
  { intros u Hu Heq. assert (kernel_stack (tcb st u) <> 0) as Hk by congruence.
    destruct (sw_stack _ _ _ _ _ _ Hw u Hu Hk) as (t & Ht & _). congruence. }
  split; [rewrite Hm2; split; [done|intros i v; apply fill_lookup]|].
  split; [done|]. apply (grown_wf st q c l); [done|done|done|].
  intros p t Hpt. rewrite lookup_insert_ne; [done|congruence].
Qed.

(** ** [task_create] and [task_create_user] *)
Definition fill_keeps (fill : task -> task) : Prop :=
  forall o, state (fill o) = state o /\ kernel_stack (fill o) = kernel_stack o /\
    stack_pointer (fill o) = stack_pointer o /\ next (fill o) = next o /\ pid (fill o) = pid o.

(** The task that [task_create_with] leaves in slot [t]. *)
Definition created st st' q c l' entry (fill : task -> task) (logged : Z -> call) w t : Prop :=
  w = [logged (next_pid st)] /\ find_slot st = Some t /\ sched_wf st' (q ++ [t]) c l' /\
  next_pid st' = next_pid st ⊞ 1 /\
  (forall u, u <> t -> strip (tcb st' u) = strip (tcb st u)) /\
  (exists sp stack, strip (tcb st' t) =
     strip (fill (Task (next_pid st) TASK_READY sp stack TIME_SLICE None (ring (tcb st t))
       (task_cr3 (tcb st t)) (user_rip (tcb st t)) (user_rsp (tcb st t)) (user_rflags (tcb st t))))) /\
  frame_at (km_words (kmem st')) (stack_pointer (tcb st' t)) (fresh_frame entry).

Lemma task_create_with_ok st q c l entry fill logged :
  fill_keeps fill -> sched_wf st q c l -> state (tcb st c) = TASK_RUNNING ->
  km_room (kmem st) TASK_STACK_SIZE ->
  exists r st' w l', task_create_with entry fill logged st = Done r st' w /\
    regs st' = regs st /\ gdt st' = gdt st /\ current_task st' = Some c /\
    (forall x, outside x \/ owns l x -> km_words (kmem st') !! x = km_words (kmem st) !! x) /\
    match r with
    | None => w = [] /\ sched_wf st' q c l' /\ task_table st' = task_table st /\ next_pid st' = next_pid st
    | Some t => created st st' q c l' entry fill logged w t
    end.
Proof.
  intros Hfill Hw Hc Hroom. pose proof (sw_current _ _ _ _ _ _ Hw) as Hcur.
  unfold task_create_with. erewrite bind_step by reflexivity.
  destruct (find_slot_spec st) as [(t & Hslot & Ht & Hdead & _)|[-> _]].
  2:{ exists None, st, [], l. by split_and!. }
  rewrite Hslot.
  destruct (km_kmalloc_ok (kmem st) l TASK_STACK_SIZE (sw_inv _ _ _ _ _ _ Hw) ltac:(done) Hroom)
    as (stack & b1 & l' & Ek & Hstep & Hi1 & Hold).
  rewrite (bind_step _ _ _ stack (set_kmem b1 st)) by (unfold on_kmem, zoom; by rewrite Ek).
  destruct (Z.eqb_spec stack 0) as [H0|H0].
  { exists None, (set_kmem b1 st), [], l'. split; [done|]. split_and!; try done.
    apply (grown_wf st q c l); [done|done|done|]. intros p s Hp.
    destruct (malloc_owns _ _ _ _ Hstep) as [(_ & ->)|(? & _)]; done. }
  destruct (new_stack_ok st q c l stack b1 l' entry Hw Hi1 H0 Hold Hstep)
    as (b2 & s & Einit & Hs & Hle & Hfresh & Hframe & Hkept & Hw2).
  erewrite bind_step by apply Einit.
  set (st2 := set_next_pid (next_pid st ⊞ 1) (set_kmem b2 st)).
  rewrite (bind_step _ _ _ (next_pid st) st2) by done.
  erewrite bind_step by reflexivity. erewrite bind_step by reflexivity.
  assert (sched_wf st2 q c l') as Hw3 by by apply wf_next_pid.
  pose proof (qk_len _ _ (sw_queue _ _ _ _ _ _ Hw)) as Hlen.
  rewrite upd_const by (simpl; lia). set (nt := fill _).
  destruct (Hfill (Task (next_pid st) TASK_READY (stack + TASK_STACK_SIZE - 64) stack TIME_SLICE None
    (ring (tcb st2 t)) (task_cr3 (tcb st2 t)) (user_rip (tcb st2 t)) (user_rsp (tcb st2 t))
    (user_rflags (tcb st2 t)))) as (F1 & F2 & F3 & F4 & F5). fold nt in F1, F2, F3, F4, F5.
  pose proof (joined_wf st2 q c l' t stack s nt Hw3 Hc Ht Hdead Hs Hle H0 Hfresh F1 F2 F4 F3) as Hw4.
  assert (~ t ∈ q) as Htq by (rewrite (sw_ready _ _ _ _ _ _ Hw); congruence).
  assert (queue_ok (upd t (fun _ => nt) st2) q) as Hq4.
  { destruct (sw_queue _ _ _ _ _ _ Hw3) as [? Hnd Hrg Htl Hch].
    split; try done; [by rewrite length_upd|]. eapply chain_agree; [|exact Hch]. intros u Hu. simpl.
    rewrite tcb_upd, decide_False by (simpl; lia || congruence). done. }
  destruct (ready_list_add_ok (upd t (fun _ => nt) st2) q t Hq4 Ht Htq) as [_ [R1 R2 R3 R4 R5 R6]].
  set (st5 := ready_list_add t (upd t (fun _ => nt) st2)) in *.
  exists (Some t), st5, [logged (next_pid st)], l'. split; [done|].
  rewrite R3, R4, R5, R6. split_and!; try done. unfold created. rewrite R2, R6.
  destruct (strip_fields _ _ (R1 t)) as (_ & Hsp & _).
  rewrite tcb_upd, decide_True in Hsp by (done || (simpl; lia)).
  split_and!; try done.
  - intros u Hu. rewrite R1, tcb_upd, decide_False by (done || (simpl; lia)). done.
  - exists (stack + TASK_STACK_SIZE - 64), stack.
    rewrite R1, tcb_upd, decide_True by (done || (simpl; lia)). done.
  - rewrite Hsp, F3. done.
Qed.

(** ** [kinit_task] *)

(** The statics before the call: no list, no current task. *)
Record unstarted st : Prop := {
  us_table : length (task_table st) = 32%nat;
  us_head : ready_head st = None;
  us_tail : ready_tail st = None;
}.

Lemma clear_table (tt : list task) :
  length tt = 32%nat ->
  after_break (for_range 0 MAX_TASKS (fun i tt => Next (<[Z.to_nat i := zero_task]> tt)) tt) =
    replicate 32 zero_task.
Proof.
  intros Hl. do 32 (destruct tt as [|? tt]; [discriminate Hl|]).
  destruct tt; [reflexivity|discriminate Hl].
Qed.

(** The table with the boot task only. *)
Definition boot_tcb (p : Z) : task := Task p TASK_RUNNING 0 0 TIME_SLICE None 0 0 0 0 0.
Definition boot_only st : tasks B :=
  Tasks (boot_tcb (next_pid st) :: replicate 31 zero_task) (next_pid st ⊞ 1 ⊞ 1) (Some 0%nat)
    (ready_head st) (ready_tail st) (regs st) (gdt st) (kmem st).

Lemma tcb_boot_only st u :
  tcb (boot_only st) u = if decide (u = 0%nat) then boot_tcb (next_pid st) else zero_task.
Proof.
  destruct u as [|u]; [done|]. rewrite decide_False by done.
  change (default zero_task (replicate 31 zero_task !! u) = zero_task). destruct (decide (u < 31)%nat).
  - by rewrite lookup_replicate_2.
  - rewrite lookup_ge_None_2; [done|]. rewrite length_replicate. lia.
Qed.

Lemma boot_only_wf st l :
  unstarted st -> km_inv (kmem st) l ->
  (forall x, boot_lo <= x < boot_hi -> x mod 8 = 0 -> is_Some (km_words (kmem st) !! x)) ->
  sched_wf (boot_only st) [] 0 l.
Proof.
  intros [Hlen Hh Ht] Hi Hbt. pose proof (tcb_boot_only st) as T.
  assert (forall u, in_use (boot_only st) 0 u -> u = 0%nat) as Huse.
  { intros u [?|Hu]; [done|]. rewrite T in Hu. by destruct (decide (u = 0%nat)). }
  split; try done; try (simpl; lia).
  - split; try done; [constructor|set_solver].
  - intros u. rewrite T. split; [by intros ?%elem_of_nil|]. by destruct (decide (u = 0%nat)).
  - intros u. rewrite T. by destruct (decide (u = 0%nat)).
  - intros u. rewrite T. by destruct (decide (u = 0%nat)).
  - intros u Hu%Huse. subst u. rewrite T. by rewrite decide_True.
  - intros u v Hu%Huse Hv%Huse. congruence.
  - by intros u ?%elem_of_nil.
Qed.

Definition idle_tcb (p sp stack : Z) : task := Task p TASK_READY sp stack TIME_SLICE None 0 0 0 0 0.
Definition started : call := KLog LOG_INFO ("Task: scheduler initialized (boot=1 idle=2)" +:+ NL).

(** [kinit_task] up to the memory operations. *)
Lemma kinit_task_run st stack b1 sp b2 :
  unstarted st -> km_kmalloc TASK_STACK_SIZE (kmem st) = Done stack b1 [] ->
  (forall st0, init_frame stack (sym_idle_entry sym) (set_kmem b1 st0) = Done sp (set_kmem b2 st0) []) ->
  kinit_task sym st =
    Done tt (ready_list_add 1 (upd 1 (fun _ => idle_tcb (next_pid st ⊞ 1) sp stack)
      (set_kmem b2 (boot_only st)))) [started].
Proof.
  intros [Hlen Hh Ht] Ek Einit. unfold kinit_task.
  erewrite bind_step by reflexivity. rewrite clear_table by done.
  rewrite (bind_step _ _ _ (next_pid st)
    (set_next_pid (next_pid st ⊞ 1) (set_table (replicate 32 zero_task) st))) by done.
  erewrite bind_step by reflexivity. erewrite bind_step by reflexivity.
  match goal with |- (take_pid ≫= _) ?s = _ =>
    rewrite (bind_step _ _ s (next_pid st ⊞ 1) (boot_only st)) by done end.
  erewrite bind_step by reflexivity.
  match goal with |- (on_kmem _ ≫= _) ?s = _ =>
    rewrite (bind_step _ _ s stack (set_kmem b1 s)) by (unfold on_kmem, zoom; simpl; by rewrite Ek) end.
  erewrite bind_step by reflexivity.
  match goal with |- (init_frame _ _ ≫= _) ?s = _ =>
    rewrite (bind_step _ _ s sp (set_kmem b2 s)) by apply (Einit s) end.
  erewrite bind_step by reflexivity. erewrite bind_step by reflexivity.
  reflexivity.
Qed.

Lemma kinit_task_ok st l stack b1 l' :
  unstarted st -> km_inv (kmem st) l ->
  (forall x, boot_lo <= x < boot_hi -> x mod 8 = 0 -> is_Some (km_words (kmem st) !! x)) ->
  km_kmalloc TASK_STACK_SIZE (kmem st) = Done stack b1 [] -> stack <> 0 ->
  spec_step l (Malloc TASK_STACK_SIZE) stack l' -> km_inv b1 l' ->
  (forall x, outside x \/ owns l x -> km_words b1 !! x = km_words (kmem st) !! x) ->
  exists st', kinit_task sym st = Done tt st' [started] /\ sched_wf st' [1%nat] 0 l' /\
    regs st' = regs st /\ next_pid st' = next_pid st ⊞ 1 ⊞ 1 /\
    strip (tcb st' 0) = boot_tcb (next_pid st) /\
    strip (tcb st' 1) = idle_tcb (next_pid st ⊞ 1) (stack + TASK_STACK_SIZE - 64) stack /\
    frame_at (km_words (kmem st')) (stack_pointer (tcb st' 1)) (fresh_frame (sym_idle_entry sym)) /\
    (forall x, outside x \/ owns l x -> km_words (kmem st') !! x = km_words (kmem st) !! x).
Proof.
  intros Hu Hi Hbt Ek H0 Hstep Hi1 Hold. pose proof (boot_only_wf st l Hu Hi Hbt) as Hw.
  destruct (new_stack_ok (boot_only st) [] 0 l stack b1 l' (sym_idle_entry sym) Hw Hi1 H0 Hold Hstep)
    as (b2 & s & Einit & Hs & Hle & Hfresh & Hframe & Hkept & Hw2).
  rewrite (kinit_task_run st stack b1 _ b2 Hu Ek Einit).
  set (sp := stack + TASK_STACK_SIZE - 64) in *. set (st0 := set_kmem b2 (boot_only st)) in *.
  set (nt := idle_tcb (next_pid st ⊞ 1) sp stack) in *.
  assert (state (tcb st0 1) = TASK_DEAD) as Hdead by exact (f_equal state (tcb_boot_only st 1%nat)).
  assert (1 < 32)%nat as H1 by lia.
  pose proof (joined_wf st0 [] 0 l' 1 stack s nt Hw2 eq_refl H1 Hdead Hs Hle H0 Hfresh eq_refl eq_refl
    eq_refl eq_refl) as Hw3.
  assert (queue_ok (upd 1 (fun _ => nt) st0) []) as Hq.
  { split; try done; [constructor|set_solver|apply Hu|apply Hu]. }
  destruct (ready_list_add_ok _ [] 1 Hq H1 ltac:(set_solver)) as [_ [R1 R2 R3 R4 R5 R6]].
  eexists. split; [reflexivity|]. rewrite R2, R4, R6.
  destruct (strip_fields _ _ (R1 1%nat)) as (_ & Hsp & _).
  split; [exact Hw3|]. split; [done|]. split; [done|].
  split; [by rewrite R1|]. split; [by rewrite R1|]. split; [|exact Hkept].
  rewrite Hsp. exact Hframe.
Qed.
End create.
