(* ===== verification/Syscall.v ===== *)
(** * System calls (src/syscall/syscall.c, syscall.h)

    The handlers run on the state of the tasks; [sys_write] reads user memory
    byte by byte through the same memory interface.  A handler's value is the
    64-bit result; after [schedule] it is the value the task will see when it
    runs again.  [syscall_init] writes model-specific registers. *)
From S2P Require Import Prelude Effects PmmInterface Gdt KernelMem Task.

Definition SYSCALL_EXIT : Z := 0.
Definition SYSCALL_WRITE : Z := 1.
Definition SYSCALL_GETPID : Z := 2.
Definition SYSCALL_YIELD : Z := 3.
Definition SYSCALL_SBRK : Z := 4.
Definition SYSCALL_TEST : Z := 5.
Definition SYSCALL_COUNT : Z := 6.

(** The negative error codes as the handlers return them. *)
Definition SYSCALL_ERR_NOSYS : Z := wrap 64 (-1).
Definition SYSCALL_ERR_INVAL : Z := wrap 64 (-2).
Definition SYSCALL_ERR_FAULT : Z := wrap 64 (-3).

Section syscall.
Context {B : Type} `{KernelMem B}.
Context (sym : symbols).
Local Abbreviation K := (M (tasks B)).

Definition sys_exit (code b c d e f : Z) : K Z :=
  st ← get;
  match task_current st with
  | Some t =>
      modify (upd t (with_state TASK_DEAD));;
      say (KLogHex LOG_INFO "syscall: exit pid=" (pid (tcb st t)));;
      say (KLogHex LOG_INFO "  code=" code);;
      schedule sym;;
      mret 0
  | None => mret 0
  end.

(** [data[i]], one byte of the word that holds it. *)
Definition load_byte (a : Z) : K Z :=
  w ← on_kmem (km_ld (a - a mod 8));
  mret (Z.land (Z.shiftr w (8 * (a mod 8))) 0xFF).

Definition sys_write (fd buf len d e f : Z) : K Z :=
  if negb (fd =? 1) || (buf =? 0) || (len =? 0) then mret SYSCALL_ERR_INVAL
  else
    mfor (R := unit) (Z.to_nat len) 0 (fun i =>
      ch ← load_byte (buf ⊞ i);
      say (SerialPutc ch);;
      mret None);;
    mret len.

Definition sys_getpid (a b c d e f : Z) : K Z :=
  st ← get;
  match task_current st with
  | Some t => mret (pid (tcb st t))
  | None => mret 0
  end.

Definition sys_yield (a b c d e f : Z) : K Z := schedule sym;; mret 0.

Definition sys_sbrk (a b c d e f : Z) : K Z := mret SYSCALL_ERR_NOSYS.

Definition sys_test (a b c d e f : Z) : K Z := mret 0xDEAD.

Definition syscall_table : list (Z -> Z -> Z -> Z -> Z -> Z -> K Z) :=
  [sys_exit; sys_write; sys_getpid; sys_yield; sys_sbrk; sys_test].

Definition syscall_dispatch (number arg0 arg1 arg2 arg3 arg4 arg5 : Z) : K Z :=
  if SYSCALL_COUNT <=? number then mret SYSCALL_ERR_NOSYS
  else
    match syscall_table !! Z.to_nat number with
    | Some h => h arg0 arg1 arg2 arg3 arg4 arg5
    | None => stop (OutOfBounds number)
    end.
End syscall.

(** ** The model-specific registers *)

Definition MSR_IA32_STAR : Z := 0xC0000081.
Definition MSR_IA32_LSTAR : Z := 0xC0000082.
Definition MSR_IA32_FMASK : Z := 0xC0000084.

Abbreviation msrs := (gmap Z Z).

(** [wrmsr] with the value in EDX:EAX. *)
Definition wrmsr (ecx eax edx : Z) (m : msrs) : msrs := <[ecx := Z.lor (Z.shiftl edx 32) eax]> m.

Definition wrmsr64 (ecx v : Z) (m : msrs) : msrs :=
  wrmsr ecx (wrap 32 v) (wrap 32 (Z.shiftr v 32)) m.

Definition syscall_init (syscall_entry : Z) : M msrs unit :=
  let star := Z.lor (wrap 64 (Z.shiftl 0x1B 48)) (wrap 64 (Z.shiftl 0x08 32)) in
  let lstar := syscall_entry in
  let fmask := 0x200 in
  modify (wrmsr64 MSR_IA32_LSTAR lstar);;
  modify (wrmsr64 MSR_IA32_STAR star);;
  modify (wrmsr64 MSR_IA32_FMASK fmask);;
  say (KLog LOG_INFO ("Syscall: MSRs configured (STAR/LSTAR/FMASK)" +:+ NL)).

(** The two halves hold the value. *)
Lemma wrmsr64_lookup ecx v m : fits 64 v -> wrmsr64 ecx v m !! ecx = Some v.
Proof.
  intros Hv. unfold wrmsr64, wrmsr. rewrite lookup_insert_eq. f_equal.
  bitwise i. destruct (decide (i < 32)) as [Hi|Hi].
  - rewrite (Z.testbit_neg_r _ (i - 32)) by lia. by rewrite !bool_decide_true by lia.
  - rewrite (bool_decide_false (i < 32)) by done. rewrite ?testbit_wrap, Z.shiftr_spec by lia.
    replace (i - 32 + 32) with i by lia. rewrite orb_false_r.
    case_bool_decide as Hi2; [done|]. simpl. symmetry. apply (testbit_fits 64 v i Hv). lia.
Qed.

(** [syscall_init] enters the entry point, the selectors and the mask, and
    touches no other register. *)
Lemma syscall_init_ok entry m :
  fits 64 entry ->
  exists m', syscall_init entry m =
      Done tt m' [KLog LOG_INFO ("Syscall: MSRs configured (STAR/LSTAR/FMASK)" +:+ NL)] /\
    m' !! MSR_IA32_LSTAR = Some entry /\
    m' !! MSR_IA32_STAR = Some (0x1B * 2 ^ 48 + 0x08 * 2 ^ 32) /\
    m' !! MSR_IA32_FMASK = Some 0x200 /\
    forall r, r <> MSR_IA32_LSTAR -> r <> MSR_IA32_STAR -> r <> MSR_IA32_FMASK -> m' !! r = m !! r.
Proof.
  intros He. eexists. split; [reflexivity|]. split_and!.
  - unfold wrmsr64, wrmsr at 1 2. rewrite !lookup_insert_ne by done. by apply wrmsr64_lookup.
  - unfold wrmsr64 at 1, wrmsr at 1. rewrite lookup_insert_ne by done.
    rewrite wrmsr64_lookup; [reflexivity|]. split; vm_compute; done.
  - by apply wrmsr64_lookup.
  - intros r H1 H2 H3. unfold wrmsr64, wrmsr. by rewrite !lookup_insert_ne by done.
Qed.
