(* ===== verification/TaskSystem.v ===== *)
(** * The task system: theorems

    The kernel as a transition system: the running task computes, creates
    tasks, yields or exits, and timer ticks preempt it.  The invariant of the
    scheduler, the queue discipline, the resumption of preempted tasks and the
    fairness of the rotation are proved over all its executions. *)
From S2P Require Import Prelude Effects PmmInterface Gdt Heap HeapInv HeapProofs HeapSpec KernelMem.
From S2P Require Import Task TaskInv TaskSwitch TaskSched TaskCreate Syscall.

Inductive event := Compute | Create | CreateUser | Tick | Yield | Exit.

#[export] Instance event_eq_dec : EqDecision event.
Proof. solve_decision. Defined.

Section system.
Context {B : Type} `{HK : KernelMem B} `{!KernelMemOk B}.
Context (sym : symbols).
Context (boot_lo boot_hi : Z) (Hboot : 0 <= boot_lo /\ boot_hi <= HEAP_START).
Implicit Types (st : tasks B) (b : B) (l : view) (t u n c : nat) (q : list nat) (o : task).
Local Abbreviation sched_wf := (sched_wf boot_lo boot_hi).
Local Abbreviation room := (room boot_lo boot_hi).

(** The slot of the idle task, which neither yields nor exits. *)
Definition idle : nat := 1.

Definition system_ok st q c l : Prop :=
  sched_wf st q c l /\ state (tcb st c) = TASK_RUNNING /\ state (tcb st idle) <> TASK_DEAD.

(** ** Steps *)

Definition switches (e : event) : bool :=
  match e with Tick | Yield | Exit => true | _ => false end.

(** What the code between two steps may do to memory: anything but touching
    the saved contexts of other tasks, freeing kernel stacks or unmapping the
    boot stack. *)
Record respects st b : Prop := {
  rs_inv : forall l, km_inv (kmem st) l -> exists l', km_inv b l' /\
    forall t, state (tcb st t) <> TASK_DEAD ->
      l' !! kernel_stack (tcb st t) = l !! kernel_stack (tcb st t);
  rs_boot : forall x, boot_lo <= x < boot_hi -> x mod 8 = 0 -> is_Some (km_words b !! x);
  rs_saved : forall t x, state (tcb st t) = TASK_READY ->
    stack_pointer (tcb st t) <= x < stack_pointer (tcb st t) + 64 ->
    km_words b !! x = km_words (kmem st) !! x;
}.

Inductive step st : event -> tasks B -> Prop :=
  | step_compute r b : respects st b -> step st Compute (running st r b)
  | step_create entry r st' w :
      km_room (kmem st) TASK_STACK_SIZE -> task_create entry st = Done r st' w ->
      step st Create st'
  | step_create_user ip sp fl cr r st' w :
      km_room (kmem st) TASK_STACK_SIZE -> task_create_user sym ip sp fl cr st = Done r st' w ->
      step st CreateUser st'
  | step_tick c st' w :
      current_task st = Some c -> room st c -> schedule sym st = Done tt st' w -> step st Tick st'
  | step_yield c st' w :
      current_task st = Some c -> c <> idle -> room st c -> task_yield sym st = Done tt st' w ->
      step st Yield st'
  | step_exit c code r st' w :
      current_task st = Some c -> c <> idle -> room st c ->
      sys_exit sym code 0 0 0 0 0 st = Done r st' w -> step st Exit st'.

Inductive exec st : list event -> tasks B -> Prop :=
  | exec_nil : exec st [] st
  | exec_snoc evs e st1 st2 : exec st evs st1 -> step st1 e st2 -> exec st (evs ++ [e]) st2.

(** ** The ingredients *)

(** The idle task is always there to run. *)
Lemma queue_nonempty st q c l :
  system_ok st q c l -> c <> idle -> exists n q', q = n :: q'.
Proof.
  intros (Hw & Hc & Hidle) Hne. destruct q as [|n q']; [|eauto]. exfalso.
  destruct (state (tcb st idle)) eqn:Hs; [done| | |].
  - apply (sw_ready _ _ _ _ _ _ Hw) in Hs. by apply elem_of_nil in Hs.
  - apply Hne. symmetry. by apply (sw_running _ _ _ _ _ _ Hw).
  - by apply (sw_blocked _ _ _ _ _ _ Hw) in Hs.
Qed.

Lemma rescheduled_alive st n q c l st' :
  system_ok st (n :: q) c l \/ state (tcb st idle) <> TASK_DEAD ->
  switched sym st c n st' -> n <> c ->
  state (tcb st' n) = TASK_RUNNING /\ state (tcb st' idle) <> TASK_DEAD.
Proof.
  intros Hidle Hs Hnc. assert (state (tcb st idle) <> TASK_DEAD) as Hi.
  { destruct Hidle as [(_ & _ & ?)|?]; done. }
  destruct (switched_fields sym boot_lo boot_hi Hboot st c n st' n Hs Hnc) as (_ & _ & ->).
  destruct (switched_fields sym boot_lo boot_hi Hboot st c n st' idle Hs Hnc) as (_ & _ & ->).
  rewrite decide_True by done. split; [done|]. by repeat case_decide.
Qed.

(** How the queue and the running task move. *)
Definition moves (e : event) q c q' c' : Prop :=
  if switches e then
    match q with
    | [] => q' = [] /\ c' = c
    | n :: q0 => c' = n /\ q' = if decide (e = Exit) then q0 else q0 ++ [c]
    end
  else c' = c /\ exists r, q' = q ++ r.

(** What a step does to the saved contexts: the head of the queue is resumed
    from its frame by a switch, the context of the running task becomes a
    frame, and all other frames stay. *)
Record effect st (e : event) q c st' q' c' : Prop := {
  ef_moves : moves e q c q' c';
  ef_resume : forall n q0 fr, switches e = true -> q = n :: q0 ->
    frame_at (km_words (kmem st)) (stack_pointer (tcb st n)) fr ->
    regs st' = cpu_of fr (stack_pointer (tcb st n));
  ef_saved : q <> [] -> e = Tick \/ e = Yield ->
    stack_pointer (tcb st' c) = rsp (regs st) - 64 /\
    frame_at (km_words (kmem st')) (rsp (regs st) - 64) (frame_of (regs st) (sym_schedule_ret sym));
  ef_frames : forall t fr, t ∈ q -> t <> c' ->
    frame_at (km_words (kmem st)) (stack_pointer (tcb st t)) fr ->
    stack_pointer (tcb st' t) = stack_pointer (tcb st t) /\
    frame_at (km_words (kmem st')) (stack_pointer (tcb st' t)) fr;
}.

(** A switch, from whichever operation. *)
Lemma switched_effect st n q0 c l st' e :
  sched_wf st (n :: q0) c l -> state (tcb st c) <> TASK_READY -> room st c ->
  switched sym st c n st' -> switches e = true ->
  effect st e (n :: q0) c st' (if decide (e = Exit) then q0 else q0 ++ [c]) n.
Proof.
  intros Hw Hc Hroom Hs He.
  assert (n <> c) as Hnc by (apply (queue_not_current boot_lo boot_hi st (n :: q0) c l); [done|done|set_solver]).
  pose proof (fun u => switched_fields sym boot_lo boot_hi Hboot st c n st' u Hs Hnc) as Hf.
  split.
  - unfold moves. by rewrite He.
  - intros n' q1 fr _ [= <- <-] Hfr. by apply (sd_regs _ _ _ _ _ Hs).
  - intros _ _. destruct (Hf c) as (_ & -> & _). rewrite decide_True by done. split; [done|].
    rewrite (sd_words _ _ _ _ _ Hs). apply fill_frame.
  - intros t fr Ht Htn Hfr.
    assert (t <> c) as Htc by by apply (queue_not_current boot_lo boot_hi st (n :: q0) c l).
    destruct (Hf t) as (_ & -> & _). rewrite decide_False by done. split; [done|].
    rewrite (sd_words _ _ _ _ _ Hs).
    by apply (frame_kept boot_lo boot_hi Hboot st (n :: q0) c l t).
Qed.

Lemma tick_ok st n q c l :
  system_ok st (n :: q) c l -> room st c ->
  exists st', schedule sym st = Done tt st' [] /\ system_ok st' (q ++ [c]) n l /\
    effect st Tick (n :: q) c st' (q ++ [c]) n.
Proof.
  intros Hs Hr. pose proof Hs as (Hw & Hc & Hid). assert (state (tcb st c) <> TASK_READY) by congruence.
  destruct (schedule_ok sym boot_lo boot_hi Hboot st n q c l Hw) as (st' & E & Hsw & Hw'); [done|done|].
  assert (n <> c) as Hnc by (apply (queue_not_current boot_lo boot_hi st (n :: q) c l); [done|done|set_solver]).
  exists st'. split; [done|]. split.
  - destruct (rescheduled_alive st n q c l st') as [? ?]; [auto|done|done|].
    split; [|done]. unfold requeue in Hw'. by rewrite decide_True in Hw'.
  - by apply (switched_effect st n q c l st' Tick).
Qed.

Lemma yield_step_ok st n q c l :
  system_ok st (n :: q) c l -> room st c ->
  exists st', task_yield sym st = Done tt st' [] /\ system_ok st' (q ++ [c]) n l /\
    effect st Yield (n :: q) c st' (q ++ [c]) n.
Proof.
  intros Hs Hr. pose proof Hs as (Hw & Hc & Hid). assert (state (tcb st c) <> TASK_READY) by congruence.
  destruct (yield_ok sym boot_lo boot_hi Hboot st n q c l Hw) as (st' & E & Hsw & Hw'); [done|done|].
  assert (n <> c) as Hnc by (apply (queue_not_current boot_lo boot_hi st (n :: q) c l); [done|done|set_solver]).
  exists st'. split; [done|]. split.
  - destruct (rescheduled_alive st n q c l st') as [? ?]; [auto|done|done|].
    split; [|done]. unfold requeue in Hw'. by rewrite decide_True in Hw'.
  - by apply (switched_effect st n q c l st' Yield).
Qed.

(** ** Exit *)
Lemma killed_wf st q c l :
  sched_wf st q c l -> state (tcb st c) = TASK_RUNNING ->
  let st1 := upd c (with_state TASK_DEAD) st in
  sched_wf st1 q c l /\ state (tcb st1 c) = TASK_DEAD /\
  forall u, tcb st1 u = if decide (u = c) then with_state TASK_DEAD (tcb st c) else tcb st u.
Proof.
  intros Hw Hc st1. pose proof Hw as [Hq Hcur Hcr Hr Hrun Hbl Hi Hbt Hst Hap Hsv].
  assert (forall u, tcb st1 u = if decide (u = c) then with_state TASK_DEAD (tcb st c) else tcb st u) as T.
  { intros u. apply tcb_upd. rewrite (qk_len _ _ Hq). lia. }
  assert (forall u, kernel_stack (tcb st1 u) = kernel_stack (tcb st u)) as Tk.
  { intros u. rewrite T. by destruct (decide (u = c)) as [->|]. }
  assert (forall u, in_use st1 c u -> in_use st c u) as Huse.
  { intros u [?|Hu]; [by left|]. rewrite T in Hu. by case_decide; [left|right]. }
  split; [split; try done|split; [by rewrite T, decide_True|done]].
  - by apply queue_upd.
  - intros u. rewrite T. destruct (decide (u = c)) as [->|]; [|apply Hr]. simpl. rewrite Hr, Hc. done.
  - intros u. rewrite T. destruct (decide (u = c)); [done|apply Hrun].
  - intros u. rewrite T. destruct (decide (u = c)); [done|apply Hbl].
  - intros u Hu. rewrite Tk. auto.
  - intros u v Hu Hv. rewrite !Tk. auto.
  - intros u Hu. rewrite T, decide_False; [by apply Hsv|]. intros ->. apply Hr in Hu. congruence.
Qed.

Definition exit_log p code : list call :=
  [KLogHex LOG_INFO "syscall: exit pid=" p; KLogHex LOG_INFO "  code=" code].

Lemma exit_step_ok st n q c l code :
  system_ok st (n :: q) c l -> c <> idle -> room st c ->
  exists st', sys_exit sym code 0 0 0 0 0 st = Done 0 st' (exit_log (pid (tcb st c)) code) /\
    system_ok st' q n l /\ effect st Exit (n :: q) c st' q n /\ state (tcb st' c) = TASK_DEAD.
Proof.
  intros Hs Hne Hr. pose proof Hs as (Hw & Hc & Hid).
  destruct (killed_wf st (n :: q) c l Hw Hc) as (Hw1 & Hd & T). set (st1 := upd c _ st) in *.
  assert (state (tcb st1 c) <> TASK_READY) as Hnr by congruence.
  assert (room st1 c) as Hr1.
  { unfold TaskSched.room in *. change (regs st1) with (regs st). rewrite T, decide_True by done. done. }
  destruct (schedule_ok sym boot_lo boot_hi Hboot st1 n q c l Hw1 Hnr Hr1) as (st' & E & Hsw & Hw').
  assert (n <> c) as Hnc by (apply (queue_not_current boot_lo boot_hi st1 (n :: q) c l); [done|done|set_solver]).
  unfold requeue in Hw'. rewrite decide_False in Hw' by congruence.
  exists st'. split_and!.
  - unfold sys_exit. erewrite bind_step by reflexivity. unfold task_current.
    rewrite (sw_current _ _ _ _ _ _ Hw). erewrite bind_step by reflexivity. fold st1.
    erewrite bind_done by reflexivity. erewrite bind_done by reflexivity.
    by erewrite bind_done by exact E.
  - destruct (rescheduled_alive st1 n q c l st') as [? ?]; [|done|done|done].
    right. by rewrite T, decide_False by congruence.
  - destruct (switched_effect st1 n q c l st' Exit Hw1 Hnr Hr1 Hsw eq_refl) as [E1 E2 E3 E4].
    assert (forall u, stack_pointer (tcb st1 u) = stack_pointer (tcb st u)) as Tsp.
    { intros u. rewrite T. by destruct (decide (u = c)) as [->|]. }
    split; [done| | |].
    + intros m q0 fr He Hq Hfr. rewrite <-Tsp. apply (E2 m q0 fr); [done|done|by rewrite Tsp].
    + by intros _ [|].
    + intros t fr Ht Htn Hfr. rewrite <-Tsp. apply E4; [done|done|by rewrite Tsp].
  - destruct (switched_fields sym boot_lo boot_hi Hboot st1 c n st' c Hsw Hnc) as (_ & _ & ->).
    destruct (decide (c = n)); [congruence|].
    destruct (decide (c = c /\ state (tcb st1 c) = TASK_RUNNING)) as [[_ ?]|]; [congruence|exact Hd].
Qed.

(** ** Computation *)
Lemma compute_ok st q c l r b :
  system_ok st q c l -> respects st b ->
  exists l', system_ok (running st r b) q c l' /\ effect st Compute q c (running st r b) q c.
Proof.
  intros (Hw & Hc & Hid) [Ri Rb Rs]. pose proof Hw as [Hq Hcur Hcr Hr Hrun Hbl Hi Hbt Hst Hap Hsv].
  destruct (Ri l Hi) as (l' & Hi' & Hl').
  assert (forall t, in_use st c t -> state (tcb st t) <> TASK_DEAD) as Hlive.
  { intros t [->|Ht]; [by rewrite Hc|done]. }
  exists l'. split; [split; [|done]|].
  - split; try done.
    + by apply (queue_same st).
    + intros t Ht Hk. change (tcb (running st r b) t) with (tcb st t) in *.
      rewrite Hl' by by apply Hlive. by apply Hst.
  - split; try done.
    + split; [done|]. exists []. by rewrite app_nil_r.
    + by intros _ [|].
    + intros t fr Ht _ Hfr. split; [done|]. eapply frame_agree; [|exact Hfr].
      intros i Hi8. change (tcb (running st r b) t) with (tcb st t). apply (Rs t); [by apply Hr|lia].
Qed.

(** ** Creation *)
Lemma task_create_fill : fill_keeps (fun o => Task (pid o) (state o) (stack_pointer o) (kernel_stack o)
  (time_slice o) (next o) 0 0 (user_rip o) (user_rsp o) (user_rflags o)).
Proof. by intros o. Qed.

Lemma task_create_user_fill ip sp fl cr :
  fill_keeps (fun o => Task (pid o) (state o) (stack_pointer o) (kernel_stack o)
    (time_slice o) (next o) 3 cr ip sp fl).
Proof. by intros o. Qed.

Lemma create_ok st q c l e entry fill logged :
  fill_keeps fill -> system_ok st q c l -> km_room (kmem st) TASK_STACK_SIZE -> switches e = false ->
  exists r st' w l' q', task_create_with entry fill logged st = Done r st' w /\
    system_ok st' q' c l' /\ effect st e q c st' q' c.
Proof.
  intros Hfill (Hw & Hc & Hid) Hroom He.
  destruct (task_create_with_ok boot_lo boot_hi Hboot st q c l entry fill logged Hfill Hw Hc Hroom)
    as (r & st' & w & l' & E & Hregs & Hgdt & Hcur & Hold & Hcase).
  assert (exists q', (exists x, q' = q ++ x) /\ sched_wf st' q' c l' /\
    forall u, state (tcb st u) <> TASK_DEAD -> strip (tcb st' u) = strip (tcb st u))
    as (q' & Hx & Hw' & Hsame).
  { destruct r as [t|].
    - destruct Hcase as (_ & Hslot & Hw' & _ & Hu & _). exists (q ++ [t]). split; [by exists [t]|].
      split; [done|]. intros u Hne. apply Hu. intros ->.
      destruct (find_slot_spec st) as [(t' & E' & _ & Hd & _)|[E' _]]; congruence.
    - destruct Hcase as (_ & Hw' & Ht & _). exists q. split; [exists []; by rewrite app_nil_r|].
      split; [done|]. intros u _. unfold tcb. by rewrite Ht. }
  exists r, st', w, l', q'. split; [done|].
  assert (forall u, u = c \/ u = idle \/ u ∈ q -> strip (tcb st' u) = strip (tcb st u)) as Hf.
  { intros u Hu. apply Hsame. destruct Hu as [->|[->|Hu]]; [by rewrite Hc|done|].
    apply (sw_ready _ _ _ _ _ _ Hw) in Hu. by rewrite Hu. }
  split; [split; [done|]|].
  - destruct (strip_fields _ _ (Hf c ltac:(auto))) as [-> _].
    destruct (strip_fields _ _ (Hf idle ltac:(auto))) as [-> _]. done.
  - split.
    + unfold moves. by rewrite He.
    + intros n q0 fr Hse. congruence.
    + intros _ [->| ->]; discriminate He.
    + intros t fr Ht _ Hfr. destruct (strip_fields _ _ (Hf t ltac:(auto))) as (_ & -> & _).
      split; [done|]. eapply frame_agree; [|exact Hfr]. intros i Hi. apply Hold.
      destruct (sw_saved _ _ _ _ _ _ Hw t Ht) as (H8 & Hlo & Hhi).
      apply (stack_held boot_lo boot_hi Hboot st q c l t); [done|by apply (queue_in_use boot_lo boot_hi st q c l)|lia|divlia].
Qed.

(** ** One step *)
Lemma step_ok st q c l e st' :
  system_ok st q c l -> step st e st' ->
  exists q' c' l', system_ok st' q' c' l' /\ effect st e q c st' q' c'.
Proof.
  intros Hs Hstep. pose proof Hs as (Hw & Hc & _).
  inversion Hstep as [r b Hresp|entry r st'' w Hroom Hrun|ip sp fl cr r st'' w Hroom Hrun|
    c0 st'' w Hcur Hroom Hrun|c0 st'' w Hcur Hne Hroom Hrun|c0 code r st'' w Hcur Hne Hroom Hrun]; subst.
  - destruct (compute_ok st q c l r b Hs Hresp) as (l' & ? & ?). by exists q, c, l'.
  - destruct (create_ok st q c l Create entry _ (KLogHex LOG_DEBUG "task_create pid=")
      task_create_fill Hs Hroom eq_refl) as (r' & st2 & w' & l' & q' & E & ? & ?).
    unfold task_create in Hrun. rewrite E in Hrun. simplify_eq. by exists q', c, l'.
  - destruct (create_ok st q c l CreateUser (sym_enter_user_mode sym) _
      (KLogHex LOG_INFO "task_create_user pid=") (task_create_user_fill ip sp fl cr) Hs Hroom eq_refl)
      as (r' & st2 & w' & l' & q' & E & ? & ?).
    unfold task_create_user in Hrun. rewrite E in Hrun. simplify_eq. by exists q', c, l'.
  - rewrite (sw_current _ _ _ _ _ _ Hw) in Hcur. injection Hcur as <-. destruct q as [|n q0].
    + rewrite (schedule_alone sym boot_lo boot_hi st c l Hw) in Hrun. injection Hrun as <- <-.
      exists [], c, l. split; [done|]. by split.
    + destruct (tick_ok st n q0 c l Hs Hroom) as (st2 & E & ? & ?). rewrite E in Hrun.
      injection Hrun as <- <-. by exists (q0 ++ [c]), n, l.
  - rewrite (sw_current _ _ _ _ _ _ Hw) in Hcur. injection Hcur as <-.
    destruct (queue_nonempty st q c l Hs Hne) as (n & q0 & ->).
    destruct (yield_step_ok st n q0 c l Hs Hroom) as (st2 & E & ? & ?). rewrite E in Hrun.
    injection Hrun as <- <-. by exists (q0 ++ [c]), n, l.
  - rewrite (sw_current _ _ _ _ _ _ Hw) in Hcur. injection Hcur as <-.
    destruct (queue_nonempty st q c l Hs Hne) as (n & q0 & ->).
    destruct (exit_step_ok st n q0 c l code Hs Hne Hroom) as (st2 & E & ? & ? & _). rewrite E in Hrun.
    injection Hrun as <- <- <-. by exists q0, n, l.
Qed.

(** ** Executions *)

(** The boot protocol: the statics are untouched, the heap is up and has room
    for the idle task's stack, and the boot stack is mapped. *)
Record bootable st stack b : Prop := {
  bt_unstarted : unstarted st;
  bt_inv : exists l, km_inv (kmem st) l;
  bt_stack : forall x, boot_lo <= x < boot_hi -> x mod 8 = 0 -> is_Some (km_words (kmem st) !! x);
  bt_room : km_room (kmem st) TASK_STACK_SIZE;
  bt_kmalloc : km_kmalloc TASK_STACK_SIZE (kmem st) = Done stack b [] /\ stack <> 0;
}.

Lemma started_ok st0 stack b :
  bootable st0 stack b ->
  exists st l, kinit_task sym st0 = Done tt st [started] /\ system_ok st [idle] 0 l /\ regs st = regs st0 /\
    next_pid st = next_pid st0 ⊞ 1 ⊞ 1 /\ strip (tcb st 0) = boot_tcb (next_pid st0) /\
    strip (tcb st idle) = idle_tcb (next_pid st0 ⊞ 1) (stack + TASK_STACK_SIZE - 64) stack /\
    frame_at (km_words (kmem st)) (stack_pointer (tcb st idle)) (fresh_frame (sym_idle_entry sym)).
Proof.
  intros [Hu [l0 Hi] Hb Hroom [Ek H0]].
  destruct (km_kmalloc_ok (kmem st0) l0 TASK_STACK_SIZE Hi ltac:(done) Hroom)
    as (p & b' & l & Ek' & Hstep & Hi' & Hold).
  rewrite Ek in Ek'. injection Ek' as <- <-.
  destruct (kinit_task_ok sym boot_lo boot_hi Hboot st0 l0 stack b l Hu Hi Hb Ek H0 Hstep Hi' Hold)
    as (st & E & Hw & Hr & Hp & H0t & H1t & Hfr & _).
  exists st, l. destruct (strip_fields _ (boot_tcb (next_pid st0)) H0t) as [Hs0 _].
  destruct (strip_fields _ (idle_tcb (next_pid st0 ⊞ 1) (stack + TASK_STACK_SIZE - 64) stack) H1t) as [Hs1 _].
  split; [exact E|]. split; [split; [exact Hw|]|done]. unfold idle. by rewrite Hs0, Hs1.
Qed.

Lemma exec_ok st evs st' q c l :
  system_ok st q c l -> exec st evs st' -> exists q' c' l', system_ok st' q' c' l'.
Proof.
  intros Hs Hex. induction Hex as [|evs e st1 st2 Hex (q1 & c1 & l1 & Hs1) Hstep]; [eauto|].
  destruct (step_ok st1 q1 c1 l1 e st2 Hs1 Hstep) as (q2 & c2 & l2 & Hs2 & _). eauto.
Qed.

(** The queue position of a task drops with every switch. *)
Lemma position st evs st' q c l k t :
  system_ok st q c l -> exec st evs st' -> q !! k = Some t ->
  (length (filter (fun e => switches e = true) evs) <= k)%nat ->
  exists q' c' l', system_ok st' q' c' l' /\
    q' !! (k - length (filter (fun e => switches e = true) evs))%nat = Some t.
Proof.
  intros Hs Hex Hk. induction Hex as [|evs e st1 st2 Hex IH Hstep]; intros Hle.
  - exists q, c, l. by rewrite Nat.sub_0_r.
  - rewrite filter_app, length_app in *. simpl in *.
    destruct IH as (q1 & c1 & l1 & Hs1 & Hk1); [lia|].
    destruct (step_ok st1 q1 c1 l1 e st2 Hs1 Hstep) as (q2 & c2 & l2 & Hs2 & Heff).
    exists q2, c2, l2. split; [done|]. pose proof (ef_moves _ _ _ _ _ _ _ Heff) as Hm. unfold moves in Hm.
    rewrite filter_cons, filter_nil in *. destruct (switches e) eqn:He.
    + rewrite decide_True in * by done. simpl in *.
      set (j := length (filter _ evs)) in *. destruct q1 as [|n q0]; [by rewrite lookup_nil in Hk1|].
      destruct Hm as [_ ->]. replace (k - j)%nat with (S (k - (j + 1)))%nat in Hk1 by lia. simpl in Hk1.
      case_decide; [done|]. by apply lookup_app_l_Some.
    + rewrite decide_False in * by done. simpl in *. destruct Hm as [_ [r ->]].
      rewrite Nat.add_0_r. by apply lookup_app_l_Some.
Qed.

(** Executions in which [t] does not run. *)
Inductive waits t st : tasks B -> Prop :=
  | waits_here : waits t st st
  | waits_step e st1 st2 : waits t st st1 -> step st1 e st2 -> current_task st2 <> Some t -> waits t st st2.

(** While a task waits, its saved context stays on its stack. *)
Lemma waiting_frame t st st' q c l fr :
  system_ok st q c l -> t ∈ q -> frame_at (km_words (kmem st)) (stack_pointer (tcb st t)) fr ->
  waits t st st' ->
  exists q' c' l', system_ok st' q' c' l' /\ t ∈ q' /\
    stack_pointer (tcb st' t) = stack_pointer (tcb st t) /\
    frame_at (km_words (kmem st')) (stack_pointer (tcb st' t)) fr.
Proof.
  intros Hs Ht Hfr Hw. induction Hw as [|e st1 st2 Hw IH Hstep Hcur].
  - exists q, c, l. done.
  - destruct IH as (q1 & c1 & l1 & Hs1 & Ht1 & Hsp1 & Hfr1).
    destruct (step_ok st1 q1 c1 l1 e st2 Hs1 Hstep) as (q2 & c2 & l2 & Hs2 & [Hm _ _ Hframes]).
    pose proof Hs2 as (Hw2 & _ & _).
    assert (t <> c2) as Htc by (intros ->; by rewrite (sw_current _ _ _ _ _ _ Hw2) in Hcur).
    destruct (Hframes t fr Ht1 Htc Hfr1) as [Hsp2 Hfr2].
    exists q2, c2, l2. split; [done|]. split; [|split; [by rewrite Hsp2|done]].
    unfold moves in Hm. destruct (switches e).
    + destruct q1 as [|n q0]; [by apply elem_of_nil in Ht1|]. destruct Hm as [-> ->].
      assert (t ∈ q0) by set_solver. case_decide; set_solver.
    + destruct Hm as [_ [r ->]]. set_solver.
Qed.

(** When it is switched to, it runs with that context. *)
Lemma resumed_frame t st e st' q c l fr :
  system_ok st q c l -> t ∈ q -> frame_at (km_words (kmem st)) (stack_pointer (tcb st t)) fr ->
  step st e st' -> current_task st' = Some t -> regs st' = cpu_of fr (stack_pointer (tcb st t)).
Proof.
  intros Hs Ht Hfr Hstep Hcur. pose proof Hs as (Hw & Hc & _).
  destruct (step_ok st q c l e st' Hs Hstep) as (q2 & c2 & l2 & (Hw2 & _ & _) & [Hm Hres _ _]).
  rewrite (sw_current _ _ _ _ _ _ Hw2) in Hcur. injection Hcur as ->.
  assert (t <> c) as Htc by (apply (queue_not_current boot_lo boot_hi st q c l); [done|congruence|done]).
  unfold moves in Hm. destruct (switches e); [|by destruct Hm].
  destruct q as [|n q0]; [by destruct Hm|]. destruct Hm as [-> _]. by apply (Hres n q0 fr).
Qed.
End system.
