(* ===== verification/TaskTheorems.v ===== *)
(** * The task system: theorems

    What the scheduler, preemption, task creation and exit promise over every
    execution of the system of TaskSystem.v, and the places where task.c
    leaves it. *)
From S2P Require Import Prelude Effects PmmInterface Gdt Heap HeapInv HeapProofs HeapSpec KernelMem.
From S2P Require Import Task TaskInv TaskSwitch TaskSched TaskCreate Syscall TaskSystem.

Section theorems.
Context {B : Type} `{HK : KernelMem B} `{!KernelMemOk B}.
Context (sym : symbols).
Context (boot_lo boot_hi : Z) (Hboot : 0 <= boot_lo /\ boot_hi <= HEAP_START).
Implicit Types (st : tasks B) (b : B) (l : view) (t u n c : nat) (q : list nat).
Local Abbreviation system_ok := (system_ok boot_lo boot_hi).
Local Abbreviation exec := (exec sym boot_lo boot_hi).
Local Abbreviation step := (step sym boot_lo boot_hi).

(** The switches of an execution. *)
Definition switch_count (evs : list event) : nat := length (filter (fun e => switches e = true) evs).


(** C8: every READY task runs.  A task at position [k] of the queue becomes
    the current task at the [k + 1]-th switch, whatever the running tasks do
    in between (compute, create tasks, yield, exit), and [k] is at most 31;
    a switch can always be made: the timer's [schedule] does not fault as long
    as the interrupted task has room for its context. *)
Theorem ready_task_runs st q c l k t :
  system_ok st q c l -> q !! k = Some t ->
  (k < 32)%nat /\
  (forall evs st1 e st2, exec st evs st1 -> switch_count evs = k ->
     step st1 e st2 -> switches e = true -> current_task st2 = Some t) /\
  (forall evs st1 c1, exec st evs st1 -> current_task st1 = Some c1 -> room boot_lo boot_hi st1 c1 ->
     exists st2, step st1 Tick st2).
Proof.
  intros Hs Hk. split_and!.
  - destruct Hs as (Hw & _). pose proof (lookup_lt_Some _ _ _ Hk).
    pose proof (qk_nodup _ _ (sw_queue _ _ _ _ _ _ Hw)) as Hnd.
    assert (q ⊆+ seq 0 32) as Hsub.
    { apply NoDup_submseteq; [done|]. intros u Hu.
      apply (qk_range _ _ (sw_queue _ _ _ _ _ _ Hw)) in Hu. apply elem_of_seq. lia. }
    apply submseteq_length in Hsub. rewrite length_seq in Hsub. lia.
  - intros evs st1 e st2 Hex Hn Hstep He. unfold switch_count in Hn.
    destruct (position sym boot_lo boot_hi Hboot st evs st1 q c l k t Hs Hex Hk)
      as (q1 & c1 & l1 & Hs1 & Hk1); [lia|].
    rewrite Hn, Nat.sub_diag in Hk1. destruct q1 as [|n q0]; [done|]. injection Hk1 as ->.
    destruct (step_ok sym boot_lo boot_hi Hboot st1 _ c1 l1 e st2 Hs1 Hstep)
      as (q2 & c2 & l2 & (Hw2 & _) & Heff).
    pose proof (ef_moves _ _ _ _ _ _ _ _ Heff) as Hm. unfold moves in Hm. rewrite He in Hm.
    destruct Hm as [-> _]. apply (sw_current _ _ _ _ _ _ Hw2).
  - intros evs st1 c1 Hex Hcur Hroom.
    destruct (exec_ok sym boot_lo boot_hi Hboot st evs st1 q c l Hs Hex) as (q1 & c1' & l1 & Hs1).
    pose proof Hs1 as (Hw1 & _). rewrite (sw_current _ _ _ _ _ _ Hw1) in Hcur. injection Hcur as ->.
    destruct q1 as [|n q0].
    + exists st1. apply (step_tick sym boot_lo boot_hi st1 c1 st1 []); [apply Hw1|done|].
      by apply (schedule_alone sym boot_lo boot_hi st1 c1 l1).
    + destruct (tick_ok sym boot_lo boot_hi Hboot st1 n q0 c1 l1 Hs1 Hroom) as (st2 & E & _).
      exists st2. apply (step_tick sym boot_lo boot_hi st1 c1 st2 []); [apply Hw1|done|done].
Qed.

(** C9: preemption is transparent.  A task that is switched away from, by the
    timer or by a yield, is resumed, whatever the other tasks have done in the
    meantime, with its callee-saved registers, its flags and its stack pointer
    as they were, at the instruction after the call of [context_switch]. *)
Theorem preempted_task_resumes st q c l e1 st1 st2 e2 st3 :
  system_ok st q c l -> q <> [] -> e1 = Tick \/ e1 = Yield -> step st e1 st1 ->
  waits sym boot_lo boot_hi c st1 st2 -> step st2 e2 st3 -> current_task st3 = Some c ->
  let r := regs st in
  regs st3 = Cpu (sym_schedule_ret sym) (rsp r) (rflags r) (rbp r) (rbx r) (r12 r) (r13 r) (r14 r) (r15 r).
Proof.
  intros Hs Hq He Hstep1 Hwait Hstep2 Hcur r.
  destruct (step_ok sym boot_lo boot_hi Hboot st q c l e1 st1 Hs Hstep1)
    as (q1 & c1 & l1 & Hs1 & [Hm _ Hsaved _]).
  destruct (Hsaved Hq He) as [Hsp Hfr]. assert (c ∈ q1) as Hin.
  { unfold moves in Hm. destruct q as [|n q0]; [done|].
    destruct He as [-> | ->]; simpl in Hm; destruct Hm as [_ ->]; set_solver. }
  rewrite <-Hsp in Hfr.
  destruct (waiting_frame sym boot_lo boot_hi Hboot c st1 st2 q1 c1 l1 _ Hs1 Hin Hfr Hwait)
    as (q2 & c2 & l2 & Hs2 & Hin2 & Hsp2 & Hfr2).
  rewrite (resumed_frame sym boot_lo boot_hi Hboot c st2 e2 st3 q2 c2 l2 _ Hs2 Hin2 Hfr2 Hstep2 Hcur).
  unfold cpu_of. simpl. f_equal. rewrite Hsp2, Hsp. fold r. lia.
Qed.

(** C10: a new task starts at its entry point.  When [task_create] succeeds it
    takes the first free slot and a fresh pid, the task joins the queue, and
    the first time it is switched to it runs with RIP at the entry point,
    interrupts enabled, cleared registers and an empty stack. *)
Theorem created_task_starts st q c l entry t st1 w st2 e st3 :
  system_ok st q c l -> km_room (kmem st) TASK_STACK_SIZE ->
  task_create entry st = Done (Some t) st1 w ->
  (state (tcb st t) = TASK_DEAD /\ (forall u, (u < t)%nat -> state (tcb st u) <> TASK_DEAD)) /\
  (pid (tcb st1 t) = next_pid st /\ next_pid st1 = next_pid st ⊞ 1 /\ state (tcb st1 t) = TASK_READY) /\
  (waits sym boot_lo boot_hi t st1 st2 -> step st2 e st3 -> current_task st3 = Some t ->
   regs st3 = Cpu entry (stack_pointer (tcb st1 t) + 64) 0x200 0 0 0 0 0 0).
Proof.
  intros (Hw & Hc & Hid) Hroom Hrun.
  destruct (task_create_with_ok boot_lo boot_hi Hboot st q c l entry _ (KLogHex LOG_DEBUG "task_create pid=")
    task_create_fill Hw Hc Hroom) as (r & st' & w' & l' & E & Hregs & _ & Hcur & Hold & Hcase).
  unfold task_create in Hrun. rewrite E in Hrun. injection Hrun as -> <- <-.
  destruct Hcase as (_ & Hslot & Hw' & Hpid & Hsame & (sp & stack & Ht) & Hfr).
  destruct (strip_fields _ _ Ht) as (Hst & _ & _ & Hp & _).
  destruct (find_slot_spec st) as [(t' & E' & _ & Hd & Hmin)|[E' _]]; [|congruence].
  assert (t' = t) as -> by congruence. split; [done|]. split; [done|].
  intros Hwait Hstep Hcur3. assert (system_ok st' (q ++ [t]) c l') as Hs'.
  { split; [done|]. assert (forall u, state (tcb st u) <> TASK_DEAD -> state (tcb st' u) = state (tcb st u)) as Hu.
    { intros u Hne. assert (u <> t) as Hut by congruence.
      by destruct (strip_fields _ _ (Hsame u Hut)) as [-> _]. }
    split; rewrite Hu; congruence || done. }
  assert (t ∈ q ++ [t]) as Hin by set_solver.
  destruct (waiting_frame sym boot_lo boot_hi Hboot t st' st2 _ _ _ _ Hs' Hin Hfr Hwait)
    as (q2 & c2 & l2 & Hs2 & Hin2 & Hsp2 & Hfr2).
  rewrite (resumed_frame sym boot_lo boot_hi Hboot t st2 e st3 q2 c2 l2 _ Hs2 Hin2 Hfr2 Hstep Hcur3).
  by rewrite <-Hsp2.
Qed.

(** Exit.  The exiting task is DEAD and its slot is free again, the head
    of the queue runs, the dead task is in no queue; but the memory of its
    kernel stack stays allocated: no code path frees it. *)
Theorem sys_exit_retires_task st q c l code :
  system_ok st q c l -> c <> idle -> room boot_lo boot_hi st c ->
  exists n q' st' w, q = n :: q' /\ sys_exit sym code 0 0 0 0 0 st = Done 0 st' w /\
    current_task st' = Some n /\ state (tcb st' c) = TASK_DEAD /\ ~ c ∈ q' /\
    system_ok st' q' n l /\
    (kernel_stack (tcb st c) <> 0 -> exists s, l !! kernel_stack (tcb st c) = Some s /\ TASK_STACK_SIZE <= s).
Proof.
  intros Hs Hne Hroom. pose proof Hs as (Hw & Hc & _).
  destruct (queue_nonempty boot_lo boot_hi st q c l Hs Hne) as (n & q' & ->).
  destruct (exit_step_ok sym boot_lo boot_hi Hboot st n q' c l code Hs Hne Hroom) as (st' & E & Hs' & _ & Hd).
  exists n, q', st', (exit_log (pid (tcb st c)) code). pose proof Hs' as (Hw' & _).
  split_and!; try done.
  - apply (sw_current _ _ _ _ _ _ Hw').
  - intros Hin. apply (sw_ready _ _ _ _ _ _ Hw') in Hin. congruence.
  - intros Hk. apply (sw_stack _ _ _ _ _ _ Hw); [by left|done].
Qed.

(** The control flow of a yield when the queue is empty. *)
Lemma switch_to_runs st c n :
  exists st', switch_to sym c n st = context_switch sym c (stack_pointer (tcb st' n)) st' /\
    regs st' = regs st /\ kmem st' = kmem st /\ length (task_table st') = length (task_table st) /\
    ((n < length (task_table st))%nat -> stack_pointer (tcb st' n) = stack_pointer (tcb st n)).
Proof.
  set (st3 := upd n (with_slice TIME_SLICE) (upd n (with_state TASK_RUNNING) (set_current (Some n) st))).
  assert (forall g, (n < length (task_table st))%nat ->
    stack_pointer (tcb (set_gdt g st3) n) = stack_pointer (tcb st n)) as Hsp.
  { intros g Hn. change (tcb (set_gdt g st3) n) with (tcb st3 n). unfold st3.
    by rewrite !tcb_upd, !decide_True by (rewrite ?length_upd; simpl; done || lia). }
  assert (forall g, length (task_table (set_gdt g st3)) = length (task_table st)) as Hlen.
  { intros g. change (length (task_table st3) = length (task_table st)). unfold st3. by rewrite !length_upd. }
  destruct (ring (tcb st3 n) =? 3) eqn:Hring;
    [exists (set_gdt (tss_set_rsp0 (kernel_stack (tcb st3 n) ⊞ TASK_STACK_SIZE) (gdt st3)) st3)
    |exists (set_gdt (gdt st3) st3)];
    (split; [|split; [done|split; [done|auto]]]);
    unfold switch_to; do 4 (erewrite bind_step by reflexivity); fold st3; rewrite Hring.
  - by do 2 (erewrite bind_step by reflexivity).
  - do 2 (erewrite bind_step by reflexivity). by destruct st3.
Qed.

Lemma yield_alone_run st c :
  queue_ok st [] -> current_task st = Some c -> (c < 32)%nat -> state (tcb st c) = TASK_RUNNING ->
  exists st', task_yield sym st = context_switch sym c (stack_pointer (tcb st c)) st' /\
    regs st' = regs st /\ kmem st' = kmem st.
Proof.
  intros Hq Hcur Hc Ha. pose proof (qk_len _ _ Hq) as Hlen.
  destruct (requeue_ok st [] c Hq Hc ltac:(set_solver)) as [Hq1 [R1 R2 R3 R4 R5 R6]].
  cbn [next_pid regs gdt kmem current_task upd set_table] in R2, R3, R4, R5, R6.
  set (st1 := ready_list_add c _) in *.
  destruct (ready_list_pop_ok st1 _ Hq1) as (st2 & Epop & Hq2 & [S1 S2 S3 S4 S5 S6]).
  assert (strip (tcb st2 c) = strip (requeued (tcb st c))) as T.
  { by rewrite S1, R1, tcb_upd, decide_True by (done || lia). }
  destruct (strip_fields _ _ T) as (Hs2 & Hsp2 & _).
  destruct (switch_to_runs st2 c c) as (st' & E & Hr & Hk & _ & Hsp).
  rewrite Hsp in E by (rewrite (qk_len _ _ Hq2); lia).
  exists st'. split; [|split; congruence].
  unfold task_yield. erewrite bind_step by reflexivity. rewrite Hcur, decide_True by done.
  do 3 (erewrite bind_step by reflexivity). change (ready_list_add c _) with st1.
  unfold schedule. erewrite bind_step by reflexivity.
  assert (current_task st1 = Some c) as -> by by rewrite R3.
  rewrite (bind_step _ _ _ (Some c) st2) by (unfold run; by rewrite Epop).
  rewrite (bind_step _ _ _ tt st2).
  - by rewrite E, Hsp2.
  - unfold put_back. erewrite bind_step by reflexivity. by rewrite Hs2.
Qed.

(** C38: a yield with nothing else to run loses the caller's context: the only
    task pops itself from the ready list and [context_switch] loads the stack
    pointer saved at its previous switch instead of the one just saved. *)
Theorem task_yield_alone_is_stale st c l fr :
  sched_wf boot_lo boot_hi st [] c l -> state (tcb st c) = TASK_RUNNING ->
  room boot_lo boot_hi st c -> saved_ok boot_lo boot_hi (tcb st c) ->
  stack_pointer (tcb st c) <> rsp (regs st) - 64 ->
  frame_at (fill (km_words (kmem st)) (rsp (regs st) - 64) (frame_of (regs st) (sym_schedule_ret sym)))
    (stack_pointer (tcb st c)) fr ->
  exists st', task_yield sym st = Done tt st' [] /\ regs st' = cpu_of fr (stack_pointer (tcb st c)) /\
    rsp (regs st') <> rsp (regs st).
Proof.
  intros Hw Hc Hroom (H8 & Hlo & Hhi) Hne Hfr. pose proof (sw_range _ _ _ _ _ _ Hw) as Hcr.
  destruct (yield_alone_run st c (sw_queue _ _ _ _ _ _ Hw) (sw_current _ _ _ _ _ _ Hw) Hcr Hc)
    as (st4 & E & Hr4 & Hk4).
  assert (in_use st c c) as Huse by by left.
  pose proof (stack_bounds boot_lo boot_hi Hboot st [] c l c Hw Huse) as [Hb0 Hb1].
  destruct (context_switch_ok sym st4 l c (stack_pointer (tcb st c)) fr) as (b & _ & _ & Ec);
    rewrite ?Hr4, ?Hk4; [apply (sw_inv _ _ _ _ _ _ Hw)| |lia|done|done|].
  { by apply (room_room_below boot_lo boot_hi Hboot st [] c l). }
  rewrite E, Ec. eexists. split; [reflexivity|]. simpl. split; [done|lia].
Qed.
End theorems.
