(* ===== verification/TaskExamples.v ===== *)
(** * The task system on the kernel's machine

    task.c over heap.c over paging.c over pmm.c, booted on the machine of
    PagingTheorems.v, with the stack boot.s gives the boot task: the theorems
    of TaskTheorems.v at that system. *)
From S2P Require Import Prelude Effects PmmInterface Paging PagingProofs PagingTheorems Pmm PmmInit Gdt.
From S2P Require Import Heap HeapInv HeapProofs HeapAlloc HeapBacking HeapSpec HeapTheorems KernelMem.
From S2P Require Import Task TaskInv TaskSwitch TaskSched TaskCreate Syscall TaskSystem TaskTheorems.

#[local] Existing Instance sample_backing.
#[local] Existing Instance sample_backing_ok.
Local Abbreviation machine := (pg_state pmm_state).

(** boot.s: the stack ends at 0x9F000, in the identity-mapped low memory; its
    last 128 bytes are enough here. *)
Definition boot_top : Z := 0x9F000.
Definition boot_bottom : Z := 0x9EF80.

Lemma sample_boot : 0 <= boot_bottom /\ boot_top <= HEAP_START.
Proof. split; discriminate. Qed.

Definition booted_heap : heap machine :=
  match on_machine (mret tt) with Done _ st _ => st | Stop _ _ => before_heap end.
Definition sample_kmem : heap machine :=
  set_hmem (fill (hmem booted_heap) boot_bottom (replicate 16 0)) booted_heap.

Definition sample_sym : symbols := Symbols 0xFFFFFFFF80101000 0xFFFFFFFF80102000 0xFFFFFFFF80103000.
Definition sample_gdt : gdt_state :=
  kinit_gdt 0xFFFFFFFF80109000 0xFFFFFFFF8010A000
    (GdtState [] zero_tss (TablePtr 0 0) (SegRegs (TablePtr 0 0) 0 0 0 0 0 0 0)).
Definition sample_tasks : tasks (heap machine) :=
  Tasks (replicate 32 zero_task) 1 None None None
    (Cpu 0xFFFFFFFF80100000 boot_top 0x2 boot_top 1 2 3 4 5) sample_gdt sample_kmem.


Lemma booted_heap_ok :
  heap_ok booted_heap ∅ /\ heap_wf booted_heap {[HEAP_START := (0x3FF0, false)]} [HEAP_START] /\
  hb_inv (backing booted_heap) /\ heap_end booted_heap = HEAP_START + 0x4000.
Proof.
  destruct machine_boots as (pg & Hboot & Hb).
  assert (backed (paging_init sample_layout) before_heap = Done tt (set_backing pg before_heap) [])
    as E by (by apply backed_ok).
  pose proof sample_init_succeeds as Hv. rewrite (bind_step _ _ _ _ _ E) in Hv.
  destruct (heap_init_aux (set_backing pg before_heap)) as (r & st & out & Hrun & _ & Hcase).
  { split; [apply (bo_inv _ Hb)|]. rewrite sample_root. apply (bo_pd _ Hb). }
  rewrite Hrun in Hv. injection Hv as ->.
  destruct Hcase as [[? _]|(_ & _ & He & Hok & Hw)]; [done|].
  assert (booted_heap = st) as ->.
  { unfold booted_heap, on_machine. rewrite (bind_step _ _ _ _ _ E).
    by rewrite (bind_done _ _ _ _ _ _ Hrun). }
  split; [done|]. split; [done|]. split; [|done]. by destruct Hok as (? & ? & _ & _ & ?).
Qed.

Lemma fill_outside_wf (st : heap machine) bs fl sp vs :
  heap_wf st bs fl -> sp + 8 * Z.of_nat (length vs) <= HEAP_START ->
  heap_wf (set_hmem (fill (hmem st) sp vs) st) bs fl.
Proof.
  revert sp. induction vs as [|v vs IH]; intros sp Hw Hlt; simpl length in *.
  - by destruct st.
  - specialize (IH (sp + 8) Hw ltac:(lia)).
    apply (outside_wf _ _ _ sp v) in IH; [done|unfold outside; lia].
Qed.

#[local] Opaque booted_heap.

Lemma sample_backing_eq : backing sample_kmem = backing booted_heap.
Proof. unfold sample_kmem. generalize booted_heap. by intros []. Qed.

Lemma sample_end_eq : heap_end sample_kmem = heap_end booted_heap.
Proof. unfold sample_kmem. generalize booted_heap. by intros []. Qed.

Lemma sample_kmem_wf :
  heap_wf sample_kmem {[HEAP_START := (0x3FF0, false)]} [HEAP_START] /\ heap_ok sample_kmem ∅.
Proof.
  destruct booted_heap_ok as (Hok & Hw & Hi & He).
  assert (heap_wf sample_kmem {[HEAP_START := (0x3FF0, false)]} [HEAP_START]) as Hw'.
  { apply fill_outside_wf; [exact Hw|discriminate]. }
  split; [exact Hw'|]. exists {[HEAP_START := (0x3FF0, false)]}, [HEAP_START].
  split; [exact Hw'|]. split; [|rewrite sample_backing_eq; exact Hi].
  intros p s. rewrite lookup_empty. split; [intros Hbad; discriminate|].
  by intros [_ [=]]%lookup_singleton_Some.
Qed.

Lemma sample_boot_stack x :
  boot_bottom <= x < boot_top -> x mod 8 = 0 -> is_Some (hmem sample_kmem !! x).
Proof.
  intros Hx H8. unfold sample_kmem, boot_bottom, boot_top in *.
  replace x with (0x9EF80 + 8 * Z.of_nat (Z.to_nat ((x - 0x9EF80) / 8))) by divlia.
  cbn [hmem set_hmem]. erewrite fill_lookup; [eauto|]. apply lookup_replicate_2. divlia.
Qed.

#[local] Opaque sample_kmem.

Lemma heap_bootable (k : heap machine) p b rg g :
  heap_ok k ∅ -> (forall x, boot_bottom <= x < boot_top -> x mod 8 = 0 -> is_Some (hmem k !! x)) ->
  heap_end k + TASK_STACK_SIZE + 8192 <= HEAP_LIMIT ->
  kmalloc TASK_STACK_SIZE k = Done p b [] -> p <> 0 ->
  bootable boot_bottom boot_top (Tasks (replicate 32 zero_task) 1 None None None rg g k) p b.
Proof. intros Hok Hb Hroom Hk Hp. split; [by split|by exists ∅|exact Hb|exact Hroom|by split]. Qed.

Lemma sample_bootable :
  exists stack b, bootable boot_bottom boot_top sample_tasks stack b.
Proof.
  destruct sample_kmem_wf as [Hw Hok]. destruct booted_heap_ok as (_ & _ & Hi & He).
  assert (~ none_fits {[HEAP_START := (0x3FF0, false)]} (align_up TASK_STACK_SIZE 8) [HEAP_START]) as Hsome.
  { intros Hn. assert (0x3FF0 < align_up TASK_STACK_SIZE 8) as Hbad.
    { apply (Hn HEAP_START); [by apply list_elem_of_singleton|by rewrite lookup_singleton_eq]. }
    vm_compute in Hbad. discriminate. }
  rewrite <-sample_backing_eq in Hi.
  destruct (kmalloc_found sample_kmem _ _ TASK_STACK_SIZE Hw Hi ltac:(reflexivity) ltac:(reflexivity) Hsome)
    as (p & st1 & Hrun & Hpost & Hp0 & _). clear Hsome Hpost.
  exists p, st1. apply heap_bootable.
  - exact Hok.
  - exact sample_boot_stack.
  - rewrite sample_end_eq, He. discriminate.
  - apply (mwhile_leave _ 32 1); [|lia]. apply mloop_done. exact Hrun.
  - exact Hp0.
Qed.

Local Abbreviation sys_ok := (system_ok boot_bottom boot_top).
Local Abbreviation sys_step := (step sample_sym boot_bottom boot_top).
Local Abbreviation sys_exec := (exec sample_sym boot_bottom boot_top).
Local Abbreviation sys_room := (room boot_bottom boot_top).

(** The system after [kinit_task]: the boot task runs, idle waits. *)
Lemma sample_started :
  exists (st : tasks (heap machine)) l, kinit_task sample_sym sample_tasks = Done tt st [started] /\
    sys_ok st [idle] 0 l /\ sys_room st 0 /\ stack_pointer (tcb st 0) = 0 /\ regs st = regs sample_tasks.
Proof.
  destruct sample_bootable as (stack & b & Hb).
  destruct (started_ok sample_sym boot_bottom boot_top sample_boot sample_tasks stack b Hb)
    as (st & l & E & Hs & Hr & _ & H0 & _).
  exists st, l. split; [exact E|]. split; [exact Hs|].
  destruct (strip_fields _ (boot_tcb (next_pid sample_tasks)) H0) as (_ & Hsp & Hks & _).
  split; [|split; [exact Hsp|exact Hr]]. unfold room, stack_lo, stack_hi. rewrite Hks, Hr.
  split; [reflexivity|]. split; discriminate.
Qed.

(** The first tick: idle runs on its own stack, boot waits. *)
Lemma sample_ticked :
  exists (st1 st2 : tasks (heap machine)) l,
    kinit_task sample_sym sample_tasks = Done tt st1 [started] /\ sys_ok st1 [idle] 0 l /\
    sys_step st1 Tick st2 /\ sys_ok st2 [0%nat] idle l /\ sys_room st2 idle /\
    regs st1 = regs sample_tasks.
Proof.
  destruct sample_bootable as (stack & b & Hb).
  destruct (started_ok sample_sym boot_bottom boot_top sample_boot sample_tasks stack b Hb)
    as (st1 & l & E & Hs & Hr & _ & H0 & H1 & Hfr).
  destruct (strip_fields _ (boot_tcb (next_pid sample_tasks)) H0) as (_ & _ & Hks0 & _).
  destruct (strip_fields _ (idle_tcb (next_pid sample_tasks ⊞ 1) (stack + TASK_STACK_SIZE - 64) stack) H1)
    as (_ & Hsp1 & Hks1 & _).
  assert (sys_room st1 0) as Hroom.
  { unfold room, stack_lo, stack_hi. rewrite Hks0, Hr. split; [reflexivity|]. split; discriminate. }
  pose proof Hs as (Hw & Hc & _).
  destruct (schedule_ok sample_sym boot_bottom boot_top sample_boot st1 idle [] 0 l Hw)
    as (st2 & E2 & Hsw & _); [rewrite Hc; discriminate|exact Hroom|].
  destruct (tick_ok sample_sym boot_bottom boot_top sample_boot st1 idle [] 0 l Hs Hroom)
    as (st2' & E2' & Hs2 & Heff). rewrite E2 in E2'. injection E2' as <-.
  exists st1, st2, l. split; [exact E|]. split; [exact Hs|].
  split; [by apply (step_tick sample_sym boot_bottom boot_top st1 0 st2 []); [apply Hw| |]|].
  split; [exact Hs2|]. split; [|exact Hr].
  assert (idle <> 0%nat) as Hne by discriminate.
  destruct (switched_fields sample_sym boot_bottom boot_top sample_boot st1 0 idle st2 idle Hsw Hne)
    as (Hks2 & _ & _).
  unfold room, stack_lo, stack_hi. rewrite Hks2, (sd_regs _ _ _ _ _ Hsw _ Hfr). unfold idle in *. rewrite Hks1, Hsp1.
  destruct Hb as [_ _ _ _ [_ Hne0]]. cbn [kernel_stack idle_tcb stack_pointer rsp cpu_of].
  rewrite (proj2 (Z.eqb_neq _ _) Hne0).
  pose proof (sw_saved _ _ _ _ _ _ Hw idle ltac:(by apply list_elem_of_singleton)) as (H8 & _).
  unfold idle in H8. rewrite Hsp1 in H8. cbn [stack_pointer idle_tcb] in H8. unfold TASK_STACK_SIZE in *.
  split; [divlia|lia].
Qed.


Lemma ready_task_runs_witness :
  exists (st1 st2 : tasks (heap machine)), sys_step st1 Tick st2 /\ current_task st2 = Some idle.
Proof.
  destruct sample_ticked as (st1 & st2 & l & _ & Hs1 & Hstep & _).
  destruct (ready_task_runs sample_sym boot_bottom boot_top sample_boot st1 [idle] 0 l 0 idle Hs1 eq_refl)
    as (_ & Hrun & _).
  exists st1, st2. split; [exact Hstep|].
  exact (Hrun [] st1 Tick st2 (exec_nil _ _ _ _) eq_refl Hstep eq_refl).
Defined.

(** Boot is preempted by a tick and resumed by the next one. *)
Lemma preempted_task_resumes_witness :
  exists st3 : tasks (heap machine),
    regs st3 = Cpu (sym_schedule_ret sample_sym) boot_top 0x2 boot_top 1 2 3 4 5.
Proof.
  destruct sample_ticked as (st1 & st2 & l & _ & Hs1 & Hstep & Hs2 & Hroom2 & Hr).
  destruct (tick_ok sample_sym boot_bottom boot_top sample_boot st2 0 [] idle l Hs2 Hroom2)
    as (st3 & E3 & Hs3 & _).
  exists st3.
  pose proof (preempted_task_resumes sample_sym boot_bottom boot_top sample_boot st1 [idle] 0 l Tick st2 st2
    Tick st3 Hs1 ltac:(discriminate) (or_introl eq_refl) Hstep (waits_here _ _ _ _ _)) as Hres.
  rewrite Hr in Hres. apply Hres.
  - apply (step_tick sample_sym boot_bottom boot_top st2 idle st3 []); [apply Hs2|exact Hroom2|exact E3].
  - apply Hs3.
Defined.

Lemma sys_exit_retires_task_witness :
  exists (st : tasks (heap machine)) st' w, sys_exit sample_sym 7 0 0 0 0 0 st = Done 0 st' w.
Proof.
  destruct sample_started as (st & l & _ & Hs & Hroom & _).
  destruct (sys_exit_retires_task sample_sym boot_bottom boot_top sample_boot st [idle] 0 l 7 Hs
    ltac:(discriminate) Hroom) as (n & q & st' & w & _ & E & _).
  exists st, st', w. exact E.
Defined.

(** A third task: slot 2, at its entry point when it first runs. *)
Lemma sample_creates :
  match (kinit_task sample_sym;; st ← get; r ← task_create 0xFFFFFFFF80104000; mret (heap_end (kmem st), r))
          sample_tasks with
  | Done r _ _ => r = (HEAP_START + 0x4000, Some 2%nat)
  | Stop _ _ => False
  end.
Proof. vm_compute. reflexivity. Qed.

Lemma created_task_starts_witness :
  exists (st st1 : tasks (heap machine)) w,
    task_create 0xFFFFFFFF80104000 st = Done (Some 2%nat) st1 w /\ state (tcb st1 2) = TASK_READY.
Proof.
  destruct sample_started as (st & l & E & Hs & _). pose proof sample_creates as Hc.
  rewrite (bind_done _ _ _ _ _ _ E) in Hc. erewrite bind_step in Hc by reflexivity.
  destruct (task_create 0xFFFFFFFF80104000 st) as [r st1 w|e w] eqn:Ec.
  - rewrite (bind_done _ _ _ _ _ _ Ec) in Hc. unfold mret, M_ret in Hc. injection Hc as He ->.
    exists st, st1, w. split; [exact Ec|].
    destruct (created_task_starts sample_sym boot_bottom boot_top sample_boot st [idle] 0 l
      0xFFFFFFFF80104000 2 st1 w st1 Tick st1 Hs) as (_ & (_ & _ & Hready) & _).
    + change (heap_end (kmem st) + TASK_STACK_SIZE + 8192 <= HEAP_LIMIT). rewrite He. discriminate.
    + exact Ec.
    + exact Hready.
  - rewrite (bind_stop _ _ _ _ _ Ec) in Hc. destruct Hc.
Defined.

(** The boot task alone, its last context saved at the bottom of its stack. *)
Definition sample_alone : tasks (heap machine) :=
  upd 0 (with_sp boot_bottom) (boot_only sample_tasks).

Lemma sample_alone_wf : sched_wf boot_bottom boot_top sample_alone [] 0 ∅.
Proof.
  destruct sample_kmem_wf as [_ Hok].
  assert (sched_wf boot_bottom boot_top (boot_only sample_tasks) [] 0 ∅) as [Hq Hcur Hc Hr Hrun Hbl Hi Hbt Hst Hap Hsv].
  { apply boot_only_wf; [exact sample_boot|by split|exact Hok|exact sample_boot_stack]. }
  assert (forall u, tcb sample_alone u = if decide (u = 0%nat) then with_sp boot_bottom (tcb (boot_only sample_tasks) 0)
    else tcb (boot_only sample_tasks) u) as T by (intros u; apply tcb_upd; rewrite (qk_len _ _ Hq); lia).
  assert (forall u, state (tcb sample_alone u) = state (tcb (boot_only sample_tasks) u) /\
    kernel_stack (tcb sample_alone u) = kernel_stack (tcb (boot_only sample_tasks) u)) as Hf.
  { intros u. rewrite T. by destruct (decide (u = 0%nat)) as [->|]. }
  assert (forall u, in_use sample_alone 0 u -> in_use (boot_only sample_tasks) 0 u) as Huse.
  { intros u. unfold in_use. by destruct (Hf u) as [-> _]. }
  split; [by apply queue_upd|exact Hcur|exact Hc| | | |exact Hi|exact Hbt| | |].
  - intros u. destruct (Hf u) as [-> _]. apply Hr.
  - intros u. destruct (Hf u) as [-> _]. apply Hrun.
  - intros u. destruct (Hf u) as [-> _]. apply Hbl.
  - intros u Hu. destruct (Hf u) as [_ ->]. auto.
  - intros u v Hu Hv. destruct (Hf u) as [_ ->], (Hf v) as [_ ->]. auto.
  - intros u Hu. by apply elem_of_nil in Hu.
Qed.

Lemma task_yield_alone_is_stale_witness :
  exists (st' : tasks (heap machine)),
    task_yield sample_sym sample_alone = Done tt st' [] /\ rsp (regs st') <> boot_top.
Proof.
  destruct (frame_exists
    (fill (hmem sample_kmem) (boot_top - 64) (frame_of (regs sample_alone) (sym_schedule_ret sample_sym)))
    boot_bottom) as [fr Hfr].
  { intros i Hi. apply fill_is_Some, sample_boot_stack; unfold boot_bottom, boot_top; [lia|divlia]. }
  destruct (task_yield_alone_is_stale sample_sym boot_bottom boot_top sample_boot sample_alone 0 ∅ fr
    sample_alone_wf) as (st' & E & _ & Hne).
  - reflexivity.
  - split; [reflexivity|]. split; discriminate.
  - split; [reflexivity|]. split; discriminate.
  - discriminate.
  - exact Hfr.
  - exists st'. split; [exact E|exact Hne].
Defined.
