(* ===== verification/SyscallTheorems.v ===== *)
(** * System calls: theorems (src/syscall/syscall.c)

    What [syscall_dispatch] does for each number on a running task system, and
    what [sys_write] sends: the bytes of the caller's buffer, up to the first
    page that is not mapped. *)
From S2P Require Import Prelude Effects PmmInterface Paging PagingTheorems Pmm Gdt.
From S2P Require Import Heap HeapInv HeapProofs HeapSpec HeapTheorems KernelMem.
From S2P Require Import Task TaskInv TaskSwitch TaskSched TaskCreate Syscall TaskSystem TaskExamples.

(** [bs] are the bytes from [buf] on of a memory of little-endian words. *)
Definition holds_bytes (words : gmap Z Z) (buf : Z) (bs : list Z) : Prop :=
  forall i b, bs !! i = Some b ->
    exists w, let a := buf + Z.of_nat i in
      words !! (a - a mod 8) = Some w /\ b = w / 256 ^ (a mod 8) mod 256.

(** No word of memory covers the address. *)
Definition unmapped (words : gmap Z Z) (a : Z) : Prop := words !! (a - a mod 8) = None.

Section syscalls.
Context {B : Type} `{HK : KernelMem B} `{!KernelMemOk B}.
Context (sym : symbols) (boot_lo boot_hi : Z) (Hboot : 0 <= boot_lo /\ boot_hi <= HEAP_START).
Implicit Types (st : tasks B) (l : view) (bs : list Z).
Local Abbreviation words st := (km_words (kmem st)).

Lemma word_aligned a : fits 64 a -> (a - a mod 8) mod 8 = 0 /\ fits 64 (a - a mod 8).
Proof. unfold fits. intros Ha. split; divlia. Qed.

Lemma zoom_same st : set_kmem (kmem st) st = st.
Proof. by destruct st. Qed.

Lemma load_byte_ok st a w :
  fits 64 a -> words st !! (a - a mod 8) = Some w ->
  load_byte a st = Done (w / 256 ^ (a mod 8) mod 256) st [].
Proof.
  intros Ha Hw. destruct (word_aligned a Ha) as [H8 Hf]. unfold load_byte.
  erewrite bind_step.
  2: { unfold on_kmem, zoom. rewrite (km_ld_ok (kmem st) _ w H8 Hf Hw), zoom_same. reflexivity. }
  change 0xFF with (2 ^ 8 - 1). rewrite land_low, Z.shiftr_div_pow2 by divlia.
  by rewrite Z.pow_mul_r by divlia.
Qed.

Lemma load_byte_fault st a :
  fits 64 a -> unmapped (words st) a -> load_byte a st = Stop (PageFault (a - a mod 8)) [].
Proof.
  intros Ha Hu. destruct (word_aligned a Ha) as [H8 Hf]. apply bind_stop.
  unfold on_kmem, zoom. by rewrite km_ld_fault.
Qed.

(** The body of the loop of [sys_write]. *)
Definition write_body (buf i : Z) : M (tasks B) (option unit) :=
  ch ← load_byte (buf ⊞ i);
  say (SerialPutc ch);;
  mret None.

(** The loop over the mapped prefix. *)
Lemma write_prefix st buf bs n i :
  0 <= i -> (length bs <= n)%nat -> 0 <= buf -> buf + i + Z.of_nat (length bs) <= 2 ^ 64 ->
  holds_bytes (words st) (buf + i) bs ->
  mfor n i (write_body buf) st =
    match mfor (n - length bs) (i + Z.of_nat (length bs)) (write_body buf) st with
    | Done r st' w => Done r st' ((SerialPutc <$> bs) ++ w)
    | Stop e w => Stop e ((SerialPutc <$> bs) ++ w)
    end.
Proof.
  revert n i. induction bs as [|b bs IH]; intros n i Hi Hn Hb Hlt Hm; simpl length in *.
  - rewrite Nat.sub_0_r, Z.add_0_r. by destruct (mfor _ _ _ _).
  - destruct n as [|n]; [lia|]. destruct (Hm 0%nat b eq_refl) as (w & Hw & ->).
    rewrite Z.add_0_r in Hw. assert (fits 64 (buf + i)) as Hf by (unfold fits; lia).
    assert (write_body buf i st = Done None st [SerialPutc (w / 256 ^ ((buf + i) mod 8) mod 256)]) as E.
    { unfold write_body. rewrite wrap_small by done.
      by rewrite (bind_step _ _ _ _ _ (load_byte_ok st _ w Hf Hw)). }
    simpl mfor at 1. rewrite (bind_done _ _ _ _ _ _ E), (IH n (i + 1)); [|lia..|].
    + replace (i + 1 + Z.of_nat (length bs)) with (i + Z.of_nat (S (length bs))) by lia.
      rewrite Z.add_0_r. simpl Nat.sub. by destruct (mfor _ _ _ _).
    + intros j b' Hj. destruct (Hm (S j) b' Hj) as (w' & Hw').
      exists w'. by replace (buf + (i + 1) + Z.of_nat j) with (buf + i + Z.of_nat (S j)) by lia.
Qed.

(** What the service of a number is, on a system whose current task is [c]
    and whose ready queue is [q]. *)
Inductive served st q c l (n fd buf len : Z) : outcome (tasks B) Z -> Prop :=
  | served_unknown : SYSCALL_COUNT <= n \/ n = SYSCALL_SBRK ->
      served st q c l n fd buf len (Done SYSCALL_ERR_NOSYS st [])
  | served_bad_write : n = SYSCALL_WRITE -> fd <> 1 \/ buf = 0 \/ len = 0 ->
      served st q c l n fd buf len (Done SYSCALL_ERR_INVAL st [])
  | served_write bs : n = SYSCALL_WRITE -> fd = 1 -> buf <> 0 -> 0 < len -> len = Z.of_nat (length bs) ->
      holds_bytes (words st) buf bs ->
      served st q c l n fd buf len (Done len st (SerialPutc <$> bs))
  | served_write_fault bs : n = SYSCALL_WRITE -> fd = 1 -> buf <> 0 -> Z.of_nat (length bs) < len ->
      holds_bytes (words st) buf bs -> let a := buf + Z.of_nat (length bs) in unmapped (words st) a ->
      served st q c l n fd buf len (Stop (PageFault (a - a mod 8)) (SerialPutc <$> bs))
  | served_pid : n = SYSCALL_GETPID -> served st q c l n fd buf len (Done (pid (tcb st c)) st [])
  | served_test : n = SYSCALL_TEST -> served st q c l n fd buf len (Done 0xDEAD st [])
  | served_yield st' q' c' : n = SYSCALL_YIELD ->
      system_ok boot_lo boot_hi st' q' c' l -> moves Tick q c q' c' ->
      served st q c l n fd buf len (Done 0 st' []).

(** A buffer is mapped, or has a first byte that is not. *)
Lemma mapped_prefix (m : gmap Z Z) buf n :
  exists bs, holds_bytes m buf bs /\ (length bs <= n)%nat /\
    (length bs = n \/ unmapped m (buf + Z.of_nat (length bs))).
Proof.
  induction n as [|n (bs & Hh & Hl & Hcase)]; [exists []; split_and!; [done|simpl; lia|by left]|].
  destruct Hcase as [Hn|Hu]; [|exists bs; auto with lia].
  set (a := buf + Z.of_nat (length bs)).
  destruct (m !! (a - a mod 8)) as [w|] eqn:Hw; [|exists bs; auto with lia].
  exists (bs ++ [w / 256 ^ (a mod 8) mod 256]). rewrite length_app. simpl.
  split_and!; [|lia|left; lia]. intros i b Hi. apply lookup_app_Some in Hi as [Hi|[Hge Hi]]; [by apply Hh|].
  apply list_lookup_singleton_Some in Hi as [Hz <-]. exists w.
  by replace (buf + Z.of_nat i) with a by (unfold a; lia).
Qed.

Lemma sys_write_served st q c l buf len d e f :
  0 < buf -> 0 < len -> buf + len <= 2 ^ 64 ->
  served st q c l SYSCALL_WRITE 1 buf len (sys_write 1 buf len d e f st).
Proof.
  intros Hb Hlen Hlt. destruct (mapped_prefix (words st) buf (Z.to_nat len)) as (bs & Hh & Hl & Hcase).
  unfold sys_write. rewrite (proj2 (Z.eqb_neq buf 0)), (proj2 (Z.eqb_neq len 0)) by lia.
  change (negb (1 =? 1) || false || false) with false. cbv iota.
  pose proof (write_prefix st buf bs (Z.to_nat len) 0 ltac:(lia) Hl ltac:(lia) ltac:(lia)) as E.
  rewrite Z.add_0_r in E. specialize (E Hh). rewrite Z.add_0_l in E.
  destruct (decide (length bs = Z.to_nat len)) as [Hn|Hn].
  - rewrite Hn, Nat.sub_diag in E. simpl in E. rewrite app_nil_r in E.
    rewrite (bind_done _ _ _ _ _ _ E). unfold mret, M_ret. rewrite app_nil_r. apply served_write; done || lia.
  - destruct Hcase as [?|Hu]; [done|].
    replace (Z.to_nat len - length bs)%nat with (S (Z.to_nat len - length bs - 1)) in E by lia.
    assert (fits 64 (buf + Z.of_nat (length bs))) as Hf by (unfold fits; lia).
    set (a := buf + Z.of_nat (length bs)) in *.
    assert (write_body buf (Z.of_nat (length bs)) st = Stop (PageFault (a - a mod 8)) []) as Ef.
    { unfold write_body. fold a. rewrite wrap_small by done. by apply bind_stop, load_byte_fault. }
    simpl mfor in E. rewrite (bind_stop _ _ _ _ _ Ef), app_nil_r in E.
    rewrite (bind_stop _ _ _ _ _ E). apply served_write_fault; done || lia.
Qed.

Lemma yield_served st q c l fd buf len :
  system_ok boot_lo boot_hi st q c l -> room boot_lo boot_hi st c ->
  served st q c l SYSCALL_YIELD fd buf len ((schedule sym;; mret 0) st).
Proof.
  intros Hs Hr. destruct q as [|n q].
  - rewrite (bind_step _ _ _ _ _ (schedule_alone sym boot_lo boot_hi _ c l (proj1 Hs))).
    by apply (served_yield _ _ _ _ _ _ _ _ st [] c).
  - destruct (tick_ok sym boot_lo boot_hi Hboot _ n q c l Hs Hr) as (st' & E & Hs' & He).
    rewrite (bind_step _ _ _ _ _ E). apply (served_yield _ _ _ _ _ _ _ _ st' (q ++ [c]) n); [done..|].
    by apply He.
Qed.

End syscalls.

#[local] Existing Instance sample_backing.
#[local] Existing Instance sample_backing_ok.

