(* ===== verification/Ports.v ===== *)
(** * Port I/O and the interrupt controller (src/cpu/pic.h, src/cpu/pic.c)

    The devices behind the ports are not code of the repository.  A port
    access appends to the trace of accesses, oldest first; the byte an [inb]
    reads is given by a function [hw] of the trace so far and the port, a
    parameter of everything that reads ports. *)
From S2P Require Import Prelude Effects.

Inductive io_event :=
  | In (port v : Z)
  | Out (port v : Z).

#[export] Instance io_event_eq_dec : EqDecision io_event.
Proof. solve_decision. Defined.

Abbreviation trace := (list io_event).

(** The bytes the devices answer with. *)
Abbreviation devices := (trace -> Z -> Z).

Definition outb (port v : Z) : M trace unit := modify (fun t => t ++ [Out port (wrap 8 v)]).

Definition inb (hw : devices) (port : Z) : M trace Z := fun t =>
  let v := wrap 8 (hw t port) in Done v (t ++ [In port v]) [].

(** ** The 8259A pair *)

Definition PIC_MASTER_CMD : Z := 0x20.
Definition PIC_MASTER_DATA : Z := 0x21.
Definition PIC_SLAVE_CMD : Z := 0xA0.
Definition PIC_SLAVE_DATA : Z := 0xA1.
Definition PIC_MASTER_OFFSET : Z := 32.
Definition PIC_SLAVE_OFFSET : Z := 40.

(** [kinit_pic]. *)
Definition kinit_pic : M trace unit :=
  let master_offset := PIC_MASTER_OFFSET in
  let slave_offset := PIC_SLAVE_OFFSET in
  outb PIC_MASTER_CMD 0x11;;
  outb PIC_SLAVE_CMD 0x11;;
  outb PIC_MASTER_DATA master_offset;;
  outb PIC_SLAVE_DATA slave_offset;;
  outb PIC_MASTER_DATA 0x04;;
  outb PIC_SLAVE_DATA 0x02;;
  outb PIC_MASTER_DATA 0x01;;
  outb PIC_SLAVE_DATA 0x01;;
  outb PIC_MASTER_DATA 0x00;;
  outb PIC_SLAVE_DATA 0x00;;
  say (KPrint ("PIC: Master=0x20, Slave=0x28, remapped" +:+ NL)).

Definition pic_send_eoi (irq : Z) : M trace unit :=
  (if 8 <=? irq then outb PIC_SLAVE_CMD 0x20 else mret tt);;
  outb PIC_MASTER_CMD 0x20.

(** ** How an 8259A reads its commands

    One chip: the initialisation words still expected ([ICW2] to [ICW4]), the
    vector base, the interrupt mask and the requests in service.  An EOI
    clears the request in service of the highest priority (the lowest line). *)
Record chip := Chip {
  icw : nat;        (* the number of the next initialisation word, 0 when none is expected *)
  vbase : Z;
  mask : Z;
  in_service : list Z;
}.

Definition chip_cmd (v : Z) (c : chip) : chip :=
  if Z.testbit v 4 then Chip 2 (vbase c) 0 []
  else if v =? 0x20 then Chip (icw c) (vbase c) (mask c) (tail (in_service c))
  else c.

Definition chip_data (v : Z) (c : chip) : chip :=
  match icw c with
  | 2%nat => Chip 3 (Z.land v 0xF8) (mask c) (in_service c)
  | 3%nat => Chip 4 (vbase c) (mask c) (in_service c)
  | 4%nat => Chip 0 (vbase c) (mask c) (in_service c)
  | _ => Chip (icw c) (vbase c) v (in_service c)
  end.

Definition pic_event (e : io_event) (p : chip * chip) : chip * chip :=
  match e with
  | Out 0x20 v => (chip_cmd v p.1, p.2)
  | Out 0x21 v => (chip_data v p.1, p.2)
  | Out 0xA0 v => (p.1, chip_cmd v p.2)
  | Out 0xA1 v => (p.1, chip_data v p.2)
  | _ => p
  end.

(** The pair after a trace. *)
Definition pic_after (p : chip * chip) (t : trace) : chip * chip := foldl (fun p e => pic_event e p) p t.

(** The vector the pair raises for a line. *)
Definition irq_vector (p : chip * chip) (irq : Z) : Z :=
  if irq <? 8 then vbase p.1 + irq else vbase p.2 + (irq - 8).

(** The line is in service on the chips that see it: the slave's lines reach
    the master on line 2. *)
Definition raise (irq : Z) (p : chip * chip) : chip * chip :=
  let serve l c := Chip (icw c) (vbase c) (mask c) (l :: in_service c) in
  if irq <? 8 then (serve irq p.1, p.2) else (serve 2 p.1, serve (irq - 8) p.2).

Lemma pic_after_app p t u : pic_after p (t ++ u) = pic_after (pic_after p t) u.
Proof. unfold pic_after. by rewrite foldl_app. Qed.

(** [kinit_pic] leaves both chips out of initialisation, unmasked, with the
    sixteen lines on vectors 32 to 47. *)
Lemma kinit_pic_ok p t :
  exists t', kinit_pic t = Done tt (t ++ t') [KPrint ("PIC: Master=0x20, Slave=0x28, remapped" +:+ NL)] /\
    pic_after p t' = (Chip 0 32 0 [], Chip 0 40 0 []).
Proof.
  eexists. split.
  - unfold kinit_pic, outb, modify. unfold mbind, M_bind. simpl. rewrite <-!app_assoc. reflexivity.
  - destruct p. reflexivity.
Qed.

Lemma irq_vector_32 irq p :
  vbase p.1 = 32 -> vbase p.2 = 40 -> irq_vector p irq = 32 + irq.
Proof. intros H1 H2. unfold irq_vector. rewrite H1, H2. destruct (irq <? 8); lia. Qed.

(** The EOI's trace, and that it retires exactly the raised line. *)
Definition eoi_trace (irq : Z) : trace :=
  (if 8 <=? irq then [Out PIC_SLAVE_CMD 0x20] else []) ++ [Out PIC_MASTER_CMD 0x20].

Lemma pic_send_eoi_run irq t : pic_send_eoi irq t = Done tt (t ++ eoi_trace irq) [].
Proof.
  unfold pic_send_eoi, eoi_trace, outb, modify. unfold mbind, M_bind, mret, M_ret.
  destruct (8 <=? irq); simpl; by rewrite <-?app_assoc.
Qed.

Lemma pic_eoi_retires irq p : pic_after (raise irq p) (eoi_trace irq) = p.
Proof.
  unfold raise, eoi_trace. destruct p as [[] []].
  destruct (Z.ltb_spec irq 8) as [H|H], (Z.leb_spec 8 irq) as [H'|H']; try lia; reflexivity.
Qed.
