(* ===== verification/Serial.v ===== *)
(** * The serial port (src/drivers/serial.h)

    COM1 is driven through [outb] and [inb].  The second part reads the trace
    of port accesses as a 16550 UART does and shows what reaches the line. *)
From S2P Require Import Prelude Effects Ports.

Definition SERIAL_COM1 : Z := 0x3F8.

(** ** Characters

    A [char] is a signed byte; a string literal is the list of its characters,
    without the terminating 0. *)
Definition char_of (byte : Z) : Z := if byte <? 128 then byte else byte - 256.
Definition chars (s : string) : list Z :=
  map (fun c => char_of (Z.of_N (Ascii.N_of_ascii c))) (String.list_ascii_of_string s).

(** What a loop that stops at the terminating 0 sees of a string. *)
Fixpoint cstr (l : list Z) : list Z :=
  match l with
  | [] => []
  | c :: l' => if c =? 0 then [] else c :: cstr l'
  end.

(** The values of [f] from [i] on. *)
Definition values (f : Z -> Z) (i : Z) (n : nat) : list Z := map (fun k => f (i + Z.of_nat k)) (seq 0 n).

Lemma values_S f i n : values f i (S n) = f i :: values f (i + 1) n.
Proof.
  unfold values. simpl. rewrite Z.add_0_r. f_equal.
  rewrite <-seq_shift, map_map. apply map_ext. intros k. f_equal. lia.
Qed.

Section serial.
Context (hw : devices).
Local Abbreviation K := (M trace).

Definition serial_init : K unit :=
  outb (SERIAL_COM1 + 1) 0x00;;
  outb (SERIAL_COM1 + 3) 0x80;;
  outb (SERIAL_COM1 + 0) 0x03;;
  outb (SERIAL_COM1 + 1) 0x00;;
  outb (SERIAL_COM1 + 3) 0x03;;
  outb (SERIAL_COM1 + 2) 0xC7;;
  outb (SERIAL_COM1 + 4) 0x0B.

Definition serial_tx_ready : K Z := v ← inb hw (SERIAL_COM1 + 5); mret (Z.land v 0x20).

(** One round of [while (!serial_tx_ready());] *)
Definition tx_poll (_ : unit) : K (flow unit unit) :=
  r ← serial_tx_ready; mret (if r =? 0 then Next tt else Leave tt).

Definition serial_putc (c : Z) : K unit := mwhile 64 tx_poll tt;; outb SERIAL_COM1 (wrap 8 c).

Fixpoint serial_puts (s : list Z) : K unit :=
  match s with
  | [] => mret tt
  | c :: s' =>
      if c =? 0 then mret tt
      else
        (if c =? 10 then serial_putc 13 else mret tt);;
        serial_putc c;;
        serial_puts s'
  end.

(** [hex[(val >> i) & 0xF]] for a string of sixteen digits. *)
Definition hex_digit (hex : string) (v i : Z) : Z :=
  nth (Z.to_nat (Z.land (Z.shiftr v i) 0xF)) (chars hex) 0.

Definition serial_puthex64 (val : Z) : K unit :=
  serial_puts (chars "0x");;
  mfor (R := unit) 16 0 (fun k =>
    serial_putc (hex_digit "0123456789abcdef" val (60 - 4 * k));; mret None);;
  mret tt.

(** ** The 16550

    What the UART sends and how it is programmed, after a trace: DLAB is bit 7
    of the line control register; with DLAB set the first two ports are the
    divisor, otherwise the first is the transmitter. *)
Record uart := Uart { dlab : bool; divisor : Z; sent : list Z }.

Definition uart_event (u : uart) (e : io_event) : uart :=
  match e with
  | Out 0x3F8 v =>
      if dlab u then Uart true (divisor u / 256 * 256 + v) (sent u)
      else Uart false (divisor u) (sent u ++ [v])
  | Out 0x3F9 v => if dlab u then Uart true (v * 256 + divisor u mod 256) (sent u) else u
  | Out 0x3FB v => Uart (Z.testbit v 7) (divisor u) (sent u)
  | _ => u
  end.

Definition uart_after (u : uart) (t : trace) : uart := foldl uart_event u t.

(** The transmitter empties: from any point on, reading the line status often
    enough (fewer than [2 ^ 64] times) finds bit 5 set. *)
Definition poll (t : trace) : trace := t ++ [In 0x3FD (wrap 8 (hw t 0x3FD))].
Definition drains : Prop :=
  forall t, exists n, Z.of_nat n < 2 ^ 64 /\ Z.testbit (hw (Nat.iter n poll t) 0x3FD) 5 = true.

Lemma uart_after_app u t t' : uart_after u (t ++ t') = uart_after (uart_after u t) t'.
Proof. unfold uart_after. by rewrite foldl_app. Qed.

Lemma uart_poll u n t : uart_after u (Nat.iter n poll t) = uart_after u t.
Proof.
  induction n as [|n IH]; [done|]. simpl. unfold poll at 1. by rewrite uart_after_app, IH.
Qed.

Lemma serial_init_ok t :
  exists t', serial_init t = Done tt (t ++ t') [] /\
    forall u, uart_after u t' = Uart false 3 (sent u).
Proof.
  eexists. split.
  - unfold serial_init, outb, modify, mbind, M_bind. simpl. rewrite <-!app_assoc. reflexivity.
  - intros [d dv l].
    transitivity (Uart false (0 * 256 +
      ((if d then 0 * 256 + dv mod 256 else dv) / 256 * 256 + 3) mod 256) l).
    + by destruct d.
    + f_equal. divlia.
Qed.

(** ** What the driver sends *)

Lemma tx_poll_run t :
  tx_poll tt t = Done (if Z.testbit (hw t 0x3FD) 5 then Leave tt else Next tt) (poll t) [].
Proof.
  assert (Z.testbit (hw t 0x3FD) 5 = Z.testbit (wrap 8 (hw t 0x3FD)) 5) as ->.
  { by rewrite testbit_wrap by lia. }
  unfold tx_poll, serial_tx_ready, inb, mbind, M_bind, mret, M_ret, poll.
  change (SERIAL_COM1 + 5) with 0x3FD.
  generalize (wrap 8 (hw t 0x3FD)). intros v. cbn [app]. f_equal.
  destruct (Z.testbit v 5) eqn:Hv.
  - rewrite (proj2 (Z.eqb_neq _ _)); [done|]. intros H0.
    assert (Z.testbit (Z.land v 0x20) 5 = true) as H1 by (rewrite Z.land_spec, Hv; done).
    by rewrite H0 in H1.
  - rewrite (proj2 (Z.eqb_eq _ _)); [done|]. change 0x20 with (Z.shiftl 1 5). apply Z.bits_inj'. intros i Hi0.
    rewrite Z.land_spec, testbit_one_shiftl, Z.testbit_0_l by lia.
    case_bool_decide as Hi; [subst; by rewrite Hv|apply andb_false_r].
Qed.

Lemma wait_ready n t :
  Z.testbit (hw (Nat.iter n poll t) 0x3FD) 5 = true ->
  exists m, (m <= Datatypes.S n)%nat /\
    mloop tx_poll m tt t = Done (Leave tt) (Nat.iter m poll t) [].
Proof.
  revert t. induction n as [|n IH]; intros t Hn.
  - exists 1%nat. split; [lia|]. apply mloop_done. rewrite tx_poll_run. change (Nat.iter 0 poll t) with t in Hn. by rewrite Hn.
  - destruct (Z.testbit (hw t 0x3FD) 5) eqn:E.
    + exists 1%nat. split; [lia|]. apply mloop_done. by rewrite tx_poll_run, E.
    + destruct (IH (poll t)) as (m & Hm & Hl).
      { by rewrite <-Nat.iter_succ_r. }
      exists (Datatypes.S m). split; [lia|].
      rewrite (mloop_next _ _ _ _ tt (poll t) []) by (by rewrite tx_poll_run, E).
      rewrite Hl. simpl app. by rewrite <-Nat.iter_succ_r.
Qed.

(** [sends bytes m]: [m] returns, makes no other call, and in a UART in
    operation sends exactly [bytes]. *)
Definition sends {A} (bytes : list Z) (m : K A) : Prop :=
  forall t, exists a t', m t = Done a (t ++ t') [] /\
    forall u, dlab u = false -> uart_after u t' = Uart false (divisor u) (sent u ++ bytes).

Lemma sends_ret {A} (a : A) : sends [] (mret a : K A).
Proof.
  intros t. exists a, []. rewrite app_nil_r. split; [done|].
  intros [[] d s] Hu; simpl in *; [done|]. by rewrite app_nil_r.
Qed.

Lemma sends_bind {A B} l1 l2 (m : K A) (f : A -> K B) :
  sends l1 m -> (forall a, sends l2 (f a)) -> sends (l1 ++ l2) (m ≫= f).
Proof.
  intros Hm Hf t. destruct (Hm t) as (a & t1 & E1 & U1).
  destruct (Hf a (t ++ t1)) as (b & t2 & E2 & U2).
  exists b, (t1 ++ t2). split.
  - by rewrite (bind_step _ _ _ _ _ E1), E2, app_assoc.
  - intros u Hu. rewrite uart_after_app, (U1 u Hu), U2 by done. simpl. by rewrite app_assoc.
Qed.

Context (Hdrain : drains).

Lemma serial_putc_sends c : sends [wrap 8 c] (serial_putc c).
Proof.
  intros t. destruct (Hdrain t) as (n & Hn & Hbit).
  destruct (wait_ready n t Hbit) as (m & Hm & Hl).
  assert (mwhile 64 tx_poll tt t = Done tt (Nat.iter m poll t) []) as Hw.
  { apply (mwhile_leave _ _ m); [done|]. change (Z.of_nat 64) with 64. lia. }
  assert (exists p, Nat.iter m poll t = t ++ p /\ forall u, uart_after u p = u) as (p & Ep & Up).
  { clear. induction m as [|m (p & E & U)]; [exists []; by rewrite app_nil_r|].
    exists (p ++ [In 0x3FD (wrap 8 (hw (t ++ p) 0x3FD))]). split.
    - simpl. rewrite E. unfold poll. by rewrite app_assoc.
    - intros u. by rewrite uart_after_app, U. }
  exists tt, (p ++ [Out 0x3F8 (wrap 8 (wrap 8 c))]). split.
  - unfold serial_putc. rewrite (bind_step _ _ _ _ _ Hw), Ep. unfold outb, modify.
    by rewrite app_assoc.
  - intros u Hu. rewrite uart_after_app, Up. simpl. by rewrite Hu, wrap_wrap by lia.
Qed.

(** A line feed is sent as CR LF. *)
Definition crlf (l : list Z) : list Z :=
  flat_map (fun c => if c =? 10 then [13; 10] else [wrap 8 c]) l.

Lemma serial_puts_sends s : sends (crlf (cstr s)) (serial_puts s).
Proof.
  induction s as [|c s IH]; [apply sends_ret|]. simpl.
  destruct (c =? 0); [apply sends_ret|]. simpl.
  destruct (Z.eqb_spec c 10) as [->|Hc].
  - apply (sends_bind [13] (10 :: crlf (cstr s))); [apply (serial_putc_sends 13)|intros _].
    apply (sends_bind [10] (crlf (cstr s))); [apply (serial_putc_sends 10)|by intros _].
  - apply (sends_bind [] (wrap 8 c :: crlf (cstr s))); [apply sends_ret|intros _].
    apply (sends_bind [wrap 8 c] (crlf (cstr s))); [apply serial_putc_sends|by intros _].
Qed.

Definition hex_text (hex : string) (v : Z) : list Z :=
  values (fun k => hex_digit hex v (60 - 4 * k)) 0 16.

Lemma sends_for {R} n i (f : Z -> Z) (body : Z -> K (option R)) :
  (forall k, sends [f k] (body k) /\ forall t a t' w, body k t = Done a t' w -> a = None) ->
  sends (values f i n) (mfor n i body).
Proof.
  intros Hb. revert i. induction n as [|n IH]; intros i; [apply sends_ret|].
  intros t. destruct (proj1 (Hb i) t) as (a & t1 & E1 & U1).
  pose proof (proj2 (Hb i) _ _ _ _ E1) as ->.
  destruct (IH (i + 1) (t ++ t1)) as (b & t2 & E2 & U2).
  exists b, (t1 ++ t2). split.
  - simpl. by rewrite (bind_step _ _ _ _ _ E1), E2, app_assoc.
  - intros u Hu. rewrite uart_after_app, (U1 u Hu), U2 by done.
    cbn [sent divisor]. by rewrite values_S, <-app_assoc.
Qed.

Lemma hex_digit_small hex v i : Forall (fun c => 0 <= c < 256) (chars hex) ->
  wrap 8 (hex_digit hex v i) = hex_digit hex v i.
Proof.
  intros H. apply wrap_small. unfold hex_digit, fits. change (2 ^ 8) with 256.
  generalize (Z.to_nat (Z.land (Z.shiftr v i) 0xF)). intros n. revert n.
  induction H as [|c l Hc _ IH]; intros [|n]; simpl; try lia. apply IH.
Qed.

Lemma serial_puthex64_sends v :
  sends (chars "0x" ++ hex_text "0123456789abcdef" v) (serial_puthex64 v).
Proof.
  unfold serial_puthex64. apply (sends_bind (crlf (cstr (chars "0x")))); [apply serial_puts_sends|].
  intros _. rewrite <-(app_nil_r (hex_text _ _)). apply sends_bind; [|intros _; apply sends_ret].
  apply (sends_for 16 0 (fun k => hex_digit "0123456789abcdef" v (60 - 4 * k))).
  intros k. split.
  - change [hex_digit "0123456789abcdef" v (60 - 4 * k)]
      with ([hex_digit "0123456789abcdef" v (60 - 4 * k)] ++ []).
    apply sends_bind; [|intros _; apply sends_ret].
    pose proof (serial_putc_sends (hex_digit "0123456789abcdef" v (60 - 4 * k))) as Hs.
    by rewrite hex_digit_small in Hs by decide_done.
  - intros t a t' w Hr. apply bind_inv in Hr as (x & s1 & w1 & w2 & _ & Hr & _).
    by injection Hr as <-.
Qed.
End serial.

(** ** Reading sixteen digits back *)
Definition digit_value (hex : string) (c : Z) : Z :=
  match list_find (eq c) (chars hex) with Some (k, _) => Z.of_nat k | None => 0 end.
Definition read_hex (hex : string) (l : list Z) : Z :=
  foldl (fun v c => v * 16 + digit_value hex c) 0 l.

(** An alphabet: sixteen different characters. *)
Definition hex_ok (hex : string) : Prop :=
  Forall (fun k => digit_value hex (nth k (chars hex) 0) = Z.of_nat k) (seq 0 16).

Lemma hex_digit_value hex v i : hex_ok hex -> digit_value hex (hex_digit hex v i) = Z.shiftr v i mod 16.
Proof.
  intros Hh. unfold hex_digit. change 0xF with (2 ^ 4 - 1). rewrite land_low by lia.
  change (2 ^ 4) with 16. pose proof (Z.mod_pos_bound (Z.shiftr v i) 16 ltac:(lia)) as Hb.
  unfold hex_ok in Hh. rewrite Forall_forall in Hh. rewrite Hh; [lia|].
  apply elem_of_seq. lia.
Qed.

Lemma read_hex_prefix hex v n :
  hex_ok hex -> fits 64 v -> (n <= 16)%nat ->
  read_hex hex (values (fun k => hex_digit hex v (60 - 4 * k)) 0 n) =
    v / 2 ^ (64 - 4 * Z.of_nat n).
Proof.
  intros Hh Hv. induction n as [|n IH]; intros Hn.
  - simpl. symmetry. apply Z.div_small. exact Hv.
  - unfold values. rewrite seq_S, map_app. unfold read_hex, values in *.
    rewrite foldl_app, IH by lia. simpl foldl. rewrite Z.add_0_l.
    rewrite hex_digit_value, Z.shiftr_div_pow2 by (done || lia).
    replace (64 - 4 * Z.of_nat n) with (60 - 4 * Z.of_nat n + 4) by lia.
    replace (64 - 4 * Z.of_nat (S n)) with (60 - 4 * Z.of_nat n) by lia.
    rewrite Z.pow_add_r by lia. rewrite <-Z.div_div by lia.
    change (2 ^ 4) with 16. set (x := v / 2 ^ (60 - 4 * Z.of_nat n)). divlia.
Qed.

Lemma read_hex_text hex v : hex_ok hex -> fits 64 v -> read_hex hex (hex_text hex v) = v.
Proof.
  intros Hh Hv. unfold hex_text. rewrite read_hex_prefix by done.
  change (64 - 4 * Z.of_nat 16) with 0. apply Z.div_1_r.
Qed.

Lemma lower_hex_ok : hex_ok "0123456789abcdef".
Proof. decide_done. Qed.
Lemma upper_hex_ok : hex_ok "0123456789ABCDEF".
Proof. decide_done. Qed.
