(* ===== verification/Vga.v ===== *)
(** * The text console (src/drivers/vga.c, vga.h): the model

    The 80 x 25 cells of the text buffer are a list; reading or writing
    outside it stops with [OutOfBounds].  Both values of the pointer
    [vga_buffer] are mapped to the same cells (paging.c maps the first
    megabytes at 0 and at [HIGHER_HALF_BASE]). *)
From S2P Require Import Prelude Effects PagingInterface Serial.

Definition VGA_WIDTH : Z := 80.
Definition VGA_HEIGHT : Z := 25.
Definition VGA_COLOR (fg bg : Z) : Z :=
  Z.lor (Z.shiftl (Z.land bg 0xF) 4) (Z.land fg 0xF).
Definition VGA_COLOR_BLACK : Z := 0.
Definition VGA_COLOR_LIGHT_GREY : Z := 7.

Record vga := Vga {
  vga_buffer : Z;
  cells : list Z;
  vga_cursor_x : Z;
  vga_cursor_y : Z;
}.

(** The static initialisers, over what the screen shows at reset. *)
Definition vga_reset (screen : list Z) : vga := Vga 0xB8000 screen 0 0.

Definition set_cells (l : list Z) (v : vga) : vga :=
  Vga (vga_buffer v) l (vga_cursor_x v) (vga_cursor_y v).
Definition set_x (x : Z) (v : vga) : vga := Vga (vga_buffer v) (cells v) (wrap 8 x) (vga_cursor_y v).
Definition set_y (y : Z) (v : vga) : vga := Vga (vga_buffer v) (cells v) (vga_cursor_x v) (wrap 8 y).

(** [vga_buffer[idx]], read and written. *)
Definition in_buffer (idx : Z) : bool := (0 <=? idx) && (idx <? VGA_WIDTH * VGA_HEIGHT).
Definition peek (idx : Z) : M vga Z :=
  v ← get; if in_buffer idx then mret (nth (Z.to_nat idx) (cells v) 0) else stop (OutOfBounds idx).
Definition poke (idx c : Z) : M vga unit :=
  if in_buffer idx then modify (fun v => set_cells (<[Z.to_nat idx := c]> (cells v)) v)
  else stop (OutOfBounds idx).

Definition vga_set_higher_half : M vga unit :=
  modify (fun v => Vga (HIGHER_HALF_BASE + 0xB8000) (cells v) (vga_cursor_x v) (vga_cursor_y v)).

(** A [char] is signed: its conversion to [uint16_t] extends the sign. *)
Definition vga_entry (c color : Z) : Z := Z.lor (wrap 16 (Z.shiftl color 8)) (wrap 16 c).

Definition khello_init : M vga unit :=
  let color := VGA_COLOR VGA_COLOR_LIGHT_GREY VGA_COLOR_BLACK in
  mfor (R := unit) (Z.to_nat (VGA_WIDTH * VGA_HEIGHT)) 0 (fun i =>
    poke i (vga_entry 32 color);; mret None);;
  modify (set_x 0);;
  modify (set_y 0).

(** The last part of [kprintc]: the rows move up by one. *)
Definition scroll (color : Z) : M vga unit :=
  mfor (R := unit) (Z.to_nat (VGA_HEIGHT - 1)) 1 (fun y =>
    mfor (R := unit) (Z.to_nat VGA_WIDTH) 0 (fun x =>
      c ← peek (y * VGA_WIDTH + x);
      poke ((y - 1) * VGA_WIDTH + x) c;;
      mret None));;
  mfor (R := unit) (Z.to_nat VGA_WIDTH) 0 (fun x =>
    poke ((VGA_HEIGHT - 1) * VGA_WIDTH + x) (vga_entry 32 color);; mret None);;
  modify (set_y (VGA_HEIGHT - 1)).

Definition kprintc (c : Z) : M vga unit :=
  let color := VGA_COLOR VGA_COLOR_LIGHT_GREY VGA_COLOR_BLACK in
  v ← get;
  (if c =? 10 then
     modify (set_y (vga_cursor_y v + 1));;
     modify (set_x 0)
   else if c =? 13 then modify (set_x 0)
   else if c =? 9 then modify (set_x (Z.land (vga_cursor_x v + 8) (Z.lnot 0x07)))
   else
     let idx := vga_cursor_y v * VGA_WIDTH + vga_cursor_x v in
     (if idx <? VGA_WIDTH * VGA_HEIGHT then poke idx (vga_entry c color) else mret tt);;
     modify (set_x (vga_cursor_x v + 1));;
     v ← get;
     if VGA_WIDTH <=? vga_cursor_x v then
       modify (set_x 0);;
       modify (set_y (vga_cursor_y v + 1))
     else mret tt);;
  v ← get;
  if VGA_HEIGHT <=? vga_cursor_y v then scroll color else mret tt.

Fixpoint kprint (s : list Z) : M vga unit :=
  match s with
  | [] => mret tt
  | c :: s' => if c =? 0 then mret tt else kprintc c;; kprint s'
  end.

Definition kprint_hex (val : Z) : M vga unit :=
  kprint (chars "0x");;
  mfor (R := unit) 16 0 (fun k =>
    kprintc (hex_digit "0123456789ABCDEF" val ((15 - k) * 4));; mret None);;
  mret tt.

(** The cursor one cell back: [vga_backspace] does this twice. *)
Definition step_back : M vga unit :=
  v ← get;
  if vga_cursor_x v =? 0 then
    modify (set_y (vga_cursor_y v - 1));;
    modify (set_x (VGA_WIDTH - 1))
  else modify (set_x (vga_cursor_x v - 1)).

Definition vga_backspace : M vga unit :=
  v ← get;
  if (vga_cursor_x v =? 0) && (vga_cursor_y v =? 0) then mret tt
  else
    step_back;;
    kprintc 32;;
    step_back.

(** Outputs can be compared by running them. *)
Example kprintc_wraps :
  option_map (fun v => (vga_cursor_x v, vga_cursor_y v, nth 79 (cells v) 0))
    (state_of (kprintc 65 (Vga 0 (replicate 2000 0) 79 0))) = Some (0, 1, 0x741).
Proof. vm_compute. reflexivity. Qed.
