(* ===== verification/Terminal.v ===== *)
(** * The text console refines a terminal

    The specification of vga.c: a terminal of 25 rows of 80 cells, with
    putting a character, line feeds that scroll, and erasing.  Every operation
    of [Vga.v] returns without an access outside the text buffer and shows
    what the terminal shows. *)
From S2P Require Import Prelude Effects PagingInterface Serial Vga.

(** ** The terminal *)
Record term := Term { rows : list (list Z); col : Z; row : Z }.

Definition blank : Z := 0x0720.
Definition blank_row : list Z := replicate 80 blank.
Definition glyph (c : Z) : Z := vga_entry c 7.

Definition line_feed (t : term) : term :=
  if row t + 1 <? 25 then Term (rows t) 0 (row t + 1)
  else Term (tail (rows t) ++ [blank_row]) 0 24.

(** The cell at a row and a column. *)
Definition put_cell (r c g : Z) (rs : list (list Z)) : list (list Z) :=
  alter (fun l => <[Z.to_nat c := g]> l) (Z.to_nat r) rs.

(** A tab is not stopped by the right margin: it leaves the cursor in a column
    from 80 on (up to 248).  The next character then goes to a cell of a row
    below (or nowhere, below the last row), and then the line is fed. *)
Definition term_putc (c : Z) (t : term) : term :=
  if c =? 10 then line_feed t
  else if c =? 13 then Term (rows t) 0 (row t)
  else if c =? 9 then Term (rows t) ((col t / 8 + 1) * 8 mod 256) (row t)
  else
    let rs := put_cell (row t + col t / 80) (col t mod 80) (glyph c) (rows t) in
    if col t + 1 <? 80 then Term rs (col t + 1) (row t)
    else line_feed (Term rs (col t) (row t)).

Definition term_print (s : list Z) (t : term) : term := foldl (fun t c => term_putc c t) t (cstr s).

Definition term_wf (t : term) : Prop :=
  length (rows t) = 25%nat /\ Forall (fun r => length r = 80%nat) (rows t) /\
  0 <= col t <= 248 /\ 0 <= row t < 25.

(** The screen shows the terminal. *)
Definition displays (v : vga) (t : term) : Prop :=
  cells v = concat (rows t) /\ vga_cursor_x v = col t /\ vga_cursor_y v = row t.

(** ** Lists of rows *)

Lemma concat_length (rs : list (list Z)) n :
  Forall (fun r => length r = n) rs -> length (concat rs) = (length rs * n)%nat.
Proof. induction 1 as [|r rs Hr _ IH]; [done|]. simpl. rewrite length_app. lia. Qed.

Lemma concat_insert (rs : list (list Z)) w r c g :
  Forall (fun l => length l = w) rs -> (c < w)%nat ->
  <[(r * w + c)%nat := g]> (concat rs) = concat (alter (fun l => <[c := g]> l) r rs).
Proof.
  intros Hl Hc. revert r. induction Hl as [|l rs Hlen _ IH]; intros r; [done|].
  destruct r as [|r]; simpl.
  - rewrite insert_app_l by lia. done.
  - replace (w + r * w + c)%nat with (length l + (r * w + c))%nat by lia.
    rewrite insert_app_r. by rewrite IH.
Qed.

Lemma concat_tail (rs : list (list Z)) w :
  Forall (fun l => length l = w) rs -> rs <> [] -> concat (tail rs) = drop w (concat rs).
Proof.
  intros Hl Hne. destruct rs as [|l rs]; [done|]. simpl.
  apply Forall_cons in Hl as [<- _]. by rewrite drop_app_length.
Qed.

Lemma alter_out {A} (f : A -> A) (l : list A) i : (length l <= i)%nat -> alter f i l = l.
Proof.
  revert i. induction l as [|x l IH]; intros i Hi; [done|].
  destruct i as [|i]; simpl in *; [lia|]. f_equal. apply IH. lia.
Qed.

Lemma rows_alter_wf (rs : list (list Z)) w r c g :
  Forall (fun l => length l = w) rs ->
  Forall (fun l => length l = w) (alter (fun l => <[c := g]> l) r rs).
Proof.
  intros Hl. apply Forall_alter; [done|]. intros l _ Hlen. by rewrite length_insert.
Qed.

Lemma term_cells t : term_wf t -> length (concat (rows t)) = 2000%nat.
Proof. intros (Hn & Hr & _). by rewrite (concat_length _ 80), Hn. Qed.

(** ** The code's loops *)

Definition keeps (v s : vga) : Prop :=
  vga_buffer s = vga_buffer v /\ vga_cursor_x s = vga_cursor_x v /\ vga_cursor_y s = vga_cursor_y v /\
  length (cells s) = length (cells v).

Lemma poke_run v i c :
  0 <= i < 2000 -> poke i c v = Done tt (set_cells (<[Z.to_nat i := c]> (cells v)) v) [].
Proof.
  intros Hi. unfold poke, in_buffer, VGA_WIDTH, VGA_HEIGHT.
  rewrite (proj2 (Z.leb_le _ _)), (proj2 (Z.ltb_lt _ _)) by lia. done.
Qed.

Lemma peek_run v i : 0 <= i < 2000 -> peek i v = Done (nth (Z.to_nat i) (cells v) 0) v [].
Proof.
  intros Hi. unfold peek, in_buffer, VGA_WIDTH, VGA_HEIGHT.
  rewrite (proj2 (Z.leb_le _ _)), (proj2 (Z.ltb_lt _ _)) by lia. done.
Qed.

(** A run of [n] cells from [a] set to [c]. *)
Lemma fill_run (f : Z -> Z) a n c v :
  length (cells v) = 2000%nat -> 0 <= a -> a + Z.of_nat n <= 2000 ->
  (forall x, 0 <= x < Z.of_nat n -> f x = a + x) ->
  exists s, mfor (R := unit) n 0 (fun x => poke (f x) c;; mret None) v = Done None s [] /\
    keeps v s /\
    forall k, (k < 2000)%nat -> cells s !! k =
      if decide (a <= Z.of_nat k < a + Z.of_nat n) then Some c else cells v !! k.
Proof.
  intros Hlen Ha Hn Hf.
  destruct (mfor_rule (R := unit) (fun i s => keeps v s /\ forall k, (k < 2000)%nat -> cells s !! k =
      if decide (a <= Z.of_nat k < a + i) then Some c else cells v !! k)
    (fun x => poke (f x) c;; mret None) n 0 v) as (s & E & Hk & Hc).
  - split; [done|]. intros k Hk. by rewrite decide_False by lia.
  - intros i s Hi [(K1 & K2 & K3 & K4) Hc]. rewrite Hf by lia.
    eexists. split; [rewrite (bind_step _ _ _ _ _ (poke_run s (a + i) c ltac:(lia))); reflexivity|].
    split; [by split_and!; simpl; rewrite ?length_insert|]. intros k Hk. simpl.
    destruct (decide (k = Z.to_nat (a + i))) as [->|Hne].
    + rewrite list_lookup_insert_eq, decide_True by lia. done.
    + rewrite list_lookup_insert_ne, Hc by done.
      destruct (decide (a <= Z.of_nat k < a + i)), (decide (a <= Z.of_nat k < a + (i + 1))); lia || done.
  - exists s. split_and!; [done|apply Hk..|]. intros k Hk'. rewrite Hc by done. done.
Qed.

(** The cells below [p] already hold what was one row lower. *)
Definition moved (v : vga) (p : Z) (s : vga) : Prop :=
  keeps v s /\ forall k, (k < 2000)%nat -> cells s !! k =
    if decide (Z.of_nat k < p) then cells v !! (k + 80)%nat else cells v !! k.

Lemma scroll_row v y s :
  length (cells v) = 2000%nat -> 1 <= y <= 24 -> moved v ((y - 1) * 80) s ->
  exists s', mfor (R := unit) 80 0 (fun x =>
      c ← peek (y * VGA_WIDTH + x); poke ((y - 1) * VGA_WIDTH + x) c;; mret None) s = Done None s' [] /\
    moved v (y * 80) s'.
Proof.
  intros Hlen Hy Hm. unfold VGA_WIDTH.
  destruct (mfor_rule (R := unit) (fun x s => moved v ((y - 1) * 80 + x) s)
    (fun x => c ← peek (y * 80 + x); poke ((y - 1) * 80 + x) c;; mret None) 80 0 s)
    as (s' & E & Hm').
  - by rewrite Z.add_0_r.
  - intros x s1 Hx [(K1 & K2 & K3 & K4) Hc].
    eexists. split.
    { rewrite (bind_step _ _ _ _ _ (peek_run s1 (y * 80 + x) ltac:(lia))).
      rewrite (bind_step _ _ _ _ _ (poke_run s1 ((y - 1) * 80 + x) _ ltac:(lia))). reflexivity. }
    split; [by split_and!; simpl; rewrite ?length_insert|]. intros k Hk. simpl.
    destruct (decide (k = Z.to_nat ((y - 1) * 80 + x))) as [->|Hne].
    + rewrite list_lookup_insert_eq, decide_True by lia.
      destruct (lookup_lt_is_Some_2 (cells s1) (Z.to_nat (y * 80 + x)) ltac:(lia)) as [g Hg].
      rewrite (nth_lookup_Some _ _ _ _ Hg). rewrite Hc, decide_False in Hg by lia.
      rewrite <-Hg. f_equal. lia.
    + rewrite list_lookup_insert_ne, Hc by done.
      destruct (decide (Z.of_nat k < (y - 1) * 80 + x)),
        (decide (Z.of_nat k < (y - 1) * 80 + (x + 1))); lia || done.
  - exists s'. split; [done|]. by replace (y * 80) with ((y - 1) * 80 + (0 + Z.of_nat 80)) by lia.
Qed.

Lemma scroll_run v color :
  length (cells v) = 2000%nat ->
  scroll color v = Done tt
    (Vga (vga_buffer v) (drop 80 (cells v) ++ replicate 80 (vga_entry 32 color)) (vga_cursor_x v) 24) [].
Proof.
  intros Hlen. unfold scroll.
  destruct (mfor_rule (R := unit) (fun y s => moved v ((y - 1) * 80) s)
    (fun y => mfor (R := unit) (Z.to_nat VGA_WIDTH) 0 (fun x =>
      c ← peek (y * VGA_WIDTH + x); poke ((y - 1) * VGA_WIDTH + x) c;; mret None)) 24 1 v)
    as (s1 & E1 & (K1 & K2 & K3 & K4) & Hc1).
  { split; [done|]. intros k Hk. by rewrite decide_False by lia. }
  { intros y s Hy Hm. destruct (scroll_row v y s Hlen ltac:(lia) Hm) as (s' & E & Hm').
    exists s'. split; [done|]. by replace (y + 1 - 1) with y by lia. }
  rewrite (bind_step _ _ _ _ _ E1).
  destruct (fill_run (fun x => (VGA_HEIGHT - 1) * VGA_WIDTH + x) 1920 80 (vga_entry 32 color) s1)
    as (s2 & E2 & (L1 & L2 & L3 & L4) & Hc2); [lia..|done|].
  rewrite (bind_step _ _ _ _ _ E2). unfold modify. do 2 f_equal.
  clear E1 E2. destruct s2 as [b l x y]. unfold set_y. change (wrap 8 (VGA_HEIGHT - 1)) with 24.
  cbn [vga_buffer cells vga_cursor_x vga_cursor_y] in *. f_equal; [congruence| |congruence].
  apply list_eq_same_length with 2000%nat; [rewrite length_app, length_drop, length_replicate; lia|lia|].
  intros k c1 c2 Hk. rewrite Hc2, Hc1 by done. intros H1 H2.
  destruct (decide (1920 <= Z.of_nat k < 1920 + Z.of_nat 80)).
  - rewrite lookup_app_r, lookup_replicate in H2 by (rewrite length_drop; lia).
    destruct H2 as [-> _]. congruence.
  - rewrite lookup_app_l, lookup_drop in H2 by (rewrite length_drop; lia).
    rewrite decide_True in H1 by lia. rewrite Nat.add_comm in H2. congruence.
Qed.

(** ** The operations *)

Lemma tab_stop x : Z.land (x + 8) (Z.lnot 7) = (x / 8 + 1) * 8.
Proof.
  rewrite <-Z.ldiff_land. change 7 with (Z.ones 3).
  rewrite Z.ldiff_ones_r, Z.shiftl_mul_pow2, Z.shiftr_div_pow2 by lia.
  change (2 ^ 3) with 8. divlia.
Qed.

Lemma put_cell_wf r c g t y x :
  term_wf t -> 0 <= x <= 248 -> 0 <= y < 25 -> term_wf (Term (put_cell r c g (rows t)) x y).
Proof.
  intros (Hn & Hr & _) Hx Hy. split_and!; simpl; try lia.
  - unfold put_cell. by rewrite length_alter.
  - by apply rows_alter_wf.
Qed.

Lemma line_feed_wf t : term_wf t -> term_wf (line_feed t).
Proof.
  intros (Hn & Hr & Hc & Hrow). unfold line_feed.
  destruct (Z.ltb_spec (row t + 1) 25); split_and!; simpl; try done; try lia.
  - destruct (rows t); [done|]. rewrite length_app. simpl in *. lia.
  - apply Forall_app. split; [|by repeat constructor].
    destruct (rows t); [done|]. by apply Forall_cons in Hr as [_ ?].
Qed.

Lemma put_run v t c :
  displays v t -> term_wf t ->
  exists v', (if vga_cursor_y v * VGA_WIDTH + vga_cursor_x v <? VGA_WIDTH * VGA_HEIGHT
      then poke (vga_cursor_y v * VGA_WIDTH + vga_cursor_x v) (glyph c) else mret tt) v = Done tt v' [] /\
    displays v' (Term (put_cell (row t + col t / 80) (col t mod 80) (glyph c) (rows t)) (col t) (row t)) /\
    vga_buffer v' = vga_buffer v.
Proof.
  intros (Hc & Hx & Hy) Hw. pose proof (term_cells t Hw) as Hlen. destruct Hw as (Hn & Hr & Hcol & Hrow).
  rewrite Hx, Hy. unfold VGA_WIDTH, VGA_HEIGHT. change (80 * 25) with 2000.
  destruct (Z.ltb_spec (row t * 80 + col t) 2000) as [Hi|Hi].
  - eexists. split; [apply poke_run; lia|]. split; [|done]. split_and!; [|done|done]. simpl.
    unfold put_cell. rewrite <-(concat_insert _ 80) by (done || divlia).
    rewrite Hc. f_equal. divlia.
  - exists v. split; [done|]. split; [|done]. split_and!; [|done|done]. simpl. rewrite Hc. unfold put_cell.
    f_equal. symmetry. apply alter_out. divlia.
Qed.

(** The end of [kprintc]: a cursor below the last row feeds the line. *)
Definition settle (color : Z) : M vga unit :=
  v ← get; if VGA_HEIGHT <=? vga_cursor_y v then scroll color else mret tt.

Lemma settle_here v t : displays v t -> term_wf t -> settle 7 v = Done tt v [].
Proof.
  intros (_ & _ & Hy) (_ & _ & _ & Hrow). unfold settle. erewrite bind_step by reflexivity.
  rewrite Hy. unfold VGA_HEIGHT. by rewrite (proj2 (Z.leb_gt _ _)) by lia.
Qed.

(** The cursor moved to column 0 of the next row, and settled. *)
Lemma settle_feed v t :
  displays v t -> term_wf t ->
  exists v', settle 7 (Vga (vga_buffer v) (cells v) 0 (row t + 1)) = Done tt v' [] /\
    displays v' (line_feed t) /\ vga_buffer v' = vga_buffer v.
Proof.
  intros (Hc & Hx & Hy) Hw. pose proof (term_cells t Hw) as Hlen.
  unfold settle, line_feed. erewrite bind_step by reflexivity.
  cbn [vga_cursor_y]. unfold VGA_HEIGHT.
  destruct (Z.ltb_spec (row t + 1) 25), (Z.leb_spec 25 (row t + 1)); try lia.
  - eexists. split; [reflexivity|]. done.
  - eexists. split; [apply scroll_run; cbn [cells]; congruence|]. split; [|done].
    destruct Hw as (Hn & Hr & _). split_and!; [|done|done]. cbn [cells rows].
    rewrite concat_app, (concat_tail _ 80), Hc by (done || by intros E; rewrite E in Hn).
    done.
Qed.

Lemma set_x_small x v : 0 <= x < 256 -> set_x x v = Vga (vga_buffer v) (cells v) x (vga_cursor_y v).
Proof. intros Hx. unfold set_x. by rewrite wrap_small. Qed.
Lemma set_y_small y v : 0 <= y < 256 -> set_y y v = Vga (vga_buffer v) (cells v) (vga_cursor_x v) y.
Proof. intros Hy. unfold set_y. by rewrite wrap_small. Qed.

Lemma kprintc_run c v t :
  displays v t -> term_wf t ->
  exists v', kprintc c v = Done tt v' [] /\ displays v' (term_putc c t) /\
    term_wf (term_putc c t) /\ vga_buffer v' = vga_buffer v.
Proof.
  intros Hd Hw. pose proof Hd as (Hc & Hx & Hy). pose proof Hw as (Hn & Hr & Hcol & Hrow).
  unfold kprintc, term_putc. erewrite bind_step by reflexivity.
  change (VGA_COLOR VGA_COLOR_LIGHT_GREY VGA_COLOR_BLACK) with 7. fold (settle 7).
  destruct (c =? 10); [|destruct (c =? 13); [|destruct (c =? 9)]].
  - erewrite bind_step by reflexivity. rewrite Hy, set_y_small, set_x_small by lia.
    destruct (settle_feed v t Hd Hw) as (v' & E & Hd' & Hb). exists v'.
    split_and!; [exact E|exact Hd'|by apply line_feed_wf|exact Hb].
  - erewrite bind_step by reflexivity. rewrite set_x_small by lia.
    assert (term_wf (Term (rows t) 0 (row t))) as Hw' by (split_and!; simpl; done || lia).
    eexists. split; [apply (settle_here _ (Term (rows t) 0 (row t))); [|done]|]; done.
  - erewrite bind_step by reflexivity. unfold set_x. rewrite Hx, tab_stop.
    assert (term_wf (Term (rows t) ((col t / 8 + 1) * 8 mod 256) (row t))) as Hw'.
    { split_and!; simpl; try done; try lia; divlia. }
    eexists. split; [apply (settle_here _ (Term (rows t) ((col t / 8 + 1) * 8 mod 256) (row t))); [|done]|]; done.
  - destruct (put_run v t c Hd Hw) as (v1 & E1 & Hd1 & Hb1). pose proof Hd1 as (Hc1 & Hx1 & Hy1).
    set (rs := put_cell _ _ _ _) in *. cbn [rows col row] in Hc1, Hx1, Hy1.
    assert (forall x, 0 <= x <= 248 -> term_wf (Term rs x (row t))) as Hwx by (intros x Hx0; by apply put_cell_wf).
    destruct (Z.ltb_spec (col t + 1) 80) as [Hlt|Hge].
    + exists (Vga (vga_buffer v1) (cells v1) (col t + 1) (row t)).
      split_and!; [|done|apply Hwx; lia|done].
      erewrite bind_step.
      { apply (settle_here _ (Term rs (col t + 1) (row t))); [done|apply Hwx; lia]. }
      rewrite (bind_step _ _ _ _ _ E1). erewrite bind_step by reflexivity.
      erewrite bind_step by reflexivity. rewrite Hx, set_x_small, Hy1 by lia. cbn [vga_cursor_x].
      unfold VGA_WIDTH. by rewrite (proj2 (Z.leb_gt _ _)) by lia.
    + destruct (settle_feed v1 (Term rs (col t) (row t)) Hd1 (Hwx _ Hcol)) as (v' & E & Hd' & Hb).
      exists v'. split_and!; [|exact Hd'|apply line_feed_wf, Hwx, Hcol|congruence].
      erewrite bind_step; [exact E|].
      rewrite (bind_step _ _ _ _ _ E1). erewrite bind_step by reflexivity.
      erewrite bind_step by reflexivity. rewrite Hx. unfold set_x at 1 2. cbn [vga_cursor_x vga_cursor_y].
      unfold VGA_WIDTH. rewrite wrap_small by (unfold fits; lia).
      rewrite (proj2 (Z.leb_le _ _)) by lia. erewrite bind_step by reflexivity.
      rewrite Hy1. unfold modify. by rewrite set_y_small by lia.
Qed.

Lemma kprint_run s v t :
  displays v t -> term_wf t ->
  exists v', kprint s v = Done tt v' [] /\ displays v' (term_print s t) /\
    term_wf (term_print s t) /\ vga_buffer v' = vga_buffer v.
Proof.
  revert v t. induction s as [|c s IH]; intros v t Hd Hw; [by exists v|].
  unfold term_print. simpl. destruct (c =? 0); [by exists v|]. simpl.
  destruct (kprintc_run c v t Hd Hw) as (v1 & E1 & Hd1 & Hw1 & Hb1).
  destruct (IH v1 _ Hd1 Hw1) as (v2 & E2 & Hd2 & Hw2 & Hb2).
  exists v2. rewrite (bind_step _ _ _ _ _ E1). split_and!; [done..|congruence].
Qed.

Definition term_puts (l : list Z) (t : term) : term := foldl (fun t c => term_putc c t) t l.

Lemma kprint_for n i (f : Z -> Z) v t :
  displays v t -> term_wf t ->
  exists v', mfor (R := unit) n i (fun k => kprintc (f k);; mret None) v = Done None v' [] /\
    displays v' (term_puts (values f i n) t) /\ term_wf (term_puts (values f i n) t) /\
    vga_buffer v' = vga_buffer v.
Proof.
  revert i v t. induction n as [|n IH]; intros i v t Hd Hw; [by exists v|].
  destruct (kprintc_run (f i) v t Hd Hw) as (v1 & E1 & Hd1 & Hw1 & Hb1).
  destruct (IH (i + 1) v1 _ Hd1 Hw1) as (v2 & E2 & Hd2 & Hw2 & Hb2).
  exists v2. simpl mfor. rewrite (bind_step _ _ _ None v1) by by rewrite (bind_step _ _ _ _ _ E1).
  rewrite values_S. split_and!; [done..|congruence].
Qed.

Lemma kprint_hex_run val v t :
  displays v t -> term_wf t ->
  let l := chars "0x" ++ hex_text "0123456789ABCDEF" val in
  exists v', kprint_hex val v = Done tt v' [] /\ displays v' (term_puts l t) /\
    term_wf (term_puts l t) /\ vga_buffer v' = vga_buffer v.
Proof.
  intros Hd Hw l. destruct (kprint_run (chars "0x") v t Hd Hw) as (v1 & E1 & Hd1 & Hw1 & Hb1).
  destruct (kprint_for 16 0 (fun k => hex_digit "0123456789ABCDEF" val ((15 - k) * 4)) v1 _ Hd1 Hw1)
    as (v2 & E2 & Hd2 & Hw2 & Hb2).
  exists v2. unfold kprint_hex. rewrite (bind_step _ _ _ _ _ E1), (bind_step _ _ _ _ _ E2).
  assert (l = chars "0x" ++ values (fun k => hex_digit "0123456789ABCDEF" val ((15 - k) * 4)) 0 16) as ->.
  { unfold l, hex_text. by f_equal. }
  unfold term_puts at 1 2. rewrite foldl_app. split_and!; [done..|congruence].
Qed.

(** ** Clearing and erasing *)

Definition term_clear : term := Term (replicate 25 blank_row) 0 0.

Lemma term_clear_wf : term_wf term_clear.
Proof. split_and!; try done. by apply Forall_replicate. Qed.

Lemma khello_init_run v :
  length (cells v) = 2000%nat ->
  exists v', khello_init v = Done tt v' [] /\ displays v' term_clear /\ vga_buffer v' = vga_buffer v.
Proof.
  intros Hlen. unfold khello_init.
  destruct (fill_run (fun x => x) 0 2000 blank v) as (s & E & (K1 & K2 & K3 & K4) & Hc); [lia..|].
  change (vga_entry 32 (VGA_COLOR VGA_COLOR_LIGHT_GREY VGA_COLOR_BLACK)) with blank.
  rewrite (bind_step _ _ _ _ _ E). eexists. split; [reflexivity|]. split; [|done].
  split_and!; [|done|done]. cbn [cells set_x set_y].
  transitivity (replicate 2000 blank); [|reflexivity].
  apply list_eq_same_length with 2000%nat; [by rewrite length_replicate|lia|].
  intros k c1 c2 Hk. rewrite Hc, decide_True by lia. intros [= <-].
  by intros [-> _]%lookup_replicate.
Qed.

(** [vga_backspace] on the terminal. *)
Definition back (t : term) : term :=
  if col t =? 0 then Term (rows t) 79 (row t - 1) else Term (rows t) (col t - 1) (row t).
Definition term_backspace (t : term) : term :=
  if (col t =? 0) && (row t =? 0) then t else back (term_putc 32 (back t)).

Lemma back_wf t : term_wf t -> (col t = 0 -> 0 < row t) -> term_wf (back t).
Proof.
  intros (Hn & Hr & Hc & Hrow) H0. unfold back.
  destruct (Z.eqb_spec (col t) 0) as [E|E]; split_and!; simpl; try done; lia.
Qed.

Lemma step_back_run v t :
  displays v t -> term_wf t -> (col t = 0 -> 0 < row t) ->
  exists v', step_back v = Done tt v' [] /\ displays v' (back t) /\ vga_buffer v' = vga_buffer v.
Proof.
  intros (Hc & Hx & Hy) (Hn & Hr & Hcol & Hrow) H0. unfold step_back, back.
  erewrite bind_step by reflexivity. rewrite Hx, Hy.
  destruct (Z.eqb_spec (col t) 0) as [E|E].
  - specialize (H0 E). erewrite bind_step by reflexivity. rewrite set_y_small by lia.
    unfold modify. rewrite set_x_small by (unfold VGA_WIDTH; lia). eexists. split; [reflexivity|]. done.
  - unfold modify. rewrite set_x_small by lia. eexists. split; [reflexivity|]. done.
Qed.

(** After a printed space the cursor is not at the top left corner. *)
Lemma space_not_origin t : term_wf t -> col (term_putc 32 t) = 0 -> 0 < row (term_putc 32 t).
Proof.
  intros (_ & _ & Hc & Hr). unfold term_putc. simpl. unfold line_feed.
  destruct (Z.ltb_spec (col t + 1) 80); simpl; [lia|].
  destruct (Z.ltb_spec (row t + 1) 25); simpl; lia.
Qed.

Lemma vga_backspace_run v t :
  displays v t -> term_wf t ->
  exists v', vga_backspace v = Done tt v' [] /\ displays v' (term_backspace t) /\
    term_wf (term_backspace t) /\ vga_buffer v' = vga_buffer v.
Proof.
  intros Hd Hw. pose proof Hd as (_ & Hx & Hy). unfold vga_backspace, term_backspace.
  erewrite bind_step by reflexivity. rewrite Hx, Hy.
  destruct (Z.eqb_spec (col t) 0) as [E|E], (Z.eqb_spec (row t) 0) as [E'|E'];
    cbn [andb]; [by exists v|..].
  all: destruct (step_back_run v t Hd Hw) as (v1 & E1 & Hd1 & Hb1);
    [pose proof Hw as (_ & _ & _ & ?); lia|];
    pose proof (back_wf t Hw ltac:(pose proof Hw as (_ & _ & _ & ?); lia)) as Hw1;
    destruct (kprintc_run 32 v1 _ Hd1 Hw1) as (v2 & E2 & Hd2 & Hw2 & Hb2);
    pose proof (space_not_origin _ Hw1) as Hso;
    destruct (step_back_run v2 _ Hd2 Hw2 Hso) as (v3 & E3 & Hd3 & Hb3);
    exists v3; rewrite (bind_step _ _ _ _ _ E1), (bind_step _ _ _ _ _ E2);
    split_and!; [done|done|by apply back_wf|congruence].
Qed.

(** ** Properties *)

(** The driver's interface. *)
Inductive console_op :=
  | Clear
  | PrintC (c : Z)
  | Print (s : list Z)
  | PrintHex (v : Z)
  | Erase.

Definition run_console_op (o : console_op) : M vga unit :=
  match o with
  | Clear => khello_init
  | PrintC c => kprintc c
  | Print s => kprint s
  | PrintHex v => kprint_hex v
  | Erase => vga_backspace
  end.

Definition spec_console_op (o : console_op) (t : term) : term :=
  match o with
  | Clear => term_clear
  | PrintC c => term_putc c t
  | Print s => term_print s t
  | PrintHex v => term_puts (chars "0x" ++ hex_text "0123456789ABCDEF" v) t
  | Erase => term_backspace t
  end.

Lemma console_op_run o v t :
  displays v t -> term_wf t ->
  exists v', run_console_op o v = Done tt v' [] /\ displays v' (spec_console_op o t) /\
    term_wf (spec_console_op o t) /\ vga_buffer v' = vga_buffer v.
Proof.
  intros Hd Hw. destruct o; simpl.
  - pose proof Hd as (Hc & _). destruct (khello_init_run v) as (v' & E & Hd' & Hb).
    { by rewrite Hc, term_cells. }
    exists v'. split_and!; [done..|apply term_clear_wf|done].
  - by apply kprintc_run.
  - by apply kprint_run.
  - by apply kprint_hex_run.
  - by apply vga_backspace_run.
Qed.

Fixpoint run_console (l : list console_op) : M vga unit :=
  match l with [] => mret tt | o :: l' => run_console_op o;; run_console l' end.

(** C24: no sequence of console operations, whatever the characters (tabs at
    the right margin included), touches memory outside the text buffer; the
    cursor stays in a row of the screen and the screen shows the terminal of
    the specification. *)
Theorem console_in_bounds ops v t :
  displays v t -> term_wf t ->
  exists v', run_console ops v = Done tt v' [] /\
    displays v' (foldl (fun t o => spec_console_op o t) t ops) /\
    length (cells v') = 2000%nat /\ 0 <= vga_cursor_y v' < VGA_HEIGHT /\ 0 <= vga_cursor_x v' < 256.
Proof.
  revert v t. induction ops as [|o ops IH]; intros v t Hd Hw.
  - pose proof Hd as (Hc & Hx & Hy). exists v. split_and!; [done..|by rewrite Hc, term_cells| | | |];
      destruct Hw as (_ & _ & ? & ?); rewrite ?Hx, ?Hy; unfold VGA_HEIGHT; lia.
  - destruct (console_op_run o v t Hd Hw) as (v1 & E1 & Hd1 & Hw1 & _).
    destruct (IH v1 _ Hd1 Hw1) as (v2 & E2 & Hrest).
    exists v2. simpl. by rewrite (bind_step _ _ _ _ _ E1).
Qed.

Lemma reset_displays : displays (vga_reset (replicate 2000 0)) (Term (replicate 25 (replicate 80 0)) 0 0).
Proof. split_and!; reflexivity. Qed.
Lemma reset_wf : term_wf (Term (replicate 25 (replicate 80 0)) 0 0).
Proof. split_and!; try done. by apply Forall_replicate. Qed.

Lemma console_in_bounds_witness :
  exists v', run_console [Clear; PrintC 9; Erase; Print (chars "Prism> ")] (vga_reset (replicate 2000 0)) =
      Done tt v' [] /\ length (cells v') = 2000%nat.
Proof.
  destruct (console_in_bounds [Clear; PrintC 9; Erase; Print (chars "Prism> ")] _ _
    reset_displays reset_wf) as (v' & E & _ & Hl & _).
  exists v'. exact (conj E Hl).
Defined.

Lemma put_cell_twice r c g1 g2 rs : put_cell r c g2 (put_cell r c g1 rs) = put_cell r c g2 rs.
Proof.
  unfold put_cell. rewrite list_alter_alter_eq. apply list_alter_ext; [|done].
  intros l _. apply list_insert_insert_eq.
Qed.

Lemma put_cell_tail c g rs (r : list Z) :
  length rs = 25%nat -> put_cell 23 c g (tail rs ++ [r]) = tail (put_cell 24 c g rs) ++ [r].
Proof.
  intros Hn. destruct rs as [|x rs]; [done|]. unfold put_cell. simpl in *.
  rewrite alter_app_l by lia. done.
Qed.

Lemma term_putc_plain c rs x y :
  32 <= c -> 0 <= x < 80 ->
  term_putc c (Term rs x y) =
    let t := Term (put_cell y x (glyph c) rs) x y in
    if x + 1 <? 80 then Term (rows t) (x + 1) y else line_feed t.
Proof.
  intros Hc Hx. unfold term_putc. cbn [rows col row].
  rewrite !(proj2 (Z.eqb_neq _ _)), Z.div_small, Z.mod_small, Z.add_0_r by lia. done.
Qed.

Lemma erase_typed c t :
  term_wf t -> col t < 80 -> 32 <= c ->
  term_backspace (term_putc c t) =
    let erased := put_cell (row t) (col t) blank (rows t) in
    if (col t =? 79) && (row t =? 24) then Term (tail erased ++ [blank_row]) 79 23
    else Term erased (col t) (row t).
Proof.
  destruct t as [rs x y]. intros (Hn & Hr & Hcb & Hrow) Hcol Hc. cbn [rows col row] in *.
  rewrite term_putc_plain by lia. unfold term_backspace, back, line_feed. change (glyph 32) with blank.
  destruct (Z.ltb_spec (x + 1) 80) as [Hx|Hx]; cbn [rows col row].
  - rewrite !(proj2 (Z.eqb_neq (x + 1) 0)) by lia. cbn [andb]. replace (x + 1 - 1) with x by lia.
    rewrite term_putc_plain by lia. rewrite (proj2 (Z.ltb_lt (x + 1) 80)) by lia. cbn [rows col row].
    rewrite (proj2 (Z.eqb_neq (x + 1) 0)), (proj2 (Z.eqb_neq x 79)), put_cell_twice by lia.
    cbn [andb]. f_equal. lia.
  - assert (x = 79) as -> by lia. destruct (Z.ltb_spec (y + 1) 25) as [Hy|Hy]; cbn [rows col row].
    + rewrite (proj2 (Z.eqb_neq (y + 1) 0)), (proj2 (Z.eqb_neq y 24)) by lia. simpl Z.eqb. cbn [andb].
      replace (y + 1 - 1) with y by lia. rewrite term_putc_plain by lia. unfold line_feed. simpl Z.ltb.
      cbn [rows col row]. rewrite (proj2 (Z.ltb_lt (y + 1) 25)) by lia. cbn [col rows row].
      change (79 + 1 <? 80) with false. cbv iota. cbn [col rows row]. change (0 =? 0) with true. cbv iota.
      change (glyph 32) with blank. rewrite put_cell_twice. f_equal. lia.
    + assert (y = 24) as -> by lia. simpl Z.eqb. cbn [andb].
      change (24 - 1) with 23. rewrite term_putc_plain by lia. unfold line_feed. simpl Z.ltb.
      cbn [rows col row]. simpl. f_equal. change (glyph 32) with blank.
      rewrite put_cell_tail by (unfold put_cell; by rewrite length_alter).
      by rewrite put_cell_twice.
Qed.

(** Backspace takes a typed character back: printing a printable character
    and erasing it leaves the cursor where it was, a blank in that cell and
    every other cell as it was; in the last cell of the screen the rows have
    moved up by one. *)
Theorem backspace_erases c v t :
  displays v t -> term_wf t -> col t < 80 -> 32 <= c ->
  exists v', (kprintc c;; vga_backspace) v = Done tt v' [] /\
    let erased := put_cell (row t) (col t) blank (rows t) in
    displays v' (if (col t =? 79) && (row t =? 24) then Term (tail erased ++ [blank_row]) 79 23
                 else Term erased (col t) (row t)).
Proof.
  intros Hd Hw Hcol Hc32.
  destruct (kprintc_run c v t Hd Hw) as (v1 & E1 & Hd1 & Hw1 & _).
  destruct (vga_backspace_run v1 _ Hd1 Hw1) as (v2 & E2 & Hd2 & _).
  exists v2. rewrite (bind_step _ _ _ _ _ E1). split; [done|]. simpl.
  match goal with |- displays _ ?x => replace x with (term_backspace (term_putc c t)); [done|] end.
  clear -Hw Hcol Hc32. by apply erase_typed.
Qed.

Lemma backspace_erases_witness :
  exists v', (kprintc 65;; vga_backspace) (vga_reset (replicate 2000 0)) = Done tt v' [] /\
    vga_cursor_x v' = 0 /\ nth 0 (cells v') 0 = blank.
Proof.
  destruct (backspace_erases 65 _ _ reset_displays reset_wf ltac:(reflexivity) ltac:(discriminate))
    as (v' & E & (Hc & Hx & _)).
  exists v'. split; [exact E|]. split; [exact Hx|]. rewrite Hc. vm_compute. reflexivity.
Defined.
