(* ===== verification/Log.v ===== *)
(** * Logging and the console (src/kernel/log.c, log.h)

    [klog] and its relatives write to the serial port, the panics also to the
    screen.  [perform] interprets the calls a routine of the monad [M] makes
    (see [Effects.v]) by the drivers, and [console_delivers] states what comes
    out on the two devices. *)
From S2P Require Import Prelude Effects PagingInterface Ports Serial Vga Terminal.

Definition level_names : list string := ["DEBUG"; "INFO"; "WARN"; "ERROR"; "PANIC"]%string.

Definition min_level : Z := LOG_DEBUG.

(** ** Panics

    These are written with the calls of the drivers; after [cli] and the
    report the CPU halts for good. *)
Definition panic_bar : string := "!!!!!!!!!!!!!!!!!!!!!!!!!!!!!!!!!!!!!!" +:+ NL.

Definition kpanic {S A} (msg : string) : M S A :=
  say (SerialPuts (NL +:+ NL));;
  say (SerialPuts panic_bar);;
  say (SerialPuts ("!!!           KERNEL PANIC          !!!" +:+ NL));;
  say (SerialPuts panic_bar);;
  say (SerialPuts "  ");;
  say (SerialPuts msg);;
  say (SerialPuts NL);;
  say (SerialPuts panic_bar);;
  say (KPrint (NL +:+ NL));;
  say (KPrint panic_bar);;
  say (KPrint ("!!!        KERNEL PANIC             !!!" +:+ NL));;
  say (KPrint panic_bar);;
  say (KPrint "  ");;
  say (KPrint msg);;
  say (KPrint NL);;
  say (KPrint panic_bar);;
  stop Halted.

(** The local buffer of [kpanic_hex]: sixteen digits as a string. *)
Definition hex_buf (val : Z) : string :=
  String.string_of_list_ascii
    (map (fun c => Ascii.ascii_of_N (Z.to_N c)) (hex_text "0123456789ABCDEF" val)).

Definition kpanic_hex {S A} (msg : string) (val : Z) : M S A :=
  say (SerialPuts (NL +:+ NL));;
  say (SerialPuts panic_bar);;
  say (SerialPuts ("!!!           KERNEL PANIC          !!!" +:+ NL));;
  say (SerialPuts panic_bar);;
  say (SerialPuts "  ");;
  say (SerialPuts msg);;
  say (SerialPuts " 0x");;
  say (SerialPuts (hex_buf val));;
  say (SerialPuts NL);;
  say (SerialPuts panic_bar);;
  say (KPrint (NL +:+ NL));;
  say (KPrint panic_bar);;
  say (KPrint ("!!!        KERNEL PANIC             !!!" +:+ NL));;
  say (KPrint panic_bar);;
  say (KPrint "  ");;
  say (KPrint msg);;
  say (KPrint " 0x");;
  say (KPrintHex val);;
  say (KPrint NL);;
  say (KPrint panic_bar);;
  stop Halted.

Definition kinit_log {S} : M S unit := say (KLog LOG_INFO ("Log system initialized" +:+ NL)).

(** ** The console: both devices *)
Record console := Console { con_io : trace; con_vga : vga }.

Definition set_io (c : console) (t : trace) : console := Console t (con_vga c).
Definition set_vga (c : console) (v : vga) : console := Console (con_io c) v.

Section log.
Context (hw : devices).
Local Abbreviation K := (M console).

Definition on_serial {A} (m : M trace A) : K A := zoom con_io (fun t c => set_io c t) m.
Definition on_screen {A} (m : M vga A) : K A := zoom con_vga (fun v c => set_vga c v) m.

Definition puts (s : string) : K unit := on_serial (serial_puts hw (chars s)).

(** [serial_puts(level_names[level])] *)
Definition put_level (level : Z) : K unit :=
  match level_names !! Z.to_nat level with
  | Some s => puts s
  | None => stop (OutOfBounds level)
  end.

Definition klog (level : Z) (msg : string) : K unit :=
  if level <? min_level then mret tt
  else
    puts "[";;
    put_level level;;
    puts "] ";;
    puts msg.

Definition klog_hex (level : Z) (msg : string) (val : Z) : K unit :=
  if level <? min_level then mret tt
  else
    puts "[";;
    put_level level;;
    puts "] ";;
    puts msg;;
    on_serial (serial_puthex64 hw val);;
    puts NL.

Definition perform (c : call) : K unit :=
  match c with
  | KPrint s => on_screen (kprint (chars s))
  | KPrintHex v => on_screen (kprint_hex v)
  | SerialPuts s => puts s
  | SerialPutc c => on_serial (serial_putc hw c)
  | SerialPutHex64 v => on_serial (serial_puthex64 hw v)
  | KLog level s => klog level s
  | KLogHex level s v => klog_hex level s v
  end.

Fixpoint perform_all (l : list call) : K unit :=
  match l with
  | [] => mret tt
  | c :: l' => perform c;; perform_all l'
  end.

(** ** What comes out *)

(** The bytes on the serial line for a string and for a call. *)
Definition line (s : string) : list Z := crlf (cstr (chars s)).
Definition hex16 (v : Z) : list Z := chars "0x" ++ hex_text "0123456789abcdef" v.
Definition prefix (level : Z) : list Z :=
  line "[" ++ line (nth (Z.to_nat level) level_names EmptyString) ++ line "] ".

Definition wire (c : call) : list Z :=
  match c with
  | KPrint _ | KPrintHex _ => []
  | SerialPuts s => line s
  | SerialPutc c => [wrap 8 c]
  | SerialPutHex64 v => hex16 v
  | KLog level s => prefix level ++ line s
  | KLogHex level s v => prefix level ++ line s ++ hex16 v ++ line NL
  end.

(** The terminal after a call. *)
Definition screen (t : term) (c : call) : term :=
  match c with
  | KPrint s => term_print (chars s) t
  | KPrintHex v => term_puts (chars "0x" ++ hex_text "0123456789ABCDEF" v) t
  | _ => t
  end.

(** The levels that have a name. *)
Definition level_ok (c : call) : Prop :=
  match c with
  | KLog level _ | KLogHex level _ _ => 0 <= level <= LOG_PANIC
  | _ => True
  end.

(** [outputs bytes f m]: [m] returns, sends [bytes] and changes the terminal
    by [f]. *)
Definition outputs {A} (bytes : list Z) (f : term -> term) (m : K A) : Prop :=
  forall c t, displays (con_vga c) t -> term_wf t ->
    exists a c' new, m c = Done a c' [] /\ con_io c' = con_io c ++ new /\
      (forall u, dlab u = false -> uart_after u new = Uart false (divisor u) (sent u ++ bytes)) /\
      displays (con_vga c') (f t) /\ term_wf (f t) /\ vga_buffer (con_vga c') = vga_buffer (con_vga c).

Lemma outputs_ret {A} (a : A) : outputs [] (fun t => t) (mret a : K A).
Proof.
  intros c t Hd Hw. exists a, c, []. rewrite app_nil_r. split_and!; try done.
  intros [[] d s] Hu; simpl in *; [done|]. by rewrite app_nil_r.
Qed.

Lemma outputs_bind {A B} l1 f1 l2 f2 (m : K A) (g : A -> K B) :
  outputs l1 f1 m -> (forall a, outputs l2 f2 (g a)) ->
  outputs (l1 ++ l2) (fun t => f2 (f1 t)) (m ≫= g).
Proof.
  intros Hm Hg c t Hd Hw.
  destruct (Hm c t Hd Hw) as (a & c1 & n1 & E1 & I1 & U1 & D1 & W1 & B1).
  destruct (Hg a c1 _ D1 W1) as (b & c2 & n2 & E2 & I2 & U2 & D2 & W2 & B2).
  exists b, c2, (n1 ++ n2). rewrite (bind_step _ _ _ _ _ E1).
  split_and!; [done|by rewrite I2, I1, app_assoc| |done|done|congruence].
  intros u Hu. rewrite uart_after_app, U1, U2 by done. by rewrite app_assoc.
Qed.

Lemma outputs_serial {A} l (m : M trace A) : sends l m -> outputs l (fun t => t) (on_serial m).
Proof.
  intros Hm c t Hd Hw. destruct (Hm (con_io c)) as (a & new & E & U).
  exists a, (set_io c (con_io c ++ new)), new. unfold on_serial, zoom. rewrite E. by split_and!.
Qed.

Lemma outputs_screen (f : term -> term) (m : M vga unit) :
  (forall v t, displays v t -> term_wf t -> exists v', m v = Done tt v' [] /\ displays v' (f t) /\
     term_wf (f t) /\ vga_buffer v' = vga_buffer v) ->
  outputs [] f (on_screen m).
Proof.
  intros Hm c t Hd Hw. destruct (Hm _ _ Hd Hw) as (v' & E & Hd' & Hw' & Hb).
  exists tt, (set_vga c v'), []. unfold on_screen, zoom. rewrite E, app_nil_r. split_and!; try done.
  intros [[] d s] Hu; simpl in *; [done|]. by rewrite app_nil_r.
Qed.

Context (Hdrain : drains hw).

Lemma outputs_puts s : outputs (line s) (fun t => t) (puts s).
Proof. by apply outputs_serial, serial_puts_sends. Qed.

Lemma outputs_prefix level l f (m : K unit) :
  0 <= level <= LOG_PANIC -> outputs l f m ->
  outputs (prefix level ++ l) f (puts "[";; put_level level;; puts "] ";; m).
Proof.
  intros Hl Hm. unfold prefix. rewrite <-!app_assoc.
  apply (outputs_bind _ (fun t => t) _ f); [apply outputs_puts|intros _].
  apply (outputs_bind _ (fun t => t) _ f).
  - unfold put_level, LOG_PANIC in *. destruct (level_names !! Z.to_nat level) as [s|] eqn:E.
    + rewrite (nth_lookup_Some _ _ _ _ E). apply outputs_puts.
    + apply lookup_ge_None in E. simpl in E. lia.
  - intros _. apply (outputs_bind _ (fun t => t) _ f); [apply outputs_puts|by intros _].
Qed.

Lemma perform_outputs c : level_ok c -> outputs (wire c) (fun t => screen t c) (perform c).
Proof.
  destruct c as [s|v|s|c|v|level s|level s v]; cbn [wire screen perform level_ok]; intros Hl.
  - apply outputs_screen. apply kprint_run.
  - apply outputs_screen. apply kprint_hex_run.
  - apply outputs_puts.
  - by apply outputs_serial, serial_putc_sends.
  - by apply outputs_serial, serial_puthex64_sends.
  - unfold klog. rewrite (proj2 (Z.ltb_ge _ _)) by (unfold min_level, LOG_DEBUG; lia).
    apply outputs_prefix; [done|apply outputs_puts].
  - unfold klog_hex. rewrite (proj2 (Z.ltb_ge _ _)) by (unfold min_level, LOG_DEBUG; lia).
    apply outputs_prefix; [done|].
    apply (outputs_bind (line s) (fun t => t) (hex16 v ++ line NL) (fun t => t)); [apply outputs_puts|intros _].
    apply (outputs_bind (hex16 v) (fun t => t) (line NL) (fun t => t)); [|intros _; apply outputs_puts].
    by apply outputs_serial, serial_puthex64_sends.
Qed.

Lemma perform_all_outputs l :
  Forall level_ok l -> outputs (flat_map wire l) (fun t => foldl screen t l) (perform_all l).
Proof.
  induction 1 as [|c l Hc _ IH]; [apply outputs_ret|]. simpl.
  apply (outputs_bind _ (fun t => screen t c) _ (fun t => foldl screen t l)); [by apply perform_outputs|].
  by intros _.
Qed.
End log.

(** C23: the calls the kernel makes reach the devices.  With a UART that
    drains, every sequence of console calls returns (no endless wait, no access
    outside the text buffer or the table of level names), the serial line
    carries the rendering of the serial calls, byte for byte and in order, and
    the screen shows the terminal after the screen calls; the hexadecimal
    digits sent for a 64-bit value read back as that value. *)
Theorem console_delivers hw calls c t :
  drains hw -> Forall level_ok calls -> displays (con_vga c) t -> term_wf t ->
  exists c' new, perform_all hw calls c = Done tt c' [] /\ con_io c' = con_io c ++ new /\
    (forall u, dlab u = false ->
       uart_after u new = Uart false (divisor u) (sent u ++ flat_map wire calls)) /\
    displays (con_vga c') (foldl screen t calls) /\
    (forall v, fits 64 v -> wire (SerialPutHex64 v) = chars "0x" ++ hex_text "0123456789abcdef" v /\
       read_hex "0123456789abcdef" (hex_text "0123456789abcdef" v) = v).
Proof.
  intros Hd Hl Hv Hw. destruct (perform_all_outputs hw Hd calls Hl c t Hv Hw)
    as ([] & c' & new & E & Hio & Hu & Hd' & _).
  exists c', new. split_and!; try done.
  intros v Hv64. split; [done|]. apply read_hex_text; [apply lower_hex_ok|done].
Qed.

(** A UART whose transmitter is always empty. *)
Definition idle_uart : devices := fun _ port => if port =? 0x3FD then 0x60 else 0.

Lemma idle_uart_drains : drains idle_uart.
Proof. intros t. exists 0%nat. by split. Qed.

(** The report of a panic, on a console that was just set up. *)
Lemma console_delivers_witness :
  exists c' new, perform_all idle_uart (calls_of (kpanic (A := unit) "out of memory" tt))
      (Console [] (vga_reset (replicate 2000 0))) = Done tt c' [] /\
    sent (uart_after (Uart false 3 []) new) =
      flat_map wire (calls_of (kpanic (A := unit) "out of memory" tt)).
Proof.
  destruct (console_delivers idle_uart (calls_of (kpanic (A := unit) "out of memory" tt))
    (Console [] (vga_reset (replicate 2000 0))) (Term (replicate 25 (replicate 80 0)) 0 0))
    as (c' & new & E & _ & Hu & _).
  - exact idle_uart_drains.
  - vm_compute. repeat constructor.
  - exact reset_displays.
  - exact reset_wf.
  - exists c', new. split; [exact E|]. rewrite (Hu (Uart false 3 []) eq_refl). reflexivity.
Defined.
