(* ===== verification/Keyboard.v ===== *)
(** * The keyboard (src/drivers/keyboard.c, keyboard.h)

    The interrupt handler decodes scan codes and fills a ring buffer that the
    main loop empties.  The second part lets interrupts arrive between the
    memory accesses of [keyboard_getchar] and proves that producer and consumer
    together still behave as a bounded first-in first-out queue. *)
From S2P Require Import Prelude Effects Ports Serial.

Definition KBD_DATA_PORT : Z := 0x60.
Definition KBD_BUFFER_SIZE : Z := 256.

Record kbd := Kbd {
  kbd_buffer : list Z;
  kbd_head : Z;
  kbd_tail : Z;
  kbd_lshift : bool;
  kbd_rshift : bool;
  kbd_ctrl : bool;
  kbd_alt : bool;
}.

(** The static initialisers. *)
Definition kbd_init : kbd := Kbd (replicate 256 0) 0 0 false false false false.

Definition set_modifiers (l r c a : bool) (k : kbd) : kbd :=
  Kbd (kbd_buffer k) (kbd_head k) (kbd_tail k) l r c a.
Definition set_lshift (b : bool) (k : kbd) : kbd :=
  set_modifiers b (kbd_rshift k) (kbd_ctrl k) (kbd_alt k) k.
Definition set_rshift (b : bool) (k : kbd) : kbd :=
  set_modifiers (kbd_lshift k) b (kbd_ctrl k) (kbd_alt k) k.
Definition set_ctrl (b : bool) (k : kbd) : kbd :=
  set_modifiers (kbd_lshift k) (kbd_rshift k) b (kbd_alt k) k.
Definition set_alt (b : bool) (k : kbd) : kbd :=
  set_modifiers (kbd_lshift k) (kbd_rshift k) (kbd_ctrl k) b k.

(** The tables, in the order of the scan codes; the entries from 0x3A on are
    0, as are those of the keys without a character.  34 is the double
    quote. *)
Definition scancode_ascii : list Z :=
  [0; 0] ++ chars "1234567890-=" ++ [0; 0] ++
  chars "qwertyuiop[]" ++ [0; 0] ++
  chars "asdfghjkl;'`" ++ [0] ++
  chars "\zxcvbnm,./" ++ [0] ++ chars "*" ++ [0] ++ chars " " ++ replicate 70 0.

Definition scancode_shift : list Z :=
  [0; 0] ++ chars "!@#$%^&*()_+" ++ [0; 0] ++
  chars "QWERTYUIOP{}" ++ [0; 0] ++
  chars "ASDFGHJKL:" ++ [34] ++ chars "~" ++ [0] ++
  chars "|ZXCVBNM<>?" ++ [0] ++ chars "*" ++ [0] ++ chars " " ++ replicate 70 0.

Definition kbd_buffer_push (c : Z) (k : kbd) : kbd :=
  let next := wrap 8 (Z.rem (kbd_head k + 1) KBD_BUFFER_SIZE) in
  if next =? kbd_tail k then k
  else Kbd (<[Z.to_nat (kbd_head k) := c]> (kbd_buffer k)) next (kbd_tail k)
         (kbd_lshift k) (kbd_rshift k) (kbd_ctrl k) (kbd_alt k).

(** The character of a make code. *)
Definition scancode_char (shift : bool) (scancode : Z) : Z :=
  let c := nth (Z.to_nat scancode) (if shift then scancode_shift else scancode_ascii) 0 in
  let c := if scancode =? 0x0E then 8 else c in
  let c := if scancode =? 0x1C then 10 else c in
  if scancode =? 0x0F then 9 else c.

(** [keyboard_irq_handler] after the read of the data port. *)
Definition process_scancode (scancode : Z) (k : kbd) : kbd :=
  if negb (Z.land scancode 0x80 =? 0) then
    let break_code := Z.land scancode 0x7F in
    if break_code =? 0x2A then set_lshift false k
    else if break_code =? 0x36 then set_rshift false k
    else if break_code =? 0x1D then set_ctrl false k
    else if break_code =? 0x38 then set_alt false k
    else k
  else if scancode =? 0x2A then set_lshift true k
  else if scancode =? 0x36 then set_rshift true k
  else if scancode =? 0x1D then set_ctrl true k
  else if scancode =? 0x38 then set_alt true k
  else
    let shift := kbd_lshift k || kbd_rshift k in
    let c := scancode_char shift scancode in
    if negb (c =? 0) then kbd_buffer_push c k else k.

(** The handler on the ports and the driver's state. *)
Definition keyboard_irq_handler (hw : devices) : M (trace * kbd) unit :=
  scancode ← zoom fst (fun t s => (t, s.2)) (inb hw KBD_DATA_PORT);
  modify (fun s => (s.1, process_scancode scancode s.2)).

Definition keyboard_getchar : M kbd Z :=
  k ← get;
  if kbd_head k =? kbd_tail k then mret 0
  else
    let c := nth (Z.to_nat (kbd_tail k)) (kbd_buffer k) 0 in
    modify (fun k => Kbd (kbd_buffer k) (kbd_head k)
      (wrap 8 (Z.rem (kbd_tail k + 1) KBD_BUFFER_SIZE))
      (kbd_lshift k) (kbd_rshift k) (kbd_ctrl k) (kbd_alt k));;
    mret c.

Definition keyboard_has_key (k : kbd) : bool := negb (kbd_head k =? kbd_tail k).
Definition keyboard_lshift (k : kbd) : bool := kbd_lshift k.
Definition keyboard_rshift (k : kbd) : bool := kbd_rshift k.
Definition keyboard_ctrl (k : kbd) : bool := kbd_ctrl k.

(** ** Interrupts between the accesses of [keyboard_getchar]

    The consumer's program counter: [CIdle] outside the function, [CChecked]
    after the comparison of head and tail, [CLoaded] after the read of the
    buffer.  The tail is written only by the consumer, so the comparison is as
    of the read of the head. *)
Inductive consumer := CIdle | CChecked | CLoaded (c : Z).

Inductive kbd_event :=
  | Irq (scancode : Z)
  | Got (c : Z).

Definition advance_tail (k : kbd) : kbd :=
  Kbd (kbd_buffer k) (kbd_head k) (wrap 8 (Z.rem (kbd_tail k + 1) KBD_BUFFER_SIZE))
    (kbd_lshift k) (kbd_rshift k) (kbd_ctrl k) (kbd_alt k).

Inductive kbd_step : consumer * kbd -> option kbd_event -> consumer * kbd -> Prop :=
  | step_irq p k sc : fits 8 sc -> kbd_step (p, k) (Some (Irq sc)) (p, process_scancode sc k)
  | step_empty k : kbd_head k = kbd_tail k -> kbd_step (CIdle, k) (Some (Got 0)) (CIdle, k)
  | step_check k : kbd_head k <> kbd_tail k -> kbd_step (CIdle, k) None (CChecked, k)
  | step_load k :
      kbd_step (CChecked, k) None (CLoaded (nth (Z.to_nat (kbd_tail k)) (kbd_buffer k) 0), k)
  | step_take c k : kbd_step (CLoaded c, k) (Some (Got c)) (CIdle, advance_tail k).

Inductive kbd_exec : consumer * kbd -> list kbd_event -> consumer * kbd -> Prop :=
  | exec_nil s : kbd_exec s [] s
  | exec_snoc s l s1 e s2 :
      kbd_exec s l s1 -> kbd_step s1 e s2 -> kbd_exec s (l ++ option_list e) s2.

(** Without interrupts the steps are [keyboard_getchar]. *)
Lemma getchar_steps k c k' :
  keyboard_getchar k = Done c k' [] -> kbd_exec (CIdle, k) [Got c] (CIdle, k').
Proof.
  unfold keyboard_getchar. erewrite bind_step by reflexivity.
  destruct (Z.eqb_spec (kbd_head k) (kbd_tail k)) as [E|E].
  - intros [= <- <-]. apply (exec_snoc _ [] _ (Some (Got 0)) _ (exec_nil _)). by apply step_empty.
  - intros H. set (c0 := nth (Z.to_nat (kbd_tail k)) (kbd_buffer k) 0) in H.
    assert (Done c0 (advance_tail k) [] = Done c k' []) as [= <- <-] by exact H.
    apply (exec_snoc _ ([] ++ [] ++ []) (CLoaded c0, k) (Some (Got c0))); [|apply step_take].
    apply (exec_snoc _ ([] ++ []) (CChecked, k) None); [|apply step_load].
    apply (exec_snoc _ [] (CIdle, k) None); [apply exec_nil|by apply step_check].
Qed.

(** ** The specification: a queue of at most 255 characters *)
Record keys := Keys { queue : list Z; s_lshift : bool; s_rshift : bool }.

Definition capacity : nat := 255.

(** What a scan code does: a modifier changes, a character is typed, or
    nothing happens. *)
Definition key_event (sc : Z) (s : keys) : keys :=
  if sc =? 0x2A then Keys (queue s) true (s_rshift s)
  else if sc =? 0xAA then Keys (queue s) false (s_rshift s)
  else if sc =? 0x36 then Keys (queue s) (s_lshift s) true
  else if sc =? 0xB6 then Keys (queue s) (s_lshift s) false
  else
    let c := if sc <? 128 then scancode_char (s_lshift s || s_rshift s) sc else 0 in
    if (c =? 0) || (sc =? 0x1D) || (sc =? 0x38) || (capacity <=? length (queue s))%nat then s
    else Keys (queue s ++ [c]) (s_lshift s) (s_rshift s).

Inductive keys_step : keys -> kbd_event -> keys -> Prop :=
  | keys_irq s sc : keys_step s (Irq sc) (key_event sc s)
  | keys_empty s : queue s = [] -> keys_step s (Got 0) s
  | keys_get s c q : queue s = c :: q -> keys_step s (Got c) (Keys q (s_lshift s) (s_rshift s)).

Inductive keys_exec : keys -> list kbd_event -> keys -> Prop :=
  | keys_nil s : keys_exec s [] s
  | keys_snoc s l s1 e s2 : keys_exec s l s1 -> keys_step s1 e s2 -> keys_exec s (l ++ [e]) s2.

(** ** The ring holds the queue *)
Record ring (k : kbd) (q : list Z) : Prop := {
  rg_len : length (kbd_buffer k) = 256%nat;
  rg_tail : 0 <= kbd_tail k < 256;
  rg_head : kbd_head k = (kbd_tail k + Z.of_nat (length q)) mod 256;
  rg_room : (length q <= 255)%nat;
  rg_items : forall i c, q !! i = Some c ->
    nth (Z.to_nat ((kbd_tail k + Z.of_nat i) mod 256)) (kbd_buffer k) 0 = c;
}.

Lemma next_index h : 0 <= h < 256 -> wrap 8 (Z.rem (h + 1) KBD_BUFFER_SIZE) = (h + 1) mod 256.
Proof.
  intros Hh. unfold KBD_BUFFER_SIZE, wrap. rewrite Z.rem_mod_nonneg by lia.
  change (2 ^ 8) with 256. by rewrite Z.mod_mod.
Qed.

Lemma ring_empty k q : ring k q -> kbd_head k = kbd_tail k <-> q = [].
Proof.
  intros [_ Ht Hh Hr _]. rewrite Hh. split.
  - intros E. destruct q; [done|]. simpl length in *. exfalso. divlia.
  - intros ->. simpl. rewrite Z.add_0_r. apply Z.mod_small. lia.
Qed.

Lemma ring_push k q c :
  ring k q ->
  ring (kbd_buffer_push c k) (if (capacity <=? length q)%nat then q else q ++ [c]).
Proof.
  intros Hrg. pose proof Hrg as [Hl Ht Hh Hr Hi]. unfold kbd_buffer_push, capacity.
  rewrite next_index by (rewrite Hh; apply Z.mod_pos_bound; lia). rewrite Hh.
  destruct (Nat.leb_spec 255 (length q)) as [Hf|Hf].
  - rewrite (proj2 (Z.eqb_eq _ _)) by divlia. done.
  - rewrite (proj2 (Z.eqb_neq _ _)) by divlia. split; simpl.
    + by rewrite length_insert.
    + done.
    + rewrite length_app. simpl. divlia.
    + rewrite length_app. simpl. lia.
    + intros i x Hx. apply lookup_snoc_Some in Hx as [[Hlt Hx]|[-> <-]].
      * rewrite <-(Hi i x Hx). rewrite !nth_lookup, list_lookup_insert_ne by divlia. done.
      * rewrite nth_lookup, list_lookup_insert_eq by (rewrite Hl; divlia). done.
Qed.

Lemma ring_take k c q : ring k (c :: q) -> ring (advance_tail k) q.
Proof.
  intros [Hl Ht Hh Hr Hi]. unfold advance_tail. rewrite next_index by done. split; simpl in *.
  - done.
  - divlia.
  - rewrite Hh. divlia.
  - lia.
  - intros i x Hx. rewrite <-(Hi (S i) x Hx). f_equal. divlia.
Qed.

Lemma ring_first k c q : ring k (c :: q) -> nth (Z.to_nat (kbd_tail k)) (kbd_buffer k) 0 = c.
Proof.
  intros Hrg. rewrite <-(rg_items _ _ Hrg 0%nat c eq_refl). f_equal. simpl.
  rewrite Z.add_0_r, Z.mod_small; [done|apply Hrg].
Qed.

(** The driver's modifiers do not touch the ring. *)
Lemma ring_modifiers l r c a k q : ring k q -> ring (set_modifiers l r c a k) q.
Proof. by intros [Hl Ht Hh Hr Hi]. Qed.

(** ** Characters are text *)
Definition text (c : Z) : bool :=
  (c =? 8) || (c =? 9) || (c =? 10) || ((32 <=? c) && (c <=? 126)).

Lemma scancode_char_text shift sc :
  0 <= sc < 128 -> scancode_char shift sc <> 0 -> text (scancode_char shift sc) = true.
Proof.
  intros Hsc Hne.
  assert (forallb (fun i => (scancode_char shift (Z.of_nat i) =? 0) || text (scancode_char shift (Z.of_nat i)))
    (seq 0 128) = true) as H by by destruct shift.
  rewrite forallb_forall in H. specialize (H (Z.to_nat sc)).
  rewrite Z2Nat.id, orb_true_iff in H by lia.
  destruct H as [H|H]; [apply in_seq; lia|by apply Z.eqb_eq in H|done].
Qed.

(** The abstraction of a driver state and a program counter. *)
Record holds (p : consumer) (k : kbd) (s : keys) : Prop := {
  sh_ring : ring k (queue s);
  sh_lshift : s_lshift s = kbd_lshift k;
  sh_rshift : s_rshift s = kbd_rshift k;
  sh_text : Forall (fun c => text c = true) (queue s);
  sh_pc : match p with
          | CIdle => True
          | CChecked => queue s <> []
          | CLoaded c => exists q, queue s = c :: q
          end;
}.

(** Bit 7 is the break bit. *)
Lemma break_bit sc :
  fits 8 sc -> (Z.land sc 0x80 =? 0) = (sc <? 128) /\ Z.land sc 0x7F = sc mod 128.
Proof.
  intros Hsc. unfold fits in Hsc. change (2 ^ 8) with 256 in Hsc.
  assert (Hall : forall i, (i < 256)%nat ->
    ((Z.land (Z.of_nat i) 0x80 =? 0) = (Z.of_nat i <? 128)) /\ Z.land (Z.of_nat i) 0x7F = Z.of_nat i mod 128).
  { intros i Hi. assert (forallb (fun i => Bool.eqb (Z.land (Z.of_nat i) 0x80 =? 0) (Z.of_nat i <? 128) &&
      (Z.land (Z.of_nat i) 0x7F =? Z.of_nat i mod 128)) (seq 0 256) = true) as H by reflexivity.
    rewrite forallb_forall in H. specialize (H i ltac:(apply in_seq; lia)).
    apply andb_true_iff in H as [H1 H2]. split; [by apply eqb_prop|by apply Z.eqb_eq]. }
  rewrite <-(Z2Nat.id sc) by lia. apply Hall. lia.
Qed.

Lemma push_shows p k s c :
  holds p k s -> text c = true ->
  holds p (kbd_buffer_push c k)
    (if (capacity <=? length (queue s))%nat then s else Keys (queue s ++ [c]) (s_lshift s) (s_rshift s)).
Proof.
  intros [Hr Hls Hrs Ht Hp] Hc. pose proof (ring_push k (queue s) c Hr) as Hr'.
  destruct (capacity <=? length (queue s))%nat eqn:E; split; simpl; try done.
  - unfold kbd_buffer_push. by destruct (_ =? _).
  - unfold kbd_buffer_push. by destruct (_ =? _).
  - unfold kbd_buffer_push. by destruct (_ =? _).
  - unfold kbd_buffer_push. by destruct (_ =? _).
  - apply Forall_app. by split; [|constructor].
  - destruct p as [| |x]; [done| |].
    + by destruct (queue s).
    + destruct Hp as [q ->]. by exists (q ++ [c]).
Qed.

(** The decoder against the specification. *)
Lemma scancode_shows p k s sc :
  holds p k s -> fits 8 sc -> holds p (process_scancode sc k) (key_event sc s).
Proof.
  intros Hsh Hsc. pose proof Hsh as [Hr Hls Hrs Ht Hp].
  destruct (break_bit sc Hsc) as [Hb Hm]. unfold process_scancode, key_event. rewrite Hb, Hm.
  assert (forall l r c a s', queue s' = queue s -> s_lshift s' = l -> s_rshift s' = r ->
    holds p (set_modifiers l r c a k) s') as Hmod.
  { intros l r c a s' Hq Hl' Hr'. split; rewrite ?Hq; try done. by apply ring_modifiers. }
  destruct (Z.ltb_spec sc 128) as [Hlt|Hge]; cbn [negb].
  - rewrite (proj2 (Z.eqb_neq sc 0xAA)), (proj2 (Z.eqb_neq sc 0xB6)) by lia.
    destruct (Z.eqb_spec sc 0x2A); [by apply Hmod|].
    destruct (Z.eqb_spec sc 0x36); [by apply Hmod|].
    destruct (Z.eqb_spec sc 0x1D) as [->|]; [rewrite orb_true_r; by apply Hmod|].
    destruct (Z.eqb_spec sc 0x38) as [->|]; [rewrite orb_true_r; by apply Hmod|].
    rewrite Hls, Hrs, !orb_false_r. set (sh := _ || _).
    destruct (Z.eqb_spec (scancode_char sh sc) 0) as [|Hne]; [done|]. cbn [negb orb].
    rewrite <-Hls, <-Hrs. apply push_shows; [done|]. apply scancode_char_text; [|done].
    unfold fits in Hsc. lia.
  - unfold fits in Hsc. change (2 ^ 8) with 256 in Hsc.
    replace (sc mod 128) with (sc - 128) by divlia.
    rewrite (proj2 (Z.eqb_neq sc 0x2A)), (proj2 (Z.eqb_neq sc 0x36)) by lia. simpl (_ || _).
    destruct (Z.eqb_spec (sc - 128) 0x2A), (Z.eqb_spec sc 0xAA); try lia; [by apply Hmod|].
    destruct (Z.eqb_spec (sc - 128) 0x36), (Z.eqb_spec sc 0xB6); try lia; [by apply Hmod|].
    destruct (sc - 128 =? 0x1D); [by apply Hmod|].
    destruct (sc - 128 =? 0x38); [by apply Hmod|done].
Qed.

Lemma init_shows : holds CIdle kbd_init (Keys [] false false).
Proof. split; try done. split; try done; simpl; lia. Qed.

(** What the main loop gets is text, or 0. *)
Definition typed (e : kbd_event) : Prop := forall c, e = Got c -> c = 0 \/ text c = true.

(** One step of the driver is a step of the queue, or none. *)
Lemma kbd_step_shows p k e p' k' s :
  holds p k s -> kbd_step (p, k) e (p', k') ->
  exists s', holds p' k' s' /\
    match e with Some e => keys_step s e s' /\ typed e | None => s' = s end.
Proof.
  intros Hsh Hst. pose proof Hsh as [Hr Hls Hrs Ht Hp].
  inversion Hst as [q k0 sc Hsc|k0 E|k0 E|k0|c k0]; subst.
  - exists (key_event sc s). split; [by apply scancode_shows|split; [constructor|done]].
  - exists s. split; [done|]. split; [|intros c [= <-]; by left].
    apply keys_empty. by apply (ring_empty k').
  - exists s. split; [|done]. split; try done. intros Hq. apply E. by apply (ring_empty k' (queue s)).
  - exists s. split; [|done]. destruct (queue s) as [|c q] eqn:Hq; [done|].
    rewrite (ring_first _ c q) by done. split; rewrite ?Hq; try done. by exists q.
  - destruct Hp as [q Hq]. exists (Keys q (s_lshift s) (s_rshift s)). rewrite Hq in Hr, Ht.
    apply Forall_cons in Ht as [Hc Ht]. split; [|split; [by apply keys_get|intros x [= <-]; by right]].
    split; simpl; try done. by apply (ring_take k c).
Qed.

Lemma kbd_exec_shows p k l p' k' s :
  holds p k s -> kbd_exec (p, k) l (p', k') -> exists s', holds p' k' s' /\ keys_exec s l s' /\ Forall typed l.
Proof.
  intros Hsh. remember (p, k) as a eqn:Ha. remember (p', k') as b eqn:Hb. intros Hex.
  revert p' k' Hb. induction Hex as [a|a l [p1 k1] e b Hex IH Hst]; intros p' k' ->.
  - injection Ha as -> ->. exists s. split; [done|]. split; constructor.
  - destruct (IH Ha p1 k1 eq_refl) as (s1 & Hs1 & Hk1 & Ht1).
    destruct (kbd_step_shows _ _ _ _ _ _ Hs1 Hst) as (s2 & Hs2 & He).
    exists s2. split; [done|]. destruct e as [e|]; simpl.
    + destruct He as [He Hte]. split; [by apply (keys_snoc _ _ s1)|].
      apply Forall_app. split; [done|]. by constructor.
    + subst. by rewrite app_nil_r.
Qed.

(** ** Properties *)

(** C19: the keyboard driver refines a queue of 255 characters under every
    interleaving of keyboard interrupts with the memory accesses of
    [keyboard_getchar]: what the main loop gets are the typed characters in
    order, 0 exactly when the queue was empty, and a key is lost only when 255
    characters are waiting. *)
Theorem keyboard_refines_queue p k l p' k' s :
  holds p k s -> kbd_exec (p, k) l (p', k') ->
  exists s', keys_exec s l s' /\ holds p' k' s' /\
    (p' = CIdle -> forall c k2, keyboard_getchar k' = Done c k2 [] ->
       (queue s' = [] /\ c = 0 /\ k2 = k') \/
       (exists q, queue s' = c :: q /\ holds CIdle k2 (Keys q (s_lshift s') (s_rshift s')))).
Proof.
  intros Hsh Hex. destruct (kbd_exec_shows _ _ _ _ _ _ Hsh Hex) as (s' & Hs' & Hk & _).
  exists s'. split_and!; [done|done|].
  intros -> c k2. unfold keyboard_getchar. erewrite bind_step by reflexivity.
  pose proof Hs' as [Hr Hls Hrs Ht _].
  destruct (Z.eqb_spec (kbd_head k') (kbd_tail k')) as [E|E].
  - intros [= <- <-]. left. split_and!; try done. by apply (ring_empty k').
  - right. destruct (queue s') as [|c0 q] eqn:Hq; [by rewrite (ring_empty k' []) in E|].
    rewrite (ring_first _ c0 q) in H by done.
    assert (Done c0 (advance_tail k') [] = Done c k2 []) as [= <- <-] by exact H.
    exists q. split; [done|]. apply Forall_cons in Ht as [_ Ht].
    split; simpl; try done. by apply (ring_take k' c0).
Qed.

(** Shift, an a, and its release; the consumer looks twice. *)
Lemma keyboard_refines_queue_witness :
  exists p' k' s', kbd_exec (CIdle, kbd_init) [Irq 0x2A; Irq 0x1E] (p', k') /\
    keys_exec (Keys [] false false) [Irq 0x2A; Irq 0x1E] s' /\ holds p' k' s'.
Proof.
  assert (kbd_exec (CIdle, kbd_init) (([] ++ [Irq 0x2A]) ++ [Irq 0x1E])
    (CIdle, process_scancode 0x1E (process_scancode 0x2A kbd_init))) as Hex.
  { eapply (exec_snoc _ _ _ (Some _)); [eapply (exec_snoc _ _ _ (Some _)); [apply exec_nil|]|];
      apply step_irq; split; discriminate || reflexivity. }
  destruct (keyboard_refines_queue _ _ _ _ _ _ init_shows Hex) as (s' & Hk & Hs & _).
  exists CIdle, (process_scancode 0x1E (process_scancode 0x2A kbd_init)), s'.
  exact (conj Hex (conj Hk Hs)).
Defined.

(** The code of a capital letter. *)
Definition upper (c : Z) : Z := if (97 <=? c) && (c <=? 122) then c - 32 else c.

(** C40: every character the driver delivers is text (a printable ASCII
    character, backspace, tab or newline), so that 0 means that no key is
    waiting and no character is negative; and the two tables agree on which
    keys have a character, the shifted letter being the capital. *)
Theorem keyboard_delivers_text l p k :
  kbd_exec (CIdle, kbd_init) l (p, k) ->
  (forall c, Got c ∈ l -> c = 0 \/ text c = true) /\
  (forall sc, 0 <= sc < 128 ->
     (scancode_char false sc = 0 <-> scancode_char true sc = 0) /\
     (97 <= scancode_char false sc <= 122 -> scancode_char true sc = upper (scancode_char false sc))).
Proof.
  intros Hex. destruct (kbd_exec_shows _ _ _ _ _ _ init_shows Hex) as (s & _ & _ & Ht). split.
  - intros c Hc. rewrite Forall_forall in Ht. by apply (Ht _ Hc).
  - intros sc Hsc.
    assert (forallb (fun i => let a := scancode_char false (Z.of_nat i) in let b := scancode_char true (Z.of_nat i) in
      Bool.eqb (a =? 0) (b =? 0) && (negb ((97 <=? a) && (a <=? 122)) || (b =? upper a))) (seq 0 128) = true)
      as H by reflexivity.
    rewrite forallb_forall in H. specialize (H (Z.to_nat sc) ltac:(apply in_seq; lia)).
    rewrite Z2Nat.id in H by lia. apply andb_true_iff in H as [H1 H2]. apply eqb_prop in H1. split.
    + rewrite <-!Z.eqb_eq. by rewrite H1.
    + intros [Ha Hb]. apply orb_true_iff in H2 as [H2|H2]; [|by apply Z.eqb_eq].
      rewrite (proj2 (Z.leb_le _ _) Ha), (proj2 (Z.leb_le _ _) Hb) in H2. done.
Qed.

Lemma keyboard_delivers_text_witness :
  kbd_exec (CIdle, kbd_init) [Got 0] (CIdle, kbd_init) /\ (0 = 0 \/ text 0 = true).
Proof.
  assert (kbd_exec (CIdle, kbd_init) [Got 0] (CIdle, kbd_init)) as Hex.
  { apply (exec_snoc _ [] (CIdle, kbd_init) (Some (Got 0)) _ (exec_nil _)). by apply step_empty. }
  split; [exact Hex|]. apply (proj1 (keyboard_delivers_text _ _ _ Hex)). apply list_elem_of_here.
Defined.
