(* ===== verification/Isr.v ===== *)
(** * Interrupt dispatch (src/isr/isr.c, isr.h) and the timer
    (src/drivers/timer.c, timer.h)

    The machine state puts the components together that interrupt handlers
    touch: the ports, the keyboard driver, the tick counter, the table of
    registered handlers and the tasks.  A handler is one of the two functions
    the kernel registers. *)
From S2P Require Import Prelude Effects Ports Serial Log Keyboard Gdt KernelMem Task.

(** The functions the table [irq_handlers] points to. *)
Inductive irq_handler := timer_handler | keyboard_handler.

#[export] Instance irq_handler_eq_dec : EqDecision irq_handler.
Proof. solve_decision. Defined.

Record machine (B : Type) := Machine {
  m_io : trace;
  m_kbd : kbd;
  timer_ticks : Z;
  irq_handlers : list (option irq_handler);
  m_tasks : tasks B;
}.
Arguments Machine {B} _ _ _ _ _.
Arguments m_io {B} _.
Arguments m_kbd {B} _.
Arguments timer_ticks {B} _.
Arguments irq_handlers {B} _.
Arguments m_tasks {B} _.

Definition TIMER_FREQUENCY : Z := 100.
Definition PIT_BASE_FREQUENCY : Z := 1193180.
Definition PIT_CHANNEL0_CMD : Z := 0x40.
Definition PIT_COMMAND_PORT : Z := 0x43.

(** The names of the exceptions. *)
Definition exceptions : list string :=
  ["Div By Zero"; "Debug"; "NMI"; "Breakpoint"; "Overflow";
   "Bounds"; "Inv Opcode"; "Coprocessor"; "Double Fault";
   "Copro Overrun"; "Invalid TSS"; "Seg Not Pres"; "Stack Fault";
   "GPF"; "Page Fault"; "x87 FP"; "Alignment"; "MChi";
   "SIMD FP"; "Virt"; "Control Prot"]%string.

Section isr.
Context {B : Type} `{KernelMem B}.
Context (hw : devices) (sym : symbols).
Implicit Types m : machine B.
Local Abbreviation K := (M (machine B)).

Definition set_m_io (t : trace) m : machine B :=
  Machine t (m_kbd m) (timer_ticks m) (irq_handlers m) (m_tasks m).
Definition set_m_kbd (k : kbd) m : machine B :=
  Machine (m_io m) k (timer_ticks m) (irq_handlers m) (m_tasks m).
Definition set_ticks (n : Z) m : machine B :=
  Machine (m_io m) (m_kbd m) n (irq_handlers m) (m_tasks m).
Definition set_handlers (l : list (option irq_handler)) m : machine B :=
  Machine (m_io m) (m_kbd m) (timer_ticks m) l (m_tasks m).
Definition set_m_tasks (t : tasks B) m : machine B :=
  Machine (m_io m) (m_kbd m) (timer_ticks m) (irq_handlers m) t.

Definition on_ports {A} (p : M trace A) : K A := zoom m_io set_m_io p.
Definition on_tasks {A} (p : M (tasks B) A) : K A := zoom m_tasks set_m_tasks p.
Definition on_kbd {A} (p : M (trace * kbd) A) : K A :=
  zoom (fun m => (m_io m, m_kbd m)) (fun s m => set_m_kbd s.2 (set_m_io s.1 m)) p.

(** ** Registration *)

Definition isr_register_irq (irq : Z) (handler : irq_handler) : K unit :=
  if irq <? 16 then modify (fun m => set_handlers (<[Z.to_nat irq := Some handler]> (irq_handlers m)) m)
  else mret tt.

Definition isr_unregister_irq (irq : Z) : K unit :=
  if irq <? 16 then modify (fun m => set_handlers (<[Z.to_nat irq := None]> (irq_handlers m)) m)
  else mret tt.

Definition kinit_keyboard : K unit :=
  isr_register_irq 1 keyboard_handler;;
  say (KPrint ("Keyboard: PS/2 driver installed (IRQ1)" +:+ NL)).

(** ** The timer *)

Definition timer_irq_handler : K unit :=
  modify (fun m => set_ticks (timer_ticks m ⊞ 1) m);;
  on_ports (pic_send_eoi 0);;
  on_tasks (schedule sym).

Definition kinit_timer : K unit :=
  let divisor := 1193180 / 100 in
  on_ports (outb PIT_COMMAND_PORT 0x36);;
  on_ports (outb PIT_CHANNEL0_CMD (Z.land divisor 0xFF));;
  on_ports (outb PIT_CHANNEL0_CMD (Z.land (Z.shiftr divisor 8) 0xFF));;
  isr_register_irq 0 timer_handler;;
  say (KPrint ("Timer: PIT ch0 @ 100Hz configured" +:+ NL)).

Definition timer_get_ticks : K Z := m ← get; mret (timer_ticks m).

(** [timer_wait]; [hlt] is whatever runs until the CPU is woken. *)
Definition timer_wait (hlt : K unit) (ticks : Z) : K unit :=
  m ← get;
  let start := timer_ticks m in
  mwhile 64 (fun _ : unit =>
    m ← get;
    if timer_ticks m ⊟ start <? ticks then hlt;; mret (Next tt) else mret (Leave tt)) tt.

(** The handler of idt.c that no gate uses. *)
Definition isr_timer_handler : K unit := on_ports (pic_send_eoi 0).

(** ** Dispatch *)

Definition call_handler (h : irq_handler) : K unit :=
  match h with
  | timer_handler => timer_irq_handler
  | keyboard_handler => on_kbd (keyboard_irq_handler hw)
  end.

(** [irq_handlers[irq]] *)
Definition handler_of (irq : Z) : K (option irq_handler) :=
  m ← get;
  match irq_handlers m !! Z.to_nat irq with
  | Some h => mret h
  | None => stop (OutOfBounds irq)
  end.

(** The two digits of the vector. *)
Definition vector_buf (vector : Z) : string :=
  let digit v := Ascii.ascii_of_N (Z.to_N (hex_digit "0123456789ABCDEF" v 0)) in
  String (digit (Z.land (Z.shiftr vector 4) 0xF)) (String (digit (Z.land vector 0xF)) EmptyString).

Definition exception_name (vector : Z) : string :=
  if vector <? 21 then nth (Z.to_nat vector) exceptions EmptyString else "Reserved".

(** The report of an exception and the halt. *)
Definition panic_exception (vector cr2 : Z) (sp : list Z) : K unit :=
  let word i := nth i sp 0 in
  say (SerialPuts (NL +:+ "!!! KERNEL PANIC: CPU Exception !!!" +:+ NL));;
  say (SerialPuts "  vector: 0x");;
  say (SerialPuts (vector_buf vector));;
  say (SerialPuts " (");;
  say (SerialPuts (exception_name vector));;
  say (SerialPuts (")" +:+ NL +:+ "  error:  "));;
  say (SerialPutHex64 (word 14%nat));;
  say (SerialPuts NL);;
  say (SerialPuts "  CR2:    0x");;
  say (SerialPutHex64 cr2);;
  say (SerialPuts NL);;
  say (SerialPuts "  RIP:    0x");;
  say (SerialPutHex64 (word 15%nat));;
  say (SerialPuts (NL +:+ "  CS:     0x"));;
  say (SerialPutHex64 (word 16%nat));;
  say (SerialPuts (NL +:+ "  RFLAGS: 0x"));;
  say (SerialPutHex64 (word 17%nat));;
  say (SerialPuts (NL +:+ "  RSP:    0x"));;
  say (SerialPutHex64 (word 18%nat));;
  say (SerialPuts (NL +:+ "  SS:     0x"));;
  say (SerialPutHex64 (word 19%nat));;
  say (SerialPuts NL);;
  say (KPrint (NL +:+ "!!! PANIC !!!" +:+ NL));;
  say (KPrint "CPU Exception: vector ");;
  say (KPrintHex vector);;
  say (KPrint " (");;
  say (KPrint (exception_name vector));;
  say (KPrint ") err=");;
  say (KPrintHex (word 14%nat));;
  say (KPrint (NL +:+ "Halting." +:+ NL));;
  stop Halted.

(** [isr_handler_c] on the stack the stub has built: [sp] are the words from
    the frame on, thirteen saved registers, the vector, the error code and
    what the CPU pushed. *)
Definition isr_handler_c (cr2 : Z) (sp : list Z) : K unit :=
  let vector := wrap 8 (nth 13 sp 0) in
  if 32 <=? vector then
    let irq := wrap 8 (vector - 32) in
    h ← handler_of irq;
    (match h with Some h => call_handler h | None => mret tt end);;
    on_ports (pic_send_eoi irq)
  else panic_exception vector cr2 sp.
End isr.
