(* ===== verification/Interrupts.v ===== *)
(** * Interrupts reach their handlers and are acknowledged

    The dispatcher of [Isr.v] over a verified task system, with the interrupt
    controller reading the trace of port accesses ([Ports.v]). *)
From S2P Require Import Prelude Effects Ports Serial Log Keyboard Gdt Heap KernelMem.
From S2P Require Import Task TaskInv TaskSwitch TaskSched TaskSystem Isr.

Section interrupts.
Context {B : Type} `{HK : KernelMem B} `{!KernelMemOk B}.
Context (hw : devices) (sym : symbols) (boot_lo boot_hi : Z).
Context (Hboot : 0 <= boot_lo /\ boot_hi <= HEAP_START).
Implicit Types m : machine B.
Local Abbreviation system_ok := (system_ok boot_lo boot_hi).

Lemma handler_of_run irq h m :
  irq_handlers m !! Z.to_nat irq = Some h -> handler_of irq m = Done h m [].
Proof. intros Hh. unfold handler_of. erewrite bind_step by reflexivity. by rewrite Hh. Qed.

Lemma eoi_run irq m : on_ports (pic_send_eoi irq) m = Done tt (set_m_io (m_io m ++ eoi_trace irq) m) [].
Proof. unfold on_ports, zoom. by rewrite pic_send_eoi_run. Qed.

Lemma keyboard_handler_run m :
  let sc := wrap 8 (hw (m_io m) KBD_DATA_PORT) in
  call_handler hw sym keyboard_handler m =
    Done tt (set_m_kbd (process_scancode sc (m_kbd m)) (set_m_io (m_io m ++ [In KBD_DATA_PORT sc]) m)) [].
Proof. reflexivity. Qed.

(** A tick: counted, acknowledged, and then the scheduler runs. *)
Lemma timer_handler_run m q c l :
  system_ok (m_tasks m) q c l -> room boot_lo boot_hi (m_tasks m) c ->
  exists st' q' c', call_handler hw sym timer_handler m =
      Done tt (set_m_tasks st' (set_m_io (m_io m ++ eoi_trace 0) (set_ticks (timer_ticks m ⊞ 1) m))) [] /\
    schedule sym (m_tasks m) = Done tt st' [] /\ system_ok st' q' c' l /\ moves Tick q c q' c'.
Proof.
  intros Hs Hr. assert (exists st' q' c', schedule sym (m_tasks m) = Done tt st' [] /\
    system_ok st' q' c' l /\ moves Tick q c q' c') as (st' & q' & c' & E & Hs' & Hm).
  { destruct q as [|n q].
    - exists (m_tasks m), [], c. split_and!; [|done|done].
      apply (schedule_alone sym boot_lo boot_hi _ c l), Hs.
    - destruct (tick_ok sym boot_lo boot_hi Hboot _ n q c l Hs Hr) as (st' & E & Hs' & He).
      exists st', (q ++ [c]), n. split_and!; [done..|]. by apply He. }
  exists st', q', c'. split_and!; try done. unfold call_handler, timer_irq_handler.
  erewrite bind_step by reflexivity. rewrite (bind_step _ _ _ _ _ (eoi_run 0 _)).
  unfold on_tasks, zoom. cbn [m_tasks set_m_io set_ticks]. by rewrite E.
Qed.

Lemma isr_irq_run cr2 sp irq h m :
  0 <= irq < 16 -> wrap 8 (nth 13 sp 0) = 32 + irq -> irq_handlers m !! Z.to_nat irq = Some h ->
  isr_handler_c hw sym cr2 sp m =
    (match h with Some h => call_handler hw sym h | None => mret tt end;; on_ports (pic_send_eoi irq)) m.
Proof.
  intros Hi Hv Hh. unfold isr_handler_c. rewrite Hv, (proj2 (Z.leb_le _ _)) by lia.
  replace (wrap 8 (32 + irq - 32)) with irq.
  - by rewrite (bind_step _ _ _ _ _ (handler_of_run irq h m Hh)).
  - symmetry. replace (32 + irq - 32) with irq by lia. apply wrap_small. unfold fits. lia.
Qed.

(** A second EOI finds nothing in service. *)
Lemma eoi_idle irq p : in_service p.1 = [] -> in_service p.2 = [] -> pic_after p (eoi_trace irq) = p.
Proof.
  destruct p as [[i1 v1 k1 s1] [i2 v2 k2 s2]]. simpl. intros -> ->.
  unfold eoi_trace. by destruct (8 <=? irq).
Qed.

(** An exception is reported and the CPU halts. *)
Lemma exception_halts cr2 sp m :
  wrap 8 (nth 13 sp 0) < 32 ->
  exists report, isr_handler_c hw sym cr2 sp m = Stop Halted report /\
    Forall level_ok report /\ SerialPuts (exception_name (wrap 8 (nth 13 sp 0))) ∈ report.
Proof.
  intros Hv. unfold isr_handler_c. rewrite (proj2 (Z.leb_gt _ _)) by lia.
  eexists. split; [reflexivity|]. split; [by repeat constructor|].
  do 4 apply list_elem_of_further. apply list_elem_of_here.
Qed.

(** A vector the table has no entry for is looked up all the same. *)
Lemma isr_beyond_table cr2 sp m :
  48 <= wrap 8 (nth 13 sp 0) -> length (irq_handlers m) = 16%nat ->
  exists irq, 16 <= irq /\ isr_handler_c hw sym cr2 sp m = Stop (OutOfBounds irq) [].
Proof.
  intros Hv Hl. pose proof (wrap_fits 8 (nth 13 sp 0) ltac:(lia)) as Hf.
  exists (wrap 8 (wrap 8 (nth 13 sp 0) - 32)). unfold isr_handler_c.
  set (v := wrap 8 (nth 13 sp 0)) in *. unfold fits in Hf.
  rewrite (wrap_small 8 (v - 32)) by (unfold fits; lia). split; [lia|].
  rewrite (proj2 (Z.leb_le _ _)) by lia. apply bind_stop. unfold handler_of.
  erewrite bind_step by reflexivity. by rewrite lookup_ge_None_2 by lia.
Qed.

End interrupts.
