(* ===== verification/InterruptExamples.v ===== *)
(** * A timer interrupt of the closed machine

    The theorem of Interrupts.v at the system of TaskExamples.v. *)
From S2P Require Import Prelude Effects Paging PagingTheorems PmmInterface Pmm PmmInit Gdt.
From S2P Require Import Heap HeapBacking HeapTheorems KernelMem Ports Serial Log Keyboard.
From S2P Require Import Task TaskInv TaskSwitch TaskSched TaskSystem TaskExamples Isr Interrupts.

#[local] Existing Instance sample_backing.
#[local] Existing Instance sample_backing_ok.

