(* ===== verification/Idt.v ===== *)
(** * The interrupt descriptor table (src/cpu/idt.c, idt.h)

    [kinit_idt] fills the gates of the 48 vectors the kernel handles and gives
    the double fault, page fault and protection fault handlers stacks of their
    own, from the frame allocator.  The second part reads gates as the CPU
    does. *)
From S2P Require Import Prelude Effects PmmInterface PagingInterface Paging Gdt.

Record idt_entry := IdtEntry {
  base_low : Z;
  selector : Z;
  ist : Z;
  flags : Z;
  base_mid : Z;
  base_high : Z;
  reserved : Z;
}.

Definition zero_entry : idt_entry := IdtEntry 0 0 0 0 0 0 0.

Definition IDT_ENTRIES : Z := 256.
Definition sizeof_idt_entry : Z := 16.
Definition IST_DF : Z := 1.
Definition IST_PF : Z := 2.
Definition IST_GP : Z := 3.
Definition IST_COUNT : Z := 3.

Record idt_state (FA : Type) := IdtState {
  idt_entries : list idt_entry;
  idt_register : table_ptr;
  idtr : table_ptr;             (* the CPU's register *)
  ist_stacks : list Z;          (* 0 is NULL *)
  i_gdt : gdt_state;            (* gdt.c's tables, with the TSS *)
  i_mem : gmap Z Z;             (* physical memory *)
  i_frames : FA;
}.
Arguments IdtState {FA} _ _ _ _ _ _ _.
Arguments idt_entries {FA} _.
Arguments idt_register {FA} _.
Arguments idtr {FA} _.
Arguments ist_stacks {FA} _.
Arguments i_gdt {FA} _.
Arguments i_mem {FA} _.
Arguments i_frames {FA} _.

Section idt.
Context {FA : Type} `{FrameAlloc FA}.
Implicit Types s : idt_state FA.
Local Abbreviation K := (M (idt_state FA)).

Definition set_idt (l : list idt_entry) s : idt_state FA :=
  IdtState l (idt_register s) (idtr s) (ist_stacks s) (i_gdt s) (i_mem s) (i_frames s).
Definition set_idt_register (r : table_ptr) s : idt_state FA :=
  IdtState (idt_entries s) r (idtr s) (ist_stacks s) (i_gdt s) (i_mem s) (i_frames s).
Definition set_idtr (r : table_ptr) s : idt_state FA :=
  IdtState (idt_entries s) (idt_register s) r (ist_stacks s) (i_gdt s) (i_mem s) (i_frames s).
Definition set_ist_stacks (l : list Z) s : idt_state FA :=
  IdtState (idt_entries s) (idt_register s) (idtr s) l (i_gdt s) (i_mem s) (i_frames s).
Definition set_i_gdt (g : gdt_state) s : idt_state FA :=
  IdtState (idt_entries s) (idt_register s) (idtr s) (ist_stacks s) g (i_mem s) (i_frames s).
Definition set_i_mem (m : gmap Z Z) s : idt_state FA :=
  IdtState (idt_entries s) (idt_register s) (idtr s) (ist_stacks s) (i_gdt s) m (i_frames s).
Definition set_i_frames (f : FA) s : idt_state FA :=
  IdtState (idt_entries s) (idt_register s) (idtr s) (ist_stacks s) (i_gdt s) (i_mem s) f.

(** [memset(p, 0, 4096)] under the tables of boot.s: one 2 MiB page at
    [HIGHER_HALF_BASE] (a page-aligned range lies inside it or outside). *)
Definition boot_memset_page (p : Z) : K unit :=
  if (HIGHER_HALF_BASE <=? p) && (p <? HIGHER_HALF_BASE + 0x200000) then
    modify (fun s => set_i_mem (zero_frame (p - HIGHER_HALF_BASE) (i_mem s)) s)
  else stop (PageFault p).

Definition ist_alloc (idx : Z) : K Z :=
  frame ← run (fun s => let '(a, fa) := fa_alloc (i_frames s) in (a, set_i_frames fa s));
  if frame =? 0 then mret 0
  else
    let va := frame ⊞ HIGHER_HALF_BASE in
    boot_memset_page va;;
    modify (fun s => set_ist_stacks (<[Z.to_nat (idx - 1) := va]> (ist_stacks s)) s);;
    mret (va ⊞ PMM_FRAME_SIZE).

Definition idt_set_gate (n handler sel fl i : Z) (l : list idt_entry) : list idt_entry :=
  <[Z.to_nat n := IdtEntry
      (wrap 16 (Z.land handler 0xFFFF))
      sel
      (Z.land i 0x7)
      fl
      (wrap 16 (Z.land (Z.shiftr handler 16) 0xFFFF))
      (wrap 32 (Z.land (Z.shiftr handler 32) 0xFFFFFFFF))
      0]> l.

(** The IST index of an exception. *)
Definition ist_of (i : Z) : Z :=
  if i =? 8 then IST_DF else if i =? 14 then IST_PF else if i =? 13 then IST_GP else 0.

(** [for (i = 0; i < n; i++) idt_set_gate(first + i, stubs[i], GDT_SEL_KCODE, 0x8E, ist)] *)
Definition set_gates (first n : Z) (stubs : list Z) (ist_at : Z -> Z) (l : list idt_entry) : list idt_entry :=
  after_break (for_range 0 n (fun i l =>
    Next (idt_set_gate (first + i) (nth (Z.to_nat i) stubs 0) GDT_SEL_KCODE 0x8E (ist_at i) l)) l).

(** [kinit_idt]; the addresses of the table and of the stubs are the
    linker's. *)
Definition kinit_idt (idt_addr : Z) (exception_stubs irq_stubs : list Z) : K unit :=
  modify (set_idt_register (TablePtr (wrap 16 (IDT_ENTRIES * sizeof_idt_entry - 1)) idt_addr));;
  modify (fun s => set_idt (after_break (for_range 0 IDT_ENTRIES
    (fun i l => Next (<[Z.to_nat i := zero_entry]> l)) (idt_entries s))) s);;
  df_top ← ist_alloc IST_DF;
  pf_top ← ist_alloc IST_PF;
  gp_top ← ist_alloc IST_GP;
  modify (fun s => set_idt (set_gates 0 32 exception_stubs ist_of (idt_entries s)) s);;
  modify (fun s => set_i_gdt (set_tss (set_ists df_top pf_top gp_top (tss_value (i_gdt s))) (i_gdt s)) s);;
  modify (fun s => set_idt (set_gates 32 16 irq_stubs (fun _ => 0) (idt_entries s)) s);;
  modify (fun s => set_idtr (idt_register s) s);;
  say (KPrint ("IDT: 256 entries loaded" +:+ NL)).

(** [isr_default_handler] *)
Definition isr_default_handler : K unit :=
  say (KPrint ("EXCEPTION: Unhandled interrupt" +:+ NL));;
  say (KPrint ("Halting CPU." +:+ NL));;
  stop Halted.

(** ** How the CPU reads a gate *)
Definition gate_offset (e : idt_entry) : Z := base_low e + base_mid e * 2 ^ 16 + base_high e * 2 ^ 32.
Definition gate_present (e : idt_entry) : bool := Z.testbit (flags e) 7.
Definition gate_dpl (e : idt_entry) : Z := field (flags e) 5 2.
Definition gate_type (e : idt_entry) : Z := field (flags e) 0 4.

(** The gate of a vector, if the register covers it. *)
Definition gate s (v : Z) : option idt_entry :=
  if v * 16 + 15 <=? limit (idtr s) then idt_entries s !! Z.to_nat v else None.

(** ** Proofs *)

(** A handler's address is read back from its three pieces. *)
Lemma gate_address h sel fl i l n :
  fits 64 h -> 0 <= n < Z.of_nat (length l) ->
  exists e, idt_set_gate n h sel fl i l !! Z.to_nat n = Some e /\
    gate_offset e = h /\ selector e = sel /\ ist e = i mod 8 /\ flags e = fl.
Proof.
  intros Hh Hn. eexists. split; [apply list_lookup_insert_eq; lia|].
  split_and!; [|done| |done]; cbn [ist]; [|change 7 with (2 ^ 3 - 1); by rewrite land_low by lia].
  unfold gate_offset. cbn [base_low base_mid base_high].
  change 0xFFFF with (2 ^ 16 - 1). change 0xFFFFFFFF with (2 ^ 32 - 1).
  rewrite !land_low, !Z.shiftr_div_pow2 by lia. unfold wrap, fits in *.
  rewrite !Z.mod_mod by lia. divlia.
Qed.

Lemma set_gates_ok first n stubs ist_at l :
  0 <= n -> 0 <= first -> first + n <= Z.of_nat (length l) ->
  let l' := set_gates first n stubs ist_at l in
  length l' = length l /\
  (forall i, 0 <= i < n -> l' !! Z.to_nat (first + i) =
     idt_set_gate (first + i) (nth (Z.to_nat i) stubs 0) GDT_SEL_KCODE 0x8E (ist_at i) l !! Z.to_nat (first + i)) /\
  (forall v, ~ first <= Z.of_nat v < first + n -> l' !! v = l !! v).
Proof.
  intros Hn Hf Hl l'. unfold l', set_gates.
  apply (for_next_rule (fun k l1 => length l1 = length l /\
    (forall i, 0 <= i < k -> l1 !! Z.to_nat (first + i) =
       idt_set_gate (first + i) (nth (Z.to_nat i) stubs 0) GDT_SEL_KCODE 0x8E (ist_at i) l !! Z.to_nat (first + i)) /\
    (forall v, ~ first <= Z.of_nat v < first + k -> l1 !! v = l !! v))).
  - done.
  - split_and!; [done|lia|done].
  - intros k l1 Hk (Hlen & Hin & Hout). unfold idt_set_gate in *. split_and!.
    + by rewrite length_insert.
    + intros i Hi. destruct (decide (i = k)) as [->|Hne].
      * rewrite !list_lookup_insert_eq by lia. done.
      * rewrite list_lookup_insert_ne by lia. apply Hin. lia.
    + intros v Hv. rewrite list_lookup_insert_ne by lia. apply Hout. lia.
Qed.

Lemma tss_clear_ok (l : list idt_entry) :
  length l = 256%nat ->
  after_break (for_range 0 IDT_ENTRIES (fun i l => Next (<[Z.to_nat i := zero_entry]> l)) l) =
    replicate 256 zero_entry.
Proof.
  intros Hl. unfold IDT_ENTRIES.
  pose proof (for_next_rule (fun k l1 => length l1 = 256%nat /\
    forall i, 0 <= i < k -> l1 !! Z.to_nat i = Some zero_entry) 0 256
    (fun i l => <[Z.to_nat i := zero_entry]> l) l) as H0.
  destruct H0 as [Hlen Hz]; [done|by split; [|lia]| |].
  - intros i l1 Hi [Hlen Hz]. split; [by rewrite length_insert|]. intros j Hj.
    destruct (decide (j = i)) as [->|]; [apply list_lookup_insert_eq; lia|].
    rewrite list_lookup_insert_ne by lia. apply Hz. lia.
  - apply (list_eq_same_length _ _ 256); [by rewrite length_replicate|done|].
    intros i x y Hi Hx [-> _]%lookup_replicate.
    specialize (Hz (Z.of_nat i) ltac:(lia)). rewrite Nat2Z.id in Hz. congruence.
Qed.

(** What [ist_alloc] leaves alone, and the stack it returns: none when no
    frame is left, otherwise a zeroed frame of the window, from its top. *)
Definition same_tables s s' : Prop :=
  idt_entries s' = idt_entries s /\ idt_register s' = idt_register s /\ idtr s' = idtr s /\
  i_gdt s' = i_gdt s.

Definition stack_top (avail avail' : gset Z) (top : Z) : Prop :=
  (top = 0 /\ avail = ∅ /\ avail' = avail) \/
  (exists f, f ∈ avail /\ avail' = avail ∖ {[f]} /\
     top = HIGHER_HALF_BASE + f * PMM_FRAME_SIZE + PMM_FRAME_SIZE).

Definition in_window (avail : gset Z) : Prop := forall f, f ∈ avail -> 0 < f < 512.

Lemma ist_alloc_ok `{!FrameAllocOk FA} s idx :
  fa_inv (i_frames s) -> in_window (fa_avail (i_frames s)) ->
  exists top s', ist_alloc idx s = Done top s' [] /\ same_tables s s' /\ fa_inv (i_frames s') /\
    in_window (fa_avail (i_frames s')) /\ stack_top (fa_avail (i_frames s)) (fa_avail (i_frames s')) top.
Proof.
  intros Hi Hw. unfold ist_alloc, run. destruct (fa_alloc (i_frames s)) as [a fa] eqn:E.
  erewrite bind_step by reflexivity. rewrite E. cbn [fst snd].
  destruct (Z.eqb_spec a 0) as [->|Ha].
  - destruct (fa_alloc_none _ _ Hi E) as [-> Hn]. exists 0, (set_i_frames (i_frames s) s).
    split; [done|]. split; [done|]. split; [done|]. split; [done|]. by left.
  - destruct (fa_alloc_some _ _ _ Hi E Ha) as (f & -> & Hf & Hin & Hi' & Hav & _).
    pose proof (Hw f Hin) as Hf5. unfold PMM_FRAME_SIZE in *.
    assert (f * 4096 ⊞ HIGHER_HALF_BASE = HIGHER_HALF_BASE + f * 4096) as Hva.
    { rewrite Z.add_comm. apply wrap_small. unfold fits, HIGHER_HALF_BASE. lia. }
    eexists _, _. split.
    { rewrite Hva. erewrite bind_step.
      2: { unfold boot_memset_page. rewrite (proj2 (Z.leb_le _ _)), (proj2 (Z.ltb_lt _ _)) by lia. reflexivity. }
      erewrite bind_step by reflexivity. reflexivity. }
    split_and!; try done.
    + intros g Hg. apply Hw. simpl in Hg. rewrite Hav in Hg. set_solver.
    + right. exists f. split_and!; [done|done|].
      apply wrap_small. unfold fits, HIGHER_HALF_BASE, PMM_FRAME_SIZE. lia.
Qed.

(** The table [kinit_idt] builds. *)
Definition kernel_gates (es irqs : list Z) : list idt_entry :=
  set_gates 32 16 irqs (fun _ => 0) (set_gates 0 32 es ist_of (replicate 256 zero_entry)).

Lemma kernel_gates_ok es irqs :
  length es = 32%nat -> length irqs = 16%nat -> Forall (fits 64) (es ++ irqs) ->
  (forall v, 0 <= v < 48 -> exists e, kernel_gates es irqs !! Z.to_nat v = Some e /\
     Some (gate_offset e) = (es ++ irqs) !! Z.to_nat v /\ selector e = GDT_SEL_KCODE /\
     ist e = ist_of v /\ flags e = 0x8E) /\
  (forall v e, 48 <= v -> kernel_gates es irqs !! Z.to_nat v = Some e -> e = zero_entry).
Proof.
  intros He Hq Hf. unfold kernel_gates.
  set (l0 := replicate 256 zero_entry). assert (length l0 = 256%nat) as Hl0 by apply length_replicate.
  destruct (set_gates_ok 0 32 es ist_of l0) as (Hl1 & Hin1 & Hout1); [lia..|].
  set (l1 := set_gates 0 32 es ist_of l0) in *.
  destruct (set_gates_ok 32 16 irqs (fun _ => 0) l1) as (Hl2 & Hin2 & Hout2); [lia..|].
  assert (forall i x, (es ++ irqs) !! i = Some x -> fits 64 x) as Hfit by (intros i x; by apply Forall_lookup_1).
  split.
  - intros v Hv. destruct (decide (v < 32)) as [Hlt|Hge].
    + rewrite Hout2 by lia. pose proof (Hin1 v ltac:(lia)) as E. rewrite Z.add_0_l in E. rewrite E.
      destruct (lookup_lt_is_Some_2 es (Z.to_nat v) ltac:(lia)) as [h Hh].
      rewrite (nth_lookup_Some _ _ _ _ Hh), (lookup_app_l_Some _ _ _ _ Hh).
      destruct (gate_address h GDT_SEL_KCODE 0x8E (ist_of v) l0 v) as (e & Ee & Ho & Hs & Hist & Hfl).
      { apply (Hfit (Z.to_nat v)). by apply lookup_app_l_Some. }
      { lia. }
      exists e. split_and!; try done; [by rewrite Ho|]. rewrite Hist. apply Z.mod_small.
      unfold ist_of, IST_DF, IST_PF, IST_GP. repeat destruct (_ =? _); lia.
    + pose proof (Hin2 (v - 32) ltac:(lia)) as E. replace (32 + (v - 32)) with v in E by lia. rewrite E.
      destruct (lookup_lt_is_Some_2 irqs (Z.to_nat (v - 32)) ltac:(lia)) as [h Hh].
      assert ((es ++ irqs) !! Z.to_nat v = Some h) as Hv'.
      { rewrite lookup_app_r by lia. rewrite <-Hh. f_equal. lia. }
      rewrite (nth_lookup_Some _ _ _ _ Hh), Hv'.
      destruct (gate_address h GDT_SEL_KCODE 0x8E 0 l1 v) as (e & Ee & Ho & Hs & Hist & Hfl);
        [by apply (Hfit (Z.to_nat v))|lia|].
      exists e. split_and!; try done; [by rewrite Ho|]. rewrite Hist. unfold ist_of.
      by rewrite !(proj2 (Z.eqb_neq _ _)) by lia.
  - intros v e Hv. rewrite Hout2, Hout1 by lia. by intros [-> _]%lookup_replicate.
Qed.

(** C25: [kinit_idt] gives each of the 48 vectors a present ring-0 interrupt
    gate whose address, read as the CPU reads it, is the vector's stub, and no
    other vector a present gate; double fault, page fault and protection fault
    use the stacks 1 to 3 of the TSS, which are three different frames of the
    kernel's window, each null only when the allocator had run dry. *)
Theorem kinit_idt_gates `{!FrameAllocOk FA} s idt_addr es irqs :
  length (idt_entries s) = 256%nat -> length es = 32%nat -> length irqs = 16%nat ->
  Forall (fits 64) (es ++ irqs) ->
  fa_inv (i_frames s) -> in_window (fa_avail (i_frames s)) ->
  exists s' a1 a2 a3, kinit_idt idt_addr es irqs s = Done tt s' [KPrint ("IDT: 256 entries loaded" +:+ NL)] /\
    base (idtr s') = idt_addr /\
    (forall v, 0 <= v < 48 -> exists e, gate s' v = Some e /\ gate_present e = true /\ gate_dpl e = 0 /\
       gate_type e = 0xE /\ selector e = GDT_SEL_KCODE /\ Some (gate_offset e) = (es ++ irqs) !! Z.to_nat v /\
       ist e = ist_of v) /\
    (forall v e, 48 <= v -> gate s' v = Some e -> gate_present e = false) /\
    let t := tss_value (i_gdt s') in
    stack_top (fa_avail (i_frames s)) a1 (ist1 t) /\ stack_top a1 a2 (ist2 t) /\ stack_top a2 a3 (ist3 t).
Proof.
  intros Hl He Hq Hf Hi Hw. unfold kinit_idt.
  erewrite bind_step by reflexivity. erewrite bind_step by reflexivity.
  cbn [idt_entries set_idt_register]. rewrite tss_clear_ok by done. set (s0 := set_idt _ _).
  destruct (ist_alloc_ok s0 IST_DF Hi Hw) as (t1 & s1 & E1 & (I1 & R1 & _ & G1) & Hi1 & Hw1 & T1).
  destruct (ist_alloc_ok s1 IST_PF Hi1 Hw1) as (t2 & s2 & E2 & (I2 & R2 & _ & G2) & Hi2 & Hw2 & T2).
  destruct (ist_alloc_ok s2 IST_GP Hi2 Hw2) as (t3 & s3 & E3 & (I3 & R3 & _ & G3) & Hi3 & Hw3 & T3).
  eexists _, _, _, _. rewrite (bind_step _ _ _ _ _ E1), (bind_step _ _ _ _ _ E2), (bind_step _ _ _ _ _ E3).
  split.
  { do 4 (erewrite bind_step by reflexivity). reflexivity. }
  cbn [idtr set_idtr idt_register i_gdt set_idt set_i_gdt idt_entries].
  rewrite R3, R2, R1, I3, I2, I1. cbn [idt_entries s0 set_idt idt_register set_idt_register base].
  fold (kernel_gates es irqs). destruct (kernel_gates_ok es irqs He Hq Hf) as [Hin Hout].
  split_and!; [done| | |exact T1|exact T2|exact T3].
  - intros v Hv. destruct (Hin v Hv) as (e & Ee & Ho & Hs & Hist & Hfl). exists e.
    unfold gate.
    match goal with |- context [limit ?r] => change (limit r) with 4095 end.
    rewrite (proj2 (Z.leb_le _ _)) by lia. cbn [idt_entries].
    unfold gate_present, gate_dpl, gate_type. rewrite Hfl. by split_and!.
  - intros v e Hv. unfold gate. destruct (_ <=? _); [|done]. cbn [idt_entries].
    intros Ee. by rewrite (Hout v e Hv Ee).
Qed.
End idt.
