(* ===== verification/IdtBoot.v ===== *)
(** * The interrupt stacks at boot

    [kernel_main] calls [kinit_idt] before [pmm_init]: the descriptor table
    over the frame allocator as it is then, and, for comparison, over one that
    has frames. *)
From S2P Require Import Prelude Effects PmmInterface PagingInterface Paging Gdt.
From S2P Require Import Pmm PmmInit PagingProofs PagingTheorems Idt.

Definition idt_reset {FA} (g : gdt_state) (fa : FA) : idt_state FA :=
  IdtState (replicate 256 zero_entry) (TablePtr 0 0) (TablePtr 0 0) [0; 0; 0] g ∅ fa.

Lemma boot_alloc ram : fa_alloc (pmm_boot ram) = (0, pmm_boot ram).
Proof. reflexivity. Qed.

Lemma boot_ist_alloc (s : idt_state pmm_state) ram idx :
  i_frames s = pmm_boot ram -> ist_alloc idx s = Done 0 s [].
Proof.
  intros Hf. unfold ist_alloc, run. destruct s as [l r q k g m fr]. simpl in Hf. subst fr.
  erewrite bind_step by reflexivity. reflexivity.
Qed.

(** In the order of [kernel_main] the frame allocator has no frames yet
    when [kinit_idt] asks for the stacks of the fault handlers: the double
    fault, page fault and protection fault gates name the stacks 1 to 3, and
    all three are null. *)
Theorem kinit_idt_before_pmm_init s ram idt_addr es irqs :
  i_frames s = pmm_boot ram -> length (idt_entries s) = 256%nat ->
  length es = 32%nat -> length irqs = 16%nat -> Forall (fits 64) (es ++ irqs) ->
  exists s' w, kinit_idt idt_addr es irqs s = Done tt s' w /\
    ist1 (tss_value (i_gdt s')) = 0 /\ ist2 (tss_value (i_gdt s')) = 0 /\ ist3 (tss_value (i_gdt s')) = 0 /\
    forall v i, (v, i) ∈ [(8, 1); (14, 2); (13, 3)] ->
      exists e, gate s' v = Some e /\ gate_present e = true /\ ist e = i.
Proof.
  intros Hf Hl He Hq Hfit. unfold kinit_idt.
  erewrite bind_step by reflexivity. erewrite bind_step by reflexivity.
  cbn [idt_entries set_idt_register]. rewrite tss_clear_ok by done. set (s0 := set_idt _ _).
  assert (i_frames s0 = pmm_boot ram) as Hf0 by done.
  do 3 (rewrite (bind_step _ _ _ _ _ (boot_ist_alloc s0 ram _ Hf0))).
  eexists _, _. split; [do 4 (erewrite bind_step by reflexivity); reflexivity|].
  split; [done|]. split; [done|]. split; [done|]. intros v i Hv.
  assert (0 <= v < 48 /\ i = ist_of v) as [Hv48 ->].
  { by repeat (apply elem_of_cons in Hv as [[= -> ->]|Hv]); [..|apply elem_of_nil in Hv]. }
  destruct (proj1 (kernel_gates_ok es irqs He Hq Hfit) v Hv48) as (e & Ee & _ & _ & Hist & Hfl).
  exists e. unfold gate. match goal with |- context [limit ?r] => change (limit r) with 4095 end.
  rewrite (proj2 (Z.leb_le _ _)) by lia. unfold gate_present. rewrite Hfl. by split_and!.
Qed.

Definition sample_gdt : gdt_state :=
  kinit_gdt 0xFFFFFFFF80109000 0xFFFFFFFF8010A000
    (GdtState [] zero_tss (TablePtr 0 0) (SegRegs (TablePtr 0 0) 0 0 0 0 0 0 0)).

(** The linker's stubs, sixteen bytes apart. *)
Definition sample_stubs (first n : Z) : list Z :=
  (fun i => 0xFFFFFFFF80104000 + 16 * i) <$> seqZ first n.

Lemma sample_stubs_fit : Forall (fits 64) (sample_stubs 0 32 ++ sample_stubs 32 16).
Proof. decide_done. Qed.

Lemma kinit_idt_before_pmm_init_witness :
  exists s', ist1 (tss_value (i_gdt s')) = 0 /\
    exists e, gate (FA := pmm_state) s' 8 = Some e /\ gate_present e = true /\ ist e = 1.
Proof.
  destruct (kinit_idt_before_pmm_init (idt_reset sample_gdt (pmm_boot ∅)) ∅ 0xFFFFFFFF8010B000
    (sample_stubs 0 32) (sample_stubs 32 16) eq_refl eq_refl eq_refl eq_refl sample_stubs_fit)
    as (s' & w & _ & H1 & _ & _ & Hg).
  exists s'. split; [exact H1|]. apply (Hg 8 1). apply list_elem_of_here.
Defined.

#[local] Opaque low_pmm.

Lemma kinit_idt_gates_witness :
  exists s' : idt_state pmm_state,
    exists e, gate s' 33 = Some e /\ gate_offset e = 0xFFFFFFFF80104210.
Proof.
  destruct low_pmm_ok as [Hwf Hlow].
  assert (fa_inv low_pmm) as Hinv.
  { split; [exact Hwf|]. intros H0. pose proof (Hlow 0 H0). lia. }
  assert (Idt.in_window (fa_avail low_pmm)) as Hw.
  { intros f Hf. pose proof (Hlow f Hf). lia. }
  destruct (kinit_idt_gates (idt_reset sample_gdt low_pmm) 0xFFFFFFFF8010B000
    (sample_stubs 0 32) (sample_stubs 32 16) eq_refl eq_refl eq_refl sample_stubs_fit Hinv Hw)
    as (s' & a1 & a2 & a3 & _ & _ & Hg & _).
  destruct (Hg 33 ltac:(split; [discriminate|reflexivity])) as (e & Ee & _ & _ & _ & _ & Ho & _).
  exists s', e. split; [exact Ee|].
  assert ((sample_stubs 0 32 ++ sample_stubs 32 16) !! Z.to_nat 33 = Some 0xFFFFFFFF80104210) as E33
    by (vm_compute; reflexivity).
  rewrite E33 in Ho. by injection Ho.
Defined.
