(* ===== verification/Elf.v ===== *)
(** * The ELF64 loader (src/fs/elf.c, elf.h): the model

    [elf_load] reads the image, an array of bytes in kernel memory, and maps
    the pages of its PT_LOAD segments in the address space of a PML4, with
    frames of the allocator.  It runs on the state of [Paging.v]; a byte of a
    frame is a byte of the 64-bit word that holds it.  A read outside the
    array stops with [OutOfBounds]. *)
From S2P Require Import Prelude Effects PmmInterface PagingInterface Paging Serial.

Definition ELFMAG0 : Z := 0x7F.
Definition ELFMAG1 : Z := 69.   (* 'E' *)
Definition ELFMAG2 : Z := 76.   (* 'L' *)
Definition ELFMAG3 : Z := 70.   (* 'F' *)
Definition ELFCLASS64 : Z := 2.
Definition ELFDATA2LSB : Z := 1.
Definition ET_EXEC : Z := 2.
Definition EM_X86_64 : Z := 62.
Definition PT_LOAD : Z := 1.
Definition PF_W : Z := 0x2.

(** [elf64_ehdr_t] and [elf64_phdr_t]: packed, little endian. *)
Record elf64_ehdr := Ehdr {
  e_ident : list Z;
  e_type : Z;
  e_machine : Z;
  e_version : Z;
  e_entry : Z;
  e_phoff : Z;
  e_shoff : Z;
  e_flags : Z;
  e_ehsize : Z;
  e_phentsize : Z;
  e_phnum : Z;
  e_shentsize : Z;
  e_shnum : Z;
  e_shstrndx : Z;
}.

Record elf64_phdr := Phdr {
  p_type : Z;
  p_flags : Z;
  p_offset : Z;
  p_vaddr : Z;
  p_paddr : Z;
  p_filesz : Z;
  p_memsz : Z;
  p_align : Z;
}.

Definition sizeof_ehdr : Z := 64.
Definition sizeof_phdr : Z := 56.

(** The value of [n] bytes at [off]. *)
Definition le (l : list Z) : Z := foldr (fun b v => b + 256 * v) 0 l.
Definition slice (l : list Z) (off n : nat) : list Z := take n (drop off l).
Definition le_at (l : list Z) (off n : nat) : Z := le (slice l off n).

Definition parse_ehdr (l : list Z) : elf64_ehdr :=
  Ehdr (slice l 0 16) (le_at l 16 2) (le_at l 18 2) (le_at l 20 4) (le_at l 24 8) (le_at l 32 8)
    (le_at l 40 8) (le_at l 48 4) (le_at l 52 2) (le_at l 54 2) (le_at l 56 2) (le_at l 58 2)
    (le_at l 60 2) (le_at l 62 2).

Definition parse_phdr (l : list Z) : elf64_phdr :=
  Phdr (le_at l 0 4) (le_at l 4 4) (le_at l 8 8) (le_at l 16 8) (le_at l 24 8) (le_at l 32 8)
    (le_at l 40 8) (le_at l 48 8).

(** A byte of a word, read and written. *)
Definition byte_of (w k : Z) : Z := Z.land (Z.shiftr w (8 * k)) 0xFF.
Definition set_byte (w k v : Z) : Z :=
  Z.lor (Z.land w (notw 64 (Z.shiftl 0xFF (8 * k)))) (Z.shiftl v (8 * k)).

(** A byte of physical memory. *)
Definition read_byte (m : gmap Z Z) (pa : Z) : Z := byte_of (rdm m (pa - pa mod 8)) (pa mod 8).
Definition write_byte (pa v : Z) (m : gmap Z Z) : gmap Z Z :=
  <[pa - pa mod 8 := set_byte (rdm m (pa - pa mod 8)) (pa mod 8) v]> m.

(** The digits of the debug output. *)
Definition char_byte (c : Z) : Ascii.ascii := Ascii.ascii_of_N (Z.to_N (wrap 8 c)).
Definition hex_char (v : Z) : Ascii.ascii := char_byte (hex_digit "0123456789ABCDEF" v 0).
(** [char buf[5] = "0000"] with its first three digits set. *)
Definition phnum_buf (n : Z) : string :=
  String (char_byte (48 + n / 100)) (String (char_byte (48 + n / 10 mod 10))
    (String (char_byte (48 + n mod 10)) (String (char_byte 48) EmptyString))).

Section elf.
Context {FA : Type} `{FrameAlloc FA}.
Context (L : layout).
Local Abbreviation K := (M (pg_state FA)).

(** [n] bytes of the image from [off] on. *)
Definition read_bytes (data : list Z) (off n : Z) : K (list Z) :=
  if (0 <=? off) && (off + n <=? Z.of_nat (length data)) then
    mret (slice data (Z.to_nat off) (Z.to_nat n))
  else stop (OutOfBounds off).

Definition store_byte (p v : Z) : K unit :=
  pa ← translate L p; modify (fun st => set_pmem (write_byte pa v (pmem st)) st).

(** [memcpy(p, data + off, n)] *)
Definition memcpy_data (p : Z) (data : list Z) (off n : Z) : K unit :=
  mfor (R := unit) (Z.to_nat n) 0 (fun i =>
    b ← read_bytes data (off + i) 1;
    store_byte (p + i) (nth 0 b 0);;
    mret None);;
  mret tt.

(** The copy of a page's file content; the frame is zeroed before. *)
Definition copy_page (data : list Z) (size : Z) (ph : elf64_phdr) (va frame : Z) : K unit :=
  let file_end := p_vaddr ph ⊞ p_filesz ph in
  if (p_vaddr ph <? va ⊞ PMM_FRAME_SIZE) && (va <? file_end) then
    let copy_start := if p_vaddr ph <? va then va else p_vaddr ph in
    let copy_end := if va ⊞ PMM_FRAME_SIZE <? file_end then va ⊞ PMM_FRAME_SIZE else file_end in
    let offset := copy_start ⊟ p_vaddr ph in
    let len := copy_end ⊟ copy_start in
    let file_off := p_offset ph ⊞ offset in
    let avail := if file_off <? size then size - file_off else 0 in
    if (0 <? len) && (0 <? avail) then
      let cpy := if len <? avail then len else avail in
      p ← paging_phys_to_virt L frame;
      memcpy_data p data file_off cpy
    else mret tt
  else mret tt.

(** A new table for [table[idx]]: at its physical address it is zeroed, then
    linked ([false] is [return -1]). *)
Definition user_link (table idx rw : Z) : K bool :=
  tbl ← alloc_frame;
  if tbl =? 0 then mret false
  else
    p ← paging_phys_to_virt L tbl;
    memset_page L p;;
    store L table idx (Z.lor tbl rw);;
    mret true.

(** One of the three blocks that find or make the next table; [None] is
    [return -1]. *)
Definition user_descend (table idx rw : Z) : K (option Z) :=
  e ← load L table idx;
  linked ← (if present e then mret true else user_link table idx rw);
  if linked : bool then
    e ← load L table idx;
    next ← paging_phys_to_virt L (page_base e);
    mret (Some next)
  else mret None.

(** The second half of the page loop: the frame becomes the page of [va]. *)
Definition map_user_page (pml4_pa va frame flags : Z) : K bool :=
  user_pml4 ← paging_phys_to_virt L pml4_pa;
  let rw := Z.lor (Z.lor PAGE_PRESENT PAGE_WRITABLE) PAGE_USER in
  pdpt ← user_descend user_pml4 (pml4_idx va) rw;
  match pdpt with
  | None => mret false
  | Some pdpt =>
      pd ← user_descend pdpt (pdpt_idx va) rw;
      match pd with
      | None => mret false
      | Some pd =>
          pt ← user_descend pd (pd_idx va) rw;
          match pt with
          | None => mret false
          | Some pt =>
              store L pt (pt_idx va) (Z.lor (page_base frame) flags);;
              mret true
          end
      end
  end.

(** The body of the page loop; [Some r] is [return r]. *)
Definition load_page (data : list Z) (size pml4_pa : Z) (ph : elf64_phdr) (flags va : Z) : K (option Z) :=
  frame ← alloc_frame;
  if frame =? 0 then
    say (SerialPuts ("[ELF] ERR: pmm_alloc_frame failed" +:+ NL));;
    mret (Some (-1))
  else
    p ← paging_phys_to_virt L frame;
    memset_page L p;;
    copy_page data size ph va frame;;
    ok ← map_user_page pml4_pa va frame flags;
    mret (if ok : bool then None else Some (-1)).

Definition segment_flags (ph : elf64_phdr) : Z :=
  let flags := Z.lor (Z.lor PAGE_PRESENT PAGE_WRITABLE) PAGE_USER in
  if Z.land (p_flags ph) PF_W =? 0 then Z.lor flags PAGE_WRITABLE else flags.

(** The pages of a segment. *)
Definition load_segment (data : list Z) (size pml4_pa : Z) (ph : elf64_phdr) : K (option Z) :=
  let vaddr_start := page_base (p_vaddr ph) in
  let vaddr_end := page_base (p_vaddr ph ⊞ p_memsz ph ⊞ 0xFFF) in
  for_pages vaddr_start vaddr_end (load_page data size pml4_pa ph (segment_flags ph)).

(** The body of the loop over the program headers. *)
Definition load_phdr (data : list Z) (size pml4_pa : Z) (ehdr : elf64_ehdr) (i : Z) : K (option Z) :=
  let ph_off := e_phoff ehdr ⊞ (i ⊠ e_phentsize ehdr) in
  if size <? ph_off ⊞ sizeof_phdr then
    say (SerialPuts ("[ELF] ERR: phdr past end" +:+ NL));;
    mret (Some (-1))
  else
    l ← read_bytes data ph_off sizeof_phdr;
    let ph := parse_phdr l in
    if negb (p_type ph =? PT_LOAD) then
      say (SerialPuts ("[ELF] skipping non-LOAD segment" +:+ NL));;
      mret None
    else
      say (SerialPuts "[ELF] LOAD: vaddr=0x");;
      say (SerialPutHex64 (p_vaddr ph));;
      say (SerialPuts " filesz=0x");;
      say (SerialPutHex64 (p_filesz ph));;
      say (SerialPuts " memsz=0x");;
      say (SerialPutHex64 (p_memsz ph));;
      say (SerialPuts NL);;
      load_segment data size pml4_pa ph.

(** The checks of the identification, in the code's order. *)
Definition bad_ident (ehdr : elf64_ehdr) : option string :=
  let id i := nth i (e_ident ehdr) 0 in
  if negb (id 0%nat =? ELFMAG0) || negb (id 1%nat =? ELFMAG1) ||
     negb (id 2%nat =? ELFMAG2) || negb (id 3%nat =? ELFMAG3) then Some "[ELF] ERR: bad magic"%string
  else if negb (id 4%nat =? ELFCLASS64) then Some "[ELF] ERR: not 64-bit"%string
  else if negb (id 5%nat =? ELFDATA2LSB) then Some "[ELF] ERR: not little-endian"%string
  else None.

(** The dump of the first twenty bytes. *)
Definition dump_bytes (data : list Z) : K unit :=
  say (SerialPuts "[ELF] bytes: ");;
  mfor (R := unit) 20 0 (fun i =>
    b ← read_bytes data i 1;
    say (SerialPuts (String (hex_char (Z.shiftr (nth 0 b 0) 4))
      (String (hex_char (Z.land (nth 0 b 0) 0xF)) " ")));;
    mret None);;
  say (SerialPuts NL).

(** The report of a header that passed. *)
Definition report_header (ehdr : elf64_ehdr) : K unit :=
  say (SerialPuts "[ELF] header OK, entry=0x");;
  say (SerialPutHex64 (e_entry ehdr));;
  say (SerialPuts " type=0x");;
  say (SerialPutHex64 (e_type ehdr));;
  say (SerialPuts " machine=0x");;
  say (SerialPutHex64 (e_machine ehdr));;
  say (SerialPuts " phnum=");;
  say (SerialPuts (phnum_buf (e_phnum ehdr)));;
  say (SerialPuts NL).

(** [elf_load]: [data] is [None] for NULL, [entry_out] tells whether the
    pointer is not NULL; the result is the return value and what was stored
    through [entry_out]. *)
Definition elf_load (data : option (list Z)) (size pml4_pa : Z) (entry_out : bool) : K (Z * option Z) :=
  match data with
  | Some data =>
      if (size <? sizeof_ehdr) || negb entry_out then
        say (SerialPuts ("[ELF] ERR: bad args" +:+ NL));; mret (-1, None)
      else
        l ← read_bytes data 0 sizeof_ehdr;
        let ehdr := parse_ehdr l in
        match bad_ident ehdr with
        | Some msg => say (SerialPuts (msg +:+ NL));; mret (-1, None)
        | None =>
            dump_bytes data;;
            if negb (e_type ehdr =? ET_EXEC) then
              say (SerialPuts ("[ELF] ERR: not executable" +:+ NL));; mret (-1, None)
            else if negb (e_machine ehdr =? EM_X86_64) then
              say (SerialPuts ("[ELF] ERR: not x86_64" +:+ NL));; mret (-1, None)
            else
              report_header ehdr;;
              r ← mfor (Z.to_nat (e_phnum ehdr)) 0 (load_phdr data size pml4_pa ehdr);
              match r with
              | Some r => mret (r, Some (e_entry ehdr))
              | None =>
                  say (SerialPuts ("[ELF] load OK" +:+ NL));;
                  mret (0, Some (e_entry ehdr))
              end
        end
  | None => say (SerialPuts ("[ELF] ERR: bad args" +:+ NL));; mret (-1, None)
  end.
End elf.
