(* ===== verification/UserMap.v ===== *)
(** * Building user mappings

    [map_user_page] of the ELF loader, while all page tables and free frames
    lie in the kernel's window: what it does to the walk of the MMU, to the
    page tables of both halves, to the frames and to the rest of memory. *)
From S2P Require Import Prelude Effects PmmInterface PagingInterface Paging PageTable PagingProofs.
From S2P Require Import FreeSpace PagingSpec Serial Elf.

Section user.
Context {FA : Type} `{HFA : FrameAlloc FA} `{!FrameAllocOk FA}.
Context (L : layout) (HL : layout_ok L) (root : Z).
Implicit Types (st : pg_state FA) (va a f t : Z).
Local Abbreviation pg_inv := (pg_inv L root).
Local Abbreviation no_new_tables := (no_new_tables root).

(** The address space is well formed, its tables and the free frames are in
    the window, so that no access goes through the scratch page, and its user
    half has no 2 MiB pages. *)
Record ready st : Prop := {
  rd_inv : pg_inv st;
  rd_tables : forall q t, valid_path q -> table_at (pmem st) root q = Some t -> t < 0x1FF000;
  rd_frames : forall f, f ∈ fa_avail (frames st) -> f < 511;
  rd_small : no_huge_pages (pmem st) root;
}.

(** The address is in no table of the space and in no free frame. *)
Definition elsewhere st a : Prop :=
  (forall f, f ∈ fa_avail (frames st) -> a / 4096 <> f) /\
  (forall q t, valid_path q -> table_at (pmem st) root q = Some t -> a / 4096 <> t / 4096).

(** What the loader may do to the state when it maps the pages of [P]. *)
Record advances (P : Z -> Prop) st st' : Prop := {
  ad_ready : ready st';
  ad_walk : forall va, ~ on_scratch_page va -> (forall va', P va' -> ~ same_page va' va) ->
    walk (pmem st') root va = walk (pmem st) root va;
  ad_words : forall a, elsewhere st a -> pmem st' !! a = pmem st !! a;
  ad_grow : forall q t, valid_path q -> table_at (pmem st) root q = Some t -> table_at (pmem st') root q = Some t;
  ad_new : no_new_tables st st';
  ad_avail : fa_avail (frames st') ⊆ fa_avail (frames st);
  ad_owned : forall f, fa_owned (frames st') f <-> fa_owned (frames st) f;
  ad_kernel : forall q t a, valid_path (511 :: q) -> table_at (pmem st) root (511 :: q) = Some t ->
    a / 4096 = t / 4096 -> pmem st' !! a = pmem st !! a;
  ad_regs : cr3 st' = cr3 st /\ new_pml4 st' = new_pml4 st;
}.

(** How many frames went; fewer than so many were there. *)
Definition spent (n : nat) st st' : Prop :=
  (size (fa_avail (frames st)) <= size (fa_avail (frames st')) + n)%nat.
Definition short (n : nat) st : Prop := (size (fa_avail (frames st)) < n)%nat.

(** Every frame that went became a table of the user half, or is one of [X]. *)
Definition in_tables st f : Prop :=
  exists q, valid_path q /\ head q <> Some 511 /\ table_at (pmem st) root q = Some (f * PMM_FRAME_SIZE).
Definition kept (X : Z -> Prop) st st' : Prop :=
  forall f, f ∈ fa_avail (frames st) -> f ∈ fa_avail (frames st') \/ in_tables st' f \/ X f.

Lemma kept_refl X st : kept X st st.
Proof. by left. Qed.

Lemma advances_refl P st : ready st -> advances P st st.
Proof. intros Hr. split; try done. intros q t _ Ht. by left. Qed.

Lemma advances_elsewhere P st st' a : advances P st st' -> elsewhere st a -> elsewhere st' a.
Proof.
  intros [_ _ _ _ Hn Ha _ _ _] [H1 H2]. split.
  - intros f Hf. apply H1, Ha, Hf.
  - intros q t Hq Ht. destruct (Hn q t Hq Ht) as [Ht'|(f & Hf & ->)]; [by apply (H2 q)|].
    unfold PMM_FRAME_SIZE. rewrite Z.div_mul by done. by apply H1.
Qed.

Lemma advances_trans P st1 st2 st3 : advances P st1 st2 -> advances P st2 st3 -> advances P st1 st3.
Proof.
  intros H1 H2. pose proof H1 as [_ W1 D1 G1 N1 A1 O1 K1 [C1 M1]]. pose proof H2 as [R2 W2 D2 G2 N2 A2 O2 K2 [C2 M2]]. split.
  - done.
  - intros va Hs Hp. by rewrite W2, W1.
  - intros a Ha. rewrite D2, D1; [done|done|]. by apply (advances_elsewhere P st1).
  - intros q t Hq Ht. by apply G2, G1.
  - intros q t Hq Ht. destruct (N2 q t Hq Ht) as [Ht'|(f & Hf & ->)]; [by apply N1|].
    right. exists f. split; [by apply A1|done].
  - clear -A1 A2. set_solver.
  - intros f. by rewrite O2.
  - intros q t a Hq Ht Ha. rewrite (K2 q t) by auto. by apply (K1 q t).
  - by rewrite C2, M2.
Qed.

Lemma kept_trans P X Y st1 st2 st3 :
  kept X st1 st2 -> advances P st2 st3 -> kept Y st2 st3 -> kept (fun f => X f \/ Y f) st1 st3.
Proof.
  intros H1 Ha H2 f Hf. destruct (H1 f Hf) as [Hf2|[(q & Hq & Hh & Ht)|?]]; [|right; left|tauto].
  - destruct (H2 f Hf2) as [?|[?|?]]; tauto.
  - exists q. split_and!; [done..|]. by apply (ad_grow _ _ _ Ha).
Qed.

Lemma kept_weaken (X Y : Z -> Prop) st st' : (forall f, X f -> Y f) -> kept X st st' -> kept Y st st'.
Proof. intros Hxy Hk f Hf. destruct (Hk f Hf) as [?|[?|?]]; auto. Qed.

Lemma kept_step P st1 st2 st3 :
  kept (fun _ => False) st1 st2 -> advances P st2 st3 -> kept (fun _ => False) st2 st3 ->
  kept (fun _ => False) st1 st3.
Proof.
  intros H1 Ha H2. apply (kept_weaken (fun _ => False \/ False)); [tauto|].
  by apply (kept_trans P _ _ st1 st2 st3).
Qed.

Lemma advances_weaken (P Q : Z -> Prop) st st' :
  (forall va, P va -> Q va) -> advances P st st' -> advances Q st st'.
Proof.
  intros Hpq [R W D G N A O K C]. split; try done. intros va Hs Hq. apply W; [done|].
  intros va' Hp. by apply Hq, Hpq.
Qed.

(** ** Pointers *)

Lemma phys_to_virt_low st t :
  aligned t -> t < 0x1FF000 -> paging_phys_to_virt L t st = Done (t + HIGHER_HALF_BASE) st [].
Proof.
  intros [[H0 _] _] Ht. unfold paging_phys_to_virt, virt_for_phys.
  rewrite (proj2 (Z.ltb_lt _ _)) by lia. unfold mret, M_ret. f_equal. apply wrap_small.
  unfold fits, HIGHER_HALF_BASE. lia.
Qed.

(** ** Writes to a frame that is no table *)

Section private.
Context (m m' : gmap Z Z) (f : Z).
Context (Hs : space L m root) (Hf : aligned f) (Hfresh : fresh m root f).
Context (Hout : forall a, a / 4096 <> f / 4096 -> m' !! a = m !! a).

Lemma private_entry t i : aligned t -> t <> f -> valid_idx i -> entry m' t i = entry m t i.
Proof.
  intros [_ Ht] Hne Hi. destruct Hf as [_ Hfa]. unfold entry, rdm, valid_idx in *. rewrite Hout; [done|]. divlia.
Qed.

Lemma private_tables : same_tables m m' root.
Proof.
  intros q Hq. apply table_at_agree. intros q' j r t -> Ht.
  apply valid_path_split in Hq as [Hq' Hj]. destruct (sp_tree _ _ _ Hs) as [Hr _].
  apply private_entry; [table_side| |done]. intros ->. by apply (Hfresh q').
Qed.

Lemma private_space : space L m' root.
Proof.
  pose proof private_tables as Ht. pose proof (window_aligned L m root Hs) as Hw. split.
  - eapply same_tables_tree; [done|apply Hs].
  - rewrite Ht by apply valid_window. apply Hs.
  - intros i Hi. rewrite private_entry; [by apply Hs|done| |unfold valid_idx; lia].
    intros Heq. apply (Hfresh window_path); [apply valid_window|]. rewrite (sp_window _ _ _ Hs). congruence.
  - eapply fresh_same_tables; [done|apply Hs].
Qed.

Lemma private_small : no_huge_pages m root -> no_huge_pages m' root.
Proof.
  intros Hsm i j k t Hi Hv Ht. pose proof Hv as [Hv' _]. rewrite !Forall_cons in Hv'.
  pose proof (valid_path_prefix [i; j] [k] Hv) as Hv2.
  rewrite private_tables in Ht by done. pose proof (tree_root _ _ (sp_tree _ _ _ Hs)) as Hr.
  rewrite private_entry; [by apply (Hsm i j k)|table_side| |tauto]. intros ->. by apply (Hfresh [i; j]).
Qed.

Lemma private_walk va : walk m' root va = walk m root va.
Proof.
  unfold walk. rewrite private_tables by auto. destruct (table_at m root (va_path va)) as [t|] eqn:Ht; [|done].
  simpl. destruct (sp_tree _ _ _ Hs) as [Hr _]. rewrite private_entry; auto; [table_side|].
  intros ->. by eapply Hfresh.
Qed.
End private.

Lemma private_ready st m' f :
  ready st -> aligned f -> fresh (pmem st) root f ->
  (forall a, a / 4096 <> f / 4096 -> m' !! a = pmem st !! a) ->
  ready (set_pmem m' st) /\ same_tables (pmem st) m' root /\
  (forall va, walk m' root va = walk (pmem st) root va).
Proof.
  intros [Hi Ht Hfr Hsm] Hf Hfresh Hout. pose proof (pi_space _ _ _ Hi) as Hs.
  pose proof (private_tables _ m' f Hs Hf Hfresh Hout) as Hsame. split; [|split; [done|]].
  - split; [|simpl|done|].
    + apply pg_inv_tables; [done| |done]. by apply (private_space (pmem st) m' f).
    + intros q t Hq Hq'. rewrite Hsame in Hq' by done. by apply (Ht q).
    + by apply (private_small (pmem st) m' f).
  - intros va. by apply (private_walk (pmem st) m' f).
Qed.

(** ** Frames *)

Local Abbreviation nothing := (fun _ : Z => False).

Lemma alloc_ready st a fa :
  ready st -> fa_alloc (frames st) = (a, fa) ->
  (a = 0 /\ fa = frames st /\ fa_avail (frames st) = ∅) \/
  (a <> 0 /\ exists f, a = f * PMM_FRAME_SIZE /\ f ∈ fa_avail (frames st) /\ ~ f ∈ fa_avail fa /\ 0 < f < 511 /\
     aligned a /\ fresh (pmem st) root a /\ ready (set_frames fa st) /\ advances nothing st (set_frames fa st) /\
     spent 1 st (set_frames fa st) /\ kept (eq f) st (set_frames fa st)).
Proof.
  intros [Hi Ht Hfr Hsm] E. destruct (decide (a = 0)) as [->|Hne].
  - left. destruct (fa_alloc_none _ _ (pi_alloc _ _ _ Hi) E) as [-> ?]. done.
  - right. split; [done|].
    destruct (alloc_frame_ok L (layout_pt_hi L HL) root st a fa Hi E Hne) as (H1 & f & -> & Hin & Hout & Hal & Hfresh & _).
    pose proof (Hfr f Hin) as H511. assert (0 < f) as H0.
    { destruct Hal as [[? _] _]. unfold PMM_FRAME_SIZE in *. lia. }
    assert (ready (set_frames fa st)) as Hr.
    { split; [apply H1|done| |done]. intros g Hg. apply Hfr, (ext_avail _ _ _ _ _ H1), Hg. }
    destruct (fa_alloc_some _ _ _ (pi_alloc _ _ _ Hi) E Hne) as (g & Hg & _ & Hgin & _ & Hav & Hown).
    assert (g = f) as -> by (unfold PMM_FRAME_SIZE in Hg; lia).
    assert (spent 1 st (set_frames fa st)) as Hsp.
    { unfold spent. simpl. rewrite Hav, size_difference, size_singleton by (clear -Hgin; set_solver). lia. }
    assert (kept (eq f) st (set_frames fa st)) as Hkept.
    { intros g Hgf. simpl. rewrite Hav. destruct (decide (f = g)) as [->|]; [by right; right|left].
      clear -Hgf n. set_solver. }
    exists f. split_and!; try done. split; try done; try apply H1. intros q t _ Hq. by left.
Qed.

(** A frame just taken holds nothing and is nobody else's. *)
Lemma taken_elsewhere st f a :
  ready st -> ~ f ∈ fa_avail (frames st) -> aligned (f * PMM_FRAME_SIZE) ->
  fresh (pmem st) root (f * PMM_FRAME_SIZE) ->
  f * PMM_FRAME_SIZE <= a < f * PMM_FRAME_SIZE + 4096 -> elsewhere st a.
Proof.
  intros Hr Hout Hal Hfresh Ha. unfold PMM_FRAME_SIZE in *.
  assert (a / 4096 = f) as Hd by divlia. rewrite <-Hd in Hout. split.
  - intros g Hg Heq. apply Hout. by rewrite Heq.
  - intros q t Hq Ht Heq. apply (Hfresh q Hq). rewrite Ht. f_equal.
    assert (aligned t) as [_ Hta] by (eapply table_aligned; [apply (rd_inv _ Hr)|exact Ht]). divlia.
Qed.

Lemma zero_frame_out f m a :
  aligned f -> a / 4096 <> f / 4096 -> zero_frame f m !! a = m !! a.
Proof.
  intros [_ Hf] Ha. rewrite lookup_zero_frame, decide_False; [done|]. divlia.
Qed.

(** Clearing a frame that was taken from [st0]. *)
Lemma private_advances P st0 st m' f :
  advances P st0 st -> f ∈ fa_avail (frames st0) -> aligned (f * PMM_FRAME_SIZE) ->
  fresh (pmem st) root (f * PMM_FRAME_SIZE) ->
  (forall a, a / 4096 <> f -> m' !! a = pmem st !! a) ->
  advances P st0 (set_pmem m' st).
Proof.
  intros [R W D G N A O K C] Hf Hal Hfresh Hout. unfold PMM_FRAME_SIZE in *.
  assert (forall a, a / 4096 <> f * 4096 / 4096 -> m' !! a = pmem st !! a) as Hout'.
  { intros a. rewrite Z.div_mul by done. apply Hout. }
  destruct (private_ready st m' _ R Hal Hfresh Hout') as (R' & Hsame & Hw). split; simpl; try done.
  - intros va Hs Hp. by rewrite Hw, W.
  - intros a Ha. rewrite Hout; [by apply D|]. by apply Ha.
  - intros q t Hq Ht. rewrite Hsame by done. by apply G.
  - intros q t Hq Ht. simpl in Ht. rewrite Hsame in Ht by done. by apply N.
  - intros q t a Hq Ht Ha. rewrite Hout; [by apply (K q t)|]. intros Haf.
    pose proof (G _ _ Hq Ht) as Ht'. apply (Hfresh _ Hq). rewrite Ht'. f_equal.
    assert (aligned t) as [_ Hta] by (eapply table_aligned; [apply (rd_inv _ R)|exact Ht']). divlia.
Qed.

(** ** One level *)

(** Linking an empty table, and writing a leaf, make no 2 MiB page. *)
Lemma link_small m t i f v :
  aligned t -> aligned f -> valid_idx i -> t <> f -> (forall j, valid_idx j -> entry m f j = 0) ->
  has_flag v PAGE_PS = false ->
  (forall q t', valid_path q -> table_at (<[t + 8 * i := v]> m) root q = Some t' ->
     t' = f \/ table_at m root q = Some t') ->
  aligned root -> no_huge_pages m root -> no_huge_pages (<[t + 8 * i := v]> m) root.
Proof.
  intros Ht Hf Hi Hne Hz Hv Hnew Hr Hsm i' j k t' Hi' Hp Ht' Hpr.
  pose proof Hp as [Hvs _]. rewrite !Forall_cons in Hvs. destruct Hvs as (_ & _ & Hk & _).
  assert (aligned t') as Hal by table_side.
  rewrite entry_insert in * by done. destruct (decide (t' = t /\ k = i)); [done|].
  destruct (Hnew [i'; j] t') as [->|Hold]; [by apply (valid_path_prefix [i'; j] [k])|done| |].
  - rewrite Hz in Hpr by done. discriminate.
  - by apply (Hsm i' j k t').
Qed.

Lemma leaf_small m q t i v :
  tree m root -> valid_path q -> length q = 3%nat -> valid_idx i -> table_at m root q = Some t ->
  same_tables m (<[t + 8 * i := v]> m) root -> no_huge_pages m root -> no_huge_pages (<[t + 8 * i := v]> m) root.
Proof.
  intros Htree Hq Hlen Hi Ht Hsame Hsm i' j k t' Hi' Hp Ht' Hpr. pose proof (tree_root _ _ Htree) as Hr.
  pose proof Hp as [Hvs _]. rewrite !Forall_cons in Hvs. destruct Hvs as (_ & _ & Hk & _).
  pose proof (valid_path_prefix [i'; j] [k] Hp) as Hp2. rewrite Hsame in Ht' by done.
  assert (t' <> t) as Hne.
  { intros ->. pose proof (tree_inj _ _ Htree _ _ _ Hp2 Hq Ht' Ht) as <-. discriminate. }
  rewrite entry_insert, decide_False in * by (table_side || by intros [? _]).
  by apply (Hsm i' j k t').
Qed.

(** A word of a user table is in no table of the kernel. *)
Lemma off_kernel_table m q t i q' t' :
  tree m root -> valid_path q -> valid_idx i -> head q <> Some 511 -> table_at m root q = Some t ->
  valid_path (511 :: q') -> table_at m root (511 :: q') = Some t' -> (t + 8 * i) / 4096 <> t' / 4096.
Proof.
  intros [Hr Hinj] Hq0 Hidx Hhd Ht Hq' Ht' Heq.
  assert (aligned t) as [_ Hta] by (by eapply table_aligned).
  assert (aligned t') as [_ Hta'] by (by eapply table_aligned).
  assert (t = t') as <- by (unfold valid_idx in Hidx; divlia).
  pose proof (Hinj _ _ _ Hq0 Hq' Ht Ht') as ->. done.
Qed.

(** A frame [f] was taken from [st] and cleared. *)
Record taken st f st2 : Prop := {
  tk_frame : f ∈ fa_avail (frames st) /\ ~ f ∈ fa_avail (frames st2) /\ 0 < f < 511;
  tk_aligned : aligned (f * PMM_FRAME_SIZE);
  tk_fresh : fresh (pmem st2) root (f * PMM_FRAME_SIZE);
  tk_mem : pmem st2 = zero_frame (f * PMM_FRAME_SIZE) (pmem st);
  tk_advances : advances nothing st st2;
  tk_spent : spent 1 st st2;
  tk_kept : kept (eq f) st st2;
}.

(** The calls that do it: [pmm_alloc_frame], [paging_phys_to_virt], [memset]. *)
Lemma take_cleared st :
  ready st ->
  (alloc_frame st = Done 0 st [] /\ fa_avail (frames st) = ∅) \/
  exists f p s1 s2, f * PMM_FRAME_SIZE <> 0 /\ alloc_frame st = Done (f * PMM_FRAME_SIZE) s1 [] /\
    paging_phys_to_virt L (f * PMM_FRAME_SIZE) s1 = Done p s1 [] /\ memset_page L p s1 = Done tt s2 [] /\
    taken st f s2.
Proof.
  intros Hr. destruct (fa_alloc (frames st)) as [a fa] eqn:Hfa.
  assert (alloc_frame st = Done a (set_frames fa st) []) as Ea by (unfold alloc_frame; by rewrite Hfa).
  destruct (alloc_ready st a fa Hr Hfa) as
    [(-> & -> & Hemp)|(Hne & f & -> & Hin & Hout & Hf & Hfal & Hfresh & Hr1 & H1 & Hsp & Hkept)].
  { left. split; [by destruct st|done]. }
  right. set (fr := f * PMM_FRAME_SIZE) in *. set (s1 := set_frames fa st) in *.
  assert (fr < 0x1FF000) as Hfl by (unfold fr, PMM_FRAME_SIZE; lia).
  pose proof (pi_space _ _ _ (rd_inv _ Hr1)) as Hs1.
  exists f, (fr + HIGHER_HALF_BASE), s1, (set_pmem (zero_frame fr (pmem s1)) s1). split_and!; [done|done| | |].
  - by apply phys_to_virt_low.
  - exact (memset_ok L s1 _ fr root Hs1 (low_denotes L _ fr Hfal Hfl)).
  - split; try done.
    + eapply fresh_same_tables; [|exact Hfresh]. apply zero_same_tables; [apply Hs1|done..].
    + apply (private_advances _ st s1 _ f); try done. intros x Hx. apply zero_frame_out; [done|].
      unfold fr, PMM_FRAME_SIZE. by rewrite Z.div_mul.
    + intros g Hg. destruct (Hkept g Hg) as [?|[(q & Hq & Hh & Hqt)|?]]; [by left|right; left|by right; right].
      exists q. split_and!; [done..|]. simpl. by rewrite (zero_same_tables (pmem s1) root fr) by (apply Hs1 || done).
Qed.

Lemma taken_words st f st2 a : taken st f st2 -> a / 4096 <> f -> pmem st2 !! a = pmem st !! a.
Proof.
  intros H Ha. rewrite (tk_mem _ _ _ H). apply zero_frame_out; [apply H|].
  unfold PMM_FRAME_SIZE. by rewrite Z.div_mul.
Qed.

Lemma taken_entry st f st2 t i :
  taken st f st2 -> aligned t -> valid_idx i ->
  entry (pmem st2) t i = if decide (t = f * PMM_FRAME_SIZE) then 0 else entry (pmem st) t i.
Proof. intros H Ht Hi. rewrite (tk_mem _ _ _ H). by rewrite entry_zero_frame by (apply H || done). Qed.

(** The frame becomes the table below entry [i] of a user table. *)
Section linked.
Context st f st2 (q : list Z) t (i rw : Z) (Htk : taken st f st2).
Context (Hq : valid_path (q ++ [i])) (Ht : table_at (pmem st) root q = Some t).
Local Abbreviation fr := (f * PMM_FRAME_SIZE).
Local Abbreviation st3 := (set_pmem (<[t + 8 * i := Z.lor fr rw]> (pmem st2)) st2).

Lemma linked_table :
  aligned t /\ t <> fr /\ valid_path q /\ valid_idx i /\ table_at (pmem st2) root q = Some t /\
  entry (pmem st2) t i = entry (pmem st) t i.
Proof.
  pose proof (valid_path_snoc _ _ Hq) as (Hq0 & Hidx & _). pose proof (tk_advances _ _ _ Htk) as Ha.
  pose proof (ad_grow _ _ _ Ha _ _ Hq0 Ht) as Ht2.
  assert (aligned t) as Hal by (eapply table_aligned; [apply (rd_inv _ (ad_ready _ _ _ Ha))|exact Ht2]).
  assert (t <> fr) as Hne by (intros ->; by apply (tk_fresh _ _ _ Htk q)).
  split_and!; try done. by rewrite (taken_entry st f), decide_False.
Qed.

Context (Hhd : head (q ++ [i]) <> Some 511) (Habs : present (entry (pmem st) t i) = false).
Context (Hrw : present rw = true) (Hrange : 0 <= rw < 4096) (Hps : has_flag rw PAGE_PS = false).

Lemma linked_extends :
  extends L 0 root st2 st3 /\ table_at (pmem st3) root (q ++ [i]) = Some fr /\
  forall q' t', valid_path q' -> table_at (pmem st3) root q' = Some t' ->
    t' = fr \/ table_at (pmem st2) root q' = Some t'.
Proof.
  destruct linked_table as (Hal & Hne & Hq0 & Hidx & Ht2 & He). destruct (tk_frame _ _ _ Htk) as (_ & Hout & Hf).
  apply (link_ok L root st2 q t i fr (Z.lor fr rw)); try done.
  - apply (rd_inv _ (ad_ready _ _ _ (tk_advances _ _ _ Htk))).
  - by rewrite He.
  - apply Htk.
  - apply Htk.
  - unfold PMM_FRAME_SIZE. lia.
  - intros g Hg Hgf. apply Hout. replace f with g; [done|]. unfold PMM_FRAME_SIZE in Hgf. lia.
  - intros j Hj. by rewrite (taken_entry st f), decide_True by (apply Htk || done).
  - by rewrite present_lor, Hrw, orb_true_r.
  - destruct (tk_aligned _ _ _ Htk). by apply page_base_lor.
Qed.

Lemma linked_ready : ready st3.
Proof.
  destruct linked_table as (Hal & Hne & Hq0 & Hidx & Ht2 & He). destruct linked_extends as (Hx & _ & Hnew).
  pose proof (ad_ready _ _ _ (tk_advances _ _ _ Htk)) as Hr2. destruct (tk_frame _ _ _ Htk) as (_ & _ & Hf).
  pose proof (rd_inv _ Hr2) as Hi2. split.
  - apply Hx.
  - intros q' t' Hq' Ht'. destruct (Hnew q' t' Hq' Ht') as [->|Hold]; [unfold PMM_FRAME_SIZE; lia|].
    by apply (rd_tables _ Hr2 q').
  - intros g Hg. by apply (rd_frames _ Hr2).
  - apply (link_small _ _ _ fr); [done|apply Htk|done|done| |by apply linked_small; [apply Htk|..]|done|apply Hi2|apply Hr2].
    intros j Hj. by rewrite (taken_entry st f), decide_True by (apply Htk || done).
Qed.

Lemma linked_advances : advances nothing st st3.
Proof.
  destruct linked_table as (Hal & Hne & Hq0 & Hidx & Ht2 & He). destruct linked_extends as (Hx & _ & Hnew).
  pose proof (tk_advances _ _ _ Htk) as H2. pose proof (pi_space _ _ _ (rd_inv _ (ad_ready _ _ _ H2))) as Hs2.
  split.
  - apply linked_ready.
  - intros va Hva Hp. rewrite (ext_walk _ _ _ _ _ Hx) by done. by apply (ad_walk _ _ _ H2).
  - intros x Hel. simpl. rewrite lookup_insert_ne; [by apply (ad_words _ _ _ H2)|].
    intros Heq. destruct Hel as [_ Hel]. apply (Hel q t Hq0 Ht). rewrite <-Heq.
    destruct Hal as [_ Hta]. unfold valid_idx in Hidx. divlia.
  - intros q' t' Hq' Ht'. apply (ext_tables _ _ _ _ _ Hx); [done|]. by apply (ad_grow _ _ _ H2).
  - intros q' t' Hq' Ht'. destruct (Hnew q' t' Hq' Ht') as [->|Hold]; [right; exists f|by apply (ad_new _ _ _ H2)].
    split; [apply Htk|done].
  - apply H2.
  - apply H2.
  - intros q' t' a Hq' Ht' Ha. simpl. rewrite lookup_insert_ne; [by apply (ad_kernel _ _ _ H2 q' t')|].
    intros <-. apply (ad_grow _ _ _ H2) in Ht'; [|done].
    refine (off_kernel_table _ q t i q' t' (sp_tree _ _ _ Hs2) Hq0 Hidx _ Ht2 Hq' Ht' Ha). by destruct q.
  - apply H2.
Qed.

Lemma linked_kept : kept nothing st st3.
Proof.
  destruct linked_extends as (Hx & Htab & _). intros g Hg.
  destruct (tk_kept _ _ _ Htk g Hg) as [?|[(q' & Hq' & Hh' & Ht')|<-]]; [by left|right; left..].
  - exists q'. split_and!; [done..|]. by apply (ext_tables _ _ _ _ _ Hx).
  - by exists (q ++ [i]).
Qed.
End linked.

Lemma user_link_ok st p t q i rw :
  ready st -> direct p t -> valid_path (q ++ [i]) -> head (q ++ [i]) <> Some 511 -> table_at (pmem st) root q = Some t ->
  present (entry (pmem st) t i) = false -> present rw = true -> 0 <= rw < 4096 -> has_flag rw PAGE_PS = false ->
  exists b st', user_link L p i rw st = Done b st' [] /\ advances nothing st st' /\ spent 1 st st' /\
    kept nothing st st' /\
    if b : bool then exists f, 0 < f < 511 /\ aligned (f * PMM_FRAME_SIZE) /\
      entry (pmem st') t i = Z.lor (f * PMM_FRAME_SIZE) rw /\
      table_at (pmem st') root (q ++ [i]) = Some (f * PMM_FRAME_SIZE)
    else fa_avail (frames st') = ∅ /\ short 1 st.
Proof.
  intros Hr Hdir Hq Hhd Ht Habs Hrw Hrange Hps. unfold user_link.
  destruct (take_cleared st Hr) as [[Ea Hemp]|(f & vp & s1 & s2 & Hne & Ea & Ep & Em & Htk)].
  { rewrite (bind_step _ _ _ _ _ Ea). exists false, st. split; [done|]. split; [by apply advances_refl|].
    unfold spent, short. rewrite Hemp, size_empty. split_and!; [lia|apply kept_refl|done|lia]. }
  rewrite (bind_step _ _ _ _ _ Ea), (proj2 (Z.eqb_neq _ _) Hne), (bind_step _ _ _ _ _ Ep), (bind_step _ _ _ _ _ Em).
  destruct (linked_table st f s2 q t i Htk Hq Ht) as (Hal & _ & _ & Hidx & _).
  pose proof (pi_space _ _ _ (rd_inv _ (ad_ready _ _ _ (tk_advances _ _ _ Htk)))) as Hs2.
  rewrite (bind_step _ _ _ _ _ (store_ok L _ p t i _ root Hs2 (direct_denotes L _ p t Hal Hdir) Hidx)).
  eexists true, _. split; [reflexivity|]. split; [by apply (linked_advances st f s2 q)|]. split; [apply Htk|].
  split; [by apply (linked_kept st f s2 q)|]. exists f. split; [apply Htk|]. split; [apply Htk|].
  split; [simpl; rewrite entry_insert by done; by rewrite decide_True|]. by apply (linked_extends st f s2 q).
Qed.

(** An aligned address is its own page. *)
Lemma aligned_base a : aligned a -> page_base a = a.
Proof. intros [Hf ?]. rewrite page_base_eq by done. divlia. Qed.

Lemma user_descend_ok st p t q i rw :
  ready st -> direct p t -> valid_path (q ++ [i]) -> head (q ++ [i]) <> Some 511 -> table_at (pmem st) root q = Some t ->
  present rw = true -> 0 <= rw < 4096 -> has_flag rw PAGE_PS = false ->
  exists r st', user_descend L p i rw st = Done r st' [] /\ advances nothing st st' /\ spent 1 st st' /\
    kept nothing st st' /\
    match r with
    | Some p' => exists t', table_at (pmem st') root (q ++ [i]) = Some t' /\ direct p' t'
    | None => fa_avail (frames st') = ∅ /\ short 1 st
    end.
Proof.
  intros Hr Hdir Hq Hhd Ht Hrw Hrange Hps. pose proof (rd_inv _ Hr) as Hi. pose proof (pi_space _ _ _ Hi) as Hs.
  pose proof (valid_path_snoc _ _ Hq) as (Hq0 & Hidx & _).
  assert (aligned t) as Hal by (eapply table_aligned; [apply Hi|exact Ht]).
  pose proof (fun m => direct_denotes L m p t Hal Hdir) as Hd.
  pose proof (table_at_snoc (pmem st) root q i) as Hsn. rewrite Ht in Hsn. simpl in Hsn.
  unfold user_descend. rewrite (bind_step _ _ _ _ _ (load_ok L st p t i root Hs (Hd _) Hidx)).
  destruct (present (entry (pmem st) t i)) eqn:Hp.
  - rewrite bind_ret_l. rewrite (bind_step _ _ _ _ _ (load_ok L st p t i root Hs (Hd _) Hidx)).
    pose proof (rd_tables _ Hr _ _ Hq Hsn) as Hlow.
    rewrite (bind_step _ _ _ _ _ (phys_to_virt_low st _ (aligned_page_base _) Hlow)).
    eexists _, _. split; [reflexivity|]. split; [by apply advances_refl|].
    split; [unfold spent; lia|]. split; [apply kept_refl|]. simpl. by eexists.
  - destruct (user_link_ok st p t q i rw) as (b & st1 & E & H1 & Hsp & Hkept & Hb); [done..|].
    rewrite (bind_step _ _ _ _ _ E). destruct b; [|by exists None, st1].
    destruct Hb as (f & Hf & Hfal & He & Htab). pose proof (ad_ready _ _ _ H1) as Hr1.
    rewrite (bind_step _ _ _ _ _ (load_ok L st1 p t i root (pi_space _ _ _ (rd_inv _ Hr1)) (Hd _) Hidx)).
    rewrite He, page_base_lor by (done || apply Hfal).
    assert (f * PMM_FRAME_SIZE < 0x1FF000) as Hfl by (unfold PMM_FRAME_SIZE; lia).
    rewrite (bind_step _ _ _ _ _ (phys_to_virt_low st1 _ Hfal Hfl)).
    eexists _, _. split; [reflexivity|]. split; [done|]. split; [done|]. split; [done|]. by eexists.
Qed.

(** ** The walk of the loader *)

(** After [n] levels the walk is at the table of path [q], or out of frames. *)
Definition arrived (n : nat) st (r : option Z) (q : list Z) s : Prop :=
  advances nothing st s /\ spent n st s /\ kept nothing st s /\
  match r with
  | Some p => exists t, table_at (pmem s) root q = Some t /\ direct p t
  | None => fa_avail (frames s) = ∅ /\ short n st
  end.

Lemma arrived_root st : ready st -> arrived 0 st (Some (root + HIGHER_HALF_BASE)) [] st.
Proof.
  intros Hr. split; [by apply advances_refl|]. split; [unfold spent; lia|]. split; [apply kept_refl|].
  exists root. split; [done|]. split; [done|]. apply (rd_tables _ Hr []); [|done]. split; [constructor|simpl; lia].
Qed.

Lemma arrived_next n st p q s i rw :
  arrived n st (Some p) q s -> valid_path (q ++ [i]) -> head (q ++ [i]) <> Some 511 ->
  present rw = true -> 0 <= rw < 4096 -> has_flag rw PAGE_PS = false ->
  exists r s', user_descend L p i rw s = Done r s' [] /\ arrived (S n) st r (q ++ [i]) s'.
Proof.
  intros (Ha & Hs & Hk & t & Ht & Hd) Hq Hhd Hrw Hrr Hps.
  destruct (user_descend_ok s p t q i rw (ad_ready _ _ _ Ha) Hd Hq Hhd Ht Hrw Hrr Hps)
    as (r & s' & E & Ha' & Hs' & Hk' & Hr'). exists r, s'. split; [exact E|].
  split; [by apply (advances_trans _ st s)|]. split; [unfold spent in *; lia|].
  split; [by apply (kept_step nothing st s)|]. destruct r as [p'|]; [done|].
  destruct Hr' as [? Hsh]. split; [done|]. unfold spent, short in *. lia.
Qed.

Lemma arrived_nowhere n st q s va :
  (n <= 3)%nat -> arrived n st None q s ->
  advances (eq va) st s /\ spent 3 st s /\ kept nothing st s /\
  advances nothing st s /\ fa_avail (frames s) = ∅ /\ short 3 st.
Proof.
  intros Hn (Ha & Hs & Hk & Hemp & Hsh). unfold spent, short in *. split_and!; try done; try lia.
  by apply (advances_weaken nothing).
Qed.

(** The leaf. *)
Lemma leaf_advances st va t e :
  ready st -> pml4_idx va <> 511 -> table_at (pmem st) root (va_path va) = Some t ->
  let st' := set_pmem (<[t + 8 * pt_idx va := e]> (pmem st)) st in
  advances (eq va) st st' /\ same_tables (pmem st) (pmem st') root /\
  walk (pmem st') root va = if present e then Some e else None.
Proof.
  intros Hr Hhalf Ht st'. pose proof (rd_inv _ Hr) as Hi. pose proof (pi_space _ _ _ Hi) as Hs.
  pose proof (sp_tree _ _ _ Hs) as Htree. pose proof (valid_va_path va) as Hv. pose proof (valid_pt_idx va) as Hx.
  assert (va_path va <> window_path) as Hnw by (intros Hp; by injection Hp).
  assert (head (va_path va) <> Some 511) as Hhd by (simpl; congruence).
  assert (aligned t) as [_ Hta] by (eapply table_aligned; [apply Hi|exact Ht]).
  pose proof (leaf_same_tables (pmem st) root (va_path va) t (pt_idx va) e Htree Hv eq_refl Hx Ht) as Hsame.
  pose proof (leaf_walk (pmem st) root (va_path va) t (pt_idx va) e Htree Hv eq_refl Hx Ht) as Hwalk.
  split; [|split; [done|etransitivity; [exact (Hwalk va)|by rewrite decide_True]]]. split; try done.
  - split; [|simpl|apply Hr|by apply (leaf_small (pmem st) (va_path va)); try apply Hr].
    + apply pg_inv_tables; [done| |done]. by apply (leaf_space L (pmem st) root Hs (va_path va)).
    + intros q t' Hq Ht'. rewrite Hsame in Ht' by done. by apply (rd_tables _ Hr q).
  - intros va' _ Hp. simpl. rewrite Hwalk, decide_False; [done|]. apply (Hp va eq_refl).
  - intros a [_ Ha]. simpl. rewrite lookup_insert_ne; [done|]. intros Heq. apply (Ha (va_path va) t Hv Ht).
    rewrite <-Heq. unfold valid_idx in Hx. divlia.
  - intros q t' Hq Ht'. simpl. by rewrite Hsame.
  - intros q t' Hq Ht'. left. simpl in Ht'. by rewrite Hsame in Ht'.
  - intros q t' a Hq Ht' Ha. simpl. rewrite lookup_insert_ne; [done|]. intros <-.
    by apply (off_kernel_table (pmem st) (va_path va) t (pt_idx va) q t' Htree Hv Hx Hhd Ht Hq).
Qed.

Lemma map_user_page_ok st va frame flags :
  ready st -> pml4_idx va <> 511 -> aligned frame ->
  present flags = true -> 0 <= flags < 4096 ->
  exists b st', map_user_page L root va frame flags st = Done b st' [] /\ advances (eq va) st st' /\
    spent 3 st st' /\ kept nothing st st' /\
    if b : bool then walk (pmem st') root va = Some (Z.lor frame flags)
    else advances nothing st st' /\ fa_avail (frames st') = ∅ /\ short 3 st.
Proof.
  intros Hr Hhalf Hfal Hfl Hrange. unfold map_user_page.
  assert (Some (pml4_idx va) <> Some 511) as Hhd by congruence.
  set (rw := Z.lor (Z.lor PAGE_PRESENT PAGE_WRITABLE) PAGE_USER).
  assert (present rw = true) as Hrw by done. assert (0 <= rw < 4096) as Hrr by done.
  assert (has_flag rw PAGE_PS = false) as Hps by done.
  pose proof (valid_va_path va) as Hv.
  assert (valid_path [pml4_idx va; pdpt_idx va]) as Hv2 by by apply (valid_path_prefix _ [pd_idx va]).
  assert (valid_path [pml4_idx va]) as Hv1 by by apply (valid_path_prefix _ [pdpt_idx va]).
  assert (aligned root) as Hroot by apply (rd_inv _ Hr).
  pose proof (arrived_root st Hr) as R0. pose proof R0 as (_ & _ & _ & t0 & [= <-] & Hd0).
  rewrite (bind_step _ _ _ _ _ (phys_to_virt_low st root Hroot (proj2 Hd0))).
  destruct (arrived_next 0 st _ [] st (pml4_idx va) rw R0 Hv1 Hhd Hrw Hrr Hps) as (r1 & s1 & E1 & R1).
  rewrite (bind_step _ _ _ _ _ E1). destruct r1 as [p1|].
  2: { exists false, s1. split; [done|]. apply (arrived_nowhere 1 st [pml4_idx va]); [lia|done]. }
  destruct (arrived_next 1 st p1 [pml4_idx va] s1 (pdpt_idx va) rw R1 Hv2 Hhd Hrw Hrr Hps) as (r2 & s2 & E2 & R2).
  rewrite (bind_step _ _ _ _ _ E2). destruct r2 as [p2|].
  2: { exists false, s2. split; [done|]. apply (arrived_nowhere 2 st [pml4_idx va; pdpt_idx va]); [lia|done]. }
  destruct (arrived_next 2 st p2 [pml4_idx va; pdpt_idx va] s2 (pd_idx va) rw R2 Hv Hhd Hrw Hrr Hps)
    as (r3 & s3 & E3 & R3).
  rewrite (bind_step _ _ _ _ _ E3). destruct r3 as [p3|].
  2: { exists false, s3. split; [done|]. apply (arrived_nowhere 3 st (va_path va)); [lia|done]. }
  destruct R3 as (H3 & S3 & K3 & t3 & T3 & D3). change (_ ++ [pd_idx va]) with (va_path va) in T3.
  pose proof (ad_ready _ _ _ H3) as Hr3.
  assert (aligned t3) as Hal3 by (eapply table_aligned; [exact Hroot|exact T3]).
  rewrite (bind_step _ _ _ _ _ (store_ok L s3 p3 t3 _ _ root (pi_space _ _ _ (rd_inv _ Hr3))
    (direct_denotes L _ p3 t3 Hal3 D3) (valid_pt_idx va))).
  rewrite (aligned_base frame Hfal).
  destruct (leaf_advances s3 va t3 (Z.lor frame flags) Hr3 Hhalf T3) as (H4 & Hsame & Hwalk).
  eexists true, _. split; [reflexivity|]. split.
  { apply (advances_trans _ _ s3); [|exact H4]. by apply (advances_weaken nothing). }
  split; [exact S3|]. split.
  - intros g Hg. destruct (K3 g Hg) as [?|[(q & Hq & Hh & Ht)|[]]]; [by left|right; left].
    exists q. split_and!; [done..|]. by rewrite Hsame.
  - rewrite Hwalk. by rewrite present_lor, Hfl, orb_true_r.
Qed.
End user.
