(* ===== verification/Accounts.v ===== *)
(** * Accounting for the frames of an address space

    While user pages are mapped that were not mapped before, every frame that
    leaves the allocator becomes a table of the space or the frame of a user
    page, and every new user page lies in such a frame: nothing leaks, and
    nothing is mapped that the allocator did not hand out.  Only a page whose
    mapping fails leaves its frame behind. *)
From S2P Require Import Prelude Effects PmmInterface PagingInterface Paging PageTable PagingProofs WalkProofs.
From S2P Require Import FreeSpace PagingSpec UserMap.

Section accounts.
Context {FA : Type} `{HFA : FrameAlloc FA} `{!FrameAllocOk FA}.
Context (L : layout) (root : Z).
Implicit Types (st : pg_state FA) (va f : Z) (P Q : Z -> Prop).
Local Abbreviation advances := (advances L root).

(** The frame of some page of the user half. *)
Definition user_leaf st f : Prop :=
  exists va e, pml4_idx va <> 511 /\ walk (pmem st) root va = Some e /\ page_base e = f * PMM_FRAME_SIZE.

Record accounts (lost : option Z) st st' : Prop := {
  ac_no_leak : forall f, f ∈ fa_avail (frames st) ->
    f ∈ fa_avail (frames st') \/ in_tables root st' f \/ user_leaf st' f \/ lost = Some f;
  ac_lost : forall f, lost = Some f -> f ∈ fa_avail (frames st) /\ ~ f ∈ fa_avail (frames st');
  ac_leaves : forall va e, pml4_idx va <> 511 -> walk (pmem st') root va = Some e ->
    walk (pmem st) root va = Some e \/
    exists f, f ∈ fa_avail (frames st) /\ page_base e = f * PMM_FRAME_SIZE;
}.

(** None of the pages is mapped yet. *)
Definition unmapped P st : Prop := forall va, P va -> walk (pmem st) root va = None.

Lemma accounts_refl st : accounts None st st.
Proof. split; [by left|done|by left]. Qed.

Lemma user_half_off_scratch va : pml4_idx va <> 511 -> ~ on_scratch_page va.
Proof. intros Hne [Hp _]. by injection Hp. Qed.

(** Mapped pages keep their translation. *)
Lemma unmapped_walk P st st' va e :
  unmapped P st -> advances P st st' -> pml4_idx va <> 511 ->
  walk (pmem st) root va = Some e -> walk (pmem st') root va = Some e.
Proof.
  intros Hu Ha Hva Hw. rewrite (ad_walk _ _ _ _ _ Ha); [done|by apply user_half_off_scratch|].
  intros va' Hp Hsame. rewrite (same_page_walk _ _ _ _ Hsame), (Hu va' Hp) in Hw. discriminate.
Qed.

Lemma accounts_trans lost P Q st1 st2 st3 :
  advances P st1 st2 -> advances Q st2 st3 -> unmapped Q st2 ->
  accounts None st1 st2 -> accounts lost st2 st3 -> accounts lost st1 st3.
Proof.
  intros H1 H2 Hu [N1 _ L1] [N2 O2 L2]. split.
  - intros f Hf. destruct (N1 f Hf) as [Hf2|[(q & Hq & Hh & Ht)|[(va & e & Hva & Hw & He)|?]]]; [..|done].
    + by apply N2.
    + right; left. exists q. split_and!; [done..|]. by apply (ad_grow _ _ _ _ _ H2).
    + right; right; left. exists va, e. split_and!; [done| |done]. by apply (unmapped_walk Q st2).
  - intros f Hf. destruct (O2 f Hf). split; [by apply (ad_avail _ _ _ _ _ H1)|done].
  - intros va e Hva Hw. destruct (L2 va e Hva Hw) as [Hw2|(f & Hf & He)]; [by apply L1|right].
    exists f. split; [|done]. by apply (ad_avail _ _ _ _ _ H1).
Qed.

(** A page in a frame of the allocator, everything else in tables. *)
Definition paged st st' va : Prop :=
  exists f, f ∈ fa_avail (frames st) /\ kept root (eq f) st st' /\
    exists e, walk (pmem st') root va = Some e /\ page_base e = f * PMM_FRAME_SIZE.

Lemma paged_accounts st st' va :
  pml4_idx va <> 511 -> advances (eq va) st st' -> paged st st' va -> accounts None st st'.
Proof.
  intros Hva Ha (f & Hf & Hk & e & Hw & He). split.
  - intros g Hg. destruct (Hk g Hg) as [?|[?|<-]]; [by left|by right; left|right; right; left].
    by exists va, e.
  - done.
  - intros va' e' Hva' Hw'. destruct (decide (va_path va' = va_path va /\ pt_idx va' = pt_idx va)) as [Hsame|Hns].
    + right. exists f. split; [done|]. assert (same_page va va') as Hs by exact Hsame.
      rewrite (same_page_walk _ _ _ _ Hs), Hw in Hw'. by injection Hw' as <-.
    + left. rewrite (ad_walk _ _ _ _ _ Ha) in Hw'; [done|by apply user_half_off_scratch|].
      by intros ? <-.
Qed.

(** A page whose mapping failed: its frame is lost. *)
Lemma lost_accounts st st' f :
  f ∈ fa_avail (frames st) -> ~ f ∈ fa_avail (frames st') ->
  advances (fun _ => False) st st' -> kept root (eq f) st st' -> accounts (Some f) st st'.
Proof.
  intros Hf Hout Ha Hk. split.
  - intros g Hg. destruct (Hk g Hg) as [?|[?|<-]]; [by left|by right; left|by right; right; right].
  - by intros g [= <-].
  - intros va e Hva Hw. left. rewrite (ad_walk _ _ _ _ _ Ha) in Hw; [done|by apply user_half_off_scratch|done].
Qed.

End accounts.
