(* ===== verification/ElfProofs.v ===== *)
(** * The ELF loader: pages and their contents

    The bytes of a frame under the loader's stores, and what one round of the
    page loop does: a zeroed frame receives its part of the file and becomes
    the page of its address. *)
From S2P Require Import Prelude Effects PmmInterface PagingInterface Paging PageTable PagingProofs.
From S2P Require Import PagingSpec WalkProofs Serial Elf UserMap Accounts.

(** ** Bytes of a word *)

Lemma testbit_ff i : 0 <= i -> Z.testbit 0xFF i = bool_decide (i < 8).
Proof.
  intros Hi. change 0xFF with (Z.ones 8). rewrite Z.testbit_ones_nonneg by lia.
  case_bool_decide; [by apply Z.ltb_lt|by apply Z.ltb_ge; lia].
Qed.

Lemma byte_of_bit w k i :
  0 <= k -> 0 <= i -> Z.testbit (byte_of w k) i = Z.testbit w (i + 8 * k) && bool_decide (i < 8).
Proof. intros Hk Hi. unfold byte_of. by rewrite Z.land_spec, Z.shiftr_spec, testbit_ff by lia. Qed.

Lemma set_byte_bit w k v n :
  0 <= k < 8 -> 0 <= n -> fits 8 v ->
  Z.testbit (set_byte w k v) n =
    if decide (8 * k <= n < 8 * k + 8) then Z.testbit v (n - 8 * k)
    else bool_decide (n < 64) && Z.testbit w n.
Proof.
  intros Hk Hn Hv. unfold set_byte. rewrite Z.lor_spec, Z.land_spec, testbit_notw, !Z.shiftl_spec by lia.
  destruct (decide (8 * k <= n < 8 * k + 8)) as [Hin|Hout].
  - rewrite testbit_ff, bool_decide_true by lia. rewrite bool_decide_true by lia. simpl.
    by rewrite andb_false_r.
  - assert (Z.testbit v (n - 8 * k) = false) as ->.
    { destruct (decide (n - 8 * k < 0)); [by apply Z.testbit_neg_r|]. apply (testbit_fits 8); [done|lia]. }
    assert (Z.testbit 0xFF (n - 8 * k) = false) as ->.
    { destruct (decide (n - 8 * k < 0)); [by apply Z.testbit_neg_r|]. rewrite testbit_ff by lia.
      by rewrite bool_decide_false by lia. }
    simpl. btauto.
Qed.

Lemma byte_set_byte w j k v :
  0 <= j < 8 -> 0 <= k < 8 -> fits 8 v ->
  byte_of (set_byte w j v) k = if decide (k = j) then v else byte_of w k.
Proof.
  intros Hj Hk Hv. apply Z.bits_inj'. intros i Hi. rewrite byte_of_bit, set_byte_bit by lia || done.
  destruct (decide (k = j)) as [->|Hne].
  - destruct (decide (i < 8)) as [H8|H8].
    + rewrite decide_True by lia. rewrite bool_decide_true by lia.
      rewrite andb_true_r. f_equal. lia.
    + rewrite (bool_decide_false (i < 8)), andb_false_r by lia. symmetry. apply (testbit_fits 8); [done|lia].
  - rewrite byte_of_bit by lia. destruct (decide (i < 8)) as [H8|H8].
    + rewrite decide_False by lia. rewrite (bool_decide_true (i + 8 * k < 64)) by lia. done.
    + by rewrite (bool_decide_false (i < 8)), !andb_false_r by lia.
Qed.

Lemma read_write_byte m pa v a :
  fits 8 v -> read_byte (write_byte pa v m) a = if decide (a = pa) then v else read_byte m a.
Proof.
  intros Hv. unfold read_byte, write_byte, rdm. rewrite lookup_insert.
  pose proof (Z.mod_pos_bound a 8 ltac:(lia)). pose proof (Z.mod_pos_bound pa 8 ltac:(lia)).
  destruct (decide (pa - pa mod 8 = a - a mod 8)) as [Heq|Hne].
  - simpl. rewrite byte_set_byte by done. rewrite Heq.
    destruct (decide (a mod 8 = pa mod 8)), (decide (a = pa)); try done; exfalso; lia || congruence.
  - rewrite decide_False by congruence. done.
Qed.

(** Memory that agrees on the words of a frame agrees on its bytes. *)
Lemma read_byte_agree m m' f a :
  f mod 4096 = 0 -> f <= a < f + 4096 ->
  (forall x, f <= x < f + 4096 -> m' !! x = m !! x) -> read_byte m' a = read_byte m a.
Proof. intros Hf Ha Hm. unfold read_byte, rdm. rewrite Hm; [done|]. divlia. Qed.

Lemma read_byte_zero m f a :
  aligned f -> f <= a < f + 4096 -> read_byte (zero_frame f m) a = 0.
Proof.
  intros [_ Hf] Ha. unfold read_byte, rdm. rewrite lookup_zero_frame, decide_True by divlia.
  unfold byte_of. by rewrite Z.shiftr_0_l.
Qed.

(** ** The copy *)

Section load.
Context {FA : Type} `{HFA : FrameAlloc FA} `{!FrameAllocOk FA}.
Context (L : layout) (HL : layout_ok L) (root : Z).
Context (data : list Z) (Hdata : Forall (fits 8) data).
Implicit Types (st : pg_state FA) (va a f : Z).
Local Abbreviation ready := (ready L root).
Local Abbreviation size := (Z.of_nat (length data)).

(** The byte of the image at an offset. *)
Definition datum (i : Z) : Z := nth (Z.to_nat i) data 0.

Lemma datum_fits i : fits 8 (datum i).
Proof.
  unfold datum. destruct (nth_in_or_default (Z.to_nat i) data 0) as [Hin| ->].
  - rewrite List.Forall_forall in Hdata. by apply Hdata.
  - by split.
Qed.

Lemma read_bytes_one off (st : pg_state FA) :
  0 <= off < size -> exists b, read_bytes data off 1 st = Done b st [] /\ nth 0 b 0 = datum off.
Proof.
  intros Ho. unfold read_bytes. rewrite (proj2 (Z.leb_le 0 off)), (proj2 (Z.leb_le _ _)) by lia.
  eexists. split; [reflexivity|]. unfold slice, datum. change (Z.to_nat 1) with 1%nat.
  destruct (lookup_lt_is_Some_2 data (Z.to_nat off) ltac:(lia)) as [b Hb].
  rewrite (nth_lookup_Some _ _ _ _ Hb). rewrite (drop_S _ _ _ Hb). done.
Qed.

(** [m'] differs from [m] in the frame at [f] only, where the first [n] bytes
    are those of the image from [off] on. *)
Definition copied (f off n : Z) (m m' : gmap Z Z) : Prop :=
  (forall a, a / 4096 <> f / 4096 -> m' !! a = m !! a) /\
  (forall i, 0 <= i < 4096 -> read_byte m' (f + i) = if decide (i < n) then datum (off + i) else read_byte m (f + i)).

Lemma memcpy_data_ok st f off n :
  ready st -> aligned f -> f < 0x1FF000 -> fresh (pmem st) root f ->
  0 <= n <= 4096 -> 0 <= off -> off + n <= size ->
  exists m', memcpy_data L (f + HIGHER_HALF_BASE) data off n st = Done tt (set_pmem m' st) [] /\
    copied f off n (pmem st) m'.
Proof.
  intros Hr Hal Hlow Hfresh Hn Ho Hsz. unfold memcpy_data.
  destruct (mfor_rule (R := unit)
    (fun i s => exists m', s = set_pmem m' st /\ copied f off i (pmem st) m')
    (fun i => b ← read_bytes data (off + i) 1; store_byte L (f + HIGHER_HALF_BASE + i) (nth 0 b 0);; mret None)
    (Z.to_nat n) 0 st) as (s & E & m' & -> & Hc).
  - exists (pmem st). rewrite set_pmem_id. split; [done|]. split; [done|]. intros i Hi.
    by rewrite decide_False by lia.
  - intros i s Hi (m' & -> & Hout & Hin). destruct (read_bytes_one (off + i) (set_pmem m' st) ltac:(lia)) as (b & Eb & Hb).
    destruct (private_ready L root st m' f Hr Hal Hfresh Hout) as (Hr' & _ & _).
    pose proof (pi_space _ _ _ (rd_inv _ _ _ Hr')) as Hs'.
    assert (store_byte L (f + HIGHER_HALF_BASE + i) (nth 0 b 0) (set_pmem m' st) =
      Done tt (set_pmem (write_byte (f + i) (datum (off + i)) m') st) []) as Es.
    { unfold store_byte. rewrite Hb.
      rewrite (bind_step _ _ _ _ _ (translate_ok L _ _ f i root Hs' (low_denotes L _ f Hal Hlow) ltac:(lia))). done. }
    eexists. split.
    { rewrite (bind_step _ _ _ _ _ Eb), (bind_step _ _ _ _ _ Es). reflexivity. }
    eexists. split; [reflexivity|]. split.
    + intros a Ha. unfold write_byte. rewrite lookup_insert_ne; [by apply Hout|]. destruct Hal as [_ Hal].
      intros <-. apply Ha. divlia.
    + intros j Hj. rewrite read_write_byte by apply datum_fits.
      destruct (decide (f + j = f + i)) as [Heq|Hne].
      * assert (j = i) as -> by lia. by rewrite decide_True by lia.
      * rewrite Hin by done. destruct (decide (j < i)), (decide (j < i + 1)); done || lia.
  - exists m'. rewrite (bind_step _ _ _ _ _ E). split; [done|]. by replace n with (0 + Z.of_nat (Z.to_nat n)) by lia.
Qed.

(** ** One page *)

(** A segment the loader can place: page aligned, in the user half, as the
    ELF specification has it ([p_filesz <= p_memsz]). *)
Record seg_ok (ph : elf64_phdr) : Prop := {
  sg_vaddr : 0 <= p_vaddr ph /\ p_vaddr ph mod 4096 = 0;
  sg_sizes : 0 <= p_filesz ph <= p_memsz ph;
  sg_limit : p_vaddr ph + p_memsz ph <= USER_ADDR_LIMIT;
  sg_offset : 0 <= p_offset ph /\ p_offset ph + p_filesz ph < 2 ^ 64;
}.

(** What the segment's memory holds at an address: the file's bytes, as far as
    the image has them, then zeros. *)
Definition image (ph : elf64_phdr) (a : Z) : Z :=
  let k := a - p_vaddr ph in
  if decide (0 <= k < p_filesz ph /\ p_offset ph + k < size) then datum (p_offset ph + k) else 0.

Definition in_segment (ph : elf64_phdr) va : Prop :=
  va mod 4096 = 0 /\ p_vaddr ph <= va < p_vaddr ph + p_memsz ph.

Lemma copy_page_ok st ph va f :
  ready st -> aligned f -> f < 0x1FF000 -> fresh (pmem st) root f ->
  seg_ok ph -> in_segment ph va -> (forall i, 0 <= i < 4096 -> read_byte (pmem st) (f + i) = 0) ->
  exists m', copy_page L data size ph va f st = Done tt (set_pmem m' st) [] /\
    (forall a, a / 4096 <> f / 4096 -> m' !! a = pmem st !! a) /\
    (forall i, 0 <= i < 4096 -> read_byte m' (f + i) = image ph (va + i)).
Proof.
  intros Hr Hal Hlow Hfresh [[Hv0 Hva] [Hf0 Hfm] Hlim [Ho0 Ho]] [Hal' Hin] Hz.
  unfold copy_page, image. unfold USER_ADDR_LIMIT, PMM_FRAME_SIZE in *.
  set (v := p_vaddr ph) in *. set (fs := p_filesz ph) in *. set (o := p_offset ph) in *.
  assert (2 ^ 64 = 0x10000000000000000) as H64 by done.
  rewrite (wrap_small 64 (v + fs)), (wrap_small 64 (va + 4096)) by (unfold fits; lia).
  assert (forall i, 0 <= i < 4096 -> ~ (0 <= va + i - v < fs /\ o + (va + i - v) < size) ->
    read_byte (pmem st) (f + i) = if decide (0 <= va + i - v < fs /\ o + (va + i - v) < size)
      then datum (o + (va + i - v)) else 0) as Hnone.
  { intros i Hi Hno. by rewrite decide_False, Hz. }
  destruct ((v <? va + 4096) && (va <? v + fs)) eqn:Hc.
  2: { exists (pmem st). rewrite set_pmem_id. split; [done|]. split; [done|]. intros i Hi. apply Hnone; [done|].
    apply andb_false_iff in Hc as [Hc|Hc]; apply Z.ltb_ge in Hc; lia. }
  apply andb_true_iff in Hc as [_ Hc]. apply Z.ltb_lt in Hc.
  assert ((if v <? va then va else v) = va) as -> by (destruct (Z.ltb_spec v va); lia).
  set (ce := if va + 4096 <? v + fs then va + 4096 else v + fs).
  assert (ce = Z.min (va + 4096) (v + fs)) as -> by (unfold ce; destruct (Z.ltb_spec (va + 4096) (v + fs)); lia).
  rewrite (wrap_small 64 (va - v)), (wrap_small 64 (Z.min _ _ - va)), (wrap_small 64 (o + (va - v)))
    by (unfold fits; lia).
  set (len := Z.min _ _ - va). set (av := if _ <? size then _ else _).
  assert (av = Z.max 0 (size - (o + (va - v)))) as -> by (unfold av; destruct (Z.ltb_spec (o + (va - v)) size); lia).
  rewrite (proj2 (Z.ltb_lt 0 len)) by lia. cbn [andb].
  destruct (Z.ltb_spec 0 (Z.max 0 (size - (o + (va - v))))) as [Hav|Hav].
  - set (cpy := if len <? _ then len else _).
    assert (cpy = Z.min len (size - (o + (va - v)))) as Hcpy.
    { unfold cpy. destruct (Z.ltb_spec len (Z.max 0 (size - (o + (va - v))))); lia. }
    rewrite (bind_step _ _ _ _ _ (phys_to_virt_low L st f Hal Hlow)).
    destruct (memcpy_data_ok st f (o + (va - v)) cpy Hr Hal Hlow Hfresh) as (m' & E & Hout & Hb); [lia..|].
    exists m'. split; [exact E|]. split; [exact Hout|]. intros i Hi. rewrite Hb by done.
    destruct (decide (i < cpy)).
    + rewrite decide_True by lia. f_equal. lia.
    + apply Hnone; [done|lia].
  - exists (pmem st). rewrite set_pmem_id. split; [done|]. split; [done|]. intros i Hi. apply Hnone; [done|lia].
Qed.

(** The first page of a segment that starts within a page: the file's bytes go
    to the beginning of the page, not to [p_vaddr]. *)
Definition shifted (ph : elf64_phdr) va (a : Z) : Z :=
  if decide (a - va < Z.min (p_filesz ph) (va + 4096 - p_vaddr ph)) then datum (p_offset ph + (a - va)) else 0.

Lemma copy_first_page st ph va f :
  ready st -> aligned f -> f < 0x1FF000 -> fresh (pmem st) root f ->
  0 <= va < p_vaddr ph -> p_vaddr ph < va + 4096 -> p_vaddr ph + p_filesz ph <= USER_ADDR_LIMIT ->
  0 < p_filesz ph -> 0 <= p_offset ph -> p_offset ph + p_filesz ph <= size -> size < 2 ^ 64 ->
  (forall i, 0 <= i < 4096 -> read_byte (pmem st) (f + i) = 0) ->
  exists m', copy_page L data size ph va f st = Done tt (set_pmem m' st) [] /\
    (forall a, a / 4096 <> f / 4096 -> m' !! a = pmem st !! a) /\
    (forall i, 0 <= i < 4096 -> read_byte m' (f + i) = shifted ph va (va + i)).
Proof.
  intros Hr Hal Hlow Hfresh Hv Hv' Hlim Hfs Ho Hsz H64 Hz.
  unfold copy_page, shifted. unfold USER_ADDR_LIMIT, PMM_FRAME_SIZE in *.
  set (v := p_vaddr ph) in *. set (fs := p_filesz ph) in *. set (o := p_offset ph) in *.
  assert (2 ^ 64 = 0x10000000000000000) as E64 by done.
  rewrite (wrap_small 64 (v + fs)), (wrap_small 64 (va + 4096)) by (unfold fits; lia).
  rewrite (proj2 (Z.ltb_lt v _)), (proj2 (Z.ltb_lt va _)), (proj2 (Z.ltb_ge v va)) by lia. cbn [andb].
  set (ce := if va + 4096 <? v + fs then va + 4096 else v + fs).
  assert (ce = Z.min (va + 4096) (v + fs)) as -> by (unfold ce; destruct (Z.ltb_spec (va + 4096) (v + fs)); lia).
  rewrite (wrap_small 64 (v - v)), (wrap_small 64 (Z.min _ _ - v)), (wrap_small 64 (o + (v - v)))
    by (unfold fits; lia).
  rewrite (proj2 (Z.ltb_lt (o + (v - v)) size)), (proj2 (Z.ltb_lt 0 (Z.min _ _ - v))),
    (proj2 (Z.ltb_lt 0 (size - _))) by lia. cbn [andb].
  set (cpy := if _ <? size - _ then _ else _).
  assert (cpy = Z.min fs (va + 4096 - v)) as Hcpy.
  { unfold cpy. destruct (Z.ltb_spec (Z.min (va + 4096) (v + fs) - v) (size - (o + (v - v)))); lia. }
  rewrite (bind_step _ _ _ _ _ (phys_to_virt_low L st f Hal Hlow)).
  destruct (memcpy_data_ok st f (o + (v - v)) cpy Hr Hal Hlow Hfresh) as (m' & E & Hout & Hb); [lia..|].
  exists m'. split; [exact E|]. split; [exact Hout|]. intros i Hi. rewrite Hb, Hcpy by done.
  replace (va + i - va) with i by lia. destruct (decide _); [f_equal; lia|by apply Hz].
Qed.

(** ** A page of the user *)

Definition user_flags : Z := Z.lor (Z.lor PAGE_PRESENT PAGE_WRITABLE) PAGE_USER.

(** The page of [va] is mapped, user accessible, and holds what [g] says; its
    frame belongs to nobody else. *)
Definition backed st va (g : Z -> Z) : Prop :=
  exists f, aligned f /\ walk (pmem st) root va = Some (Z.lor f user_flags) /\
    (forall i, 0 <= i < 4096 -> read_byte (pmem st) (f + i) = g (va + i)) /\
    (forall a, f <= a < f + 4096 -> elsewhere root st a).

Local Abbreviation advances := (advances L root).

Lemma backed_advances P st st' va g :
  backed st va g -> advances P st st' -> ~ on_scratch_page va ->
  (forall va', P va' -> ~ same_page va' va) -> backed st' va g.
Proof.
  intros (f & Hal & Hw & Hb & He) Ha Hs Hp. exists f. split_and!; [done| | |].
  - by rewrite (ad_walk _ _ _ _ _ Ha).
  - intros i Hi. rewrite <-Hb by done. apply (read_byte_agree _ _ f); [apply Hal|lia|].
    intros x Hx. apply (ad_words _ _ _ _ _ Ha), He, Hx.
  - intros a Ha'. apply (advances_elsewhere L root P st); [done|]. by apply He.
Qed.

Lemma segment_flags_user ph : segment_flags ph = user_flags.
Proof. unfold segment_flags. by destruct (_ =? 0). Qed.

(** [copy_page] fills a zeroed frame of the page of [va] with [g]. *)
Definition copies ph va (g : Z -> Z) : Prop :=
  forall st f, ready st -> aligned f -> f < 0x1FF000 -> fresh (pmem st) root f ->
    (forall i, 0 <= i < 4096 -> read_byte (pmem st) (f + i) = 0) ->
    exists m', copy_page L data size ph va f st = Done tt (set_pmem m' st) [] /\
      (forall a, a / 4096 <> f / 4096 -> m' !! a = pmem st !! a) /\
      (forall i, 0 <= i < 4096 -> read_byte m' (f + i) = g (va + i)).

(** A frame [f] was taken from [st] and filled with [g]. *)
Record filled st f (g : Z -> Z) s3 : Prop := {
  fl_frame : f ∈ fa_avail (frames st) /\ ~ f ∈ fa_avail (frames s3);
  fl_aligned : aligned (f * PMM_FRAME_SIZE);
  fl_bytes : forall i, 0 <= i < 4096 -> read_byte (pmem s3) (f * PMM_FRAME_SIZE + i) = g i;
  fl_fresh : fresh (pmem s3) root (f * PMM_FRAME_SIZE);
  fl_advances : advances (fun _ => False) st s3;
  fl_spent : spent 1 st s3;
  fl_kept : kept root (eq f) st s3;
}.

Lemma fill_taken st f s2 ph va g :
  taken L root st f s2 -> copies ph va g ->
  exists s3, copy_page L data size ph va (f * PMM_FRAME_SIZE) s2 = Done tt s3 [] /\
    filled st f (fun i => g (va + i)) s3.
Proof.
  intros [(Hf & Hout & Hrange) Hal Hfresh Hm Ha Hsp Hk] Hcopies.
  set (fr := f * PMM_FRAME_SIZE) in *. pose proof (ad_ready _ _ _ _ _ Ha) as Hr2.
  assert (fr < 0x1FF000) as Hlow by (unfold fr, PMM_FRAME_SIZE; lia).
  destruct (Hcopies s2 fr Hr2 Hal Hlow Hfresh) as (m3 & E3 & Hout3 & Hb3).
  { intros i Hi. rewrite Hm. apply read_byte_zero; [done|lia]. }
  pose proof (private_tables L root (pmem s2) m3 fr (pi_space _ _ _ (rd_inv _ _ _ Hr2)) Hal Hfresh Hout3) as Hsame.
  exists (set_pmem m3 s2). split; [exact E3|]. split; [by split|exact Hal|exact Hb3| | |exact Hsp|].
  - by eapply fresh_same_tables.
  - apply (private_advances L root _ st s2 m3 f); try done. intros x Hx. apply Hout3.
    unfold fr, PMM_FRAME_SIZE. by rewrite Z.div_mul.
  - intros h Hg. destruct (Hk h Hg) as [?|[(q & Hq & Hh & Ht)|?]]; [by left|right; left|by right; right].
    exists q. split_and!; [done..|]. simpl. by rewrite Hsame.
Qed.

Lemma filled_elsewhere st f g s3 x :
  filled st f g s3 -> f * PMM_FRAME_SIZE <= x < f * PMM_FRAME_SIZE + 4096 -> elsewhere root s3 x.
Proof.
  intros [[_ Hout] Hal _ Hfresh Ha _ _] Hx.
  by apply (taken_elsewhere L root s3 f x (ad_ready _ _ _ _ _ Ha)).
Qed.

(** Mapping the frame puts the page in place. *)
Lemma filled_backed st f va g s3 st' :
  filled st f (fun i => g (va + i)) s3 -> advances (eq va) s3 st' ->
  walk (pmem st') root va = Some (Z.lor (f * PMM_FRAME_SIZE) user_flags) -> backed st' va g.
Proof.
  intros Hfl Ha Hw. exists (f * PMM_FRAME_SIZE). pose proof (fl_aligned _ _ _ _ Hfl) as Hal. split_and!; [done|done| |].
  - intros i Hi. rewrite <-(fl_bytes _ _ _ _ Hfl) by done. apply (read_byte_agree _ _ (f * PMM_FRAME_SIZE)); [apply Hal|lia|].
    intros x Hx. by apply (ad_words _ _ _ _ _ Ha), (filled_elsewhere st f _ s3 x Hfl).
  - intros x Hx. apply (advances_elsewhere L root (eq va) s3); [done|]. by apply (filled_elsewhere st f _ s3 x Hfl).
Qed.

Lemma load_page_ok st ph va g :
  ready st -> pml4_idx va <> 511 -> copies ph va g ->
  exists r st' w, load_page L data size root ph (segment_flags ph) va st = Done r st' w /\
    advances (eq va) st st' /\ spent 4 st st' /\
    match r with
    | None => backed st' va g /\ paged root st st' va
    | Some r => (exists lost, accounts root lost st st') /\ r = -1 /\ fa_avail (frames st') = ∅ /\ short 4 st
    end.
Proof.
  intros Hr Hhalf Hcopies. rewrite segment_flags_user. unfold load_page.
  destruct (take_cleared L HL root st Hr) as [[Ea Hemp]|(f & vp & s1 & s2 & Hne & Ea & Ep & Em & Htk)].
  { rewrite (bind_step _ _ _ _ _ Ea). eexists (Some (-1)), st, _.
    split; [reflexivity|]. split; [by apply advances_refl|].
    unfold spent, short. rewrite Hemp, size_empty. split_and!; try done || lia. exists None. apply accounts_refl. }
  rewrite (bind_step _ _ _ _ _ Ea), (proj2 (Z.eqb_neq _ _) Hne), (bind_step _ _ _ _ _ Ep), (bind_step _ _ _ _ _ Em).
  destruct (fill_taken st f s2 ph va g Htk Hcopies) as (s3 & E3 & Hfl).
  rewrite (bind_step _ _ _ _ _ E3). pose proof Hfl as [[Hf Hout] Hal _ _ H3 Hsp3 Hk3].
  destruct (map_user_page_ok L HL root s3 va (f * PMM_FRAME_SIZE) user_flags (ad_ready _ _ _ _ _ H3) Hhalf Hal
    eq_refl ltac:(done)) as (b & st' & E4 & H4 & Hsp4 & Hk4 & Hb4).
  rewrite (bind_step _ _ _ _ _ E4). exists (if b then None else Some (-1)), st', []. split; [done|].
  assert (kept root (eq f) st st') as Hk.
  { apply (kept_weaken root (fun g => f = g \/ False)); [tauto|]. by apply (kept_trans L root (eq va) _ _ st s3). }
  split; [|split; [unfold spent in *; lia|]].
  { apply (advances_trans L root _ st s3); [|done]. by apply (advances_weaken L root (fun _ => False)). }
  destruct b; cbn [negb].
  - split; [by apply (filled_backed st f va g s3)|]. exists f. split; [done|]. split; [done|].
    eexists. split; [exact Hb4|]. apply page_base_lor; [apply Hal..|done].
  - destruct Hb4 as (Hn4 & Hemp & Hsh). split_and!; [|done|done|unfold short, spent in *; lia].
    exists (Some f). apply (lost_accounts L root st st' f Hf); [|by apply (advances_trans L root _ st s3)|done].
    rewrite Hemp. clear. set_solver.
Qed.

(** ** User pages *)

Lemma user_half va : 0 <= va < USER_ADDR_LIMIT -> pml4_idx va <> 511.
Proof.
  unfold USER_ADDR_LIMIT. intros Hva. destruct (idx_digits va) as [-> _]. change (2 ^ 39) with 0x8000000000. divlia.
Qed.

Lemma user_page va : 0 <= va < USER_ADDR_LIMIT -> ~ on_scratch_page va.
Proof. intros Hva. by apply user_half_off_scratch, user_half. Qed.

Lemma pages_differ va va' :
  0 <= va < USER_ADDR_LIMIT -> 0 <= va' < USER_ADDR_LIMIT -> va mod 4096 = 0 -> va' mod 4096 = 0 ->
  same_page va va' -> va = va'.
Proof.
  unfold USER_ADDR_LIMIT. intros Hva Hva' H1 H2 Hp%same_page_iff. change (2 ^ 36) with 0x1000000000 in Hp. divlia.
Qed.

Lemma in_segment_user ph va : seg_ok ph -> in_segment ph va -> 0 <= va < USER_ADDR_LIMIT.
Proof. intros [[Hv _] _ Hl _] [_ Hin]. lia. Qed.

(** The pages of a segment. *)
Definition segment_pages (ph : elf64_phdr) : nat := Z.to_nat ((p_memsz ph + 4095) / 4096).

Lemma load_segment_ok st ph :
  ready st -> seg_ok ph ->
  exists r st' w, load_segment L data size root ph st = Done r st' w /\
    advances (in_segment ph) st st' /\ spent (4 * segment_pages ph) st st' /\
    match r with
    | None => (forall va, in_segment ph va -> backed st' va (image ph)) /\
        (unmapped root (in_segment ph) st -> accounts root None st st')
    | Some r => (unmapped root (in_segment ph) st -> exists lost, accounts root lost st st') /\
        r = -1 /\ fa_avail (frames st') = ∅ /\ short (4 * segment_pages ph) st
    end.
Proof.
  intros Hr Hseg. pose proof Hseg as [[Hv0 Hva] [Hf0 Hfm] Hlim [Ho0 Ho]]. unfold load_segment, for_pages.
  assert (2 ^ 64 = 0x10000000000000000) as H64 by done. pose proof Hlim as Hlim'. unfold USER_ADDR_LIMIT in Hlim'.
  set (v := p_vaddr ph) in *. set (n := p_memsz ph) in *.
  rewrite (wrap_small 64 (v + n)), (wrap_small 64 (v + n + 0xFFF)) by (unfold fits; lia).
  rewrite !page_base_eq by (unfold fits; lia). replace (v / 4096 * 4096) with v by divlia.
  unfold PMM_FRAME_SIZE.
  set (pages := ((v + n + 0xFFF) / 4096 * 4096 - v + 4096 - 1) / 4096).
  assert (0 <= pages /\ n <= pages * 4096 < n + 4096) as [Hp0 Hpages] by (unfold pages; divlia).
  assert (segment_pages ph = Z.to_nat pages) as Hpg by (unfold segment_pages; fold n; f_equal; divlia).
  destruct (mfor_leave_rule (fun k s => advances (fun va => in_segment ph va /\ va < v + k * 4096) st s /\
      spent (4 * Z.to_nat k) st s /\ (unmapped root (in_segment ph) st -> accounts root None st s) /\
      forall j, 0 <= j < k -> backed s (v + j * 4096) (image ph))
    (fun (r : Z) s => advances (in_segment ph) st s /\ spent (4 * Z.to_nat pages) st s /\
      (unmapped root (in_segment ph) st -> exists lost, accounts root lost st s) /\ r = -1 /\ fa_avail (frames s) = ∅ /\ short (4 * Z.to_nat pages) st)
    (fun k => load_page L data size root ph (segment_flags ph) (v + k * 4096)) (Z.to_nat pages) 0 st)
    as (r & st' & w & E & Hres).
  - split; [by apply advances_refl|]. split; [unfold spent; lia|]. split; [intros _; apply accounts_refl|lia].
  - intros k s Hk (Ha & Hsp & Hac & Hb). rewrite Z2Nat.id in Hk by lia.
    assert (in_segment ph (v + k * 4096)) as Hin by (split; [divlia|fold v n; lia]).
    pose proof (in_segment_user ph _ Hseg Hin) as Hu. pose proof (user_page _ Hu) as Hns.
    destruct (load_page_ok s ph _ (image ph) (ad_ready _ _ _ _ _ Ha) (user_half _ Hu)) as (r & s' & w & E & Hs & Hsp' & Hres).
    { intros s1 f R1 R2 R3 R4. by apply copy_page_ok. }
    assert (advances (fun va => in_segment ph va /\ va < v + (k + 1) * 4096) st s') as Ha'.
    { apply (advances_trans L root _ st s).
      - eapply advances_weaken; [|exact Ha]. intros x [? ?]. split; [done|lia].
      - apply (advances_weaken L root (eq (v + k * 4096))); [|done]. intros x <-. split; [done|lia]. }
    assert (unmapped root (in_segment ph) st -> unmapped root (eq (v + k * 4096)) s) as Hunk.
    { intros Hun x <-. rewrite (ad_walk _ _ _ _ _ Ha); [by apply Hun|done|]. intros x [Hx Hlt] Hsame.
      pose proof (pages_differ _ _ (in_segment_user ph _ Hseg Hx) Hu (proj1 Hx) (proj1 Hin) Hsame). lia. }
    exists r, s', w. split; [exact E|]. unfold spent, short in *. destruct r as [r|].
    { destruct Hres as ((lost & Hlost) & -> & Hemp & Hsh). split_and!; [|lia| |done|done|lia].
      - eapply advances_weaken; [|exact Ha']. by intros x [? _].
      - intros Hun. exists lost. by apply (accounts_trans L root lost _ (eq (v + k * 4096)) st s s' Ha Hs); auto. }
    destruct Hres as [Hback Hpage]. split; [done|]. split; [lia|]. split.
    { intros Hun. apply (accounts_trans L root None _ (eq (v + k * 4096)) st s s' Ha Hs); [by apply Hunk|by apply Hac|].
      apply (paged_accounts L root s s' _ (user_half _ Hu) Hs Hpage). }
    intros j Hj. destruct (decide (j = k)) as [->|Hne]; [done|].
    assert (in_segment ph (v + j * 4096)) as Hinj by (split; [divlia|fold v n; lia]).
    pose proof (in_segment_user ph _ Hseg Hinj) as Huj.
    apply (backed_advances (eq (v + k * 4096)) s); [apply Hb; lia|done|by apply user_page|].
    intros va' <- Hsame. apply Hne. pose proof (pages_differ _ _ Hu Huj (proj1 Hin) (proj1 Hinj) Hsame). lia.
  - exists r, st', w. split; [exact E|]. rewrite Hpg. destruct r as [r|].
    + by destruct Hres as (? & ? & ? & -> & ?).
    + destruct Hres as (Ha & Hsp & Hac & Hb). rewrite Z2Nat.id in Hsp by lia. split; [|split; [done|split; [|done]]].
      { eapply advances_weaken; [|exact Ha]. by intros x [? _]. }
      intros va [Hal Hin]. fold v n in Hin.
      replace va with (v + (va - v) / 4096 * 4096) by divlia. apply Hb. rewrite Z2Nat.id by lia. divlia.
Qed.
End load.
