(* ===== verification/ElfTheorems.v ===== *)
(** * The ELF loader: theorems

    What [elf_load] does with a well-formed image, which images it rejects,
    and where it leaves the ELF specification. *)
From S2P Require Import Prelude Effects PmmInterface PagingInterface Paging PageTable PagingProofs.
From S2P Require Import PagingSpec WalkProofs Serial Elf UserMap Accounts ElfProofs.

(** A step whose output does not matter. *)
Lemma bind_any {S A B} (m : M S A) (f : A -> M S B) s a s' w (P : B -> S -> Prop) :
  m s = Done a s' w -> (exists b s'' w', f a s' = Done b s'' w' /\ P b s'') ->
  exists b s'' w', (m ≫= f) s = Done b s'' w' /\ P b s''.
Proof.
  intros E (b & s'' & w' & Ef & HP). exists b, s'', (w ++ w'). by rewrite (bind_done _ _ _ _ _ _ E), Ef.
Qed.

Section theorems.
Context {FA : Type} `{HFA : FrameAlloc FA} `{!FrameAllocOk FA}.
Context (L : layout) (HL : layout_ok L) (root : Z) (data : list Z).
Implicit Types (st : pg_state FA) (va a : Z).
Local Abbreviation size := (Z.of_nat (length data)).

(** The headers of the image. *)
Definition header : elf64_ehdr := parse_ehdr (slice data 0 64).
Definition phdr_off (i : Z) : Z := e_phoff header + i * e_phentsize header.
Definition phdr (i : Z) : elf64_phdr := parse_phdr (slice data (Z.to_nat (phdr_off i)) 56).
(** Header [i] names a segment to load. *)
Definition loads (i : Z) : Prop := 0 <= i < e_phnum header /\ p_type (phdr i) = PT_LOAD.
(** A page of some segment. *)
Definition loaded_page va : Prop := exists i, loads i /\ in_segment (phdr i) va.

(** A well-formed executable. *)
Record elf_ok : Prop := {
  eo_bytes : Forall (fits 8) data;
  eo_size : 64 <= size < 2 ^ 64;
  eo_ident : bad_ident header = None;
  eo_type : e_type header = ET_EXEC;
  eo_machine : e_machine header = EM_X86_64;
  eo_headers : forall i, 0 <= i < e_phnum header -> phdr_off i + sizeof_phdr <= size;
  eo_segments : forall i, loads i -> seg_ok (phdr i);
  eo_disjoint : forall i j va, loads i -> loads j -> in_segment (phdr i) va -> in_segment (phdr j) va -> i = j;
}.

Lemma le_nonneg l : Forall (fits 8) l -> 0 <= le l.
Proof. induction 1 as [|b l [Hb _] _ IH]; simpl; lia. Qed.

Lemma slice_bytes l off n : Forall (fits 8) l -> Forall (fits 8) (slice l off n).
Proof. intros H. unfold slice. by apply Forall_take, Forall_drop. Qed.

Lemma header_nonneg : Forall (fits 8) data -> 0 <= e_phoff header /\ 0 <= e_phentsize header.
Proof. intros H. split; by apply le_nonneg, slice_bytes, slice_bytes. Qed.

Lemma read_bytes_run off n st :
  0 <= off -> off + n <= size -> read_bytes data off n st = Done (slice data (Z.to_nat off) (Z.to_nat n)) st [].
Proof.
  intros H0 Hn. unfold read_bytes. by rewrite (proj2 (Z.leb_le _ _) H0), (proj2 (Z.leb_le _ _) Hn).
Qed.

Lemma dump_run st : 20 <= size -> exists w, dump_bytes data st = Done tt st w.
Proof.
  intros Hs. unfold dump_bytes.
  destruct (bind_any (say (SerialPuts "[ELF] bytes: ")) (fun _ => mfor (R := unit) 20 0 (fun i =>
    b ← read_bytes data i 1;
    say (SerialPuts (String (hex_char (Z.shiftr (nth 0 b 0) 4)) (String (hex_char (Z.land (nth 0 b 0) 0xF)) " ")));;
    mret None);; say (SerialPuts NL)) st tt st [SerialPuts "[ELF] bytes: "] (fun _ s => s = st) eq_refl)
    as ([] & s & w & E & ->); [|by exists w].
  destruct (mfor_leave_rule (R := unit) (fun _ s => s = st) (fun _ _ => False) (fun i =>
    b ← read_bytes data i 1;
    say (SerialPuts (String (hex_char (Z.shiftr (nth 0 b 0) 4)) (String (hex_char (Z.land (nth 0 b 0) 0xF)) " ")));;
    mret None) 20 0 st) as (r & s & w & E & Hr); [done| |].
  - intros i s Hi ->. eexists None, st, _. split; [|done].
    rewrite (bind_step _ _ _ _ _ (read_bytes_run i 1 st ltac:(lia) ltac:(lia))). reflexivity.
  - destruct r; [done|]. subst s. eapply (bind_any _ _ st _ st w (fun _ s => s = st) E).
    by eexists _, _, _.
Qed.
Context (Helf : elf_ok).
Local Abbreviation advances := (advances L root).
Local Abbreviation backed := (backed root).

(** At most so many frames are needed for the first [n] headers: a page and
    three tables per page. *)
Fixpoint frames_for (n : nat) : nat :=
  match n with
  | O => 0
  | S n => frames_for n + (if (p_type (phdr (Z.of_nat n)) =? PT_LOAD)%Z then 4 * segment_pages (phdr (Z.of_nat n)) else 0)
  end%nat.

Lemma frames_for_le n m : (n <= m)%nat -> (frames_for n <= frames_for m)%nat.
Proof. induction 1 as [|m _ IH]; [done|]. simpl. lia. Qed.

Lemma frames_for_next i :
  0 <= i -> frames_for (Z.to_nat (i + 1)) =
    (frames_for (Z.to_nat i) + (if (p_type (phdr i) =? PT_LOAD)%Z then 4 * segment_pages (phdr i) else 0))%nat.
Proof. intros Hi. rewrite Z2Nat.inj_add, Nat.add_1_r by lia. simpl. by rewrite Z2Nat.id by done. Qed.

Local Abbreviation all_frames := (frames_for (Z.to_nat (e_phnum header))).

(** Every page of the first [i] headers' segments is in place, and the frames
    they took are accounted for. *)
Definition loaded_before (i : Z) va : Prop := exists j, 0 <= j < i /\ loads j /\ in_segment (phdr j) va.

Lemma loaded_before_page i va : loaded_before i va -> loaded_page va.
Proof. intros (j & _ & Hl & Hin). by exists j. Qed.

Definition placed (i : Z) st0 st : Prop :=
  advances (loaded_before i) st0 st /\ (unmapped root loaded_page st0 -> accounts root None st0 st) /\ spent (frames_for (Z.to_nat i)) st0 st /\
  forall j va, 0 <= j < i -> loads j -> in_segment (phdr j) va -> backed st va (image data (phdr j)).

Lemma load_phdr_ok st0 st i :
  0 <= i < e_phnum header -> ready L root st -> placed i st0 st ->
  exists r st' w, load_phdr L data size root header i st = Done r st' w /\
    match r with
    | None => placed (i + 1) st0 st'
    | Some r => advances loaded_page st0 st' /\
        (unmapped root loaded_page st0 -> exists lost, accounts root lost st0 st') /\ r = -1 /\ fa_avail (frames st') = ∅ /\ short all_frames st0
    end.
Proof.
  intros Hi Hr (Ha & Hac & Hsp & Hb). destruct Helf as [Hby Hsz _ _ _ Hhd Hseg Hdis].
  pose proof (frames_for_next i (proj1 Hi)) as Hnext.
  pose proof (frames_for_le (Z.to_nat (i + 1)) (Z.to_nat (e_phnum header)) ltac:(lia)) as Hle.
  pose proof (Hhd i Hi) as Hoff. unfold load_phdr. unfold sizeof_phdr, phdr_off in *.
  destruct (header_nonneg Hby) as [Hpo Hpe].
  assert (2 ^ 64 = 0x10000000000000000) as H64 by done.
  assert (0 <= i * e_phentsize header) as Hm0 by nia.
  rewrite (wrap_small 64 (i * _)), (wrap_small 64 (e_phoff header + _)), (wrap_small 64 (_ + 56))
    by (unfold fits; lia).
  rewrite (proj2 (Z.ltb_ge _ _)) by lia.
  rewrite (bind_step _ _ _ _ _ (read_bytes_run (e_phoff header + i * e_phentsize header) 56 st ltac:(lia) ltac:(lia))).
  change (parse_phdr (slice data (Z.to_nat (e_phoff header + i * e_phentsize header)) (Z.to_nat 56))) with (phdr i).
  revert Hnext. destruct (Z.eqb_spec (p_type (phdr i)) PT_LOAD) as [Hld|Hno]; intros Hnext; cbn [negb];
    unfold placed, spent, short in *; rewrite ?Hnext; rewrite Hnext in Hle.
  - assert (loads i) as Hl by done. pose proof (Hseg i Hl) as Hsg.
    destruct (load_segment_ok L HL root data Hby st (phdr i) Hr Hsg) as (r & st' & w & E & Hs & Hsp' & Hres).
    assert (advances (loaded_before (i + 1)) st0 st') as Hs'.
    { apply (advances_trans L root _ st0 st).
      - eapply advances_weaken; [|exact Ha]. intros va (j & Hj & H). exists j. split; [lia|done].
      - apply (advances_weaken L root (in_segment (phdr i))); [|done]. intros va Hva. exists i. split; [lia|done]. }
    assert (forall j va va', j <> i -> loads j -> in_segment (phdr j) va -> in_segment (phdr i) va' -> ~ same_page va' va)
      as Hapart.
    { intros j va va' Hne Hlj Hin Hva' Hsame. apply Hne, (Hdis j i va); [done..|].
      assert (va' = va) as <-; [|done].
      apply pages_differ; [by apply (in_segment_user (phdr i))|by apply (in_segment_user (phdr j)); [apply Hseg|]|
        apply Hva'|apply Hin|done]. }
    assert (unmapped root loaded_page st0 -> unmapped root (in_segment (phdr i)) st) as Hunk.
    { intros Hun va Hva. rewrite (ad_walk _ _ _ _ _ Ha); [apply Hun; by exists i|by apply user_page, (in_segment_user (phdr i))|].
      intros va' (j & Hj & Hlj & Hva') Hsame. apply (Hapart j va' va); [lia|done..|].
      destruct Hsame as [E1 E2]. by split. }
    do 7 (eapply bind_any; [reflexivity|]). exists r, st', w. split; [exact E|].
    destruct r as [r|].
    { destruct Hres as (Hlost & -> & Hemp & Hsh). split_and!; [| |done|done|].
      - eapply advances_weaken; [|exact Hs']. apply loaded_before_page.
      - intros Hun. destruct (Hlost (Hunk Hun)) as [lost Hl']. exists lost.
        apply (accounts_trans L root lost _ (in_segment (phdr i)) st0 st st' Ha Hs); auto.
      - unfold short in Hsh. lia. }
    destruct Hres as [Hback Hacc]. split; [done|]. split; [|split; [unfold spent in Hsp'; lia|]].
    { intros Hun. apply (accounts_trans L root None _ (in_segment (phdr i)) st0 st st' Ha Hs); auto. }
    intros j va Hj Hlj Hin. destruct (decide (j = i)) as [->|Hne]; [by apply Hback|].
    pose proof (in_segment_user _ _ (Hseg j Hlj) Hin) as Hu.
    apply (backed_advances L root (in_segment (phdr i)) st); [apply (Hb j); [lia|done..]|done|by apply user_page|].
    intros va' Hva'. by apply (Hapart j).
  - eapply bind_any; [reflexivity|]. eexists None, st, _. split; [reflexivity|]. split; [|split; [done|split; [lia|]]].
    { eapply advances_weaken; [|exact Ha]. intros va (j & Hj & H). exists j. split; [lia|done]. }
    intros j va Hj Hlj Hin. destruct (decide (j = i)) as [->|Hne]; [by destruct Hlj|].
    apply (Hb j); [lia|done..].
Qed.

(** A byte of the user's memory. *)
Definition user_byte st a (v : Z) : Prop :=
  exists e, walk (pmem st) root a = Some e /\ has_flag e PAGE_USER = true /\
    has_flag e PAGE_WRITABLE = true /\ read_byte (pmem st) (xlate e a) = v.

Lemma backed_byte st va g a :
  backed st va g -> va mod 4096 = 0 -> 0 <= va <= a -> a < va + 4096 -> user_byte st a (g a).
Proof.
  intros (f & [Hf Hal] & Hw & Hb & _) Hva H0 Ha. exists (Z.lor f user_flags).
  assert (same_page va a) as Hsame by (apply same_page_offset; [lia|done]).
  split_and!.
  - by rewrite (same_page_walk _ _ _ _ Hsame).
  - change PAGE_USER with (Z.shiftl 1 2). rewrite has_flag_bit, Z.lor_spec by lia. apply orb_true_r.
  - change PAGE_WRITABLE with (Z.shiftl 1 1). rewrite has_flag_bit, Z.lor_spec by lia. apply orb_true_r.
  - unfold xlate. rewrite page_base_lor by done. change 0xFFF with (2 ^ 12 - 1). rewrite land_low by lia.
    change (2 ^ 12) with 4096.
    assert (Z.lor f (a mod 4096) = f + (a - va)) as ->; [|rewrite Hb by lia; f_equal; lia].
    replace f with (f / 4096 * 2 ^ 12) at 1 by (change (2 ^ 12) with 4096; divlia).
    rewrite lor_page by (try lia; apply Z.mod_pos_bound; lia). change (2 ^ 12) with 4096. divlia.
Qed.

Lemma report_run st : exists w, report_header header st = Done tt st w.
Proof. eexists. reflexivity. Qed.

(** The whole of [elf_load]. *)
Lemma elf_load_aux st :
  ready L root st ->
  exists r st' w, elf_load L (Some data) size root true st = Done (r, Some (e_entry header)) st' w /\
    advances loaded_page st st' /\
    ((r = 0 /\ placed (e_phnum header) st st') \/
     (r = -1 /\ (unmapped root loaded_page st -> exists lost, accounts root lost st st') /\
        fa_avail (frames st') = ∅ /\ short all_frames st)).
Proof.
  intros Hr. enough (exists rv st' w, elf_load L (Some data) size root true st = Done rv st' w /\
    exists r, rv = (r, Some (e_entry header)) /\ advances loaded_page st st' /\
      ((r = 0 /\ placed (e_phnum header) st st') \/
       (r = -1 /\ (unmapped root loaded_page st -> exists lost, accounts root lost st st') /\
        fa_avail (frames st') = ∅ /\ short all_frames st))) as (rv & st' & w & E & r & -> & H)
    by (by exists r, st', w).
  destruct Helf as [Hby Hsz Hid Hty Hma _ _ _]. unfold elf_load, sizeof_ehdr.
  rewrite (proj2 (Z.ltb_ge _ _)) by lia. cbn [negb orb].
  rewrite (bind_step _ _ _ _ _ (read_bytes_run 0 64 st ltac:(lia) ltac:(lia))).
  change (parse_ehdr (slice data (Z.to_nat 0) (Z.to_nat 64))) with header. rewrite Hid, Hty, Hma.
  destruct (dump_run st ltac:(lia)) as [w1 E1]. eapply bind_any; [exact E1|]. cbn [negb Z.eqb ET_EXEC EM_X86_64].
  change (ET_EXEC =? ET_EXEC) with true. change (EM_X86_64 =? EM_X86_64) with true. cbn [negb].
  destruct (report_run st) as [w2 E2]. eapply bind_any; [exact E2|].
  assert (0 <= e_phnum header) as Hn by (apply le_nonneg, slice_bytes, slice_bytes, Hby).
  destruct (mfor_leave_rule (fun i s => placed i st s)
    (fun r s => advances loaded_page st s /\
      (unmapped root loaded_page st -> exists lost, accounts root lost st s) /\ r = -1 /\ fa_avail (frames s) = ∅ /\ short all_frames st)
    (load_phdr L data size root header) (Z.to_nat (e_phnum header)) 0 st) as (r & s & w3 & E3 & Hr3).
  - split; [by apply advances_refl|]. split; [intros _; apply accounts_refl|]. split; [unfold spent; lia|]. intros j va Hj. lia.
  - intros i s Hi Hp. apply load_phdr_ok; [lia|apply Hp|done].
  - eapply bind_any; [exact E3|]. destruct r as [r|].
    + destruct Hr3 as (Ha & Hlost & -> & Hemp). eexists _, s, _. split; [reflexivity|]. exists (-1). auto 6.
    + eapply bind_any; [reflexivity|]. eexists _, s, _. split; [reflexivity|]. exists 0.
      rewrite Z.add_0_l, Z2Nat.id in Hr3 by done. split; [done|]. split; [|by left].
      eapply advances_weaken; [|apply Hr3]. apply loaded_before_page.
Qed.

(** The bytes of a segment that is in place. *)
Lemma placed_byte st0 st i a :
  placed (e_phnum header) st0 st -> loads i -> p_vaddr (phdr i) <= a < p_vaddr (phdr i) + p_memsz (phdr i) ->
  user_byte st a (image data (phdr i) a).
Proof.
  intros (_ & _ & _ & Hb) Hl Hin. pose proof (eo_segments Helf i Hl) as [[Hv0 Hva] _ _ _].
  assert (in_segment (phdr i) (a / 4096 * 4096)) as Hs by (split; [divlia|divlia]).
  apply (backed_byte st (a / 4096 * 4096)); [by apply (Hb i); [apply Hl|..]|divlia..].
Qed.

End theorems.

Section rejects.
Context {FA : Type} `{HFA : FrameAlloc FA}.
Context (L : layout) (root : Z).
Implicit Types (st : pg_state FA).

(** Why an image is refused before anything is mapped. *)
Definition refused (od : option (list Z)) (sz : Z) (out : bool) : Prop :=
  match od with
  | None => True
  | Some d =>
      sz < 64 \/ out = false \/
      (sz = Z.of_nat (length d) /\
       (bad_ident (header d) <> None \/ e_type (header d) <> ET_EXEC \/ e_machine (header d) <> EM_X86_64))
  end.

(** [elf_load] refuses a null image or result pointer, a file shorter than
    the header, a wrong identification, type or machine: it returns -1, the
    whole machine state is unchanged and nothing is stored through the result
    pointer. *)
Theorem elf_load_refuses od sz out st :
  refused od sz out -> exists w, elf_load L od sz root out st = Done (-1, None) st w.
Proof.
  destruct od as [d|]; [|by eexists]. intros Href. unfold elf_load, sizeof_ehdr.
  destruct ((sz <? 64) || negb out) eqn:Hargs; [by eexists|].
  apply orb_false_iff in Hargs as [Hsz Hout]. apply Z.ltb_ge in Hsz. apply negb_false_iff in Hout.
  destruct Href as [?|[?|[-> Hbad]]]; [lia|congruence|].
  rewrite (bind_step _ _ _ _ _ (read_bytes_run d 0 64 st ltac:(lia) ltac:(lia))).
  change (parse_ehdr (slice d (Z.to_nat 0) (Z.to_nat 64))) with (header d).
  destruct (bad_ident (header d)) as [msg|]; [by eexists|].
  destruct (dump_run d st ltac:(lia)) as [w1 E1]. rewrite (bind_done _ _ _ _ _ _ E1).
  destruct (Z.eqb_spec (e_type (header d)) ET_EXEC) as [Et|Et]; [|by eexists].
  destruct (Z.eqb_spec (e_machine (header d)) EM_X86_64) as [Em|Em]; [|by eexists].
  by destruct Hbad as [?|[?|?]].
Qed.
End rejects.

Section unaligned.
Context {FA : Type} `{HFA : FrameAlloc FA} `{!FrameAllocOk FA}.
Context (L : layout) (HL : layout_ok L) (root : Z) (data : list Z).
Implicit Types (st : pg_state FA).
Local Abbreviation size := (Z.of_nat (length data)).

(** A segment that does not start at a page boundary is misplaced.  The
    loader copies the file's bytes to the start of the first page instead of
    to [p_vaddr]: the program finds the first byte of the segment at the
    address of the page. *)
Theorem elf_load_misplaces_unaligned st ph va :
  Forall (fits 8) data -> ready L root st -> size < 2 ^ 64 ->
  va mod 4096 = 0 -> 0 <= va < p_vaddr ph -> p_vaddr ph < va + 4096 ->
  p_vaddr ph + p_filesz ph <= USER_ADDR_LIMIT ->
  0 < p_filesz ph -> 0 <= p_offset ph -> p_offset ph + p_filesz ph <= size ->
  exists r st' w, load_page L data size root ph (segment_flags ph) va st = Done r st' w /\
    ((r = Some (-1) /\ fa_avail (frames st') = ∅) \/
     (r = None /\ user_byte root st' va (datum data (p_offset ph)) /\
      (Z.min (p_filesz ph) (va + 4096 - p_vaddr ph) <= p_vaddr ph - va -> user_byte root st' (p_vaddr ph) 0))).
Proof.
  intros Hby Hr Hsz Hal Hva Hva' Hlim Hfs Ho Hin.
  assert (0 <= va < USER_ADDR_LIMIT) as Hu by lia. 
  destruct (load_page_ok L HL root data st ph va (shifted data ph va) Hr (user_half va Hu)) as (r & st' & w & E & _ & _ & Hb).
  { intros s f R1 R2 R3 R4. by apply (copy_first_page L root data). }
  exists r, st', w. split; [exact E|]. destruct r as [r|]; [left; by destruct Hb as (_ & -> & ? & _)|right].
  pose proof (fun a => backed_byte root st' va _ a (proj1 Hb) Hal) as Hbyte. split; [done|]. split.
  - pose proof (Hbyte va ltac:(lia) ltac:(lia)) as H. unfold shifted in H.
    rewrite decide_True in H by lia. by replace (p_offset ph + (va - va)) with (p_offset ph) in H by lia.
  - intros Hle. pose proof (Hbyte (p_vaddr ph) ltac:(lia) ltac:(lia)) as H. unfold shifted in H.
    by rewrite decide_False in H by lia.
Qed.
End unaligned.
