(* ===== verification/Boot.v ===== *)
(** * The boot code (src/kernel/boot.s)

    The tables boot.s lays down in the image, and its instructions from
    [_start], where GRUB enters in 32-bit protected mode, to the call of
    [kernel_main] in 64-bit mode, on the part of the CPU they use.  A fault
    ends the execution: no interrupt table is loaded yet. *)
From S2P Require Import Prelude Effects PmmInterface PagingInterface Paging PageTable Ports.

(** ** The Multiboot2 header *)

(** [mbhdr_end - mbhdr_start] *)
Definition mbhdr_length : Z := 4 * 7.

(** The words from [mbhdr_start] to [mbhdr_end]. *)
Definition mbhdr : list Z :=
  [0xE85250D6; 0; mbhdr_length; 0x100000000 - (0xE85250D6 + 0 + mbhdr_length); 0; 0; 8].

(** ** The descriptor table and the page tables *)

Definition boot_gdt : list Z := [0; 0x00AF9A000000FFFF; 0x00AF92000000FFFF].

Record boot_symbols := BootSymbols {
  b_gdt : Z;            (* boot_gdt *)
  pml4_table : Z;
  pdpt_id : Z;
  pdpt_hh : Z;
  pd_id : Z;
  pd_hh : Z;
  b_long_mode_entry64 : Z;
  b_kernel_main : Z;
  b_halt_loop : Z;
}.

Section boot.
Context (sym : boot_symbols).

Definition pml4_words : list Z := [pdpt_id sym + 0x3] ++ replicate 510 0 ++ [pdpt_hh sym + 0x3].
Definition pdpt_id_words : list Z := [pd_id sym + 0x3] ++ replicate 511 0.
Definition pdpt_hh_words : list Z := replicate 510 0 ++ [pd_hh sym + 0x3] ++ replicate 1 0.
Definition pd_id_words : list Z := [0x83] ++ replicate 511 0.
Definition pd_hh_words : list Z := [0x83] ++ replicate 511 0.

(** ** The CPU *)

Record seg_sel := SegSel { s_cs : Z; s_ds : Z; s_es : Z; s_ss : Z; s_fs : Z; s_gs : Z }.

Record boot_cpu := BootCpu {
  b_rax : Z; b_rbx : Z; b_rcx : Z; b_rdx : Z; b_rdi : Z; b_rsp : Z; b_rbp : Z;
  b_cr0 : Z; b_cr3 : Z; b_cr4 : Z; b_efer : Z;
  b_gdtr : Z * Z;        (* limit and base *)
  b_segs : seg_sel;
  b_code64 : bool;       (* the L bit of the code segment *)
  b_if : bool; b_df : bool;
  b_rip : Z;             (* set by jumps and calls *)
  b_io : trace;
  b_mem : gmap Z Z;
  b_saved_mbi : Z;
}.

Inductive breg := BAX | BBX | BCX | BDX | BDI | BSP | BBP.
Inductive bseg := BDS | BES | BSS | BFS | BGS.
Inductive creg := CR0 | CR3 | CR4.

Definition breg_get (r : breg) (c : boot_cpu) : Z :=
  match r with
  | BAX => b_rax c | BBX => b_rbx c | BCX => b_rcx c | BDX => b_rdx c
  | BDI => b_rdi c | BSP => b_rsp c | BBP => b_rbp c
  end.

Definition breg_set (r : breg) (v : Z) (c : boot_cpu) : boot_cpu :=
  let '(BootCpu ax bx cx dx di sp bp c0 c3 c4 ef g s k i d ip io m x) := c in
  match r with
  | BAX => BootCpu v bx cx dx di sp bp c0 c3 c4 ef g s k i d ip io m x
  | BBX => BootCpu ax v cx dx di sp bp c0 c3 c4 ef g s k i d ip io m x
  | BCX => BootCpu ax bx v dx di sp bp c0 c3 c4 ef g s k i d ip io m x
  | BDX => BootCpu ax bx cx v di sp bp c0 c3 c4 ef g s k i d ip io m x
  | BDI => BootCpu ax bx cx dx v sp bp c0 c3 c4 ef g s k i d ip io m x
  | BSP => BootCpu ax bx cx dx di v bp c0 c3 c4 ef g s k i d ip io m x
  | BBP => BootCpu ax bx cx dx di sp v c0 c3 c4 ef g s k i d ip io m x
  end.

Definition set_control (c0 c3 c4 ef : Z) (c : boot_cpu) : boot_cpu :=
  let '(BootCpu ax bx cx dx di sp bp _ _ _ _ g s k i d ip io m x) := c in
  BootCpu ax bx cx dx di sp bp c0 c3 c4 ef g s k i d ip io m x.
Definition set_segs (s : seg_sel) (k : bool) (c : boot_cpu) : boot_cpu :=
  let '(BootCpu ax bx cx dx di sp bp c0 c3 c4 ef g _ _ i d ip io m x) := c in
  BootCpu ax bx cx dx di sp bp c0 c3 c4 ef g s k i d ip io m x.
Definition set_gdtr (g : Z * Z) (c : boot_cpu) : boot_cpu :=
  let '(BootCpu ax bx cx dx di sp bp c0 c3 c4 ef _ s k i d ip io m x) := c in
  BootCpu ax bx cx dx di sp bp c0 c3 c4 ef g s k i d ip io m x.
Definition set_flags (i d : bool) (c : boot_cpu) : boot_cpu :=
  let '(BootCpu ax bx cx dx di sp bp c0 c3 c4 ef g s k _ _ ip io m x) := c in
  BootCpu ax bx cx dx di sp bp c0 c3 c4 ef g s k i d ip io m x.
Definition set_rip (ip : Z) (c : boot_cpu) : boot_cpu :=
  let '(BootCpu ax bx cx dx di sp bp c0 c3 c4 ef g s k i d _ io m x) := c in
  BootCpu ax bx cx dx di sp bp c0 c3 c4 ef g s k i d ip io m x.
Definition set_b_io (io : trace) (c : boot_cpu) : boot_cpu :=
  let '(BootCpu ax bx cx dx di sp bp c0 c3 c4 ef g s k i d ip _ m x) := c in
  BootCpu ax bx cx dx di sp bp c0 c3 c4 ef g s k i d ip io m x.
Definition set_b_mem (m : gmap Z Z) (x : Z) (c : boot_cpu) : boot_cpu :=
  let '(BootCpu ax bx cx dx di sp bp c0 c3 c4 ef g s k i d ip io _ _) := c in
  BootCpu ax bx cx dx di sp bp c0 c3 c4 ef g s k i d ip io m x.

(** The bits of the control registers. *)
Definition protected_mode (c : boot_cpu) : bool := Z.testbit (b_cr0 c) 0.
Definition paging_on (c : boot_cpu) : bool := Z.testbit (b_cr0 c) 31.
Definition pae (c : boot_cpu) : bool := Z.testbit (b_cr4 c) 5.
Definition lme (c : boot_cpu) : bool := Z.testbit (b_efer c) 8.
Definition long_mode (c : boot_cpu) : bool := paging_on c && pae c && lme c.

(** The walk of a four-level table in which a directory entry with bit 7 maps
    2 MiB. *)
Definition large (e : Z) : bool := Z.testbit e 7.
Definition boot_walk (m : gmap Z Z) (root va : Z) : option Z :=
  let e4 := entry m (page_base root) (pml4_idx va) in
  if negb (present e4) then None
  else
    let e3 := entry m (page_base e4) (pdpt_idx va) in
    if negb (present e3) then None
    else
      let e2 := entry m (page_base e3) (pd_idx va) in
      if negb (present e2) then None
      else if large e2 then Some (Z.lor (Z.land e2 (notw 64 0x1FFFFF)) (Z.land va 0x1FFFFF))
      else
        let e1 := entry m (page_base e2) (pt_idx va) in
        if present e1 then Some (Z.lor (page_base e1) (Z.land va 0xFFF)) else None.

Definition linear (c : boot_cpu) (a : Z) : option Z :=
  if paging_on c then boot_walk (b_mem c) (b_cr3 c) a else Some a.

(** A descriptor the CPU loads. *)
Definition descriptor (c : boot_cpu) (sel : Z) : option Z :=
  if (sel <? 8) || ((b_gdtr c).1 <? sel + 7) then None
  else
    pa ← linear c ((b_gdtr c).2 + sel);
    b_mem c !! pa.

Definition d_present (d : Z) : bool := Z.testbit d 47.
Definition d_segment (d : Z) : bool := Z.testbit d 44.
Definition d_code (d : Z) : bool := Z.testbit d 43.
Definition d_writable (d : Z) : bool := Z.testbit d 41.
Definition d_long (d : Z) : bool := Z.testbit d 53.

(** ** The instructions *)

Inductive binstr :=
  | BCli | BCld
  | MovL (v : Z) (r : breg)          (* movl $v, %r: clears the upper half *)
  | MovLR (src dst : breg)           (* movl *)
  | MovQ (v : Z) (r : breg)          (* movq $v, %r and movabs *)
  | MovQR (src dst : breg)
  | MovW (v : Z) (r : breg)          (* movw $v: the low 16 bits *)
  | XorL (r : breg)                  (* xorl %r, %r *)
  | XorW (r : breg)
  | OrB (v : Z) (r : breg)           (* orb on the low 8 bits *)
  | OrL (v : Z) (r : breg)
  | StoreMbi (r : breg)              (* movl %r, saved_mbi *)
  | LoadMbi (r : breg)
  | InB (port : Z)                   (* inb $port, %al *)
  | OutB (port : Z)
  | Lgdt
  | MovSeg (s : bseg)                (* movw %ax, %s *)
  | ReadCr (n : creg) (r : breg)
  | WriteCr (r : breg) (n : creg)
  | Rdmsr | Wrmsr
  | Ljmp (sel target : Z)
  | CallReg (r : breg) (return_address : Z).

Definition low32 (v : Z) : Z := wrap 32 v.
Definition merge (w v old : Z) : Z := old - wrap w old + wrap w v.

(** Writing CR0: paging in long mode needs PAE. *)
Definition write_cr (n : creg) (v : Z) (c : boot_cpu) : option boot_cpu :=
  match n with
  | CR0 =>
      if Z.testbit v 31 && negb (Z.testbit v 0) then None
      else if Z.testbit v 31 && lme c && negb (pae c) then None
      else Some (set_control v (b_cr3 c) (b_cr4 c) (b_efer c) c)
  | CR3 => Some (set_control (b_cr0 c) v (b_cr4 c) (b_efer c) c)
  | CR4 => Some (set_control (b_cr0 c) (b_cr3 c) v (b_efer c) c)
  end.

Definition read_cr (n : creg) (c : boot_cpu) : Z :=
  match n with CR0 => b_cr0 c | CR3 => b_cr3 c | CR4 => b_cr4 c end.

Definition MSR_EFER : Z := 0xC0000080.

(** Loading a data segment register; FS and GS take the null selector. *)
Definition load_seg (s : bseg) (sel : Z) (c : boot_cpu) : option boot_cpu :=
  let g := b_segs c in
  let put g := Some (set_segs g (b_code64 c) c) in
  let loaded :=
    match descriptor c sel with
    | Some d => d_present d && d_segment d && negb (d_code d) && d_writable d
    | None => false
    end in
  match s with
  | BDS => if loaded then put (SegSel (s_cs g) sel (s_es g) (s_ss g) (s_fs g) (s_gs g)) else None
  | BES => if loaded then put (SegSel (s_cs g) (s_ds g) sel (s_ss g) (s_fs g) (s_gs g)) else None
  | BSS => if loaded then put (SegSel (s_cs g) (s_ds g) (s_es g) sel (s_fs g) (s_gs g)) else None
  | BFS => if loaded || (sel =? 0) then put (SegSel (s_cs g) (s_ds g) (s_es g) (s_ss g) sel (s_gs g)) else None
  | BGS => if loaded || (sel =? 0) then put (SegSel (s_cs g) (s_ds g) (s_es g) (s_ss g) (s_fs g) sel) else None
  end.

Definition bstep (hw : devices) (i : binstr) (c : boot_cpu) : option boot_cpu :=
  match i with
  | BCli => Some (set_flags false (b_df c) c)
  | BCld => Some (set_flags (b_if c) false c)
  | MovL v r => Some (breg_set r (low32 v) c)
  | MovLR src dst => Some (breg_set dst (low32 (breg_get src c)) c)
  | MovQ v r => Some (breg_set r (wrap 64 v) c)
  | MovQR src dst => Some (breg_set dst (breg_get src c) c)
  | MovW v r => Some (breg_set r (merge 16 v (breg_get r c)) c)
  | XorL r => Some (breg_set r 0 c)
  | XorW r => Some (breg_set r (merge 16 0 (breg_get r c)) c)
  | OrB v r => Some (breg_set r (merge 8 (Z.lor (wrap 8 (breg_get r c)) v) (breg_get r c)) c)
  | OrL v r => Some (breg_set r (Z.lor (low32 (breg_get r c)) v) c)
  | StoreMbi r => Some (set_b_mem (b_mem c) (low32 (breg_get r c)) c)
  | LoadMbi r => Some (breg_set r (b_saved_mbi c) c)
  | InB port =>
      let v := wrap 8 (hw (b_io c) port) in
      Some (breg_set BAX (merge 8 v (b_rax c)) (set_b_io (b_io c ++ [In port v]) c))
  | OutB port => Some (set_b_io (b_io c ++ [Out port (wrap 8 (b_rax c))]) c)
  | Lgdt => Some (set_gdtr (8 * Z.of_nat (length boot_gdt) - 1, low32 (b_gdt sym)) c)
  | MovSeg s => load_seg s (wrap 16 (b_rax c)) c
  | ReadCr n r => Some (breg_set r (low32 (read_cr n c)) c)
  | WriteCr r n => write_cr n (low32 (breg_get r c)) c
  | Rdmsr =>
      if low32 (b_rcx c) =? MSR_EFER then
        Some (breg_set BDX (Z.shiftr (b_efer c) 32) (breg_set BAX (low32 (b_efer c)) c))
      else None
  | Wrmsr =>
      if low32 (b_rcx c) =? MSR_EFER then
        Some (set_control (b_cr0 c) (b_cr3 c) (b_cr4 c) (Z.lor (Z.shiftl (low32 (b_rdx c)) 32) (low32 (b_rax c))) c)
      else None
  | Ljmp sel target =>
      d ← descriptor c sel;
      if d_present d && d_segment d && d_code d then
        let g := b_segs c in
        Some (set_rip target (set_segs (SegSel sel (s_ds g) (s_es g) (s_ss g) (s_fs g) (s_gs g))
          (d_long d && long_mode c) c))
      else None
  | CallReg r return_address =>
      let sp := b_rsp c ⊟ 8 in
      pa ← linear c sp;
      Some (set_rip (breg_get r c) (breg_set BSP sp (set_b_mem (<[pa := return_address]> (b_mem c)) (b_saved_mbi c) c)))
  end.

Fixpoint bexec (hw : devices) (l : list binstr) (c : boot_cpu) : option boot_cpu :=
  match l with
  | [] => Some c
  | i :: l => c ← bstep hw i c; bexec hw l c
  end.

(** ** The program *)

Definition _start : list binstr :=
  [BCli;
   MovL 0x9FC00 BSP; MovLR BSP BBP;
   StoreMbi BBX;
   BCld;
   InB 0x92; OrB 0x02 BAX; OutB 0x92;
   Lgdt;
   MovW 0x10 BAX; MovSeg BDS; MovSeg BES; MovSeg BSS;
   XorL BAX; MovSeg BFS; MovSeg BGS;
   ReadCr CR4 BAX; OrL (Z.shiftl 1 5) BAX; WriteCr BAX CR4;
   MovL (pml4_table sym) BAX; WriteCr BAX CR3;
   MovL MSR_EFER BCX; Rdmsr; OrL (Z.shiftl 1 8) BAX; Wrmsr;
   ReadCr CR0 BAX; OrL (Z.shiftl 1 31) BAX; WriteCr BAX CR0;
   Ljmp 0x08 (b_long_mode_entry64 sym)].

Definition long_mode_entry64 : list binstr :=
  [MovQ 0x9F000 BSP; MovQ 0x9F000 BBP;
   MovW 0x10 BAX; MovSeg BDS; MovSeg BES; MovSeg BFS; MovSeg BSS;
   XorW BAX; MovSeg BGS;
   LoadMbi BAX; MovQR BAX BDI;
   MovQ (b_kernel_main sym) BAX;
   CallReg BAX (b_halt_loop sym)].
End boot.
