(* ===== verification/BootTheorems.v ===== *)
(** * The boot code: theorems

    From GRUB's hand-over the code reaches [kernel_main] in 64-bit mode, on
    page tables that map the first 2 MiB at their address and at the higher
    half. *)
From S2P Require Import Prelude Effects PmmInterface PagingInterface Paging PageTable Ports Boot.

(** ** The header *)

(** Magic, length and checksum are those of a Multiboot2 header. *)
Lemma mbhdr_checks :
  mbhdr_length = 4 * Z.of_nat (length mbhdr) /\ Forall (fits 32) mbhdr /\
  nth 0 mbhdr 0 = 0xE85250D6 /\
  (nth 0 mbhdr 0 + nth 1 mbhdr 0 + nth 2 mbhdr 0 + nth 3 mbhdr 0) mod 2 ^ 32 = 0.
Proof. split; [done|]. split; [by repeat constructor|]. by split. Qed.

(** A tag is a 16-bit type, 16-bit flags and a 32-bit size: the end tag after
    the four words of the header has the size 0 instead of 8, and a word
    follows it. *)
Lemma mbhdr_end_tag : drop 4 mbhdr = [0 + Z.shiftl 0 16; 0; 8].
Proof. reflexivity. Qed.

(** ** The page tables *)

Definition words_at (m : gmap Z Z) (a : Z) (ws : list Z) : Prop :=
  forall i w, ws !! i = Some w -> m !! (a + 8 * Z.of_nat i) = Some w.

Section boot.
Context (sym : boot_symbols).

(** The image in memory, as the linker places it: page-aligned tables and the
    descriptors between 1 MiB and 2 MiB. *)
Definition placed_at (a n : Z) : Prop := 0x100000 <= a /\ a + n <= 0x200000.
Record loaded (m : gmap Z Z) : Prop := {
  ld_gdt : words_at m (b_gdt sym) boot_gdt /\ placed_at (b_gdt sym) 24;
  ld_pml4 : words_at m (pml4_table sym) (pml4_words sym) /\ placed_at (pml4_table sym) 4096;
  ld_pdpt_id : words_at m (pdpt_id sym) (pdpt_id_words sym) /\ placed_at (pdpt_id sym) 4096;
  ld_pdpt_hh : words_at m (pdpt_hh sym) (pdpt_hh_words sym) /\ placed_at (pdpt_hh sym) 4096;
  ld_pd_id : words_at m (pd_id sym) pd_id_words /\ placed_at (pd_id sym) 4096;
  ld_pd_hh : words_at m (pd_hh sym) pd_hh_words /\ placed_at (pd_hh sym) 4096;
  ld_aligned : Forall (fun t => t mod 4096 = 0)
    [pml4_table sym; pdpt_id sym; pdpt_hh sym; pd_id sym; pd_hh sym];
}.

(** What the tables translate: the two places of the first 2 MiB. *)
Definition boot_leaf (va : Z) : option Z :=
  if decide (va_path va = [0; 0; 0] \/ va_path va = [511; 510; 0]) then Some (va mod 0x200000) else None.

Lemma words_entry m a ws i :
  words_at m a ws -> 0 <= i < Z.of_nat (length ws) -> entry m a i = nth (Z.to_nat i) ws 0.
Proof.
  intros Hw Hi. destruct (lookup_lt_is_Some_2 ws (Z.to_nat i) ltac:(lia)) as [w Ew].
  unfold entry, rdm. rewrite (nth_lookup_Some _ _ _ _ Ew).
  specialize (Hw _ _ Ew). rewrite Z2Nat.id in Hw by lia. by rewrite Hw.
Qed.

Lemma nth_middle i n x l :
  0 <= i -> nth (Z.to_nat i) (replicate n 0 ++ x :: l) 0 =
    if decide (i < Z.of_nat n) then 0 else if decide (i = Z.of_nat n) then x else nth (Z.to_nat (i - Z.of_nat n - 1)) l 0.
Proof.
  intros Hi. rewrite nth_lookup. case_decide as H1.
  - rewrite lookup_app_l by (rewrite length_replicate; lia). by rewrite lookup_replicate_2 by lia.
  - rewrite lookup_app_r by (rewrite length_replicate; lia). rewrite length_replicate. case_decide as H2.
    + subst. by replace (Z.to_nat (Z.of_nat n) - n)%nat with 0%nat by lia.
    + replace (Z.to_nat i - n)%nat with (S (Z.to_nat (i - Z.of_nat n - 1))) by lia. simpl. by rewrite <-nth_lookup.
Qed.

Lemma nth_zeros i n : nth i (replicate n 0) 0 = 0.
Proof. rewrite nth_lookup. destruct (replicate n 0 !! i) eqn:E; [|done]. by apply lookup_replicate in E as [-> _]. Qed.

Lemma first_word i x n : 0 <= i -> nth (Z.to_nat i) (x :: replicate n 0) 0 = if decide (i = 0) then x else 0.
Proof.
  intros Hi. change (x :: replicate n 0) with (replicate 0 0 ++ x :: replicate n 0).
  rewrite nth_middle by done. rewrite decide_False by lia.
  change (Z.of_nat 0) with 0. case_decide; [done|apply nth_zeros].
Qed.

(** The entries of the five tables. *)
Section tables.
Context (m : gmap Z Z) (Hld : loaded m).

Lemma pml4_entries i : 0 <= i < 512 ->
  entry m (pml4_table sym) i = if decide (i = 0) then pdpt_id sym + 3 else if decide (i = 511) then pdpt_hh sym + 3 else 0.
Proof.
  intros Hi. destruct (ld_pml4 _ Hld) as [Hw _]. rewrite (words_entry _ _ _ _ Hw) by exact Hi.
  unfold pml4_words.
  change ([pdpt_id sym + 3] ++ replicate 510 0 ++ [pdpt_hh sym + 3])
    with (replicate 0 0 ++ (pdpt_id sym + 3) :: (replicate 510 0 ++ [pdpt_hh sym + 3])).
  rewrite nth_middle by lia. rewrite decide_False by lia. change (Z.of_nat 0) with 0. destruct (decide (i = 0)); [done|].
  rewrite nth_middle by lia. change (Z.of_nat 510) with 510.
  destruct (decide (i = 511)) as [->|]; [done|]. by rewrite decide_True by lia.
Qed.

Lemma pdpt_id_entries i : 0 <= i < 512 -> entry m (pdpt_id sym) i = if decide (i = 0) then pd_id sym + 3 else 0.
Proof. intros Hi. destruct (ld_pdpt_id _ Hld) as [Hw _]. rewrite (words_entry _ _ _ _ Hw) by exact Hi. apply (first_word i). lia. Qed.

Lemma pdpt_hh_entries i : 0 <= i < 512 -> entry m (pdpt_hh sym) i = if decide (i = 510) then pd_hh sym + 3 else 0.
Proof.
  intros Hi. destruct (ld_pdpt_hh _ Hld) as [Hw _]. rewrite (words_entry _ _ _ _ Hw) by exact Hi.
  unfold pdpt_hh_words.
  change ([pd_hh sym + 3] ++ replicate 1 0) with ((pd_hh sym + 3) :: [0]). rewrite nth_middle by lia. change (Z.of_nat 510) with 510.
  destruct (decide (i = 510)) as [->|]; [done|]. case_decide; [done|]. by assert (i = 511) as -> by lia.
Qed.

Lemma pd_id_entries i : 0 <= i < 512 -> entry m (pd_id sym) i = if decide (i = 0) then 0x83 else 0.
Proof. intros Hi. destruct (ld_pd_id _ Hld) as [Hw _]. rewrite (words_entry _ _ _ _ Hw) by exact Hi. apply (first_word i). lia. Qed.

Lemma pd_hh_entries i : 0 <= i < 512 -> entry m (pd_hh sym) i = if decide (i = 0) then 0x83 else 0.
Proof. intros Hi. destruct (ld_pd_hh _ Hld) as [Hw _]. rewrite (words_entry _ _ _ _ Hw) by exact Hi. apply (first_word i). lia. Qed.

(** An entry made by adding 3 to a table's address. *)
Lemma link_entry t : t mod 4096 = 0 -> 0 <= t < 0x200000 -> present (t + 3) = true /\ page_base (t + 3) = t.
Proof.
  intros Hal Hr. assert (t + 3 = Z.lor t 3) as ->.
  { replace t with (t / 4096 * 2 ^ 12) at 2 by (change (2 ^ 12) with 4096; divlia).
    rewrite lor_page by lia. change (2 ^ 12) with 4096. divlia. }
  split; [rewrite present_lor; apply orb_true_r|]. apply page_base_lor; [unfold fits; lia|done|lia].
Qed.

Lemma boot_walk_leaf root va :
  root = pml4_table sym -> boot_walk m root va = boot_leaf va.
Proof.
  intros ->. pose proof (ld_aligned _ Hld) as Hal. rewrite !Forall_cons in Hal.
  destruct Hal as (A1 & A2 & A3 & A4 & A5 & _).
  destruct Hld as [_ [_ [? ?]] [_ [? ?]] [_ [? ?]] [_ [? ?]] [_ [? ?]] _].
  destruct (link_entry (pdpt_id sym) A2 ltac:(lia)) as [P2 B2]. destruct (link_entry (pdpt_hh sym) A3 ltac:(lia)) as [P3 B3].
  destruct (link_entry (pd_id sym) A4 ltac:(lia)) as [P4 B4]. destruct (link_entry (pd_hh sym) A5 ltac:(lia)) as [P5 B5].
  assert (page_base (pml4_table sym) = pml4_table sym) as B1.
  { rewrite page_base_eq by (unfold fits; lia). divlia. }
  pose proof (idx_range (Z.shiftr va 39)) as I4. pose proof (idx_range (Z.shiftr va 30)) as I3.
  pose proof (idx_range (Z.shiftr va 21)) as I2.
  change (Z.land (Z.shiftr va 39) 0x1FF) with (pml4_idx va) in I4.
  change (Z.land (Z.shiftr va 30) 0x1FF) with (pdpt_idx va) in I3.
  change (Z.land (Z.shiftr va 21) 0x1FF) with (pd_idx va) in I2.
  assert (Z.land va 0x1FFFFF = va mod 0x200000) as Hlow.
  { change 0x1FFFFF with (2 ^ 21 - 1). by rewrite land_low by lia. }
  unfold boot_walk, boot_leaf, va_path. rewrite B1, pml4_entries by done.
  destruct (decide (pml4_idx va = 0)) as [E4|N4]; [|destruct (decide (pml4_idx va = 511)) as [E4|N4']].
  - rewrite P2, B2, E4. cbn [negb]. rewrite pdpt_id_entries by done.
    destruct (decide (pdpt_idx va = 0)) as [E3|N3].
    + rewrite P4, B4, E3. cbn [negb]. rewrite pd_id_entries by done.
      destruct (decide (pd_idx va = 0)) as [E2|N2].
      * rewrite E2. change (present 0x83) with true. change (large 0x83) with true. cbn [negb].
        rewrite decide_True by auto. change (Z.land 0x83 (notw 64 0x1FFFFF)) with 0. by rewrite Z.lor_0_l, Hlow.
      * rewrite decide_False; [done|]. intros [[=]|[=]]; done.
    + rewrite decide_False; [done|]. intros [[=]|[=]]; done.
  - rewrite P3, B3, E4. cbn [negb]. rewrite pdpt_hh_entries by done.
    destruct (decide (pdpt_idx va = 510)) as [E3|N3].
    + rewrite P5, B5, E3. cbn [negb]. rewrite pd_hh_entries by done.
      destruct (decide (pd_idx va = 0)) as [E2|N2].
      * rewrite E2. change (present 0x83) with true. change (large 0x83) with true. cbn [negb].
        rewrite decide_True by auto. change (Z.land 0x83 (notw 64 0x1FFFFF)) with 0. by rewrite Z.lor_0_l, Hlow.
      * rewrite decide_False; [done|]. intros [[=]|[=]]; done.
    + rewrite decide_False; [done|]. intros [[=]|[=]]; done.
  - change (negb (present 0)) with true. cbv iota. rewrite decide_False; [done|]. intros [[=]|[=]]; done.
Qed.
End tables.

(** ** The execution *)
Section run.
Context (hw : devices).
Local Abbreviation run := (bexec sym hw).

Lemma bexec_cons i l c c' : bstep sym hw i c = Some c' -> run (i :: l) c = run l c'.
Proof. intros E. simpl. by rewrite E. Qed.

Lemma bexec_app l1 l2 c c' : run l1 c = Some c' -> run (l1 ++ l2) c = run l2 c'.
Proof.
  revert c. induction l1 as [|i l1 IH]; intros c; simpl; [by intros [= ->]|].
  destruct (bstep sym hw i c); [apply IH|done].
Qed.

Lemma wrap_merge w v old : 0 <= w -> wrap w (merge w v old) = wrap w v.
Proof.
  intros Hw. unfold merge, wrap. rewrite Z.add_mod_idemp_r by lia.
  replace (old - old mod 2 ^ w + v) with (v + old / 2 ^ w * 2 ^ w); [apply Z.mod_add; lia|].
  pose proof (Z.div_mod old (2 ^ w) ltac:(lia)). lia.
Qed.

Lemma low_leaf a : 0 <= a < 0x200000 -> boot_leaf a = Some a.
Proof.
  intros Ha. unfold boot_leaf. rewrite decide_True; [by rewrite Z.mod_small|]. left.
  unfold va_path. destruct (idx_digits a) as (-> & -> & -> & _).
  change (2 ^ 39) with 0x8000000000. change (2 ^ 30) with 0x40000000. change (2 ^ 21) with 0x200000.
  by rewrite !(Z.div_small a) by lia.
Qed.

(** The descriptors are reached before and after paging is on. *)
Lemma linear_low c a :
  loaded (b_mem c) -> b_cr3 c = pml4_table sym \/ paging_on c = false -> 0 <= a < 0x200000 -> linear c a = Some a.
Proof.
  intros Hl Hc Ha. unfold linear. destruct (paging_on c); [|done]. destruct Hc as [Hc|?]; [|done].
  rewrite (boot_walk_leaf (b_mem c) Hl) by done. by apply low_leaf.
Qed.

Lemma descriptor_ok c k d :
  loaded (b_mem c) -> b_cr3 c = pml4_table sym \/ paging_on c = false -> b_gdtr c = (23, b_gdt sym) ->
  boot_gdt !! k = Some d -> (0 < k)%nat -> descriptor c (8 * Z.of_nat k) = Some d.
Proof.
  intros Hl Hc Hg Hk H0. destruct (ld_gdt _ Hl) as [Hw [Hlo Hhi]].
  pose proof (lookup_lt_Some _ _ _ Hk) as Hlt. simpl in Hlt. unfold descriptor. rewrite Hg. cbn [fst snd].
  rewrite (proj2 (Z.ltb_ge _ _)), (proj2 (Z.ltb_ge 23 _)) by lia. cbn [orb].
  rewrite (linear_low c) by (done || lia). simpl. by apply Hw.
Qed.

(** Loading the kernel's data segment. *)
Lemma load_data_seg c s l :
  wrap 16 (b_rax c) = 0x10 ->
  loaded (b_mem c) -> b_cr3 c = pml4_table sym \/ paging_on c = false -> b_gdtr c = (23, b_gdt sym) ->
  run (MovSeg s :: l) c =
    let g := b_segs c in
    run l (set_segs (match s with
      | BDS => SegSel (s_cs g) 0x10 (s_es g) (s_ss g) (s_fs g) (s_gs g)
      | BES => SegSel (s_cs g) (s_ds g) 0x10 (s_ss g) (s_fs g) (s_gs g)
      | BSS => SegSel (s_cs g) (s_ds g) (s_es g) 0x10 (s_fs g) (s_gs g)
      | BFS => SegSel (s_cs g) (s_ds g) (s_es g) (s_ss g) 0x10 (s_gs g)
      | BGS => SegSel (s_cs g) (s_ds g) (s_es g) (s_ss g) (s_fs g) 0x10
      end) (b_code64 c) c).
Proof.
  intros Ha Hl Hc Hg. erewrite bexec_cons; [reflexivity|]. cbn [bstep]. rewrite Ha. unfold load_seg.
  pose proof (descriptor_ok c 2 0x00AF92000000FFFF Hl Hc Hg eq_refl ltac:(lia)) as E.
  change (8 * Z.of_nat 2) with 0x10 in E. rewrite E. by destruct s.
Qed.

(** The state in which GRUB enters: 32-bit protected mode without paging. *)
Record handed_over (c : boot_cpu) : Prop := {
  ho_loaded : loaded (b_mem c);
  ho_protected : protected_mode c = true;
  ho_paging : paging_on c = false;
  ho_cr0 : fits 32 (b_cr0 c);
  ho_efer : fits 64 (b_efer c);
  ho_mbi : fits 32 (b_rbx c);
}.

(** In 64-bit mode at [long_mode_entry64]. *)
Record long_entry (c0 c : boot_cpu) : Prop := {
  le_rip : b_rip c = b_long_mode_entry64 sym;
  le_mode : long_mode c = true /\ b_code64 c = true;
  le_cr3 : b_cr3 c = pml4_table sym;
  le_gdtr : b_gdtr c = (23, b_gdt sym);
  le_segs : b_segs c = SegSel 0x08 0x10 0x10 0x10 0 0;
  le_flags : b_if c = false /\ b_df c = false;
  le_mem : b_mem c = b_mem c0 /\ b_saved_mbi c = b_rbx c0;
  le_io : exists v, b_io c = b_io c0 ++ [In 0x92 v; Out 0x92 (Z.lor v 0x02)] /\ fits 8 v;
}.

(** One instruction that cannot fault. *)
Ltac bgo :=
  erewrite bexec_cons by reflexivity;
  cbn [breg_set breg_get set_flags set_b_mem set_b_io set_gdtr set_segs set_control set_rip read_cr
       b_rax b_rbx b_rcx b_rdx b_rdi b_rsp b_rbp b_cr0 b_cr3 b_cr4 b_efer b_gdtr b_segs b_code64 b_if b_df b_rip
       b_io b_mem b_saved_mbi s_cs s_ds s_es s_ss s_fs s_gs].

Lemma low32_small v : fits 32 v -> low32 v = v.
Proof. apply wrap_small. Qed.

Lemma symbol_fits t n : placed_at t n -> 0 <= n -> fits 32 t.
Proof. intros [? ?] ?. unfold fits. lia. Qed.

(** What [OrL] and the writes of a control register leave. *)
Lemma low32_bit v i : 0 <= i < 32 -> Z.testbit (low32 v) i = Z.testbit v i.
Proof. intros Hi. unfold low32. rewrite testbit_wrap by lia. by rewrite bool_decide_true by lia. Qed.

Lemma set_bit v k i : 0 <= i < 32 -> 0 <= k -> Z.testbit (low32 (Z.lor (low32 v) (Z.shiftl 1 k))) i = Z.testbit v i || bool_decide (i = k).
Proof. intros Hi Hk. by rewrite low32_bit, Z.lor_spec, low32_bit, testbit_one_shiftl by lia. Qed.

Lemma low32_twice v : low32 (low32 v) = low32 v.
Proof. apply wrap_wrap. lia. Qed.

(** Turning paging on, with PAE. *)
Lemma enable_paging c l :
  Z.testbit (low32 (b_rax c)) 31 = true -> Z.testbit (low32 (b_rax c)) 0 = true -> pae c = true ->
  run (WriteCr BAX CR0 :: l) c = run l (set_control (low32 (b_rax c)) (b_cr3 c) (b_cr4 c) (b_efer c) c).
Proof.
  intros H31 H0 Hpae. erewrite bexec_cons; [reflexivity|]. cbn [bstep breg_get write_cr].
  rewrite H31, H0, Hpae. cbn [negb andb]. by rewrite andb_false_r.
Qed.

(** The far jump into the 64-bit code segment. *)
Lemma far_jump c target l :
  loaded (b_mem c) -> b_cr3 c = pml4_table sym -> b_gdtr c = (23, b_gdt sym) -> long_mode c = true ->
  run (Ljmp 0x08 target :: l) c =
    run l (set_rip target (set_segs (SegSel 0x08 (s_ds (b_segs c)) (s_es (b_segs c)) (s_ss (b_segs c))
      (s_fs (b_segs c)) (s_gs (b_segs c))) true c)).
Proof.
  intros Hl Hc Hg Hm. erewrite bexec_cons; [reflexivity|]. cbn [bstep].
  pose proof (descriptor_ok c 1 0x00AF9A000000FFFF Hl (or_introl Hc) Hg eq_refl ltac:(lia)) as E.
  change (8 * Z.of_nat 1) with 0x08 in E. rewrite E. simpl. by rewrite Hm.
Qed.

Lemma start_run c0 : handed_over c0 -> exists c, run (_start sym) c0 = Some c /\ long_entry c0 c.
Proof.
  intros [Hl Hp Hpg Hc0 Hef Hmbi]. destruct c0 as [ax bx cx dx di sp bp c0 c3 c4 ef g sg k i d ip io m x].
  cbn [b_mem b_cr0 b_efer b_rbx] in *. unfold protected_mode, paging_on in Hp, Hpg. cbn [b_cr0] in Hp, Hpg.
  assert (low32 (b_gdt sym) = b_gdt sym) as Hgdt.
  { destruct (ld_gdt _ Hl) as [_ Hpl]. by apply low32_small, (symbol_fits _ _ Hpl). }
  assert (low32 (pml4_table sym) = pml4_table sym) as Hpml4.
  { destruct (ld_pml4 _ Hl) as [_ Hpl]. by apply low32_small, (symbol_fits _ _ Hpl). }
  unfold _start. do 10 bgo. rewrite wrap_merge, Hgdt by lia.
  match goal with |- context [Out 146 ?v] => set (out := v) end.
  match goal with |- context [merge 16 16 ?v] => generalize v; intros a1 end.
  do 3 (rewrite load_data_seg by (try (by right); cbn [b_rax set_segs]; by rewrite ?wrap_merge by lia); cbn [set_segs b_segs b_code64 s_cs s_ds s_es s_ss s_fs s_gs]).
  do 14 bgo. rewrite !low32_twice, Hpml4.
  assert (Z.testbit (low32 (Z.lor (low32 c0) (Z.shiftl 1 31))) 31 = true) as H31 by (by rewrite set_bit by lia; rewrite orb_true_r).
  assert (Z.testbit (low32 (Z.lor (low32 c0) (Z.shiftl 1 31))) 0 = true) as H0 by (by rewrite set_bit, Hp by lia).
  assert (Z.testbit (low32 (Z.lor (low32 c4) (Z.shiftl 1 5))) 5 = true) as H5 by (by rewrite set_bit by lia; rewrite orb_true_r).
  assert (Z.testbit (Z.lor (Z.shiftl (low32 (Z.shiftr ef 32)) 32) (low32 (Z.lor (low32 ef) (Z.shiftl 1 8)))) 8 = true) as H8.
  { rewrite Z.lor_spec, set_bit by lia. by rewrite !orb_true_r. }
  rewrite enable_paging by assumption. cbn [set_control b_rax b_cr3 b_cr4 b_efer].
  rewrite far_jump.
  2-4: done.
  2: { unfold long_mode, paging_on, pae, lme. cbn [b_cr0 b_cr4 b_efer]. by rewrite H31, H5, H8. }
  cbn [set_rip set_segs b_segs s_ds s_es s_ss s_fs s_gs].
  eexists. split; [reflexivity|]. split.
  1,3,4,5: reflexivity.
  - split; [|done]. unfold long_mode, paging_on, pae, lme. cbn [b_cr0 b_cr4 b_efer]. by rewrite H31, H5, H8.
  - by split.
  - split; [done|]. by apply low32_small.
  - exists (wrap 8 (hw io 146)). split; [|apply wrap_fits; lia]. cbn [b_io]. rewrite <-app_assoc. do 2 f_equal.
    unfold out. rewrite wrap_merge, wrap_wrap by lia. do 2 f_equal. apply wrap_small.
    apply (word_set_fits 8 _ 1); [apply wrap_fits|]; lia.
Qed.

(** ** 64-bit mode *)

Lemma null_gs c l :
  wrap 16 (b_rax c) = 0 ->
  run (MovSeg BGS :: l) c =
    run l (set_segs (SegSel (s_cs (b_segs c)) (s_ds (b_segs c)) (s_es (b_segs c)) (s_ss (b_segs c)) (s_fs (b_segs c)) 0)
      (b_code64 c) c).
Proof.
  intros Ha. erewrite bexec_cons; [reflexivity|]. cbn [bstep]. rewrite Ha. unfold load_seg. by rewrite orb_true_r.
Qed.

Lemma call_run c ret :
  loaded (b_mem c) -> b_cr3 c = pml4_table sym -> b_rsp c = 0x9F000 ->
  run [CallReg BAX ret] c =
    Some (set_rip (b_rax c) (breg_set BSP 0x9EFF8 (set_b_mem (<[0x9EFF8 := ret]> (b_mem c)) (b_saved_mbi c) c))).
Proof.
  intros Hl Hc Hsp. simpl. rewrite Hsp. change (0x9F000 ⊟ 8) with 0x9EFF8.
  by rewrite (linear_low c) by (auto || lia).
Qed.

(** The call's push is below the image. *)
Lemma words_at_push m t n ws a v :
  words_at m t ws -> placed_at t n -> a < 0x100000 -> words_at (<[a := v]> m) t ws.
Proof. intros Hw [Hlo _] Ha i w Hi. rewrite lookup_insert_ne by lia. by apply Hw. Qed.

Lemma loaded_push m a v : loaded m -> a < 0x100000 -> loaded (<[a := v]> m).
Proof.
  intros [[G1 G2] [P1 P2] [Q1 Q2] [R1 R2] [D1 D2] [E1 E2] Hal] Ha.
  split; [split; [by eapply words_at_push|done]..|done].
Qed.

(** C15: boot.s brings the machine from GRUB's hand-over to [kernel_main].
    Entered in 32-bit protected mode with paging off and the image loaded,
    [_start] runs without a fault to the far jump, and [long_mode_entry64]
    to the call of [kernel_main]: in 64-bit mode, interrupts off, data
    segments loaded, the Multiboot structure's address in RDI, the stack in
    low memory with the address of the halt loop on it; the page tables in
    force translate exactly the first 2 MiB, at their address and at the
    higher half, and are those of the image. *)
Theorem boot_reaches_kernel_main c0 :
  handed_over c0 -> fits 64 (b_kernel_main sym) ->
  exists c1 c, run (_start sym) c0 = Some c1 /\ b_rip c1 = b_long_mode_entry64 sym /\
    run (long_mode_entry64 sym) c1 = Some c /\ b_rip c = b_kernel_main sym /\
    b_rdi c = b_rbx c0 /\ b_rsp c = 0x9EFF8 /\ b_mem c = <[0x9EFF8 := b_halt_loop sym]> (b_mem c0) /\
    long_mode c = true /\ b_code64 c = true /\ b_if c = false /\ b_df c = false /\
    b_segs c = SegSel 0x08 0x10 0x10 0x10 0x10 0 /\
    (forall va, boot_walk (b_mem c) (b_cr3 c) va = boot_leaf va).
Proof.
  intros Hh Hkm. destruct (start_run c0 Hh) as (c1 & E1 & [Hrip [Hm Hk] Hcr3 Hg Hs [Hi Hd] [Hme Hx] _]).
  pose proof (ho_loaded _ Hh) as Hl. rewrite <-Hme in Hl. destruct c1 as [ax bx cx dx di sp bp k0 k3 k4 ef g sg k i d ip io m x].
  cbn [b_rip b_cr3 b_gdtr b_segs b_if b_df b_mem b_saved_mbi b_code64] in *. subst.
  eexists _, _. split; [exact E1|]. split; [reflexivity|].
  unfold long_mode_entry64. do 3 bgo.
  do 4 (rewrite load_data_seg by (try (by left); cbn [b_rax set_segs]; by rewrite ?wrap_merge by lia);
    cbn [set_segs b_segs b_code64 s_cs s_ds s_es s_ss s_fs s_gs]).
  bgo. rewrite null_gs by (cbn [b_rax]; by rewrite wrap_merge by lia). cbn [set_segs b_segs b_code64 s_cs s_ds s_es s_ss s_fs s_gs].
  do 3 bgo. rewrite (wrap_small 64 (b_kernel_main sym)) by done.
  rewrite call_run by (done || reflexivity). split; [reflexivity|]. split_and!; try reflexivity; [exact Hm|].
  intros va. apply boot_walk_leaf; [|reflexivity]. apply loaded_push; [exact Hl|lia].
Qed.
End run.
End boot.

(** ** The image of a linker *)

Fixpoint place (a : Z) (ws : list Z) (m : gmap Z Z) : gmap Z Z :=
  match ws with [] => m | w :: ws => place (a + 8) ws (<[a := w]> m) end.

Definition sample_symbols : boot_symbols :=
  BootSymbols 0x101000 0x102000 0x103000 0x104000 0x105000 0x106000 0x100100
    (HIGHER_HALF_BASE + 0x107000) 0x100140.

Definition sample_image : gmap Z Z :=
  let s := sample_symbols in
  place (b_gdt s) boot_gdt (place (pml4_table s) (pml4_words s) (place (pdpt_id s) (pdpt_id_words s)
    (place (pdpt_hh s) (pdpt_hh_words s) (place (pd_id s) pd_id_words (place (pd_hh s) pd_hh_words ∅))))).

Lemma words_at_all m a ws :
  map (fun i => m !! (a + 8 * Z.of_nat i)) (seq 0 (length ws)) = map Some ws -> words_at m a ws.
Proof.
  intros E i w Hi. assert (map (fun i => m !! (a + 8 * Z.of_nat i)) (seq 0 (length ws)) !! i = Some (Some w)) as H.
  { rewrite E, list_lookup_fmap, Hi. done. }
  rewrite list_lookup_fmap, lookup_seq_lt in H by by apply lookup_lt_Some in Hi. simpl in H. by injection H.
Qed.

Lemma sample_loaded : loaded sample_symbols sample_image.
Proof.
  split; [split; [apply words_at_all; vm_compute; reflexivity|split; discriminate]..|].
  by repeat constructor.
Qed.

Lemma boot_reaches_kernel_main_witness :
  exists c1 c,
    bexec sample_symbols (fun _ _ => 0) (_start sample_symbols)
      (BootCpu 0x36D76289 0x9000 0 0 0 0x8000 0 0x11 0 0 0 (0, 0) (SegSel 0x10 0x18 0x18 0x18 0x18 0x18) false
        false false 0x100010 [] sample_image 0) = Some c1 /\
    bexec sample_symbols (fun _ _ => 0) (long_mode_entry64 sample_symbols) c1 = Some c /\
    b_rip c = HIGHER_HALF_BASE + 0x107000 /\ b_rdi c = 0x9000 /\
    boot_walk (b_mem c) (b_cr3 c) (HIGHER_HALF_BASE + 0x107000) = Some 0x107000.
Proof.
  destruct (boot_reaches_kernel_main sample_symbols (fun _ _ => 0)
    (BootCpu 0x36D76289 0x9000 0 0 0 0x8000 0 0x11 0 0 0 (0, 0) (SegSel 0x10 0x18 0x18 0x18 0x18 0x18) false
      false false 0x100010 [] sample_image 0))
    as (c1 & c & E1 & _ & E2 & Hrip & Hdi & _ & _ & _ & _ & _ & _ & _ & Hw).
  - split; [exact sample_loaded|reflexivity|reflexivity|split; [discriminate|reflexivity]..].
  - split; [discriminate|reflexivity].
  - exists c1, c. split; [exact E1|]. split; [exact E2|]. split; [exact Hrip|]. split; [exact Hdi|].
    rewrite Hw. vm_compute. reflexivity.
Defined.
