(* ===== verification/Kernel.v ===== *)
(** * The kernel (src/kernel/kernel.c): the model of [kernel_main]

    The state puts the components together: the machine of Isr.v (ports,
    keyboard, ticks, handlers, tasks, and below them the heap, the page tables
    and the frames), the screen, the interrupt tables and the model-specific
    registers.  A component's routine runs on its part of the state
    ([on_pg], [on_procs], ...); the console calls it makes are performed when
    it returns ([shown]).  The routines that access ports themselves
    ([kinit_pic], [kinit_timer]) print last, so the order of the port accesses
    is the code's.

    The kernel's view of RAM is split as in the components: page tables and
    user frames are [pmem], the heap's words and the stacks are [hmem], the
    allocator's bitmap is its own map; the frames behind them are disjoint. *)
From S2P Require Import Prelude Effects PmmInterface PagingInterface Paging Pmm PmmInit Heap KernelMem.
From S2P Require Import Gdt Task Syscall Ports Serial Vga Log Keyboard Isr Idt Elf.

(** ** The embedded executable *)

(** [n] bytes of a field, the low byte first, as the array lists them. *)
Fixpoint field_bytes (n : nat) (v : Z) : list Z :=
  match n with
  | O => []
  | S n => v mod 256 :: field_bytes n (v / 256)
  end.

(** The bytes of [test_elf]: ELF header, program header, code and text. *)
Definition test_elf_header : list Z :=
  0x7f :: chars "ELF" ++ field_bytes 1 2 ++ field_bytes 1 1 ++ field_bytes 1 1 ++ field_bytes 9 0 ++
  field_bytes 2 0x02 ++ field_bytes 2 0x3E ++ field_bytes 4 0x01 ++
  field_bytes 8 0x400000 ++ field_bytes 8 0x40 ++ field_bytes 8 0 ++
  field_bytes 4 0 ++ field_bytes 2 0x40 ++ field_bytes 2 0x38 ++ field_bytes 2 0x01 ++
  field_bytes 2 0 ++ field_bytes 2 0 ++ field_bytes 2 0.

Definition test_elf_segment : list Z :=
  field_bytes 4 0x01 ++ field_bytes 4 0x07 ++ field_bytes 8 0x78 ++ field_bytes 8 0x400000 ++
  field_bytes 8 0x400000 ++ field_bytes 8 0x37 ++ field_bytes 8 0x1000 ++ field_bytes 8 0x1000.

Definition test_elf : list Z :=
  test_elf_header ++ test_elf_segment ++
  [0x90; 0xEB; 0xFD] ++ chars "Hello from ring 3!" ++ [10; 0].

Definition sizeof_test_elf : Z := Z.of_nat (length test_elf).

(** ** The user stack *)
Section user_stack.
Context {FA : Type} `{FrameAlloc FA}.
Context (L : layout).
Local Abbreviation K := (M (pg_state FA)).

Definition stack_va : Z := 0x80000000.

(** A missing table: allocated, cleared and linked, without a test for
    NULL. *)
Definition stack_link (table idx rw : Z) : K unit :=
  tbl ← alloc_frame;
  p ← paging_phys_to_virt L tbl;
  memset_page L p;;
  store L table idx (Z.lor tbl rw).

Definition stack_descend (table idx rw : Z) : K Z :=
  e ← load L table idx;
  (if present e then mret tt else stack_link table idx rw);;
  e ← load L table idx;
  paging_phys_to_virt L (page_base e).

Definition map_user_stack (user_cr3 user_stack_pa : Z) : K unit :=
  user_pml4 ← paging_phys_to_virt L (page_base user_cr3);
  let rw := Z.lor (Z.lor PAGE_PRESENT PAGE_WRITABLE) PAGE_USER in
  pdpt ← stack_descend user_pml4 (pml4_idx stack_va) rw;
  pd ← stack_descend pdpt (pdpt_idx stack_va) rw;
  pt ← stack_descend pd (pd_idx stack_va) rw;
  store L pt (pt_idx stack_va)
    (Z.lor (Z.lor (Z.lor (page_base user_stack_pa) PAGE_PRESENT) PAGE_WRITABLE) PAGE_USER).

(** The stack page and its mapping; [false] when there is no frame for it. *)
Definition user_stack (user_cr3 : Z) : K bool :=
  user_stack_pa ← alloc_frame;
  if user_stack_pa =? 0 then mret false
  else
    p ← paging_phys_to_virt L user_stack_pa;
    memset_page L p;;
    map_user_stack user_cr3 user_stack_pa;;
    say (SerialPuts ("[PRISM] User stack mapped at 0x80000000" +:+ NL));;
    mret true.
End user_stack.

(** ** The state of the kernel *)

Abbreviation kernel_heap := (heap (pg_state pmm_state)).

Record kernel := Kern {
  k_machine : machine kernel_heap;
  k_vga : vga;
  k_idt : list idt_entry;
  k_idt_register : table_ptr;
  k_idtr : table_ptr;
  k_ist_stacks : list Z;
  k_msrs : msrs;
}.

(** What the linker and the assembly files fix. *)
Record linked := Linked {
  _kernel_end : Z;
  addr_gdt : Z;
  addr_tss : Z;
  addr_idt : Z;
  exception_stubs : list Z;
  irq_stubs : list Z;
  addr_syscall_entry : Z;
  addr_thread_a : Z;
  addr_thread_b : Z;
  tables_layout : layout;
  task_symbols : symbols;
}.

Section kernel.
Context (hw : devices) (img : linked).
Local Abbreviation K := (M kernel).
Local Abbreviation L := (tables_layout img).
Local Abbreviation sym := (task_symbols img).

(** ** The parts of the state *)

Definition set_machine (m : machine kernel_heap) (k : kernel) : kernel :=
  Kern m (k_vga k) (k_idt k) (k_idt_register k) (k_idtr k) (k_ist_stacks k) (k_msrs k).
Definition set_k_vga (v : vga) (k : kernel) : kernel :=
  Kern (k_machine k) v (k_idt k) (k_idt_register k) (k_idtr k) (k_ist_stacks k) (k_msrs k).
Definition set_k_msrs (m : msrs) (k : kernel) : kernel :=
  Kern (k_machine k) (k_vga k) (k_idt k) (k_idt_register k) (k_idtr k) (k_ist_stacks k) m.

Definition on_machine {A} (p : M (machine kernel_heap) A) : K A := zoom k_machine set_machine p.
Definition on_vga {A} (p : M vga A) : K A := zoom k_vga set_k_vga p.
Definition on_msrs {A} (p : M msrs A) : K A := zoom k_msrs set_k_msrs p.
Definition on_io {A} (p : M trace A) : K A := on_machine (on_ports p).
Definition on_keys {A} (p : M kbd A) : K A := on_machine (zoom m_kbd set_m_kbd p).
Definition on_procs {A} (p : M (tasks kernel_heap) A) : K A := on_machine (on_tasks p).
Definition on_heap {A} (p : M kernel_heap A) : K A := on_procs (on_kmem p).
Definition on_pg {A} (p : M (pg_state pmm_state) A) : K A := on_heap (zoom backing set_backing p).
Definition on_pmm {A} (p : M pmm_state A) : K A := on_pg (zoom frames set_frames p).
Definition on_gdt (f : gdt_state -> gdt_state) : K unit :=
  on_procs (modify (fun st => set_gdt (f (gdt st)) st)).

(** The tables of idt.c share the TSS with gdt.c, and the frames and the RAM
    of the IST stacks with the page tables. *)
Definition k_pg (k : kernel) : pg_state pmm_state := backing (kmem (m_tasks (k_machine k))).
Definition idt_view (k : kernel) : idt_state pmm_state :=
  IdtState (k_idt k) (k_idt_register k) (k_idtr k) (k_ist_stacks k) (gdt (m_tasks (k_machine k)))
    (pmem (k_pg k)) (frames (k_pg k)).
Definition idt_put (s : idt_state pmm_state) (k : kernel) : kernel :=
  let st := m_tasks (k_machine k) in
  let pg := set_pmem (i_mem s) (set_frames (i_frames s) (k_pg k)) in
  let st := set_kmem (set_backing pg (kmem st)) (set_gdt (i_gdt s) st) in
  Kern (set_m_tasks st (k_machine k)) (k_vga k) (idt_entries s) (idt_register s) (idtr s)
    (ist_stacks s) (k_msrs k).
Definition on_idt {A} (p : M (idt_state pmm_state) A) : K A := zoom idt_view idt_put p.

Definition on_console {A} (p : M console A) : K A :=
  zoom (fun k => Console (m_io (k_machine k)) (k_vga k))
    (fun c k => set_k_vga (con_vga c) (set_machine (set_m_io (con_io c) (k_machine k)) k)) p.

(** A routine and then the console calls it made. *)
Definition shown {A} (p : K A) : K A := fun k =>
  match p k with
  | Done a k' w => (on_console (perform_all hw w);; mret a) k'
  | Stop e w => Stop e w
  end.

(** [serial_puts] with a message of [kernel_main]. *)
Definition report (s : string) : K unit := on_console (puts hw (s +:+ NL)).

(** ** [kernel_main] *)

(** Everything up to the system calls; the result is [heap_ok].  [mem] are the
    bytes GRUB left at [mbi_addr]. *)
Definition boot (mem : Z -> Z) (mbi_addr : Z) : K bool :=
  on_io serial_init;;
  report "[PRISM] serial OK";;
  on_gdt (kinit_gdt (addr_gdt img) (addr_tss img));;
  report "[PRISM] GDT ok";;
  shown (on_idt (kinit_idt (addr_idt img) (exception_stubs img) (irq_stubs img)));;
  report "[PRISM] IDT ok";;
  shown (on_io kinit_pic);;
  report "[PRISM] PIC ok";;
  shown (on_machine kinit_timer);;
  report "[PRISM] Timer ok";;
  shown (on_pmm (pmm_init (_kernel_end img) mem mbi_addr));;
  report "[PRISM] PMM ok";;
  on_pg (paging_init L);;
  report "[PRISM] Paging ok";;
  on_vga vga_set_higher_half;;
  on_vga khello_init;;
  report "[PRISM] VGA ok";;
  r ← shown (on_heap (heap_init (H := paging_backing L)));
  let heap_ok := r =? 0 in
  report (if heap_ok then "[PRISM] Heap ok" else "[PRISM] Heap FAILED");;
  shown kinit_log;;
  shown (on_machine kinit_keyboard);;
  shown (on_procs (kinit_task (H := heap_kernel_mem (H := paging_backing L)) sym));;
  shown (on_procs (task_create (H := heap_kernel_mem (H := paging_backing L)) (addr_thread_a img)));;
  shown (on_procs (task_create (H := heap_kernel_mem (H := paging_backing L)) (addr_thread_b img)));;
  shown (on_msrs (syscall_init (addr_syscall_entry img)));;
  mret heap_ok.

(** A message with a number after it, [serial_puts] and [serial_puthex64]. *)
Definition report_hex (s : string) (v : Z) (rest : string) : K unit :=
  on_console (puts hw s;; on_serial (serial_puthex64 hw v);; puts hw (rest +:+ NL)).

(** The user process: address space, executable, stack and task. *)
Definition create_user_process : K unit :=
  user_cr3 ← on_pg (paging_create_user_space L);
  if user_cr3 =? 0 then report "[PRISM] FAILED to create user PML4"
  else
    report_hex "[PRISM] User PML4 created at 0x" user_cr3 "";;
    r ← shown (on_pg (elf_load L (Some test_elf) sizeof_test_elf user_cr3 true));
    let '(rc, stored) := r in
    let entry := default 0 stored in
    if rc =? 0 then
      report_hex "[PRISM] ELF loaded, entry=0x" entry "";;
      mapped ← shown (on_pg (user_stack L user_cr3));
      if mapped : bool then
        let user_rsp := stack_va + PMM_FRAME_SIZE in
        user_task ← shown (on_procs (task_create_user (H := heap_kernel_mem (H := paging_backing L)) sym
                      entry user_rsp 0x200 user_cr3));
        match user_task with
        | Some t =>
            k ← get;
            report_hex "[PRISM] User task created (PID " (pid (tcb (m_tasks (k_machine k)) t)) ")"
        | None => report "[PRISM] FAILED to create user task"
        end
      else mret tt
    else report "[PRISM] ELF load FAILED".

Definition PRISM_VERSION : string := "0.0.1.e1".

Definition print (s : string) : K unit := on_vga (kprint (chars s)).

Definition banner (heap_ok : bool) : K unit :=
  print "Prism Kernel v";;
  print PRISM_VERSION;;
  print (NL +:+ "==========================" +:+ NL);;
  print ("Long mode: ACTIVE" +:+ NL);;
  print ("GDT:       Initialized (user segments ready)" +:+ NL);;
  print ("IDT:       Initialized" +:+ NL);;
  print ("PIC:       Remapped" +:+ NL);;
  print ("Timer:     PIT @ 100Hz" +:+ NL);;
  print ("PMM:       Initialized" +:+ NL);;
  print ("Paging:    Higher-half active" +:+ NL);;
  print (if heap_ok then "Heap:      Ready" +:+ NL else "Heap:      FAILED" +:+ NL);;
  print ("Keyboard:  PS/2 installed" +:+ NL);;
  print ("Syscall:   MSRs configured" +:+ NL);;
  print ("Tasks:     2 threads + 1 user process" +:+ NL);;
  print (NL +:+ "Scheduler running." +:+ NL);;
  report "[PRISM] Done.".

Definition prompt : string := NL +:+ "Prism> ".

(** One round of the echo loop up to its [hlt]. *)
Definition echo : K unit :=
  k ← get;
  if keyboard_has_key (m_kbd (k_machine k)) then
    c ← on_keys keyboard_getchar;
    (if c =? 8 then on_vga vga_backspace
     else if c =? 10 then print prompt
     else if 32 <=? c then on_vga (kprintc c)
     else mret tt);;
    on_io (serial_putc hw c)
  else mret tt.

(** [n] rounds of the loop; [hlt] is what interrupts do while the CPU waits. *)
Fixpoint echo_loop (hlt : K unit) (n : nat) : K unit :=
  match n with
  | O => mret tt
  | S n => echo;; hlt;; echo_loop hlt n
  end.

Definition kernel_main (hlt : K unit) (n : nat) (mem : Z -> Z) (mbi_addr : Z) : K unit :=
  heap_ok ← boot mem mbi_addr;
  create_user_process;;
  banner heap_ok;;
  print prompt;;
  echo_loop hlt n.

(** The demo threads: [n] rounds of their endless loops. *)
Definition delay : K unit := mfor (R := unit) (Z.to_nat 5000000) 0 (fun _ => mret None);; mret tt.

Fixpoint rounds (n : nat) (body : K unit) : K unit :=
  match n with
  | O => mret tt
  | S n => body;; rounds n body
  end.

Definition thread_a (n : nat) : K unit :=
  rounds n (on_console (klog hw LOG_INFO ("Thread A: tick" +:+ NL));; delay).
Definition thread_b (n : nat) : K unit :=
  rounds n (on_console (klog hw LOG_INFO ("Thread B: tick" +:+ NL));; delay).
End kernel.
