(* ===== verification/Echo.v ===== *)
(** * The echo loop: keys go to the screen and the serial line

    The loop of [kernel_main] together with the interrupt that feeds it: while
    the CPU waits, the dispatcher of isr.c runs the keyboard's handler, which
    reads a scan code and fills the ring buffer that the next round empties. *)
From S2P Require Import Prelude Effects PmmInterface PagingInterface Paging Pmm PmmInit Heap KernelMem HeapBacking.
From S2P Require Import Gdt Task Ports Serial Vga Terminal Log Keyboard Isr Interrupts Kernel.

(** ** What a key does *)

(** The screen after a character of the ring. *)
Definition key_shown (t : term) (c : Z) : term :=
  if c =? 8 then term_backspace t
  else if c =? 10 then term_print (chars prompt) t
  else if 32 <=? c then term_putc c t
  else t.

(** The characters a sequence of scan codes types. *)
Fixpoint typing (scs : list Z) (l r : bool) : list Z :=
  match scs with
  | [] => []
  | sc :: scs =>
      let s := key_event sc (Keys [] l r) in
      queue s ++ typing scs (s_lshift s) (s_rshift s)
  end.

(** The scan codes read from the controller. *)
Definition scanned (t : trace) : list Z :=
  omap (fun e => match e with In port v => if port =? KBD_DATA_PORT then Some v else None | _ => None end) t.

(** Below the capacity the queue only delays. *)
Lemma key_event_room sc q l r :
  (length q < 255)%nat ->
  let s := key_event sc (Keys [] l r) in
  key_event sc (Keys q l r) = Keys (q ++ queue s) (s_lshift s) (s_rshift s) /\
  (length (queue s) <= 1)%nat.
Proof.
  intros Hq. unfold key_event, capacity. cbn [queue s_lshift s_rshift length].
  destruct (sc =? 0x2A), (sc =? 0xAA), (sc =? 0x36), (sc =? 0xB6);
    try (cbn [queue s_lshift s_rshift length]; rewrite app_nil_r; split; [done|lia]).
  set (c := if sc <? 128 then _ else _).
  rewrite (proj2 (Nat.leb_gt 255 (length q))) by done. change (255 <=? 0)%nat with false.
  destruct (_ || _ || _ || _); cbn [queue s_lshift s_rshift length]; rewrite ?app_nil_r; split; (done || lia).
Qed.

(** ** Traces of the devices *)

Lemma scanned_app t t' : scanned (t ++ t') = scanned t ++ scanned t'.
Proof. apply omap_app. Qed.

(** A trace that reads no scan code and sends [bytes]. *)
Definition emits (bytes : list Z) (p : trace) : Prop :=
  scanned p = [] /\
  forall u, dlab u = false -> uart_after u p = Uart false (divisor u) (sent u ++ bytes).

Lemma emits_nil : emits [] [].
Proof. split; [done|]. intros [d dv l] Hd. simpl in *. by rewrite Hd, app_nil_r. Qed.

Section echo.
Context (hw : devices) (Hdrain : drains hw) (img : linked).
Local Abbreviation L := (tables_layout img).
Local Abbreviation isr_handler := (isr_handler_c (H := heap_kernel_mem (H := paging_backing L)) hw (task_symbols img)).
Implicit Types (k : kernel) (s : keys) (t : term).

Lemma serial_putc_emits c io :
  exists p, serial_putc hw c io = Done tt (io ++ p) [] /\ emits [wrap 8 c] p.
Proof.
  destruct (Hdrain io) as (n & Hn & Hbit). destruct (wait_ready hw n io Hbit) as (m & Hm & Hl).
  assert (mwhile 64 (tx_poll hw) tt io = Done tt (Nat.iter m (poll hw) io) []) as Hw.
  { apply (mwhile_leave _ _ m); [done|]. change (Z.of_nat 64) with 64. lia. }
  assert (exists p, Nat.iter m (poll hw) io = io ++ p /\ emits [] p) as (p & Ep & Sp & Up).
  { clear. induction m as [|m (p & E & Sp & Up)].
    - exists []. rewrite app_nil_r. split; [done|apply emits_nil].
    - exists (p ++ [In 0x3FD (wrap 8 (hw (io ++ p) 0x3FD))]). split; [|split].
      + simpl. rewrite E. unfold poll. by rewrite app_assoc.
      + by rewrite scanned_app, Sp.
      + intros u Hu. by rewrite uart_after_app, Up. }
  exists (p ++ [Out 0x3F8 (wrap 8 (wrap 8 c))]). split; [|split].
  - unfold serial_putc. rewrite (bind_step _ _ _ _ _ Hw), Ep. unfold outb, modify. by rewrite app_assoc.
  - by rewrite scanned_app, Sp.
  - intros u Hu. rewrite uart_after_app, Up by done. simpl. by rewrite app_nil_r, wrap_wrap by lia.
Qed.

(** ** The state *)

(** What the loop works on. *)
Record sees k s t : Prop := {
  se_keys : holds CIdle (m_kbd (k_machine k)) s;
  se_screen : displays (k_vga k) t;
  se_wf : term_wf t;
  se_handler : irq_handlers (k_machine k) !! 1%nat = Some (Some keyboard_handler);
}.

(** Everything else. *)
Definition others k :=
  (timer_ticks (k_machine k), irq_handlers (k_machine k), m_tasks (k_machine k),
   (k_idt k, k_idt_register k, k_idtr k, k_ist_stacks k, k_msrs k)).

Lemma on_vga_run {A} (m : M vga A) k a v : m (k_vga k) = Done a v [] -> on_vga m k = Done a (set_k_vga v k) [].
Proof. intros E. unfold on_vga, zoom. by rewrite E. Qed.

Lemma on_io_run {A} (m : M trace A) k a io :
  m (m_io (k_machine k)) = Done a io [] -> on_io m k = Done a (set_machine (set_m_io io (k_machine k)) k) [].
Proof. intros E. unfold on_io, on_machine, on_ports, zoom. by rewrite E. Qed.

(** The screen's part of a round. *)
Lemma key_shown_run c k s t :
  sees k s t ->
  exists v, (if c =? 8 then on_vga vga_backspace
     else if c =? 10 then print prompt
     else if 32 <=? c then on_vga (kprintc c)
     else mret tt) k = Done tt (set_k_vga v k) [] /\ displays v (key_shown t c) /\ term_wf (key_shown t c).
Proof.
  intros [_ Hd Hw _]. unfold key_shown.
  destruct (c =? 8); [|destruct (c =? 10); [|destruct (32 <=? c)]].
  - destruct (vga_backspace_run _ t Hd Hw) as (v & E & H1 & H2 & _). exists v. by rewrite (on_vga_run _ _ _ _ E).
  - destruct (kprint_run (chars prompt) _ t Hd Hw) as (v & E & H1 & H2 & _).
    exists v. unfold print. by rewrite (on_vga_run _ _ _ _ E).
  - destruct (kprintc_run c _ t Hd Hw) as (v & E & H1 & H2 & _). exists v. by rewrite (on_vga_run _ _ _ _ E).
  - exists (k_vga k). split; [|done]. by destruct k.
Qed.

(** A round of the loop. *)
Lemma echo_run k s t :
  sees k s t ->
  exists k' p, echo hw k = Done tt k' [] /\ m_io (k_machine k') = m_io (k_machine k) ++ p /\ others k' = others k /\
    match queue s with
    | [] => sees k' s t /\ emits [] p
    | c :: q => sees k' (Keys q (s_lshift s) (s_rshift s)) (key_shown t c) /\ emits [wrap 8 c] p
    end.
Proof.
  intros Hs. pose proof Hs as [Hk Hd Hw Hh]. pose proof Hk as [Hr Hls Hrs Ht _].
  unfold echo. erewrite bind_step by reflexivity. unfold keyboard_has_key.
  destruct (queue s) as [|c q] eqn:Hq.
  - rewrite (proj2 (Z.eqb_eq _ _)) by by apply (ring_empty _ []).
    exists k, []. rewrite app_nil_r. split_and!; [done..|]. split; [done|apply emits_nil].
  - assert (kbd_head (m_kbd (k_machine k)) <> kbd_tail (m_kbd (k_machine k))) as Hne.
    { by rewrite (ring_empty _ (c :: q)). }
    rewrite (proj2 (Z.eqb_neq _ _)) by done. cbn [negb].
    set (k1 := set_machine (set_m_kbd (advance_tail (m_kbd (k_machine k))) (k_machine k)) k).
    assert (on_keys keyboard_getchar k = Done c k1 []) as E1.
    { unfold on_keys, on_machine, zoom, keyboard_getchar. erewrite bind_step by reflexivity.
      rewrite (proj2 (Z.eqb_neq _ _)) by done. erewrite bind_step by reflexivity.
      by rewrite (ring_first _ c q). }
    rewrite (bind_step _ _ _ _ _ E1).
    apply Forall_cons in Ht as [Hc Ht].
    assert (sees k1 (Keys q (s_lshift s) (s_rshift s)) t) as Hs1.
    { split; try done. split; simpl; try done. by apply (ring_take _ c). }
    destruct (key_shown_run c k1 _ t Hs1) as (v & E2 & Hd2 & Hw2). rewrite (bind_step _ _ _ _ _ E2).
    destruct (serial_putc_emits c (m_io (k_machine (set_k_vga v k1)))) as (p & E3 & He).
    rewrite (on_io_run _ _ _ _ E3). eexists _, p. split; [reflexivity|]. split; [reflexivity|]. split; [reflexivity|].
    split; [|exact He]. destruct Hs1. by split.
Qed.

(** ** The interrupt *)
Section loop.
Context (cr2 : Z) (sp : list Z) (Hsp : wrap 8 (nth 13 sp 0) = 33).

(** The CPU waits until a key is pressed or released. *)
Definition wait_key : M kernel unit := on_machine (isr_handler cr2 sp).

Lemma wait_key_run k s t :
  sees k s t ->
  exists k' sc, wait_key k = Done tt k' [] /\ others k' = others k /\ sees k' (key_event sc s) t /\
    m_io (k_machine k') = m_io (k_machine k) ++ In KBD_DATA_PORT sc :: eoi_trace 1.
Proof.
  intros [Hk Hd Hw Hh]. set (sc := wrap 8 (hw (m_io (k_machine k)) KBD_DATA_PORT)).
  eexists _, sc. unfold wait_key, on_machine, zoom.
  rewrite (isr_irq_run hw _ cr2 sp 1 _ _ ltac:(lia) Hsp Hh).
  rewrite (bind_step _ _ _ _ _ (keyboard_handler_run hw _ _)), eoi_run.
  split; [reflexivity|]. split; [reflexivity|]. split.
  - split; [|exact Hd|exact Hw|exact Hh]. apply scancode_shows; [exact Hk|]. apply wrap_fits. lia.
  - cbn [k_machine set_machine m_io set_m_io set_m_kbd]. by rewrite <-app_assoc.
Qed.

Lemma ring_fits k s t : sees k s t -> (length (queue s) <= 255)%nat.
Proof. intros [[[] _ _ _ _] _ _ _]. done. Qed.

(** A round and the key that ends its wait. *)
Lemma round_run k s t :
  sees k s t ->
  exists k' p sc echoed q,
    (echo hw;; wait_key) k = Done tt k' [] /\ m_io (k_machine k') = m_io (k_machine k) ++ p /\
    others k' = others k /\ scanned p = [sc] /\ queue s = echoed ++ q /\
    (forall u, dlab u = false -> uart_after u p = Uart false (divisor u) (sent u ++ map (wrap 8) echoed)) /\
    let e := key_event sc (Keys [] (s_lshift s) (s_rshift s)) in
    sees k' (Keys (q ++ queue e) (s_lshift e) (s_rshift e)) (foldl key_shown t echoed) /\
    (length (q ++ queue e) <= Nat.max 1 (length (queue s)))%nat.
Proof.
  intros Hs. destruct (echo_run k s t Hs) as (k1 & p1 & E1 & Hio1 & Ho1 & H1).
  pose proof (ring_fits k s t Hs) as Hr.
  assert (exists echoed q, queue s = echoed ++ q /\ (length q < 255)%nat /\ (S (length q) <= Nat.max 1 (length (queue s)))%nat /\
    sees k1 (Keys q (s_lshift s) (s_rshift s)) (foldl key_shown t echoed) /\ emits (map (wrap 8) echoed) p1)
    as (echoed & q & Hq & Hlt & Hle & Hs1 & Hp1).
  { destruct s as [[|c q] l r]; cbn [queue s_lshift s_rshift length] in *; destruct H1.
    - exists [], []. simpl. split_and!; done || lia.
    - exists [c], q. simpl. split_and!; done || lia. }
  destruct (wait_key_run k1 _ _ Hs1) as (k2 & sc & E2 & Ho2 & Hs2 & Hio2).
  destruct (key_event_room sc q (s_lshift s) (s_rshift s) Hlt) as [He Hone]. rewrite He in Hs2.
  exists k2, (p1 ++ In KBD_DATA_PORT sc :: eoi_trace 1), sc, echoed, q.
  destruct Hp1 as [Hsc Hu]. split_and!.
  - by rewrite (bind_step _ _ _ _ _ E1).
  - by rewrite Hio2, Hio1, <-app_assoc.
  - by rewrite Ho2.
  - rewrite scanned_app, Hsc. reflexivity.
  - done.
  - intros u Hd. rewrite uart_after_app, Hu by done. reflexivity.
  - intros e. split; [exact Hs2|]. rewrite length_app. unfold e. lia.
Qed.

(** Any number of rounds. *)
Lemma echo_loop_run n k s t :
  sees k s t ->
  exists k' s' p echoed,
    echo_loop hw wait_key n k = Done tt k' [] /\
    m_io (k_machine k') = m_io (k_machine k) ++ p /\ others k' = others k /\
    length (scanned p) = n /\
    queue s ++ typing (scanned p) (s_lshift s) (s_rshift s) = echoed ++ queue s' /\
    (length (queue s') <= Nat.max 1 (length (queue s)))%nat /\
    sees k' s' (foldl key_shown t echoed) /\
    forall u, dlab u = false -> uart_after u p = Uart false (divisor u) (sent u ++ map (wrap 8) echoed).
Proof.
  revert k s t. induction n as [|n IH]; intros k s t Hs.
  { exists k, s, [], []. simpl. rewrite !app_nil_r. split_and!; try done; [lia|]. apply emits_nil. }
  destruct (round_run k s t Hs) as (k1 & p1 & sc & e1 & q & E1 & Hio1 & Ho1 & Hsc & Hq & Hu1 & Hs1 & Hl1).
  destruct (IH k1 _ _ Hs1) as (k' & s' & p2 & e2 & E2 & Hio2 & Ho2 & Hn & Ht & Hl2 & Hs2 & Hu2).
  cbn [queue s_lshift s_rshift] in Ht, Hl2.
  exists k', s', (p1 ++ p2), (e1 ++ e2). simpl echo_loop. split_and!.
  - rewrite <-bind_assoc. by rewrite (bind_step _ _ _ _ _ E1).
  - by rewrite Hio2, Hio1, app_assoc.
  - by rewrite Ho2.
  - rewrite scanned_app, Hsc. simpl. by rewrite Hn.
  - rewrite scanned_app, Hsc. simpl. by rewrite Hq, <-!app_assoc, <-Ht, <-!app_assoc.
  - lia.
  - by rewrite foldl_app.
  - intros u Hd. rewrite uart_after_app, Hu1, Hu2 by done. simpl. by rewrite map_app, app_assoc.
Qed.
End loop.
End echo.
