(* ===== verification/Threads.v ===== *)
(** * The demo threads of kernel.c

    [thread_a] and [thread_b] log a line and count to five million, for ever:
    any number of rounds returns, and the serial line carries as many lines. *)
From S2P Require Import Prelude Effects Ports Serial Vga Terminal Log Isr Kernel.

Section threads.
Context (hw : devices) (Hdrain : drains hw).
Implicit Types (k : kernel) (t : term).

(** A part of the kernel that sends [bytes] and leaves the screen alone. *)
Definition logs (bytes : list Z) (m : M kernel unit) : Prop :=
  forall k t, displays (k_vga k) t -> term_wf t ->
    exists k' new, m k = Done tt k' [] /\ m_io (k_machine k') = m_io (k_machine k) ++ new /\
      (forall u, dlab u = false -> uart_after u new = Uart false (divisor u) (sent u ++ bytes)) /\
      displays (k_vga k') t.

Lemma logs_ret : logs [] (mret tt).
Proof.
  intros k t Hd Hw. exists k, []. rewrite app_nil_r. split_and!; try done.
  intros [[] d s] Hu; simpl in *; [done|]. by rewrite app_nil_r.
Qed.

Lemma logs_seq l1 l2 (m1 m2 : M kernel unit) : logs l1 m1 -> logs l2 m2 -> logs (l1 ++ l2) (m1;; m2).
Proof.
  intros H1 H2 k t Hd Hw. destruct (H1 k t Hd Hw) as (k1 & n1 & E1 & I1 & U1 & D1).
  destruct (H2 k1 t D1 Hw) as (k2 & n2 & E2 & I2 & U2 & D2). exists k2, (n1 ++ n2).
  rewrite (bind_step _ _ _ _ _ E1). split_and!; [done|by rewrite I2, I1, app_assoc| |done].
  intros u Hu. rewrite uart_after_app, U1, U2 by done. by rewrite app_assoc.
Qed.

Lemma logs_rounds n l m : logs l m -> logs (concat (replicate n l)) (rounds n m).
Proof. intros Hm. induction n as [|n IH]; [apply logs_ret|]. by apply logs_seq. Qed.

Lemma logs_klog level s :
  0 <= level <= LOG_PANIC -> logs (prefix level ++ line s) (on_console (klog hw level s)).
Proof.
  intros Hl k t Hd Hw. set (c := Console (m_io (k_machine k)) (k_vga k)).
  destruct (perform_outputs hw Hdrain (KLog level s) Hl c t Hd Hw) as ([] & c' & new & E & Hio & Hu & Hd' & _).
  cbn [perform wire screen] in *. eexists _, new. unfold on_console, zoom. fold c. rewrite E.
  split; [reflexivity|]. by split_and!.
Qed.

(** The delay loop ends. *)
Lemma mfor_nothing n a k : mfor (R := unit) n a (fun _ => mret None) k = Done None k [].
Proof.
  destruct (mfor_rule (R := unit) (fun _ s => s = k) (fun _ => mret None) n a k eq_refl) as (k' & E & ->); [|done].
  intros i s _ ->. by exists k.
Qed.

Lemma delay_run k : delay k = Done tt k [].
Proof. unfold delay. by rewrite (bind_step _ _ _ _ _ (mfor_nothing _ 0 k)). Qed.

Lemma logs_delay : logs [] delay.
Proof.
  intros k t Hd Hw. destruct (logs_ret k t Hd Hw) as (k' & new & E & H). exists k', new.
  rewrite delay_run. by injection E as <-.
Qed.

(** Any number of rounds of the two threads returns; the serial line carries
    their lines, complete and in order, and the screen does not change. *)
Theorem threads_log n :
  logs (concat (replicate n (chars "[INFO] Thread A: tick" ++ [13; 10]))) (thread_a hw n) /\
  logs (concat (replicate n (chars "[INFO] Thread B: tick" ++ [13; 10]))) (thread_b hw n).
Proof.
  assert (forall s, logs (prefix LOG_INFO ++ line s) (on_console (klog hw LOG_INFO s);; delay)) as Hround.
  { intros s. rewrite <-(app_nil_r (prefix LOG_INFO ++ line s)).
    apply logs_seq; [by apply logs_klog|apply logs_delay]. }
  split; apply logs_rounds; exact (Hround _).
Qed.
End threads.
