(* ===== verification/ElfExamples.v ===== *)
(** * The embedded executable

    [test_elf] of kernel.c, and the theorems of ElfTheorems.v at that image on
    the machine of PagingTheorems.v. *)
From S2P Require Import Prelude Effects PmmInterface PagingInterface Paging PageTable PagingProofs.
From S2P Require Import PagingTheorems Pmm PmmInit Serial Elf UserMap ElfProofs ElfTheorems Kernel.

Lemma test_elf_loads i : loads test_elf i -> i = 0.
Proof.
  intros [Hi _]. assert (e_phnum (header test_elf) = 1) as E by (vm_compute; reflexivity). lia.
Qed.

Lemma test_elf_phdr : phdr test_elf 0 = Phdr 1 7 0x78 0x400000 0x400000 0x37 0x1000 0x1000.
Proof. vm_compute. reflexivity. Qed.

Lemma test_elf_ok : elf_ok test_elf.
Proof.
  split.
  - decide_done.
  - by split; [discriminate|].
  - by vm_compute.
  - by vm_compute.
  - by vm_compute.
  - intros i Hi. assert (e_phnum (header test_elf) = 1) as E by (vm_compute; reflexivity).
    assert (i = 0) as -> by lia. vm_compute. discriminate.
  - intros i Hl. rewrite (test_elf_loads i Hl), test_elf_phdr. split; eval_done.
  - intros i j va Hi Hj _ _. by rewrite (test_elf_loads i Hi), (test_elf_loads j Hj).
Qed.

#[local] Opaque low_pmm.

(** The machine after boot, loading into its own address space. *)
Lemma booted_ready st : booted st -> ready sample_layout 0x108000 st.
Proof.
  intros Hb. split.
  - destruct (bo_inv _ Hb) as [Hi _]. by rewrite sample_root in Hi.
  - intros q t Hq Ht. by apply (bo_low _ Hb q t).
  - rewrite (bo_frames _ Hb). intros f Hf. destruct low_pmm_ok as [_ Hl]. specialize (Hl f Hf). lia.
  - apply (bo_small _ Hb).
Qed.


(** Four bytes are no executable. *)
Lemma elf_load_refuses_witness :
  exists w, elf_load sample_layout (Some [0x7f; 69; 76; 70]) 4 0x108000 true low_machine =
    Done (-1, None) low_machine w.
Proof. apply elf_load_refuses. left. reflexivity. Defined.

(** The code of [test_elf] linked 16 bytes into its page: the first instruction
    is at the page's start instead. *)
Lemma elf_load_misplaces_unaligned_witness :
  exists (st : pg_state pmm_state) r st' w,
    load_page sample_layout test_elf 143 0x108000 (Phdr 1 7 0x78 0x400010 0x400010 3 0x100 0x1000)
      user_flags 0x400000 st = Done r st' w /\
    (r = Some (-1) \/ (user_byte 0x108000 st' 0x400000 0x90 /\ user_byte 0x108000 st' 0x400010 0)).
Proof.
  destruct machine_boots as (st & _ & Hb).
  destruct (elf_load_misplaces_unaligned sample_layout sample_layout_ok 0x108000 test_elf st
    (Phdr 1 7 0x78 0x400010 0x400010 3 0x100 0x1000) 0x400000 (eo_bytes _ test_elf_ok) (booted_ready st Hb))
    as (r & st' & w & E & Hr); [eval_done..|].
  exists st, r, st', w. split; [exact E|].
  destruct Hr as [[-> _]|(_ & H1 & H2)]; [by left|right].
  assert (datum test_elf (p_offset (Phdr 1 7 0x78 0x400010 0x400010 3 0x100 0x1000)) = 0x90) as Ed
    by (vm_compute; reflexivity).
  rewrite Ed in H1. split; [exact H1|]. apply H2. vm_compute. discriminate.
Defined.
