(* ===== verification/UserProcess.v ===== *)
(** * The first user process

    [kernel_main] builds an address space, loads the executable into it and
    gives it a stack; here the three components work on one machine.  The
    stack's mapping in kernel.c does not look at the results of
    [pmm_alloc_frame]; it agrees with the loader's as long as there are
    frames. *)
From S2P Require Import Prelude Effects PmmInterface PagingInterface Paging PageTable PagingProofs.
From S2P Require Import PagingSpec Serial Elf UserMap Accounts ElfProofs ElfTheorems Kernel ElfExamples.

Section stack.
Context {FA : Type} `{HFA : FrameAlloc FA} `{!FrameAllocOk FA}.
Context (L : layout) (HL : layout_ok L).
Implicit Types (st : pg_state FA) (va a : Z).

(** ** The stack is mapped as the loader maps a page *)

Lemma stack_link_run table idx rw st st' w :
  user_link L table idx rw st = Done true st' w -> stack_link L table idx rw st = Done tt st' w.
Proof.
  unfold user_link, stack_link. intros (tbl & s1 & w1 & w2 & E1 & E2 & ->)%bind_inv.
  rewrite (bind_done _ _ _ _ _ _ E1). destruct (tbl =? 0); [discriminate|].
  apply bind_inv in E2 as (p & s2 & w3 & w4 & E2 & E3 & ->). rewrite (bind_done _ _ _ _ _ _ E2).
  apply bind_inv in E3 as ([] & s3 & w5 & w6 & E3 & E4 & ->). rewrite (bind_done _ _ _ _ _ _ E3).
  apply bind_inv in E4 as ([] & s4 & w7 & w8 & E4 & E5 & ->). injection E5 as <- <-.
  rewrite E4. by rewrite app_nil_r.
Qed.

Lemma stack_descend_run table idx rw p st st' w :
  user_descend L table idx rw st = Done (Some p) st' w -> stack_descend L table idx rw st = Done p st' w.
Proof.
  unfold user_descend, stack_descend. intros (e & s1 & w1 & w2 & E1 & E2 & ->)%bind_inv.
  rewrite (bind_done _ _ _ _ _ _ E1).
  apply bind_inv in E2 as (b & s2 & w3 & w4 & E2 & E3 & ->). destruct b; [|discriminate].
  assert ((if present e then mret tt else stack_link L table idx rw) s1 = Done tt s2 w3) as Eb.
  { destruct (present e); [by injection E2 as <- <-|by apply stack_link_run]. }
  rewrite (bind_done _ _ _ _ _ _ Eb).
  apply bind_inv in E3 as (e' & s3 & w5 & w6 & E3 & E4 & ->). rewrite (bind_done _ _ _ _ _ _ E3).
  apply bind_inv in E4 as (q & s4 & w7 & w8 & E4 & E5 & ->). injection E5 as <- <- <-.
  rewrite E4. by rewrite app_nil_r.
Qed.

Lemma map_user_stack_run root frame st st' w :
  page_base root = root -> map_user_page L root stack_va frame user_flags st = Done true st' w ->
  map_user_stack L root frame st = Done tt st' w.
Proof.
  intros Hroot. unfold map_user_page, map_user_stack. rewrite Hroot.
  intros (p & s1 & w1 & w2 & E1 & E2 & ->)%bind_inv. rewrite (bind_done _ _ _ _ _ _ E1).
  apply bind_inv in E2 as ([p1|] & s2 & w3 & w4 & E2 & E3 & ->); [|discriminate].
  rewrite (bind_done _ _ _ _ _ _ (stack_descend_run _ _ _ _ _ _ _ E2)).
  apply bind_inv in E3 as ([p2|] & s3 & w5 & w6 & E3 & E4 & ->); [|discriminate].
  rewrite (bind_done _ _ _ _ _ _ (stack_descend_run _ _ _ _ _ _ _ E3)).
  apply bind_inv in E4 as ([p3|] & s4 & w7 & w8 & E4 & E5 & ->); [|discriminate].
  rewrite (bind_done _ _ _ _ _ _ (stack_descend_run _ _ _ _ _ _ _ E4)).
  apply bind_inv in E5 as ([] & s5 & w9 & w10 & E5 & E6 & ->). injection E6 as <- <-.
  rewrite <-!Z.lor_assoc. unfold user_flags in E5. rewrite <-Z.lor_assoc in E5. rewrite E5.
  by rewrite app_nil_r.
Qed.

(** A page without content. *)
Definition empty_page : elf64_phdr := Phdr PT_LOAD 0 0 stack_va stack_va 0 4096 4096.

Lemma copy_empty_page data size frame st : copy_page L data size empty_page stack_va frame st = Done tt st [].
Proof. reflexivity. Qed.

Lemma user_stack_run root st st' w :
  page_base root = root -> load_page L [] 0 root empty_page user_flags stack_va st = Done None st' w ->
  exists w', user_stack L root st = Done true st' w'.
Proof.
  intros Hroot. unfold load_page, user_stack. intros (a & s1 & w1 & w2 & E1 & E2 & ->)%bind_inv.
  rewrite (bind_done _ _ _ _ _ _ E1). destruct (a =? 0); [discriminate|].
  apply bind_inv in E2 as (p & s2 & w3 & w4 & E2 & E3 & ->). rewrite (bind_done _ _ _ _ _ _ E2).
  apply bind_inv in E3 as ([] & s3 & w5 & w6 & E3 & E4 & ->). rewrite (bind_done _ _ _ _ _ _ E3).
  rewrite (bind_step _ _ _ _ _ (copy_empty_page _ _ _ _)) in E4.
  apply bind_inv in E4 as ([] & s4 & w7 & w8 & E4 & E5 & ->); [|discriminate]. injection E5 as <- <-.
  rewrite (bind_done _ _ _ _ _ _ (map_user_stack_run root a s3 s4 w7 Hroot E4)). by eexists.
Qed.

Lemma user_stack_ok root st :
  ready L root st -> ~ short 4 st ->
  exists st' w, user_stack L root st = Done true st' w /\ advances L root (eq stack_va) st st' /\
    backed root st' stack_va (fun _ => 0) /\ paged root st st' stack_va.
Proof.
  intros Hr Hsh. assert (0 <= stack_va < USER_ADDR_LIMIT) as Hu by done.
  destruct (load_page_ok L HL root [] st empty_page stack_va (fun _ => 0) Hr (user_half _ Hu)) as (r & st' & w & E & Ha & _ & Hres).
  { intros s f Hrs Hal Hlow Hfr Hz. exists (pmem s). rewrite set_pmem_id. split; [apply copy_empty_page|done]. }
  change (Z.of_nat (length (@nil Z))) with 0 in E. rewrite segment_flags_user in E.
  destruct r as [r|]; [by destruct Hres as (_ & _ & _ & ?)|].
  destruct (user_stack_run root st st' w) as [w' E']; [|done|by exists st', w'].
  assert (aligned root) as [Hrf Hra] by apply (rd_inv _ _ _ Hr). rewrite page_base_eq by done. divlia.
Qed.
End stack.

(** ** Address space, executable and stack *)
Section process.
Context {FA : Type} `{HFA : FrameAlloc FA} `{!FrameAllocOk FA}.
Context (L : layout) (HL : layout_ok L).
Local Abbreviation kroot := (phys (pml4_new L)).
Implicit Types (st : pg_state FA) (va a : Z).

(** The kernel's address space after boot: its tables and the free frames are
    below the scratch page. *)
Record kernel_ready st : Prop := {
  kr_inv : kernel_inv L st;
  kr_cr3 : page_base (cr3 st) = kroot;
  kr_tables : forall q t, valid_path q -> table_at (pmem st) kroot q = Some t -> t < 0x1FF000;
  kr_frames : forall f, f ∈ fa_avail (frames st) -> f < 511;
}.

(** A new address space is one the loader can work on: its root is one frame of
    the allocator, and its user half is empty. *)
Record created st r st' : Prop := {
  cd_ready : ready L r st';
  cd_kernel : forall va, ~ on_scratch_page va -> pml4_idx va = 511 ->
    walk (pmem st') r va = walk (pmem st) kroot va;
  cd_empty : forall va, pml4_idx va <> 511 -> walk (pmem st') r va = None;
  cd_tables : forall q t, valid_path q -> table_at (pmem st') r q = Some t ->
    (q = [] /\ t = r) \/ head q = Some 511;
  cd_root : exists f, f ∈ fa_avail (frames st) /\ r = f * PMM_FRAME_SIZE /\
    fa_avail (frames st') = fa_avail (frames st) ∖ {[f]};
  cd_owned : forall f, fa_owned (frames st') f <-> fa_owned (frames st) f;
  cd_inv : kernel_inv L st' /\ cr3 st' = cr3 st;
  cd_kept : entries_kept L (pmem st) (pmem st');
  cd_share : entry (pmem st') r 511 = entry (pmem st') kroot 511;
}.

Lemma created_ready st :
  kernel_ready st -> fa_avail (frames st) <> ∅ ->
  exists r st', paging_create_user_space L st = Done r st' [] /\ r <> 0 /\ created st r st' /\ spent 1 st st'.
Proof.
  intros [Hk Hc Ht Hf] Hne. destruct (create_user_space_tables L HL st Hk Hc) as (r & st' & E & Hki & Hcr & _ & Hr).
  exists r, st'. split; [done|]. destruct (decide (r = 0)) as [->|Hr0]; [done|].
  destruct Hr as (Hi & (f & Hin & Hrf & Hav & Hown) & Hw & Htab & Hkept & Hshare). pose proof (Hf f Hin) as Hf511.
  split_and!; [done|split|].
  - split; [done| | |].
    + intros q t Hq Hqt. destruct (Htab q t Hq Hqt) as [[_ ->]|[_ Hk']]; [unfold PMM_FRAME_SIZE in Hrf; lia|by apply (Ht q)].
    + intros g. rewrite Hav. intros Hg. apply Hf. clear -Hg. set_solver.
    + intros i j k t Hi511 Hv Hij.
      destruct (Htab [i; j] t (valid_path_prefix [i; j] [k] Hv) Hij) as [[? _]|[[= ->] _]]; done.
  - intros va Hs Hva. rewrite Hw by done. by rewrite decide_True.
  - intros va Hva. rewrite Hw, decide_False; [done|done|]. intros [Hp _]. by injection Hp.
  - intros q t Hq Hqt. destruct (Htab q t Hq Hqt) as [?|[? _]]; tauto.
  - by exists f.
  - done.
  - done.
  - done.
  - done.
  - unfold spent. rewrite Hav, size_difference, size_singleton by (clear -Hin; set_solver). lia.
Qed.

(** The loader's work survives the mapping of the stack. *)
Lemma placed_then_stack root data st0 st1 st2 i a :
  elf_ok data -> placed L root data (e_phnum (header data)) st0 st1 -> advances L root (eq stack_va) st1 st2 ->
  loads data i -> ~ in_segment (phdr data i) stack_va ->
  p_vaddr (phdr data i) <= a < p_vaddr (phdr data i) + p_memsz (phdr data i) ->
  user_byte root st2 a (image data (phdr data i) a).
Proof.
  intros Helf (_ & _ & _ & Hb) Ha Hl Hno Hin. pose proof (eo_segments data Helf i Hl) as Hseg.
  pose proof Hseg as [[Hv0 Hva] _ _ _].
  assert (in_segment (phdr data i) (a / 4096 * 4096)) as Hs by (split; [divlia|divlia]).
  pose proof (in_segment_user _ _ Hseg Hs) as Hu.
  apply (backed_byte root st2 (a / 4096 * 4096)); [|divlia..].
  apply (backed_advances L root (eq stack_va) st1); [by apply (Hb i); [apply Hl|..]|done|by apply user_page|].
  intros va' <- Hsame. apply Hno.
  by rewrite (pages_differ stack_va (a / 4096 * 4096)) by (done || apply Hs).
Qed.

Lemma test_elf_frames : frames_for test_elf (Z.to_nat (e_phnum (header test_elf))) = 4%nat.
Proof. vm_compute. reflexivity. Qed.

End process.
