(* ===== verification/AddressSpace.v ===== *)
(** * The life of a user address space

    [paging_create_user_space], the mapping of user pages by the ELF loader
    and [kernel_main], and [paging_free_user_space], one after the other: what
    the first takes and the second spends, the third gives back, and the
    kernel's own address space comes through unchanged. *)
From S2P Require Import Prelude Effects PmmInterface PagingInterface Paging PageTable PagingProofs WalkProofs.
From S2P Require Import FreeSpace PagingSpec Serial Elf UserMap Accounts ElfProofs ElfTheorems Kernel UserProcess.

Section lifetime.
Context {FA : Type} `{HFA : FrameAlloc FA} `{!FrameAllocOk FA}.
Context (L : layout) (HL : layout_ok L).
Local Abbreviation kroot := (phys (pml4_new L)).
Implicit Types (st : pg_state FA) (va a f r t : Z) (P : Z -> Prop).

(** ** The kernel's space *)

(** The window is a page table: its entries lead to no table. *)
Lemma kept_tables m m' : space L m kroot -> entries_kept L m m' -> same_tables m m' kroot.
Proof.
  intros Hs Hk q Hq. apply table_at_agree. intros q' i q'' t -> Ht.
  apply valid_path_split in Hq as Hsp. destruct Hsp as [Hq' Hi]. apply (Hk q'); [done..|]. intros [-> _].
  pose proof (tree_inj _ _ (sp_tree _ _ _ Hs) _ _ _ Hq' valid_window Ht (sp_window _ _ _ Hs)) as ->.
  destruct Hq as [_ Hlen]. rewrite length_app in Hlen. simpl in Hlen. lia.
Qed.

(** All entries of the kernel's tables are as before. *)
Definition kernel_same (m m' : gmap Z Z) : Prop :=
  forall q t i, valid_path q -> table_at m kroot q = Some t -> valid_idx i -> entry m' t i = entry m t i.

Lemma kernel_same_tables m m' : kernel_same m m' -> same_tables m m' kroot.
Proof.
  intros Hk q Hq. apply table_at_agree. intros q' i q'' t -> Ht.
  apply valid_path_split in Hq as [Hq' Hi]. by apply (Hk q').
Qed.

Lemma kernel_same_walk m m' va : kernel_same m m' -> walk m' kroot va = walk m kroot va.
Proof.
  intros Hk. unfold walk. rewrite (kernel_same_tables m m' Hk) by apply valid_va_path.
  destruct (table_at m kroot (va_path va)) as [t|] eqn:Ht; [|done]. simpl.
  rewrite (Hk (va_path va)); [done|apply valid_va_path|done|apply valid_pt_idx].
Qed.

Lemma kernel_same_space m m' : space L m kroot -> kernel_same m m' -> space L m' kroot.
Proof.
  intros Hs Hk. pose proof (kernel_same_tables m m' Hk) as Ht. split.
  - eapply same_tables_tree; [done|apply Hs].
  - rewrite Ht by apply valid_window. apply Hs.
  - intros i Hi. rewrite (Hk window_path); [by apply Hs|apply valid_window|apply Hs|unfold valid_idx; lia].
  - eapply fresh_same_tables; [done|apply Hs].
Qed.

(** Frames that were free when the tables were as they are now may be free
    again. *)
Lemma kernel_ready_tables st st' :
  kernel_ready L st -> space L (pmem st') kroot -> same_tables (pmem st) (pmem st') kroot ->
  fa_inv (frames st') -> fa_avail (frames st') ⊆ fa_avail (frames st) ->
  cr3 st' = cr3 st -> new_pml4 st' = new_pml4 st -> kernel_ready L st'.
Proof.
  intros [[Hi Hn] Hc Ht Hf] Hs Hsame Ha Hav Hc' Hn'. split.
  - split; [|congruence]. split; [done..|]. intros f Hin.
    destruct (pi_fresh _ _ _ Hi f) as [Hfr Hne]; [by apply Hav|]. split; [|done].
    by eapply fresh_same_tables.
  - congruence.
  - intros q t Hq Hqt. rewrite Hsame in Hqt by done. by apply (Ht q).
  - intros f Hin. by apply Hf, Hav.
Qed.

(** ** From one state to the next *)

Section built.
Context st r st1 P st2.
Context (Hk : kernel_ready L st) (Hc : created L st r st1) (Ha : advances L r P st1 st2).

Lemma created_tables : same_tables (pmem st) (pmem st1) kroot.
Proof. apply kept_tables; [apply (kr_inv _ _ Hk)|apply Hc]. Qed.

Lemma created_avail f : f ∈ fa_avail (frames st1) -> f ∈ fa_avail (frames st).
Proof. destruct (cd_root _ _ _ _ Hc) as (g & _ & _ & ->). clear. set_solver. Qed.

Lemma shared_tables q : table_at (pmem st1) r (511 :: q) = table_at (pmem st1) kroot (511 :: q).
Proof. simpl. by rewrite (cd_share _ _ _ _ Hc). Qed.

Lemma created_root : exists f, f ∈ fa_avail (frames st) /\ r = f * PMM_FRAME_SIZE /\ fresh (pmem st1) kroot r.
Proof.
  destruct (cd_root _ _ _ _ Hc) as (f & Hf & Hr & _). exists f. split_and!; [done..|].
  eapply fresh_same_tables; [apply created_tables|]. rewrite Hr. by apply (pi_fresh _ _ _ (ki_inv _ _ (kr_inv _ _ Hk))).
Qed.

(** A word of the kernel's tables is no word of the user's. *)
Lemma kernel_word q t a :
  valid_path q -> table_at (pmem st1) kroot q = Some t -> a / 4096 = t / 4096 -> pmem st2 !! a = pmem st1 !! a.
Proof.
  intros Hq Ht Hat. destruct (cd_inv _ _ _ _ Hc) as [[Hi1 _] _]. pose proof (pi_space _ _ _ Hi1) as Hs1.
  pose proof (table_aligned _ _ _ _ (tree_root _ _ (sp_tree _ _ _ Hs1)) Ht) as [_ Hta].
  destruct (decide (head q = Some 511)) as [Hh|Hh].
  - destruct q as [|j q]; [done|]. injection Hh as ->. apply (ad_kernel _ _ _ _ _ Ha q t); [done| |done].
    by rewrite shared_tables.
  - apply (ad_words _ _ _ _ _ Ha). split.
    + intros f Hf Haf. destruct (pi_fresh _ _ _ Hi1 f Hf) as [Hfr _]. apply (Hfr q Hq). rewrite Ht.
      f_equal. unfold PMM_FRAME_SIZE. divlia.
    + intros q2 t2 Hq2 Ht2 Ha2. pose proof (rd_inv _ _ _ (cd_ready _ _ _ _ Hc)) as Hir.
      assert (aligned r) as Hal by apply Hir.
      pose proof (table_aligned _ _ _ _ Hal Ht2) as [_ Ht2a]. assert (t2 = t) as -> by divlia.
      destruct (cd_tables _ _ _ _ Hc q2 t Hq2 Ht2) as [[_ ->]|Hh2].
      * destruct created_root as (f & _ & _ & Hfr). by apply (Hfr q).
      * destruct q2 as [|j q2]; [done|]. injection Hh2 as ->. rewrite shared_tables in Ht2.
        pose proof (tree_inj _ _ (sp_tree _ _ _ Hs1) _ _ _ Hq Hq2 Ht Ht2) as ->. done.
Qed.

Lemma built_kernel : kernel_same (pmem st1) (pmem st2).
Proof.
  intros q t i Hq Ht Hi. destruct (cd_inv _ _ _ _ Hc) as [[Hi1 _] _]. pose proof (pi_space _ _ _ Hi1) as Hs1.
  pose proof (table_aligned _ _ _ _ (tree_root _ _ (sp_tree _ _ _ Hs1)) Ht) as [_ Hta].
  unfold entry, rdm. rewrite (kernel_word q t); [done..|]. unfold valid_idx in Hi. divlia.
Qed.

(** ** The frames of the space *)
Context (lost : option Z) (Hac : accounts r lost st1 st2).

Lemma space_frame_taken a :
  space_frame (pmem st2) r a -> exists f, f ∈ fa_avail (frames st) /\ a = f * PMM_FRAME_SIZE.
Proof.
  destruct 1 as [|i q t Hi Hq Ht|va e Hva Hw].
  - destruct created_root as (f & Hf & Hr & _). by exists f.
  - destruct (ad_new _ _ _ _ _ Ha _ _ Hq Ht) as [Ht1|(f & Hf & ->)].
    + destruct (cd_tables _ _ _ _ Hc _ _ Hq Ht1) as [[? _]|[= ?]]; done.
    + exists f. split; [by apply created_avail|done].
  - destruct (ac_leaves _ _ _ _ Hac va e Hva Hw) as [Hw1|(f & Hf & ->)].
    + by rewrite (cd_empty _ _ _ _ Hc) in Hw1.
    + exists f. split; [by apply created_avail|done].
Qed.

Lemma built_freeable : freeable L st2 r.
Proof.
  pose proof (ad_ready _ _ _ _ _ Ha) as [Hi Ht Hf Hsm].
  pose proof (pi_alloc _ _ _ (ki_inv _ _ (kr_inv _ _ Hk))) as Hal. split.
  - apply Hi.
  - apply Hi.
  - apply (Ht []); [|done]. split; [constructor|simpl; lia].
  - intros i q t _. apply Ht.
  - done.
  - intros a Hsf. destruct (space_frame_taken a Hsf) as (f & Hin & ->).
    pose proof (fa_avail_pos _ _ Hal Hin) as Hpos. unfold PMM_FRAME_SIZE. split; [lia|].
    rewrite Z.div_mul by done. apply (ad_owned _ _ _ _ _ Ha), (cd_owned _ _ _ _ Hc). by apply fa_avail_owned.
Qed.

(** Every frame taken since is one of the space, or lost, and only these are. *)
Lemma built_frames f :
  f ∈ fa_avail (frames st2) \/ space_frame (pmem st2) r (f * PMM_FRAME_SIZE) \/ lost = Some f <->
  f ∈ fa_avail (frames st).
Proof.
  split.
  - intros [Hf|[Hsf|Hl]]; [by apply created_avail, (ad_avail _ _ _ _ _ Ha)| |].
    2: { by apply created_avail, (ac_lost _ _ _ _ Hac). }
    destruct (space_frame_taken _ Hsf) as (g & Hg & Heq). unfold PMM_FRAME_SIZE in Heq.
    by replace f with g by lia.
  - intros Hf. destruct (cd_root _ _ _ _ Hc) as (g & _ & Hr & Hav).
    destruct (decide (f = g)) as [->|Hne]; [right; left; rewrite <-Hr; constructor|].
    assert (f ∈ fa_avail (frames st1)) as Hf1 by (rewrite Hav; clear -Hf Hne; set_solver).
    destruct (ac_no_leak _ _ _ _ Hac f Hf1) as [?|[(q & Hq & Hh & Ht)|[(va & e & Hva & Hw & <-)|?]]];
      [by left|right; left..|by right; right].
    + destruct q as [|i q]; [injection Ht as <-; constructor|].
      apply (sf_table _ _ i q); [intros ->; by apply Hh|done..].
    + by apply (sf_page _ _ va).
Qed.

(** Freeing the space ends where its life began, a lost frame apart. *)
Lemma built_then_freed :
  exists st3, paging_free_user_space L r st2 = Done tt st3 [] /\ kernel_ready L st3 /\
    (forall f, f ∈ fa_avail (frames st) <-> f ∈ fa_avail (frames st3) \/ lost = Some f) /\
    forall va, ~ on_scratch_page va -> walk (pmem st3) kroot va = walk (pmem st) kroot va.
Proof.
  destruct (free_user_space_aux L st2 r built_freeable) as (st3 & E & Hm & Hc3 & Hn3 & Hi3 & _ & Hav3).
  exists st3. split; [done|].
  assert (forall f, f ∈ fa_avail (frames st) <-> f ∈ fa_avail (frames st3) \/ lost = Some f) as Hav.
  { intros f. rewrite <-built_frames, Hav3. tauto. }
  pose proof (ad_regs _ _ _ _ _ Ha) as [Hc2 Hn2]. destruct (cd_inv _ _ _ _ Hc) as [[Hi1 Hn1] Hc1].
  split; [|split; [done|]].
  - apply (kernel_ready_tables st); [done| | |done| |congruence|].
    + rewrite Hm. apply (kernel_same_space (pmem st1)); [apply Hi1|apply built_kernel].
    + intros q Hq. rewrite Hm, (kernel_same_tables _ _ built_kernel) by done. by apply created_tables.
    + intros f Hf. apply Hav. by left.
    + rewrite Hn3, Hn2, Hn1. symmetry. apply (kr_inv _ _ Hk).
  - intros va Hva. rewrite Hm, (kernel_same_walk _ _ _ built_kernel).
    unfold walk. rewrite created_tables by apply valid_va_path.
    destruct (table_at (pmem st) kroot (va_path va)) as [t|] eqn:Ht; [|done]. simpl.
    rewrite (cd_kept _ _ _ _ Hc (va_path va)); [done|apply valid_va_path|done|apply valid_pt_idx|].
    intros [-> H511]. apply Hva. split; [|done].
    pose proof (kr_inv _ _ Hk) as [Hi _]. pose proof (pi_space _ _ _ Hi) as Hs.
    by apply (tree_inj _ _ (sp_tree _ _ _ Hs) _ _ _ (valid_va_path va) valid_window Ht (sp_window _ _ _ Hs)).
Qed.
End built.

(** ** A process *)

Context (data : list Z) (Helf : elf_ok data).
Local Abbreviation frames_of_segments := (frames_for data (Z.to_nat (e_phnum (header data)))).

Lemma loaded_page_user va : loaded_page data va -> 0 <= va < USER_ADDR_LIMIT.
Proof. intros (i & Hl & Hin). by apply (in_segment_user (phdr data i)); [apply Helf|]. Qed.

Lemma created_unmapped r st st1 va :
  created L st r st1 -> 0 <= va < USER_ADDR_LIMIT -> walk (pmem st1) r va = None.
Proof. intros Hc Hva. by apply (cd_empty _ _ _ _ Hc), user_half. Qed.

(** The executable and the stack, in a space just created: every frame is
    accounted for. *)
Lemma populate r st st1 :
  created L st r st1 -> (forall va, loaded_page data va -> va <> stack_va) ->
  (frames_of_segments + 4 <= size (fa_avail (frames st1)))%nat ->
  exists st2 w2 st3 w3,
    elf_load L (Some data) (Z.of_nat (length data)) r true st1 = Done (0, Some (e_entry (header data))) st2 w2 /\
    user_stack L r st2 = Done true st3 w3 /\
    advances L r (fun _ => True) st1 st3 /\ accounts r None st1 st3.
Proof.
  intros Hc Hst Hn. pose proof (cd_ready _ _ _ _ Hc) as Hr1.
  destruct (elf_load_aux L HL r data Helf st1 Hr1) as (rc & st2 & w2 & E2 & Ha2 & Hres).
  destruct Hres as [[-> Hp]|(_ & _ & _ & Hsh)]; [|unfold short in Hsh; lia].
  destruct Hp as (_ & Hac2 & Hsp2 & _).
  destruct (user_stack_ok L HL r st2 (ad_ready _ _ _ _ _ Ha2)) as (st3 & w3 & E3 & Ha3 & _ & Hpg).
  { unfold spent, short in *. lia. }
  assert (0 <= stack_va < USER_ADDR_LIMIT) as Hsu by done.
  exists st2, w2, st3, w3. split_and!; [exact E2|exact E3| |].
  - apply (advances_trans L r _ st1 st2); by eapply advances_weaken; [|done].
  - apply (accounts_trans L r None (loaded_page data) (eq stack_va) st1 st2 st3); [done..| | |].
    + intros va <-. rewrite (ad_walk _ _ _ _ _ Ha2); [by apply (created_unmapped r st)|by apply user_page|].
      intros va Hva Hsame. apply (Hst va Hva). pose proof Hva as (i & _ & Hal & _).
      apply (pages_differ va stack_va); [by apply loaded_page_user|done..].
    + apply Hac2. intros va Hva. by apply (created_unmapped r st), loaded_page_user.
    + by apply (paged_accounts L r st2 st3 stack_va); [apply user_half|..].
Qed.


End lifetime.
