(* ===== verification/KernelExamples.v ===== *)
(** * The kernel at work on concrete machines

    The theorems of Echo.v, UserProcess.v, FreeSpace.v and AddressSpace.v at the machines of
    PagingTheorems.v and TaskExamples.v. *)
From S2P Require Import Prelude Effects PmmInterface PagingInterface Paging PageTable PagingProofs PagingTheorems.
From S2P Require Import Pmm PmmInit Gdt Heap HeapBacking HeapTheorems KernelMem Task TaskExamples.
From S2P Require Import Ports Serial Vga Terminal Log Keyboard Isr Elf UserMap ElfProofs ElfTheorems ElfExamples.
From S2P Require Import FreeSpace Accounts Kernel Echo UserProcess AddressSpace.

#[local] Opaque low_pmm.

Lemma booted_kernel_ready st : booted st -> kernel_ready sample_layout st.
Proof.
  intros Hb. destruct (booted_ready st Hb) as [_ Ht Hf _]. split; [apply Hb| | |exact Hf].
  - rewrite (bo_cr3 _ Hb). vm_compute. reflexivity.
  - rewrite sample_root. exact Ht.
Qed.

Lemma low_pmm_room : (9 <= size (free_set low_pmm))%nat.
Proof. decide_done. Qed.


(** The embedded executable has one page, at 0x400000. *)
Lemma test_elf_off_stack va : loaded_page test_elf va -> va <> stack_va.
Proof.
  intros (i & Hl & _ & Hin) ->. rewrite (test_elf_loads i Hl), test_elf_phdr in Hin.
  unfold stack_va in Hin. simpl in Hin. lia.
Qed.



(** A space with nothing in it: its root comes back. *)
Lemma paging_free_user_space_correct_witness :
  exists (st : pg_state pmm_state) r st', paging_free_user_space sample_layout r st = Done tt st' [] /\
    r / 4096 ∈ fa_avail (frames st').
Proof.
  destruct machine_boots as (st & _ & Hb). pose proof (booted_kernel_ready st Hb) as Hk.
  destruct (created_ready sample_layout sample_layout_ok st Hk) as (r & st1 & _ & _ & Hc & _).
  { rewrite (bo_frames _ Hb). intros Hemp. pose proof low_pmm_room as Hn. cbn [fa_avail pmm_FrameAlloc] in Hemp.
    rewrite Hemp, size_empty in Hn. lia. }
  pose proof (advances_refl sample_layout r (fun _ => False) st1 (cd_ready _ _ _ _ Hc)) as Ha.
  destruct (paging_free_user_space_correct sample_layout st1 r
    (built_freeable sample_layout st r st1 _ st1 Hk Hc Ha None (accounts_refl r st1))) as (st2 & E & _ & _ & _ & Hav).
  exists st1, r, st2. split; [exact E|]. apply Hav. right.
  destruct (created_root sample_layout st r st1 Hk Hc) as (f & _ & Hr & _).
  assert (r / 4096 * PMM_FRAME_SIZE = r) as ->; [|constructor].
  rewrite Hr. unfold PMM_FRAME_SIZE. by rewrite Z.div_mul by discriminate.
Defined.

(** A transmitter that is always empty and a keyboard that repeats one key. *)
Definition held_key : devices := fun _ port => if port =? 0x3FD then 0x60 else if port =? 0x60 then 0x1E else 0.

Lemma held_key_drains : drains held_key.
Proof. intros t. by exists 0%nat. Qed.

Definition sample_linked : linked :=
  Linked sample_kernel_end 0 0 0 [] [] 0 0 0 sample_layout sample_sym.

Definition sample_kernel : kernel :=
  Kern (Machine [] kbd_init 0 ([Some timer_handler; Some keyboard_handler] ++ replicate 14 None) sample_tasks)
    (vga_reset (replicate 2000 0)) [] (TablePtr 0 0) (TablePtr 0 0) [] ∅.

Lemma sample_sees : sees sample_kernel (Keys [] false false) (Term (replicate 25 (replicate 80 0)) 0 0).
Proof. split; [apply init_shows|apply reset_displays|apply reset_wf|reflexivity]. Qed.

