(* ===== verification/KernelBoot.v ===== *)
(** * From power-on to the prompt

    [kernel_main] executed on a machine with 4 MiB of RAM, for an arbitrary
    typist at the keyboard: every component is initialised, the first user
    process is created, and the echo loop serves the keys. *)
From S2P Require Import Prelude Effects PmmInterface PagingInterface Paging PagingTheorems.
From S2P Require Import Pmm PmmInit Gdt Heap HeapBacking KernelMem Task TaskSwitch TaskExamples.
From S2P Require Import Ports Serial Vga Terminal Log Keyboard Isr Idt Kernel Echo KernelExamples.

(** ** The machine *)

(** RAM and the kernel's variables as the linker leaves them; the boot task
    runs on the stack of boot.s. *)
Definition powered_on : kernel :=
  Kern (Machine [] kbd_init 0 (replicate 16 None)
     (Tasks (replicate 32 zero_task) 1 None None None
       (Cpu 0xFFFFFFFF80100000 boot_top 0x2 boot_top 1 2 3 4 5)
       (GdtState [] zero_tss (TablePtr 0 0) (SegRegs (TablePtr 0 0) 0 0 0 0 0 0 0))
       (Heap 0 0 0 0 (fill ∅ boot_bottom (replicate 16 0)) (Pg ∅ 0 0 (pmm_boot ∅)))))
    (vga_reset (replicate 2000 0)) (replicate 256 zero_entry) (TablePtr 0 0) (TablePtr 0 0) [] ∅.

Definition boot_linked : linked :=
  Linked sample_kernel_end 0xFFFFFFFF80109000 0xFFFFFFFF8010A000 0xFFFFFFFF8010B000
    (map (fun i => 0xFFFFFFFF80101000 + 16 * i) (seqZ 0 32))
    (map (fun i => 0xFFFFFFFF80102000 + 16 * i) (seqZ 0 16))
    0xFFFFFFFF80103000 0xFFFFFFFF80104000 0xFFFFFFFF80105000 sample_layout sample_sym.

(** The serial line is always ready; the keyboard answers as its user types. *)
Definition typist_at (typist : trace -> Z) : devices := fun t port =>
  if port =? 0x3FD then 0x60 else if port =? KBD_DATA_PORT then typist t else 0.

Lemma typist_drains typist : drains (typist_at typist).
Proof. intros t. by exists 0%nat. Qed.

(** The screen as rows of cells. *)
Fixpoint cut (n : nat) (l : list Z) : list (list Z) :=
  match n with O => [] | S n => take 80 l :: cut n (drop 80 l) end.
Definition term_of (v : vga) : term := Term (cut 25 (cells v)) (vga_cursor_x v) (vga_cursor_y v).

Lemma cut_concat n l : length l = (n * 80)%nat ->
  concat (cut n l) = l /\ length (cut n l) = n /\ Forall (fun r => length r = 80%nat) (cut n l).
Proof.
  revert l. induction n as [|n IH]; intros l Hl; simpl.
  - apply length_zero_iff_nil in Hl as ->. by repeat constructor.
  - destruct (IH (drop 80 l)) as (H1 & H2 & H3); [rewrite length_drop; lia|].
    rewrite H1, take_drop, H2. split_and!; [done..|]. constructor; [rewrite length_take; lia|done].
Qed.

Lemma term_of_ok v :
  length (cells v) = 2000%nat -> 0 <= vga_cursor_x v <= 248 -> 0 <= vga_cursor_y v < 25 ->
  displays v (term_of v) /\ term_wf (term_of v).
Proof.
  intros Hl Hx Hy. destruct (cut_concat 25 (cells v) Hl) as (H1 & H2 & H3).
  split; [by repeat split|]. split; [exact H2|]. split; [exact H3|]. simpl. lia.
Qed.

Section boot.
Context (typist : trace -> Z).
Local Abbreviation hw := (typist_at typist).
Local Abbreviation L := (tables_layout boot_linked).

(** [kernel_main] before its loop. *)
Definition before_loop : M kernel unit :=
  heap_ok ← boot hw boot_linked sample_mem 0x9000;
  create_user_process hw boot_linked;;
  banner hw heap_ok;;
  print prompt.

Definition prompting : kernel := default powered_on (state_of (before_loop powered_on)).

Lemma before_loop_runs : before_loop powered_on = Done tt prompting [].
Proof.
  assert (match before_loop powered_on with Done _ _ w => w = [] | Stop _ _ => False end) as H
    by (vm_compute; reflexivity).
  unfold prompting. destruct (before_loop powered_on) as [[] k w|]; [by rewrite H|done].
Qed.

Lemma prompting_keys : m_kbd (k_machine prompting) = kbd_init.
Proof. vm_compute. reflexivity. Qed.

Lemma prompting_handlers : irq_handlers (k_machine prompting) =
  [Some timer_handler; Some keyboard_handler] ++ replicate 14 None.
Proof. vm_compute. reflexivity. Qed.

Lemma prompting_screen :
  length (cells (k_vga prompting)) = 2000%nat /\ vga_cursor_x (k_vga prompting) = 7 /\
  vga_cursor_y (k_vga prompting) = 19.
Proof. vm_compute. auto. Qed.

Lemma prompting_sees : sees prompting (Keys [] false false) (term_of (k_vga prompting)).
Proof.
  pose proof prompting_screen as (Hl & Hx & Hy). pose proof prompting_keys as Hk. pose proof prompting_handlers as Hh.
  revert Hl Hx Hy Hk Hh. generalize prompting. intros k Hl Hx Hy Hk Hh.
  destruct (term_of_ok (k_vga k) Hl) as [Hd Hw]; [lia..|].
  split; [rewrite Hk; apply init_shows|done|done|by rewrite Hh].
Qed.

(** What stands on the screen, and the queue of tasks. *)
Definition screen_text (v : vga) (r : nat) (s : string) : Prop :=
  map (fun c => wrap 8 c) (take (String.length s) (drop (80 * r) (cells v))) = chars s.

Definition ready_queue (st : tasks kernel_heap) : list nat :=
  (fix follow (n : nat) (t : option nat) {struct n} : list nat := match n, t with
    | S n, Some t => t :: follow n (next (tcb st t))
    | _, _ => []
    end) 32%nat (ready_head st).

(** The user process as [create_user_process] leaves it. *)
Definition user_task_ready (st : tasks kernel_heap) (t : nat) : Prop :=
  state (tcb st t) = TASK_READY /\ Task.ring (tcb st t) = 3 /\
  user_rip (tcb st t) = 0x400000 /\ user_rsp (tcb st t) = 0x80001000.

Lemma prompting_state :
  screen_text (k_vga prompting) 12 "Heap:      Ready" /\ screen_text (k_vga prompting) 19 "Prism> " /\
  ready_queue (m_tasks (k_machine prompting)) = [1; 2; 3; 4]%nat /\
  current_task (m_tasks (k_machine prompting)) = Some 0%nat /\
  user_task_ready (m_tasks (k_machine prompting)) 4.
Proof. vm_compute. auto 10. Qed.

(** The UART is set up, and the last lines on the wire. *)
Lemma prompting_wire :
  exists text, uart_after (Uart true 0 []) (m_io (k_machine prompting)) =
    Uart false 3 (text ++ line ("[PRISM] Done." +:+ NL)).
Proof.
  set (l := line ("[PRISM] Done." +:+ NL)). set (all := sent (uart_after (Uart true 0 []) (m_io (k_machine prompting)))).
  exists (take (length all - length l) all). vm_compute. reflexivity.
Qed.
End boot.

(** [kernel_main] is the part before the loop and the loop. *)
Lemma kernel_main_split typist hlt n k k' :
  let hw := typist_at typist in
  before_loop typist k = Done tt k' [] ->
  kernel_main hw boot_linked hlt n sample_mem 0x9000 k = echo_loop hw hlt n k'.
Proof.
  intros hw. unfold before_loop, kernel_main. intros (ok & k1 & w1 & w2 & E1 & E2 & Hw)%bind_inv.
  apply bind_inv in E2 as ([] & k2 & w3 & w4 & E2 & E3 & ->).
  apply bind_inv in E3 as ([] & k3 & w5 & w6 & E3 & E4 & ->).
  symmetry in Hw. apply app_eq_nil in Hw as [-> [-> [-> ->]%app_eq_nil]%app_eq_nil].
  by rewrite (bind_step _ _ _ _ _ E1), (bind_step _ _ _ _ _ E2), (bind_step _ _ _ _ _ E3), (bind_step _ _ _ _ _ E4).
Qed.


